(* ===== verification/_CoqProject ===== *)
-Q . S2P
Prelude.v
GoStrings.v
GoHeap.v
Types.v
K8s.v
ModelTypes.v
Registry.v
ISVCRegistry.v
PredictorController.v
PredictorControllerProps.v
Config.v
ConfigProps.v
ConfigKeys.v
MMService.v
Resolver.v
RangeWatcher.v
Events.v
EventsProps.v
Validator.v
Endpoint.v
Autoscaler.v
AutoscalerProps.v
RuntimeScaling.v
RuntimePVCs.v
RuntimeRequests.v
Manifests.v
Deployment.v
DeploymentProps.v
RuntimeController.v
RuntimeControllerProps.v
ServiceController.v
ServiceControllerProps.v
CachedSource.v
CachedSourceInv.v
CachedSourceProps.v
WatchSource.v
WatchSourceProps.v
Startup.v
StartupProps.v
Watches.v
CachedRegistry.v
WatchLoop.v
System.v
Connections.v
Dispatch.v
Overlay.v
DeepCopy.v
Mesh.v
MeshProgress.v
RuntimeWorld.v
RuntimeProgress.v
FVT.v
FVTAcceptance.v
FVTSession.v
FVTClient.v
FVTInference.v
