(* ===== verification/Prelude.v ===== *)
(** * A verification library for the ModelMesh Serving controller

    ModelMesh Serving is a Kubernetes controller. Users describe models as Predictors
    (or KServe InferenceServices) and model servers as ServingRuntimes; the controller
    runs one deployment per runtime, in which a model-mesh container places and loads
    the models, registers each Predictor with model-mesh as a "vmodel", and keeps the
    Predictor's status in step with it. This library translates the Go code of the
    controller into Rocq definitions, function by function, and proves what makes the
    parts correct.

    ** The parts of the program and their models

    - Predictors and where they come from. [Types] has the API types
      (apis/serving/v1alpha1/predictor_types.go) and [DeepCopy] their generated copy
      functions (zz_generated.deepcopy.go) on a memory of typed cells. [Registry] and [ISVCRegistry] model
      the two registries (pkg/predictor_source/predictor_registry.go,
      inferenceservice_registry.go) behind the interface of predictor_source.go: a
      record of operations, whose laws are the class [RegistryLaws] against which the
      clients are proved. [CachedSource], [CachedSourceInv] and [CachedSourceProps]
      model the cache fed by a stream of events (cached_predictor_source.go, heap.go):
      Predictors are shared objects, so the state has a memory and the cache and the
      deletion queue hold addresses; the goroutine and concurrent status updates are
      the relation [CachedSourceInv.step]. [WatchSource] and [WatchSourceProps] model
      the two ways to feed it (watchrefresh_predictor_source.go,
      stream_predictor_source.go) and [WatchLoop] the loop of the goroutine that watches,
      refreshes and watches again, as a step relation over the history of the store.
      [CachedRegistry] is the cache as a registry of the controllers, with the cached
      object shared between them. [GoHeap] models container/heap, with which the deletion
      queue is kept.
    - Placement. [ModelTypes] models the type labels of runtimes and Predictors and the
      constraint map that model-mesh is given (controllers/modelmesh/
      model_type_labels.go, cluster_config.go).
    - The Predictor controller: [PredictorController], [PredictorControllerProps]
      (controllers/predictor_controller.go).
    - Runtimes. [K8s] has the pod and runtime types. [Validator] and [Endpoint] model
      validation and endpoints (controllers/servingruntime_validator.go,
      controllers/modelmesh/endpoint.go, util.go); [Deployment] and [DeploymentProps]
      the construction of the deployment (controllers/modelmesh/modelmesh.go,
      runtime.go, constraints.go, etcd.go, proxy.go, puller.go, tls.go); [Manifests] the
      templates and manifests they are rendered from and applied with
      (controllers/config/templating.go, manifest.go), and [Overlay] the merge of resources
      that the program does not use as yet (overlay.go); [Autoscaler]
      and [AutoscalerProps] the admission webhook and the HPA
      (apis/serving/v1alpha1/servingruntime_webhook.go, controllers/hpa,
      controllers/autoscaler); [RuntimeScaling] the replicas and scale to zero,
      [RuntimePVCs] the claims, [RuntimeRequests] which runtimes an event reconciles
      and [RuntimeController], [RuntimeControllerProps] the whole reconciliation
      (controllers/servingruntime_controller.go).
    - Services and connections. [MMService] models the connection to model-mesh
      (pkg/mmesh/modelmesh_service.go), [Resolver] the gRPC resolver
      (grpc_resolver.go), [RangeWatcher] the watch on etcd (etcdrangewatcher.go),
      [Events] and [EventsProps] the stream of model events and the etcd secrets
      (modelmesh_events.go, etcd_secret.go), [ServiceController] and
      [ServiceControllerProps] the controller that keeps them
      (controllers/service_controller.go).
    - [Config] and [ConfigProps] model the configuration (pkg/config/config.go),
      [ConfigKeys] its defaults and the keys under which values are looked up.
    - [Startup] and [StartupProps] model main.go: the settings it derives, the order in
      which it brings the parts up, the registration of source plugins; [Dispatch] the
      goroutines that pass the plugins' events on, as a step relation; [Watches] the
      watches of the Predictor and the runtime controller (SetupWithManager of both).
    - Compositions. [System] follows a Predictor through the watches, the scaling decision
      and the reconciliation of a runtime to the deployment that serves it.
      [Connections] composes the service controller, whose map of connections and event
      stream evolve by a step relation, with the Predictor controller that uses them; the
      relation keeps track of reconnections that were forgotten because a TLS secret could
      not be read. [Mesh] puts the Predictor controller, with its work queue, between the changing
      Predictors and model-mesh's changing registry of vmodels, as a step relation in
      which calls may fail or be lost and events be missed, the Predictors concerned being
      kept in a set; [MeshProgress] shows that its work ends, with the requests that its own
      status updates and changes of vmodels cause. [RuntimeWorld] does the same for the runtime controller: runtimes, cluster runtimes,
      namespaces and configuration change, the watches map the changes to requests or fail
      to, which is noted for the namespaces concerned, and the reconciliations keep the
      config maps of type constraints; [RuntimeProgress] adds a clock, the delay of a
      request that waits for the end of a grace period and the events of the Deployments
      that the controller changes, and shows that this work ends too.
    - The acceptance tests. [FVT] models the waits and expectations by which they pass or
      fail (fvt/helpers.go, utils.go), [FVTAcceptance] what they read of a Predictor, and
      that the controller's status satisfies them. [FVTSession] models the port forwards and
      connections of the test client as a state monad over its processes, shared port
      forwards and open connections, [FVTClient] its operations on the cluster, the TLS
      fixture and the set-up (fvt/fvtclient.go, tls.go, utils.go, globals.go), and
      [FVTInference] the inference requests and the checks on their answers in IEEE 754
      arithmetic (fvt/inference.go).
    - [GoStrings] has the functions of strings and strconv that the code uses.

    ** Conventions

    Go functions that can panic return [exec]; (value, error) pairs are [result] or an
    optional [error]; code that calls the API server or model-mesh runs in the writer
    monad [io], whose trace lists the writes in order, and [emits] is the logic for
    traces. Pointers that may be nil are options. Integers are [Z], with the wrap-around
    of int64, int32 and uint16 written out where the code depends on it. Maps are
    [gmap]; where the code ranges over a Go map and the order can matter, the order is
    an argument. Shared slices and objects are modelled with their sharing: the memory
    of [CachedSource], the cells of the common mounts in [Deployment], the cells of
    [DeepCopy]. The clock is an
    argument. A loop without structural recursion is given fuel only in the heap
    operations, whose loops follow a path of the tree, so that the length of the queue
    is enough, and in the pruning loop, where one round per queued object and a final
    one suffice ([pruneDeletions_spec] shows the loop ends); everything else is
    structural.

    Code of other projects is a parameter: KServe's predicates on runtimes
    ([KServeRuntime], [KServeConstants]), protocol names, net/url and knative
    ([NetURL], [Knative]), JSON and YAML decoding, certificates ([EtcdLibs]), quantities,
    text/template and manifestival ([TemplateLibs], [TransformLaws]), the copy functions of
    metadata ([MetaV1]), accessors of unstructured objects ([Unstructured],
    [UnstructuredWrites]), viper ([Viper], [ViperKeys]), the gRPC dial, model-mesh, the
    crypto libraries ([CryptoLibs]), the readers of image sets, and everything the API
    server answers. What the
    proofs rely on are the laws in those classes, and each class has an instance with
    which the witnesses compute.

    ** What the theorems show

    - The controller and model-mesh agree on placement ([placement_agreement]). Whenever
      the Predictor controller is idle, after any history of changes, failures and lost
      calls, model-mesh's registrations are those of the Predictors, but for Predictors of
      which an event was missed and nothing was heard since; with registries that answer
      and a model-mesh that cooperates it becomes idle, after at most six steps per request.
      Whenever the runtime controller is idle, the type constraints that model-mesh reads
      are those of the runtimes of each namespace, but for namespaces with a missed change;
      when the API server answers and runtimes can be deployed it becomes idle, after at
      most eight steps per request.
    - Deep copies are isolated from their originals.
    - The cache of Predictors is well formed and its versions only grow in every
      interleaving; processing an event refines an abstract versioned store and a refresh
      synchronises with the list, but for the deletion of a Predictor that is not cached, at
      which both panic and only then; the deletion queue is a priority queue. A source that
      reconnects misses no event; the cache is a lawful registry, and reconciling on its
      shared objects refines reconciling against the interface.
    - Reconciling a Predictor makes the calls it should and only those, in every case
      (valid, invalid, deleted), polls until it is settled, and its status update is
      idempotent; statuses survive the round trip through an InferenceService.
    - Deployments declare every volume they mount, keep the environment variables that the
      controller sets in the model-mesh container and are built without panic; they are applied after the constraints,
      and only for runtimes that should run; others are removed.
    - Runtimes with Predictors stay up, and idle ones are scaled to zero after the grace
      period and not before; admitted autoscalers are well formed and converge.
    - The listeners of etcd watches are in sync with the watcher's cache, watches never
      leak, and a model event finds its Predictor; the watched keys are those the pods
      write.
    - Resolvers get exactly the addresses of their port; there is one Service per
      namespace, and configuration changes reach it; failing reloads keep the last
      good configuration.
    - A start-up that succeeds has set up all parts consistently; an event of a Predictor
      from any source reaches both controllers as what it is, and every event of a
      plugin is delivered, in order.
    - A Predictor wakes the runtimes that can serve it, with the replicas that are
      configured or that their autoscaler needs.
    - The state shared by the service and the Predictor controller is consistent in every
      run; a served namespace is connected and watched, its Predictors report its
      current endpoint as long as no reconnection is pending or was forgotten, and
      model-mesh hears nothing of a namespace that was disabled.
    - The acceptance test of a new Predictor passes on what the controller writes when its
      model is loaded; whatever fails in between, test sessions leave no process behind
      but those that could not be killed; tensors survive their raw encoding, every inference request has the shape it
      declares, and the test of a classifier decides what it should.

    Theorems that state where the code departs from its comments or intent stand beside
    the others and say so in their comments.

    ** What is not modelled

    The creation of API clients in main.go, the scheme registration, the
    caches of the controller runtime (its work queue is the set of requests in [Mesh] and
    [RuntimeWorld], its rate limits are left out and its delays appear in
    [RuntimeProgress]), logging, and the test cases that use the acceptance tests' functions.
    The rendering of a template and the application of a manifest
    are parameters: the code is text/template's and manifestival's. *)

From stdpp Require Export base gmap strings list.
From stdpp Require Import option.

(** ** Outcomes of Go code

    A Go function either returns or panics (nil dereference, index out of
    range, write to a nil map, explicit [panic]). [exec] separates the two, so
    that "does not panic" is a theorem and not a convention. *)

Inductive exec (A : Type) : Type :=
| Ret (a : A)
| Panic.
Arguments Ret {A} _.
Arguments Panic {A}.

#[export] Instance exec_ret : MRet exec := @Ret.
#[export] Instance exec_bind : MBind exec := λ A B f e,
  match e with Ret a => f a | Panic => Panic end.

(** Dereferencing a Go pointer: a nil pointer panics. *)
Definition deref {A} (o : option A) : exec A :=
  match o with Some a => Ret a | None => Panic end.

(** The (value, error) results of Go: exactly one of the two is meaningful. *)
Inductive result (E A : Type) : Type :=
| Ok (a : A)
| Err (e : E).
Arguments Ok {E A} _.
Arguments Err {E A} _.

#[export] Instance result_eq_dec `{EqDecision E, EqDecision A} : EqDecision (result E A).
Proof. solve_decision. Defined.

(** ** The Kubernetes vocabulary shared by every component *)

(** types.NamespacedName *)
Record NamespacedName := mkNN { Namespace : string; Name : string }.

#[export] Instance NamespacedName_eq_dec : EqDecision NamespacedName.
Proof. solve_decision. Defined.

#[export] Instance NamespacedName_countable : Countable NamespacedName.
Proof.
  apply (inj_countable' (λ n, (Namespace n, Name n)) (λ p, mkNN p.1 p.2)).
  by intros [].
Defined.

(** Errors as the controllers distinguish them: the API machinery predicates
    IsNotFound and IsConflict, gRPC statuses with their code, and everything else.
    A wrapped error
    ([fmt.Errorf] with [%w]) keeps its cause. *)
Inductive error :=
| ErrNotFound
| ErrConflict
| ErrGrpc (code : Z) (msg : string)
| ErrMsg (msg : string)
| ErrWrap (msg : string) (cause : error).

Fixpoint IsNotFound (e : error) : bool :=
  match e with
  | ErrNotFound => true
  | ErrWrap _ e' => IsNotFound e'
  | _ => false
  end.

Fixpoint IsConflict (e : error) : bool :=
  match e with
  | ErrConflict => true
  | ErrWrap _ e' => IsConflict e'
  | _ => false
  end.

#[export] Instance error_eq_dec : EqDecision error.
Proof. solve_decision. Defined.

(** Two's complement wrap-around of an int64 *)
Definition wrap64 (z : Z) : Z := ((z + 2 ^ 63) mod 2 ^ 64 - 2 ^ 63)%Z.

(** Durations are nanoseconds (int64 in Go). *)
Definition Second : Z := 1000000000.

(** ctrl.Result *)
Record CtrlResult := mkResult { Requeue : bool; RequeueAfter : Z }.
Definition emptyResult : CtrlResult := mkResult false 0.
Definition requeueAfter (d : Z) : CtrlResult := mkResult false d.

(** ** Calls

    A reconciler's effects are the calls it makes, in order. [io C A] is a
    computation that appends calls of type [C] to a trace and may panic; what a
    call returns is an argument of the model. *)

Definition io (C A : Type) : Type := list C → exec (list C * A).

#[export] Instance io_ret C : MRet (io C) := λ A a tr, Ret (tr, a).
#[export] Instance io_bind C : MBind (io C) := λ A B f m tr,
  match m tr with Ret (tr', a) => f a tr' | Panic => Panic end.

Definition call {C} (c : C) : io C () := λ tr, Ret (tr ++ [c], tt).
Definition lift {C A} (e : exec A) : io C A := λ tr,
  match e with Ret a => Ret (tr, a) | Panic => Panic end.
Definition run {C A} (m : io C A) : exec (list C * A) := m [].

Lemma run_bind {C A B} (m : io C A) (f : A → io C B) :
  run (m ≫= f) = match run m with Ret (tr, a) => f a tr | Panic => Panic end.
Proof. done. Qed.

Lemma run_lift_bind {C A B} (a : A) (f : A → io C B) : run (lift (Ret a) ≫= f) = run (f a).
Proof. done. Qed.

(** A component's calls, as calls of the component that uses it *)
Definition embed {C D A} (f : C → D) (m : io C A) : io D A := λ tr,
  match m [] with Ret (calls, a) => Ret (tr ++ map f calls, a) | Panic => Panic end.

Declare Scope go_scope.
Delimit Scope go_scope with go.
Notation "'return' x" := (mret (M := io _) x) (at level 70) : go_scope.

(** Evaluation of the monads in a goal or hypothesis *)
Ltac run_io := unfold run, call, lift, mbind, io_bind, exec_bind, mret, io_ret, exec_ret in *;
               cbn beta iota in *.

(** Case analysis on the innermost scrutinee of the goal *)
Ltac case_inner :=
  match goal with
  | |- context [match ?x with _ => _ end] =>
      lazymatch x with context [match _ with _ => _ end] => fail | _ => destruct x eqn:? end
  end.

(** A [Forall] over a concrete list, split into its elements *)
Ltac split_forall := repeat apply Forall_cons_2; try apply Forall_nil_2.

Create HintDb go discriminated.

(** ** Reasoning about traces

    [emits m P]: whenever [m] returns, the calls it appended and its result satisfy
    [P]. The rules follow the structure of the computation. *)

Section Emits.
Context {C : Type}.

Definition emits {A} (m : io C A) (P : list C → A → Prop) : Prop :=
  ∀ tr tr' a, m tr = Ret (tr', a) → ∃ cs, tr' = tr ++ cs ∧ P cs a.

Lemma emits_weaken {A} (m : io C A) (P Q : list C → A → Prop) :
  emits m P → (∀ cs a, P cs a → Q cs a) → emits m Q.
Proof. intros Hm HPQ tr tr' a Ha. destruct (Hm _ _ _ Ha) as (cs & -> & HP). eauto. Qed.

Lemma emits_ret {A} (a : A) (P : list C → A → Prop) : P [] a → emits (mret a) P.
Proof. intros HP tr tr' b [= <- <-]. exists []. by rewrite app_nil_r. Qed.

Lemma emits_call (c : C) (P : list C → () → Prop) : P [c] tt → emits (call c) P.
Proof. intros HP tr tr' b [= <- <-]. eauto. Qed.

Lemma emits_lift {A} (e : exec A) (P : list C → A → Prop) :
  (∀ a, e = Ret a → P [] a) → emits (lift e) P.
Proof.
  intros HP tr tr' b. unfold lift. destruct e as [a|]; [|done]. intros [= <- <-].
  exists []. rewrite app_nil_r. eauto.
Qed.

Lemma emits_bind {A B} (m : io C A) (f : A → io C B) (P : list C → A → Prop)
    (Q : list C → B → Prop) :
  emits m P → (∀ cs a, P cs a → emits (f a) (λ cs' b, Q (cs ++ cs') b)) →
  emits (m ≫= f) Q.
Proof.
  intros Hm Hf tr tr' b. unfold mbind, io_bind. destruct (m tr) as [[tr1 a]|] eqn:E; [|done].
  intros Hb. destruct (Hm _ _ _ E) as (cs & -> & HP).
  destruct (Hf _ _ HP _ _ _ Hb) as (cs' & -> & HQ).
  exists (cs ++ cs'). by rewrite app_assoc.
Qed.

Lemma emits_lift_bind {A B} (e : exec A) (f : A → io C B) (Q : list C → B → Prop) :
  (∀ a, e = Ret a → emits (f a) Q) → emits (lift e ≫= f) Q.
Proof.
  intros Hf. eapply emits_bind; [apply (emits_lift e (λ cs a, cs = [] ∧ e = Ret a)); done|].
  intros cs a [-> Ha]. by apply Hf.
Qed.

Lemma emits_call_bind {B} (c : C) (f : () → io C B) (Q : list C → B → Prop) :
  emits (f tt) (λ cs b, Q (c :: cs) b) → emits (call c ≫= f) Q.
Proof.
  intros Hf. eapply emits_bind; [apply (emits_call c (λ cs _, cs = [c])); done|].
  by intros cs [] ->.
Qed.

Lemma emits_run {A} (m : io C A) P tr a : emits m P → run m = Ret (tr, a) → P tr a.
Proof. intros Hm Hr. by destruct (Hm _ _ _ Hr) as (cs & -> & HP). Qed.
End Emits.

Lemma emits_embed {C D A} (f : C → D) (m : io C A) (P : list C → A → Prop) :
  emits m P → emits (embed f m) (λ cs a, ∃ cs0, cs = map f cs0 ∧ P cs0 a).
Proof.
  intros Hm tr tr' a. unfold embed. destruct (m []) as [[cs b]|] eqn:E; [|done].
  intros [= <- <-]. destruct (Hm _ _ _ E) as (cs0 & -> & HP). eauto.
Qed.

#[export] Hint Resolve emits_ret emits_call emits_lift : go.

(** One step of a walk through a computation of which only the shape matters *)
Ltac emits_step :=
  lazymatch goal with
  | |- emits (mret _) _ => apply emits_ret
  | |- emits (call _) _ => apply emits_call
  | |- emits (lift _) _ => apply emits_lift; intros
  | |- emits (mbind _ _) _ =>
      eapply (emits_bind _ _ (λ _ _, True)); [|intros ? ? _]
  | |- emits (let '_ := ?x in _) _ => destruct x
  | |- emits (if ?b then _ else _) _ => destruct b
  | |- emits (match ?x with _ => _ end) _ => destruct x
  end.

(** ** Sequences of steps *)

Section Star.
Context {S : Type} (step : S → S → Prop).

(** An invariant of every step is an invariant of every run. *)
Lemma rtc_invariant (I : S → Prop) s s' :
  (∀ a b, I a → step a b → I b) → rtc step s s' → I s → I s'.
Proof. intros Hstep Hrtc. induction Hrtc; eauto. Qed.

(** A preorder that every step respects is respected by every run, when an
    invariant supports the step. *)
Lemma rtc_monotone (I : S → Prop) (R : S → S → Prop) `{!PreOrder R} s s' :
  (∀ a b, I a → step a b → I b ∧ R a b) → rtc step s s' → I s → R s s'.
Proof.
  intros Hstep Hrtc. induction Hrtc as [|a b c Hab _ IH]; intros HI.
  - reflexivity.
  - destruct (Hstep _ _ HI Hab) as [HIb HR]. etrans; eauto.
Qed.
End Star.

(** ** Lists *)

Section Lists.
Context {A : Type}.
Implicit Types (l : list A).

(** Exchange of two positions, as Go's [h[i], h[j] = h[j], h[i]]. Out of range
    indices are the caller's obligation (Go panics); the uses below are in
    range. *)
Definition swap (i j : nat) l : list A :=
  match l !! i, l !! j with
  | Some x, Some y => <[i := y]> (<[j := x]> l)
  | _, _ => l
  end.

Lemma length_swap i j l : length (swap i j l) = length l.
Proof. unfold swap. repeat case_match; by rewrite ?length_insert. Qed.

Lemma swap_lookup i j l k :
  i < length l → j < length l →
  swap i j l !! k =
    if decide (k = i) then l !! j else if decide (k = j) then l !! i else l !! k.
Proof.
  intros Hi Hj. unfold swap.
  destruct (lookup_lt_is_Some_2 l i Hi) as [x Hx].
  destruct (lookup_lt_is_Some_2 l j Hj) as [y Hy].
  rewrite Hx, Hy. rewrite !list_lookup_insert, length_insert.
  repeat case_decide; naive_solver lia.
Qed.

Lemma swap_id i l : swap i i l = l.
Proof.
  unfold swap. destruct (l !! i) as [x|] eqn:E; [|done].
  by rewrite list_insert_insert_eq, list_insert_id.
Qed.

Lemma swap_Permutation i j l : swap i j l ≡ₚ l.
Proof.
  unfold swap. destruct (l !! i) as [x|] eqn:Ei; [|done].
  destruct (l !! j) as [y|] eqn:Ej; [|done].
  destruct (decide (i = j)) as [->|Hne].
  { by rewrite list_insert_insert_eq, list_insert_id by congruence. }
  assert (Hi := lookup_lt_Some _ _ _ Ei). assert (Hj := lookup_lt_Some _ _ _ Ej).
  apply Permutation_inj. split; [by rewrite !length_insert|].
  exists (λ k, if decide (k = i) then j else if decide (k = j) then i else k).
  split.
  - intros a b. repeat case_decide; naive_solver.
  - intros k. rewrite !list_lookup_insert, length_insert.
    repeat case_decide; naive_solver lia.
Qed.
End Lists.

(** ** Sizes of finite sets *)

Section Sizes.
Context `{Countable A}.
Implicit Types (X Y : gset A).

Lemma size_union_le X Y : size (X ∪ Y) ≤ size X + size Y.
Proof.
  rewrite size_union_alt. assert (size (Y ∖ X) ≤ size Y) by (apply subseteq_size; set_solver). lia.
Qed.

Lemma size_delete_elem (x : A) X : x ∈ X → size X = S (size (X ∖ {[ x ]})).
Proof.
  intros Hx. rewrite size_difference, size_singleton by set_solver.
  assert (size X ≠ 0); [|lia]. rewrite size_non_empty_iff. set_solver.
Qed.

Lemma size_list_to_set_le (l : list A) : size (list_to_set l : gset A) ≤ length l.
Proof.
  induction l as [|x l IH]; [done|]. cbn [list_to_set length].
  pose proof (size_union_le {[ x ]} (list_to_set l)) as Hu. rewrite size_singleton in Hu. lia.
Qed.
End Sizes.

(** Every union whose size the goal mentions, bounded *)
Ltac size_unions :=
  repeat match goal with |- context [size (?X ∪ ?Y)] =>
    generalize (size_union_le X Y); generalize (size (X ∪ Y))
  end; intros.
