(* ===== verification/GoStrings.v ===== *)
(** * The parts of Go's [strings] and [strconv] packages the controller uses

    Go strings are byte strings; [string] is a list of 8-bit [ascii]. Indices
    are [nat], and the "not found" result -1 of Go is [None]. Slicing keeps
    Go's bounds check: [slice] panics out of range. *)

From stdpp Require Import pretty.
From S2P Require Import Prelude.
From Stdlib Require Import Ascii.

(** ** Definitions *)

(** s[n:] and s[:n] for an n within bounds *)
Fixpoint str_drop (n : nat) (s : string) : string :=
  match n, s with
  | O, _ => s
  | S n', String _ s' => str_drop n' s'
  | S _, EmptyString => ""
  end.

Fixpoint str_take (n : nat) (s : string) : string :=
  match n, s with
  | O, _ => ""
  | S n', String c s' => String c (str_take n' s')
  | S _, EmptyString => ""
  end.

(** s[a:b], panicking unless 0 <= a <= b <= len(s) *)
Definition slice (s : string) (a b : nat) : exec string :=
  if bool_decide (a ≤ b ∧ b ≤ String.length s)
  then Ret (str_take (b - a) (str_drop a s)) else Panic.

Definition HasPrefix (s p : string) : bool := String.prefix p s.

Definition HasSuffix (s suf : string) : bool :=
  bool_decide (String.length suf ≤ String.length s) &&
  String.eqb (str_drop (String.length s - String.length suf) s) suf.

Definition TrimPrefix (s p : string) : string :=
  if HasPrefix s p then str_drop (String.length p) s else s.

(** strings.Index *)
Fixpoint Index (s sub : string) : option nat :=
  if String.prefix sub s then Some 0
  else match s with
       | EmptyString => None
       | String _ s' => S <$> Index s' sub
       end.

(** strings.LastIndex *)
Fixpoint LastIndex (s sub : string) : option nat :=
  match s with
  | EmptyString => if String.prefix sub "" then Some 0 else None
  | String _ s' =>
      match LastIndex s' sub with
      | Some i => Some (S i)
      | None => if String.prefix sub s then Some 0 else None
      end
  end.

Definition Contains (s sub : string) : bool := bool_decide (is_Some (Index s sub)).

(** strings.Replace(s, old, new, 1) *)
Definition Replace1 (s old new : string) : string :=
  match Index s old with
  | Some i => str_take i s +:+ new +:+ str_drop (i + String.length old) s
  | None => s
  end.

(** strings.Split(s, sep) for a one-byte separator *)
Fixpoint Split (s : string) (sep : ascii) : list string :=
  match s with
  | EmptyString => [""]
  | String c s' =>
      if bool_decide (c = sep) then "" :: Split s' sep
      else match Split s' sep with
           | [] => [String c ""]
           | w :: ws => String c w :: ws
           end
  end.

(** strings.Join *)
Fixpoint Join (l : list string) (sep : string) : string :=
  match l with
  | [] => ""
  | [w] => w
  | w :: ws => w +:+ sep +:+ Join ws sep
  end.

(** s contains the byte c *)
Fixpoint has_char (c : ascii) (s : string) : bool :=
  match s with
  | EmptyString => false
  | String d s' => bool_decide (d = c) || has_char c s'
  end.

(** ** strconv *)

Definition Itoa (n : Z) : string := pretty n.

Definition digit_of (c : ascii) : option Z :=
  let n := N_of_ascii c in
  if bool_decide (48 ≤ n ∧ n ≤ 57)%N then Some (Z.of_N n - 48)%Z else None.

Fixpoint parse_digits (acc : Z) (s : string) : option Z :=
  match s with
  | EmptyString => Some acc
  | String c s' =>
      match digit_of c with
      | Some d => parse_digits (10 * acc + d) s'
      | None => None
      end
  end.

(** strconv.ParseInt(s, 10, bits): [None] stands for a syntax or range error *)
Definition ParseInt (s : string) (bits : Z) : option Z :=
  let unsigned (t : string) :=
    match t with EmptyString => None | _ => parse_digits 0 t end in
  let cutoff := (2 ^ (bits - 1))%Z in
  match s with
  | EmptyString => None
  | String c s' =>
      if bool_decide (c = "-"%char) then
        match unsigned s' with
        | Some n => if bool_decide (n ≤ cutoff)%Z then Some (- n)%Z else None
        | None => None
        end
      else
        match unsigned (if bool_decide (c = "+"%char) then s' else s) with
        | Some n => if bool_decide (n < cutoff)%Z then Some n else None
        | None => None
        end
  end.

(** strconv.Atoi on a 64-bit platform *)
Definition Atoi (s : string) : option Z := ParseInt s 64.

Definition FormatBool (b : bool) : string := if b then "true" else "false".

(** ** Lemmas *)

#[local] Arguments String.append : simpl nomatch.

Lemma str_app_nil_r s : s +:+ "" = s.
Proof. induction s; simpl; congruence. Qed.

Lemma str_app_assoc s1 s2 s3 : s1 +:+ s2 +:+ s3 = (s1 +:+ s2) +:+ s3.
Proof. induction s1; simpl; congruence. Qed.

Lemma str_length_app s1 s2 :
  String.length (s1 +:+ s2) = String.length s1 + String.length s2.
Proof. induction s1; simpl; congruence. Qed.

Lemma str_drop_app s1 s2 : str_drop (String.length s1) (s1 +:+ s2) = s2.
Proof. induction s1; simpl; auto. Qed.

Lemma str_take_app s1 s2 : str_take (String.length s1) (s1 +:+ s2) = s1.
Proof. induction s1; simpl; [by destruct s2|congruence]. Qed.

Lemma str_take_all s : str_take (String.length s) s = s.
Proof. induction s; simpl; congruence. Qed.

Lemma str_drop_add n m s : str_drop (n + m) s = str_drop m (str_drop n s).
Proof.
  revert s. induction n as [|n IH]; intros s; simpl; [done|].
  destruct s; simpl; [by destruct m|apply IH].
Qed.

Lemma str_take_drop n s : str_take n s +:+ str_drop n s = s.
Proof.
  revert s; induction n as [|n IH]; intros [|c s]; simpl; try done.
  by rewrite IH.
Qed.

Lemma str_length_drop n s : String.length (str_drop n s) = String.length s - n.
Proof. revert s; induction n as [|n IH]; intros [|c s]; simpl; auto. Qed.

Lemma prefix_app p s : String.prefix p (p +:+ s) = true.
Proof.
  induction p as [|c p IH]; simpl; [by destruct s|].
  destruct (ascii_dec c c); congruence.
Qed.

Lemma prefix_true p s : String.prefix p s = true ↔ ∃ t, s = p +:+ t.
Proof.
  split; [|intros [t ->]; apply prefix_app].
  revert s; induction p as [|c p IH]; intros [|d s]; simpl; try done; eauto.
  destruct (ascii_dec c d) as [->|]; [|done].
  intros [t ->]%IH. by exists t.
Qed.

Lemma prefix_nil s : String.prefix "" s = true.
Proof. by destruct s. Qed.

Lemma HasPrefix_true s p : HasPrefix s p = true ↔ ∃ t, s = p +:+ t.
Proof. apply prefix_true. Qed.

Lemma HasPrefix_app p s : HasPrefix (p +:+ s) p = true.
Proof. apply prefix_app. Qed.

Lemma TrimPrefix_app p s : TrimPrefix (p +:+ s) p = s.
Proof. unfold TrimPrefix. by rewrite HasPrefix_app, str_drop_app. Qed.

Lemma HasSuffix_true s suf : HasSuffix s suf = true ↔ ∃ p, s = p +:+ suf.
Proof.
  unfold HasSuffix. rewrite andb_true_iff, bool_decide_eq_true, String.eqb_eq.
  split.
  - intros [Hle Hd]. exists (str_take (String.length s - String.length suf) s).
    by rewrite <- Hd at 2; rewrite str_take_drop.
  - intros [p ->]. rewrite str_length_app. split; [lia|].
    replace (String.length p + String.length suf - String.length suf)
      with (String.length p) by lia. apply str_drop_app.
Qed.

Lemma slice_ok s a b :
  a ≤ b → b ≤ String.length s → slice s a b = Ret (str_take (b - a) (str_drop a s)).
Proof. intros. unfold slice. by rewrite bool_decide_true. Qed.

Lemma slice_from_app p s :
  slice (p +:+ s) (String.length p) (String.length (p +:+ s)) = Ret s.
Proof.
  rewrite slice_ok, str_drop_app by (rewrite ?str_length_app; lia).
  rewrite str_length_app.
  replace (String.length p + String.length s - String.length p)
    with (String.length s) by lia.
  by rewrite str_take_all.
Qed.

(** The last occurrence of a non-empty [sub] is where no later one exists. *)
Lemma LastIndex_app p c sub t :
  LastIndex (sub +:+ t) (String c sub) = None →
  LastIndex (p +:+ String c (sub +:+ t)) (String c sub) = Some (String.length p).
Proof.
  intros Hno. induction p as [|d p IH]; simpl.
  - simpl in Hno. rewrite Hno.
    destruct (ascii_dec c c); [|done]. by rewrite prefix_app.
  - by rewrite IH.
Qed.

Lemma LastIndex_char_None c s :
  has_char c s = false → LastIndex s (String c "") = None.
Proof.
  induction s as [|d s IH]; simpl; [done|].
  intros [Hd Hs]%orb_false_iff. rewrite IH by done.
  apply bool_decide_eq_false in Hd.
  destruct (ascii_dec c d); [congruence|done].
Qed.

Lemma LastIndex_char_app c p t :
  has_char c t = false →
  LastIndex (p +:+ String c t) (String c "") = Some (String.length p).
Proof. intros H. apply (LastIndex_app p c "" t). by apply LastIndex_char_None. Qed.

Lemma has_char_app c s t : has_char c (s +:+ t) = has_char c s || has_char c t.
Proof. induction s; simpl; [done|]. by rewrite IHs, orb_assoc. Qed.

Lemma Split_nonempty s c : Split s c ≠ [].
Proof.
  destruct s; simpl; [done|]. case_bool_decide; [done|]. by destruct (Split s c).
Qed.

Lemma Split_no_sep s c : has_char c s = false → Split s c = [s].
Proof.
  induction s as [|d s IH]; simpl; [done|].
  intros [Hd Hs]%orb_false_iff. apply bool_decide_eq_false in Hd.
  by rewrite bool_decide_false, IH.
Qed.

Lemma Split_app s t c :
  has_char c s = false → Split (s +:+ String c t) c = s :: Split t c.
Proof.
  induction s as [|d s IH]; simpl.
  - by rewrite bool_decide_true.
  - intros [Hd Hs]%orb_false_iff. apply bool_decide_eq_false in Hd.
    by rewrite bool_decide_false, IH.
Qed.

(** No piece of a split contains the separator, and joining gives it back. *)
Lemma Split_pieces s c : Forall (λ w, has_char c w = false) (Split s c).
Proof.
  induction s as [|d s IH]; simpl; [by constructor|].
  case_bool_decide; [by constructor|].
  destruct (Split s c) as [|w ws]; inversion IH; subst; constructor; simpl; auto.
  - by rewrite bool_decide_false.
  - by rewrite bool_decide_false.
Qed.

Lemma Join_Split s c : Join (Split s c) (String c "") = s.
Proof.
  induction s as [|d s IH]; simpl; [done|].
  pose proof (Split_nonempty s c) as Hne.
  case_bool_decide as Hd; [subst d|];
    destruct (Split s c) as [|w [|w' ws]]; simpl in *; congruence.
Qed.

Lemma digit_of_range c d : digit_of c = Some d → (0 ≤ d ≤ 9)%Z.
Proof. unfold digit_of. case_bool_decide; intros; simplify_eq; lia. Qed.

Lemma parse_digits_nonneg acc s n :
  (0 ≤ acc)%Z → parse_digits acc s = Some n → (0 ≤ n)%Z.
Proof.
  revert acc. induction s as [|c s IH]; intros acc Hacc; simpl; [naive_solver|].
  destruct (digit_of c) as [d|] eqn:Hd; [|done].
  apply digit_of_range in Hd. apply IH. lia.
Qed.

(** A parsed number fits the requested width. *)
Lemma ParseInt_range s bits n :
  (1 ≤ bits)%Z → ParseInt s bits = Some n →
  (- 2 ^ (bits - 1) ≤ n < 2 ^ (bits - 1))%Z.
Proof.
  intros Hb. assert (0 < 2 ^ (bits - 1))%Z by (apply Z.pow_pos_nonneg; lia).
  unfold ParseInt. destruct s as [|c s]; [done|].
  assert (Hdig : ∀ t m, match t with "" => None | _ => parse_digits 0 t end = Some m →
                        (0 ≤ m)%Z).
  { intros [|d t] m Hm; [done|]. by apply parse_digits_nonneg in Hm. }
  repeat case_bool_decide.
  - destruct (match s with "" => None | _ => parse_digits 0 s end) eqn:E; [|done].
    apply Hdig in E. case_bool_decide; intros; simplify_eq; lia.
  - destruct (match s with "" => None | _ => parse_digits 0 s end) eqn:E; [|done].
    apply Hdig in E. case_bool_decide; intros; simplify_eq; lia.
  - destruct (parse_digits 0 (String c s)) eqn:E; [|done].
    apply parse_digits_nonneg in E; [|lia].
    case_bool_decide; intros; simplify_eq; lia.
Qed.

(** A number that parses at one width and fits another parses there as well. *)
Lemma ParseInt_width s b b' n :
  ParseInt s b = Some n → (- 2 ^ (b' - 1) ≤ n < 2 ^ (b' - 1))%Z → ParseInt s b' = Some n.
Proof.
  intros Hp Hn. unfold ParseInt in *. destruct s as [|c s]; [done|].
  destruct (bool_decide (c = "-"%char)).
  - destruct (match s with "" => None | _ => parse_digits 0 s end) as [m|]; [|done].
    case_bool_decide; simplify_eq. by rewrite bool_decide_true by lia.
  - destruct (match (if bool_decide _ then _ else _) with "" => None | _ => _ end) as [m|];
      [|done].
    case_bool_decide; simplify_eq. by rewrite bool_decide_true by lia.
Qed.

(** ** Decimal round trip: ParseInt reads back what Itoa prints *)

Lemma parse_digits_app acc s t :
  parse_digits acc (s +:+ t) =
  match parse_digits acc s with Some a => parse_digits a t | None => None end.
Proof.
  revert acc. induction s as [|c s IH]; intros acc; simpl; [done|].
  destruct (digit_of c); [apply IH|done].
Qed.

(** ** Separators of one byte *)

Lemma Index_char_None c s : Index s (String c "") = None ↔ has_char c s = false.
Proof.
  induction s as [|d s IH]; simpl; [done|].
  destruct (ascii_dec c d) as [->|Hne].
  - rewrite prefix_nil, bool_decide_true by done. simpl. split; discriminate.
  - rewrite bool_decide_false by congruence. simpl. rewrite <- IH.
    destruct (Index s (String c "")); simpl; split; done.
Qed.

Lemma Contains_char c s : Contains s (String c "") = has_char c s.
Proof.
  unfold Contains. pose proof (Index_char_None c s) as Hi.
  case_bool_decide as Hs; destruct (has_char c s); try done.
  - rewrite (proj2 Hi eq_refl) in Hs. by destruct Hs.
  - destruct (Index s (String c "")); [by destruct Hs|]. by destruct (proj1 Hi eq_refl).
Qed.

(** Splitting what was joined: the pieces must not contain the separator. *)
Lemma Split_Join l c :
  l ≠ [] → Forall (λ w, has_char c w = false) l → Split (Join l (String c "")) c = l.
Proof.
  induction l as [|w l IH]; [done|]. intros _ [Hw Hl]%Forall_cons.
  destruct l as [|w' l]; [by apply Split_no_sep|].
  change (Join (w :: w' :: l) (String c ""))
    with (w +:+ String c (Join (w' :: l) (String c ""))).
  rewrite Split_app by done. by rewrite IH.
Qed.

(** ** Decimal printing *)

Lemma pretty_N_char_digit n c :
  (n < 10)%N → (∀ d, digit_of c ≠ Some d) → pretty_N_char n ≠ c.
Proof.
  intros Hn Hc <-. unfold pretty_N_char in Hc.
  assert (n = 0 ∨ n = 1 ∨ n = 2 ∨ n = 3 ∨ n = 4 ∨ n = 5 ∨ n = 6 ∨ n = 7 ∨ n = 8 ∨ n = 9)%N
    as Hcases by lia.
  repeat destruct Hcases as [->|Hcases]; try subst n; eapply Hc; reflexivity.
Qed.

Lemma has_char_pretty_N_go c x s :
  (∀ d, digit_of c ≠ Some d) → has_char c s = false →
  has_char c (pretty_N_go x s) = false.
Proof.
  intros Hc. revert s. induction (N.lt_wf_0 x) as [x _ IH]. intros s Hs.
  destruct (decide (0 < x)%N) as [Hx|Hx].
  - rewrite pretty_N_go_step by done. apply IH; [by apply N.div_lt|].
    simpl. rewrite Hs, orb_false_r. apply bool_decide_eq_false.
    apply pretty_N_char_digit; [|done]. by apply N.mod_lt.
  - by replace x with 0%N by lia.
Qed.

(** Only digits (and a minus sign) are printed. *)
Lemma has_char_Itoa c n :
  (∀ d, digit_of c ≠ Some d) → (0 ≤ n)%Z → has_char c (Itoa n) = false.
Proof.
  intros Hc Hn. unfold Itoa. destruct n as [|p|p]; [| |lia].
  - change (pretty 0%Z) with "0". simpl. rewrite orb_false_r.
    apply bool_decide_eq_false. intros <-. by apply (Hc 0%Z).
  - change (pretty (Z.pos p)) with (pretty (N.pos p)).
    unfold pretty, pretty_N. case_decide; [done|]. by apply has_char_pretty_N_go.
Qed.

Lemma pretty_N_go_nonempty x s : s ≠ "" → pretty_N_go x s ≠ "".
Proof.
  revert s. induction (N.lt_wf_0 x) as [x _ IH]. intros s Hs.
  destruct (decide (0 < x)%N) as [Hx|Hx].
  - rewrite pretty_N_go_step by done. apply IH; [by apply N.div_lt|done].
  - by replace x with 0%N by lia.
Qed.

Lemma Itoa_nonempty n : (0 ≤ n)%Z → Itoa n ≠ "".
Proof.
  intros Hn. unfold Itoa. destruct n as [|p|p]; [done| |lia].
  change (pretty (Z.pos p)) with (pretty (N.pos p)).
  unfold pretty, pretty_N. case_decide; [done|]. rewrite pretty_N_go_step by lia.
  by apply pretty_N_go_nonempty.
Qed.
