(* ===== verification/GoHeap.v ===== *)
(** * Go's container/heap

    The sift loops of the Go library as the queue of deleted Predictors uses
    them, over an array (a list) and a comparison of elements. The loops take
    fuel; [up_unfold] and [down_unfold] show that the fuel given by [up] and
    [down] never runs out, so the functions satisfy the equations of the Go
    loops. *)

From S2P Require Import Prelude.

Definition parent (i : nat) : nat := (i - 1) / 2.

Lemma parent_children c i : 0 < c → parent c = i ↔ (c = 2 * i + 1 ∨ c = 2 * i + 2).
Proof.
  unfold parent. intros Hc. pose proof (Nat.div_mod_eq (c - 1) 2).
  pose proof (Nat.mod_upper_bound (c - 1) 2). lia.
Qed.

(** ** The loops *)

Section Loops.
Context {A : Type} (less : A → A → bool).
Implicit Types (l : list A).

(** h.Less(i, j) *)
Definition less_at l (i j : nat) : bool :=
  match l !! i, l !! j with
  | Some x, Some y => less x y
  | _, _ => false
  end.

Fixpoint up_go (fuel : nat) l (j : nat) : list A :=
  match fuel with
  | O => l
  | S fuel' =>
      let i := parent j in
      if bool_decide (i = j) || negb (less_at l j i) then l
      else up_go fuel' (swap i j l) i
  end.
Definition up l (j : nat) : list A := up_go (S j) l j.

(** The child of [i] that the loop compares with: the smaller one. *)
Definition min_child l (i n : nat) : nat :=
  let j1 := 2 * i + 1 in
  if bool_decide (j1 + 1 < n) && less_at l (j1 + 1) j1 then j1 + 1 else j1.

Fixpoint down_go (fuel : nat) l (i n : nat) : list A :=
  match fuel with
  | O => l
  | S fuel' =>
      if bool_decide (n ≤ 2 * i + 1) then l
      else
        let j := min_child l i n in
        if negb (less_at l j i) then l else down_go fuel' (swap i j l) j n
  end.
Definition down l (i n : nat) : list A := down_go (S n) l i n.

(** heap.Push once the element has been appended; heap.Pop. *)
Definition heap_fix_last l : list A := up l (length l - 1).

Definition heap_pop l : option (A * list A) :=
  let n := length l - 1 in
  let l' := down (swap 0 n l) 0 n in
  match last l' with
  | Some x => Some (x, take n l')
  | None => None
  end.

(** ** The fuel is enough *)

Lemma parent_lt j : 0 < j → parent j < j.
Proof. unfold parent. intros. apply Nat.Div0.div_lt_upper_bound; lia. Qed.

Lemma up_go_fuel f1 f2 l j : j < f1 → j < f2 → up_go f1 l j = up_go f2 l j.
Proof.
  revert f2 l j. induction f1 as [|f1 IH]; intros f2 l j H1 H2; [lia|].
  destruct f2 as [|f2]; [lia|]. simpl.
  destruct (bool_decide (parent j = j)) eqn:E; simpl; [done|].
  destruct (less_at l j (parent j)); simpl; [|done].
  apply bool_decide_eq_false in E.
  assert (0 < j) by (destruct j; [done|lia]).
  pose proof (parent_lt j). apply IH; lia.
Qed.

Lemma up_unfold l j :
  up l j =
    if bool_decide (parent j = j) || negb (less_at l j (parent j)) then l
    else up (swap (parent j) j l) (parent j).
Proof.
  unfold up at 1. simpl.
  destruct (bool_decide (parent j = j)) eqn:E; simpl; [done|].
  destruct (less_at l j (parent j)); simpl; [|done].
  apply bool_decide_eq_false in E.
  assert (0 < j) by (destruct j; [done|lia]).
  pose proof (parent_lt j). apply up_go_fuel; lia.
Qed.

Lemma min_child_bounds l i n :
  2 * i + 1 < n → i < min_child l i n < n ∧ parent (min_child l i n) = i.
Proof.
  intros. unfold min_child. case_bool_decide; cbn [andb];
    [destruct (less_at l _ _)|]; (split; [lia|]); apply parent_children; lia.
Qed.

Lemma down_go_fuel f1 f2 l i n :
  n - i ≤ f1 → n - i ≤ f2 → i < n → 0 < f1 → 0 < f2 →
  down_go f1 l i n = down_go f2 l i n.
Proof.
  revert f2 l i. induction f1 as [|f1 IH]; intros f2 l i H1 H2 Hi H3 H4; [lia|].
  destruct f2 as [|f2]; [lia|]. simpl.
  case_bool_decide; [done|].
  destruct (less_at l _ i); simpl; [|done].
  destruct (min_child_bounds l i n) as [[??] ?]; [lia|].
  apply IH; lia.
Qed.

Lemma down_unfold l i n :
  i < n →
  down l i n =
    if bool_decide (n ≤ 2 * i + 1) then l
    else if negb (less_at l (min_child l i n) i) then l
    else down (swap i (min_child l i n) l) (min_child l i n) n.
Proof.
  intros Hi. unfold down at 1. simpl. case_bool_decide; [done|].
  destruct (less_at l _ i); simpl; [|done].
  destruct (min_child_bounds l i n) as [[??] ?]; [lia|].
  apply down_go_fuel; lia.
Qed.

(** ** The loops only exchange elements *)

Lemma up_Permutation l j : up l j ≡ₚ l.
Proof.
  unfold up. generalize (S j) as fuel. intros fuel. revert l j.
  induction fuel as [|fuel IH]; intros l j; simpl; [done|].
  case_match; [done|]. by rewrite IH, swap_Permutation.
Qed.

Lemma down_Permutation l i n : down l i n ≡ₚ l.
Proof.
  unfold down. generalize (S n) as fuel. intros fuel. revert l i.
  induction fuel as [|fuel IH]; intros l i; simpl; [done|].
  case_bool_decide; [done|]. case_match; [done|].
  by rewrite IH, swap_Permutation.
Qed.

(** [down] below [n] leaves the positions from [n] on alone. *)
Lemma down_lookup_ge l i n k : n ≤ length l → n ≤ k → down l i n !! k = l !! k.
Proof.
  unfold down. generalize (S n) as fuel. intros fuel Hlen Hk. revert l i Hlen.
  induction fuel as [|fuel IH]; intros l i Hlen; simpl; [done|].
  case_bool_decide; [done|]. case_match; [done|].
  destruct (min_child_bounds l i n) as [[??] ?]; [lia|].
  rewrite IH by (rewrite length_swap; lia).
  rewrite swap_lookup by lia. repeat case_decide; lia || done.
Qed.
End Loops.

(** ** Heap order *)

Section Order.
Context {A : Type} (less : A → A → bool) (key : A → Z) (V : A → Prop).
Implicit Types (l : list A).

(** On the elements that may be in the queue the comparison is that of a key. *)
Hypothesis Hless : ∀ a b, V a → V b → less a b = bool_decide (key a < key b)%Z.

Definition kat l (i : nat) : Z := match l !! i with Some x => key x | None => 0 end.

(** Heap order below [n]: no element is smaller than its parent. *)
Definition heap_ordered l (n : nat) : Prop :=
  ∀ i, 0 < i < n → (kat l (parent i) ≤ kat l i)%Z.

Definition heap_ok l : Prop := heap_ordered l (length l).

Lemma less_at_kat l i j :
  Forall V l → i < length l → j < length l →
  less_at less l i j = bool_decide (kat l i < kat l j)%Z.
Proof.
  intros HV Hi Hj. unfold less_at, kat.
  destruct (lookup_lt_is_Some_2 l i Hi) as [x Hx].
  destruct (lookup_lt_is_Some_2 l j Hj) as [y Hy].
  rewrite Hx, Hy. rewrite Forall_lookup in HV. eauto.
Qed.

Lemma kat_swap l i j k :
  i < length l → j < length l →
  kat (swap i j l) k =
    if decide (k = i) then kat l j else if decide (k = j) then kat l i else kat l k.
Proof. intros. unfold kat. rewrite swap_lookup by done. by repeat case_decide. Qed.

Lemma Forall_swap i j l : Forall V l → Forall V (swap i j l).
Proof. intros. by rewrite swap_Permutation. Qed.

(** Heap order except between [j] and its parent. *)
Definition up_inv l (j : nat) : Prop :=
  (∀ i, 0 < i < length l → i ≠ j → (kat l (parent i) ≤ kat l i)%Z) ∧
  (∀ c, 0 < c < length l → parent c = j → 0 < j → (kat l (parent j) ≤ kat l c)%Z).

Lemma up_inv_swap l j :
  j < length l → 0 < j → (kat l j < kat l (parent j))%Z → up_inv l j →
  up_inv (swap (parent j) j l) (parent j).
Proof.
  intros Hj Hj0 Hlt [H1 H2]. pose proof (parent_lt j Hj0) as Hp.
  split.
  - intros i Hi Hne. rewrite length_swap in Hi.
    rewrite !kat_swap by lia.
    destruct (decide (i = j)) as [->|Hij].
    { repeat case_decide; subst; try lia. }
    destruct (decide (parent i = parent j)) as [Hpp|Hpp].
    { specialize (H1 i Hi Hij). rewrite Hpp in H1.
      repeat case_decide; subst; try lia. }
    destruct (decide (parent i = j)) as [Hpj|Hpj].
    { specialize (H2 i Hi Hpj Hj0). repeat case_decide; subst; try lia. }
    specialize (H1 i Hi Hij). repeat case_decide; subst; try lia.
  - intros c Hc Hpc Hp0. rewrite length_swap in Hc.
    pose proof (parent_lt (parent j) Hp0) as Hpp.
    rewrite !kat_swap by lia.
    assert (kat l (parent (parent j)) ≤ kat l (parent j))%Z by (apply H1; lia).
    destruct (decide (c = j)) as [->|Hcj].
    { repeat case_decide; subst; try lia. }
    assert (kat l (parent j) ≤ kat l c)%Z.
    { rewrite <- Hpc. by apply H1. }
    repeat case_decide; subst; try lia.
Qed.

Lemma up_ordered l j :
  Forall V l → j < length l → up_inv l j → heap_ok (up less l j).
Proof.
  revert l. induction (lt_wf j) as [j _ IH]. intros l HV Hj Hinv.
  rewrite up_unfold. case_bool_decide as Hpj; simpl.
  { assert (j = 0) as -> by (destruct j; [done|pose proof (parent_lt (S j)); lia]).
    intros i Hi. apply Hinv; lia. }
  assert (0 < j) by (destruct j; [done|lia]).
  pose proof (parent_lt j). rewrite less_at_kat by (done || lia).
  case_bool_decide; simpl.
  - apply IH; [lia|by apply Forall_swap|by rewrite length_swap; lia|].
    by apply up_inv_swap.
  - intros i Hi. destruct (decide (i = j)) as [->|]; [lia|by apply Hinv].
Qed.

(** Pushing an element keeps the heap order. *)
Lemma heap_fix_last_ok l x :
  Forall V (l ++ [x]) → heap_ok l → heap_ok (heap_fix_last less (l ++ [x])).
Proof.
  intros HV Hok. unfold heap_fix_last. rewrite length_app; simpl.
  replace (length l + 1 - 1) with (length l) by lia.
  apply up_ordered; [done|rewrite length_app; simpl; lia|].
  split.
  - intros i Hi Hne. rewrite length_app in Hi; simpl in Hi.
    pose proof (parent_lt i).
    unfold kat. rewrite !lookup_app_l by lia. apply Hok. lia.
  - intros c Hc Hpc. rewrite length_app in Hc; simpl in Hc.
    pose proof (parent_lt c). lia.
Qed.

(** Heap order below [n] except between [i] and its children. *)
Definition down_inv l (i n : nat) : Prop :=
  (∀ c, 0 < c < n → parent c ≠ i → (kat l (parent c) ≤ kat l c)%Z) ∧
  (∀ c, 0 < c < n → parent c = i → 0 < i → (kat l (parent i) ≤ kat l c)%Z).

Lemma min_child_le l i n c :
  Forall V l → n ≤ length l → 2 * i + 1 < n → 0 < c < n → parent c = i →
  (kat l (min_child less l i n) ≤ kat l c)%Z.
Proof.
  intros HV Hn Hi Hc Hpc.
  apply parent_children in Hpc as [-> | ->]; [| |lia]; unfold min_child.
  - case_bool_decide; cbn [andb]; [|lia].
    rewrite less_at_kat by (done || lia). case_bool_decide; lia.
  - rewrite (bool_decide_true (2 * i + 1 + 1 < n)) by lia. cbn [andb].
    rewrite less_at_kat by (done || lia).
    replace (2 * i + 1 + 1) with (2 * i + 2) by lia.
    case_bool_decide; lia.
Qed.

Lemma down_inv_swap l i n :
  Forall V l → n ≤ length l → 2 * i + 1 < n →
  (kat l (min_child less l i n) < kat l i)%Z → down_inv l i n →
  down_inv (swap i (min_child less l i n) l) (min_child less l i n) n.
Proof.
  intros HV Hn Hi Hlt [H1 H2].
  destruct (min_child_bounds less l i n Hi) as [[Hmi Hmn] Hpm].
  pose proof (λ c, min_child_le l i n c HV Hn Hi) as Hmin.
  set (m := min_child less l i n) in *. clearbody m.
  split.
  - intros c Hc Hne. rewrite !kat_swap by lia.
    destruct (decide (parent c = i)) as [Hpc|Hpc].
    + assert (kat l m ≤ kat l c)%Z by (by apply Hmin).
      pose proof (parent_lt c).
      repeat case_decide; subst; try lia.
    + specialize (H1 c Hc Hpc).
      destruct (decide (c = i)) as [->|Hci].
      { assert (kat l (parent i) ≤ kat l m)%Z by (apply H2; lia).
        repeat case_decide; subst; try lia. }
      repeat case_decide; subst; try lia.
  - intros c Hc Hpc Hm0. rewrite !kat_swap by lia. rewrite Hpm.
    pose proof (parent_lt c). specialize (H1 c Hc ltac:(lia)).
    rewrite Hpc in H1. repeat case_decide; subst; try lia.
Qed.

Lemma down_ordered l i n :
  Forall V l → n ≤ length l → i < n → down_inv l i n →
  heap_ordered (down less l i n) n.
Proof.
  remember (n - i) as d eqn:Hd. revert l i Hd.
  induction (lt_wf d) as [d _ IH]. intros l i -> HV Hn Hi Hinv.
  rewrite down_unfold by done. case_bool_decide as Hn2.
  { intros c Hc. apply Hinv; [done|]. intros Hpc.
    apply parent_children in Hpc; lia. }
  destruct (min_child_bounds less l i n) as [[??] Hpm]; [lia|].
  rewrite less_at_kat by (done || lia). case_bool_decide as Hlt; simpl.
  - eapply IH; [|done|by apply Forall_swap|by rewrite length_swap|lia|].
    + lia.
    + apply down_inv_swap; done || lia.
  - intros c Hc. destruct (decide (parent c = i)) as [Hpc|Hpc].
    + pose proof (min_child_le l i n c HV Hn ltac:(lia) Hc Hpc). rewrite Hpc. lia.
    + by apply Hinv.
Qed.

(** The root of a heap is a minimum. *)
Lemma heap_ok_min l i :
  heap_ok l → i < length l → (kat l 0 ≤ kat l i)%Z.
Proof.
  intros Hok. induction (lt_wf i) as [i _ IH]. intros Hi.
  destruct (decide (i = 0)) as [->|]; [lia|].
  pose proof (parent_lt i). specialize (Hok i ltac:(lia)).
  specialize (IH (parent i) ltac:(lia) ltac:(lia)). lia.
Qed.

Lemma heap_pop_nil : heap_pop less (@nil A) = None.
Proof. reflexivity. Qed.

(** Popping removes the root, a minimum, and keeps the heap order of the rest. *)
Lemma heap_pop_spec l x0 :
  Forall V l → heap_ok l → l !! 0 = Some x0 →
  ∃ l', heap_pop less l = Some (x0, l') ∧ heap_ok l' ∧ l ≡ₚ x0 :: l' ∧
        Forall (λ y, (key x0 ≤ key y)%Z) l.
Proof.
  intros HV Hok Hx0. pose proof (lookup_lt_Some _ _ _ Hx0) as Hlen.
  set (n := length l - 1). set (l1 := swap 0 n l).
  assert (Hlen1 : length l1 = length l) by apply length_swap.
  assert (Hl1n : l1 !! n = Some x0).
  { unfold l1. rewrite swap_lookup by lia. repeat case_decide; congruence. }
  assert (HV1 : Forall V l1) by (by apply Forall_swap).
  set (l2 := down less l1 0 n).
  assert (Hperm : l2 ≡ₚ l).
  { unfold l2, l1. by rewrite down_Permutation, swap_Permutation. }
  assert (Hlen2 : length l2 = length l) by (by rewrite Hperm).
  assert (Hlast : last l2 = Some x0).
  { rewrite last_lookup, Hlen2. replace (pred (length l)) with n by lia.
    unfold l2. rewrite down_lookup_ge by lia. done. }
  exists (take n l2). split; [|split; [|split]].
  - unfold heap_pop. fold n. fold l1. fold l2. by rewrite Hlast.
  - intros i Hi. rewrite length_take in Hi.
    pose proof (parent_lt i).
    unfold kat. rewrite !lookup_take by lia. repeat case_decide; try lia.
    apply (down_ordered l1 0 n); [done|lia|lia| |lia].
    split; [|lia]. intros c Hc Hpc. pose proof (parent_lt c).
    unfold l1. rewrite !kat_swap by lia. specialize (Hok c ltac:(lia)).
    repeat case_decide; lia.
  - rewrite <- Hperm at 1.
    rewrite <- (take_drop_middle l2 n x0) at 1.
    2: { rewrite last_lookup, Hlen2 in Hlast.
         by replace (pred (length l)) with n in Hlast by lia. }
    rewrite drop_ge by lia. by rewrite Permutation_app_comm.
  - apply Forall_lookup. intros i y Hy.
    pose proof (heap_ok_min l i Hok (lookup_lt_Some _ _ _ Hy)) as Hmin.
    unfold kat in Hmin. by rewrite Hx0, Hy in Hmin.
Qed.
End Order.
