(* ===== verification/Types.v ===== *)
(** * Predictor API types (apis/serving/v1alpha1/predictor_types.go)

    The structs of the Predictor resource with the fields the controller reads
    or writes. A Go pointer field is an [option]; a [map[string]string] is a
    [gmap]; an embedded struct keeps its fields under its own projection. String
    enumerations are inductive types whose first constructor is the zero value
    (the empty string). *)

From S2P Require Import Prelude.

(** ** Time

    An instant is a number of nanoseconds since the zero [time.Time]; a
    [*metav1.Time] is an [option Z]. *)
Definition zeroTime : Z := 0.

(** [metav1.Time.Before] belongs to the Kubernetes API machinery. The code relies
    on it for non-nil operands only. *)
Class MetaTime := {
  Before : option Z → option Z → bool;
  Before_some a b : Before (Some a) (Some b) = bool_decide (a < b)%Z
}.

(** An implementation, used where a concrete run is evaluated. *)
Definition metaTimeImpl : MetaTime := {|
  Before := λ t u, match t, u with
                   | Some a, Some b => bool_decide (a < b)%Z
                   | _, _ => false
                   end;
  Before_some := λ _ _, eq_refl
|}.

(** ** Metadata *)

Record ObjectMeta := mkMeta {
  om_Name : string;
  om_Namespace : string;
  om_ResourceVersion : string;
  om_DeletionTimestamp : option Z;
  om_Labels : gmap string string;
  om_Annotations : gmap string string
}.

(** ** Spec *)

Record RuntimeRef := mkRuntimeRef { rr_Name : string }.

(** The embedded *RuntimeRef may be nil. *)
Record PredictorRuntime := mkPredictorRuntime { pr_RuntimeRef : option RuntimeRef }.

Record StorageSpec := mkStorageSpec {
  ss_Path : option string;
  ss_SchemaPath : option string;
  ss_Parameters : option (gmap string string);
  ss_StorageKey : option string
}.

Record S3StorageSource := mkS3 { s3_SecretKey : string; s3_Bucket : option string }.

(** corev1.PersistentVolumeClaimVolumeSource, the type of a deprecated field *)
Record PersistentVolumeClaimVolumeSource := mkPVCSource {
  pvc_ClaimName : string;
  pvc_ReadOnly : bool
}.

Record Storage := mkStorage {
  st_StorageSpec : StorageSpec;
  st_PersistentVolumeClaim : option PersistentVolumeClaimVolumeSource;
  st_S3 : option S3StorageSource
}.

Record ModelType := mkModelType { mt_Name : string; mt_Version : option string }.

Record Model := mkModel {
  m_Type : ModelType;
  m_Path : string;
  m_SchemaPath : option string;
  m_Storage : option Storage
}.

Inductive GpuRequest := Required | Preferred.

Record PredictorSpec := mkPredictorSpec {
  ps_ServiceAccountName : option string;
  ps_Model : Model;
  ps_Gpu : option GpuRequest;
  ps_Runtime : option PredictorRuntime;
  ps_ProtocolVersion : option string
}.

(** ** Status *)

Inductive TransitionStatus :=
| NoTransitionStatus | UpToDate | InProgress | BlockedByFailedLoad | InvalidSpec.

Inductive ModelState :=
| NoModelState | Pending | Standby | Loading | Loaded | FailedToLoad.

Inductive FailureReason :=
| NoFailureReason | ModelLoadFailed | RuntimeUnhealthy | NoSupportingRuntime
| RuntimeNotRecognized | InvalidPredictorSpec.

#[export] Instance TransitionStatus_eq_dec : EqDecision TransitionStatus.
Proof. solve_decision. Defined.
#[export] Instance ModelState_eq_dec : EqDecision ModelState.
Proof. solve_decision. Defined.
#[export] Instance FailureReason_eq_dec : EqDecision FailureReason.
Proof. solve_decision. Defined.

Record FailureInfo := mkFailureInfo {
  fi_Location : string;
  fi_Reason : FailureReason;
  fi_Message : string;
  fi_ModelId : string;
  fi_Time : option Z
}.

#[export] Instance FailureInfo_eq_dec : EqDecision FailureInfo.
Proof. solve_decision. Defined.

Record PredictorStatus := mkPredictorStatus {
  Available : bool;
  st_TransitionStatus : TransitionStatus;
  ActiveModelState : ModelState;
  TargetModelState : ModelState;
  LastFailureInfo : option FailureInfo;
  HTTPEndpoint : string;
  GrpcEndpoint : string;
  TotalCopies : Z;
  FailedCopies : Z
}.

#[export] Instance PredictorStatus_eq_dec : EqDecision PredictorStatus.
Proof. solve_decision. Defined.

(** The status every new Predictor starts from (the CRD's default). *)
Definition defaultStatus : PredictorStatus :=
  mkPredictorStatus false UpToDate Pending NoModelState None "" "" 0 0.

Definition WaitingForRuntime (s : PredictorStatus) : bool :=
  match LastFailureInfo s with
  | Some fi => bool_decide (fi_Reason fi = RuntimeUnhealthy)
  | None => false
  end.

Record Predictor := mkPredictor {
  p_Meta : ObjectMeta;
  p_Spec : PredictorSpec;
  p_Status : PredictorStatus
}.

(** ** Field updates *)

Definition set_DeletionTimestamp (t : option Z) (p : Predictor) : Predictor :=
  let m := p_Meta p in
  mkPredictor (mkMeta (om_Name m) (om_Namespace m) (om_ResourceVersion m) t
                      (om_Labels m) (om_Annotations m))
              (p_Spec p) (p_Status p).

Definition set_Status (s : PredictorStatus) (p : Predictor) : Predictor :=
  mkPredictor (p_Meta p) (p_Spec p) s.

Definition emptySpec : PredictorSpec :=
  mkPredictorSpec None (mkModel (mkModelType "" None) "" None None) None None None.

(** The zero PredictorStatus of Go *)
Definition zeroStatus : PredictorStatus :=
  mkPredictorStatus false NoTransitionStatus NoModelState NoModelState None "" "" 0 0.
