(* ===== verification/K8s.v ===== *)
(** * Kubernetes and KServe objects

    The fields of the core/v1, apps/v1 and kserve v1alpha1 structs that the
    controller reads or writes. Fields it only copies from one struct to another
    (security contexts, affinities, resource requirements) keep the structure the
    code looks at and no more. Pointers are [option]s, maps are [gmap]s. *)

From S2P Require Import Prelude Types.

(** ** core/v1 *)

(** The EnvVarSource of a variable: the code builds resource field references
    only; any other source is carried along. *)
Inductive EnvVarSource :=
| ResourceFieldRef (containerName resource : string)
| OtherEnvSource (id : string).

Record EnvVar := mkEnv {
  ev_Name : string;
  ev_Value : string;
  ev_ValueFrom : option EnvVarSource
}.

Record VolumeMount := mkVM {
  vm_Name : string;
  vm_MountPath : string;
  vm_ReadOnly : bool
}.

Inductive VolumeSource :=
| EmptyDirSource (medium : string) (sizeLimit : option Z)
| SecretSource (secretName : string)
| PVCSource (claimName : string) (readOnly : bool)
| ConfigMapSource (name : string)
| OtherVolumeSource (id : string).

Record Volume := mkVolume { v_Name : string; v_Source : VolumeSource }.

(** ContainerPort is an int32. *)
Record ContainerPort := mkPort { cp_Name : string; cp_ContainerPort : Z }.

(** Resource requirements: quantities by resource name, in base units. *)
Record ResourceRequirements := mkResources {
  rs_Limits : gmap string Z;
  rs_Requests : gmap string Z
}.

Inductive Lifecycle :=
| PreStopHTTPGet (path : string) (port : Z)
| OtherLifecycle (id : string).

Inductive SecurityContext :=
| DropCapabilities (caps : list string)
| OtherSecurityContext (id : string).

Record Container := mkContainer {
  c_Name : string;
  c_Image : string;
  c_Command : list string;
  c_Env : list EnvVar;
  c_Ports : list ContainerPort;
  c_Resources : ResourceRequirements;
  c_VolumeMounts : list VolumeMount;
  c_Lifecycle : option Lifecycle;
  c_ReadinessProbe : option string;
  c_SecurityContext : option SecurityContext
}.

#[export] Instance EnvVarSource_eq_dec : EqDecision EnvVarSource.
Proof. solve_decision. Defined.
#[export] Instance EnvVar_eq_dec : EqDecision EnvVar.
Proof. solve_decision. Defined.
#[export] Instance VolumeMount_eq_dec : EqDecision VolumeMount.
Proof. solve_decision. Defined.
#[export] Instance VolumeSource_eq_dec : EqDecision VolumeSource.
Proof. solve_decision. Defined.
#[export] Instance Volume_eq_dec : EqDecision Volume.
Proof. solve_decision. Defined.
#[export] Instance ContainerPort_eq_dec : EqDecision ContainerPort.
Proof. solve_decision. Defined.

Record NodeSelectorRequirement := mkNSR {
  nsr_Key : string;
  nsr_Operator : string;
  nsr_Values : list string
}.

(** A NodeSelectorTerm is its match expressions. *)
Definition NodeSelectorTerm : Type := list NodeSelectorRequirement.

(** Affinity.NodeAffinity.RequiredDuringSchedulingIgnoredDuringExecution: each
    level is a pointer; what else the levels hold is one opaque string. *)
Record NodeAffinity := mkNodeAffinity {
  na_Required : option (list NodeSelectorTerm);
  na_Other : string
}.
Record Affinity := mkAffinity {
  af_NodeAffinity : option NodeAffinity;
  af_Other : string
}.

Record PodSpec := mkPodSpec {
  pod_Containers : list Container;
  pod_Volumes : list Volume;
  pod_TerminationGracePeriodSeconds : option Z;
  pod_NodeSelector : gmap string string;
  pod_Tolerations : list string;
  pod_Affinity : option Affinity;
  pod_ImagePullSecrets : list string
}.

(** apps/v1 Deployment: the pod template with its labels and annotations *)
Record DeploymentObj := mkDeployment {
  d_Name : string;
  d_Namespace : string;
  d_Replicas : option Z;
  d_Labels : gmap string string;
  d_Annotations : gmap string string;
  d_Spec : PodSpec
}.

(** ** kserve v1alpha1 ServingRuntime *)

Record SupportedModelFormat := mkFormat {
  smf_Name : string;
  smf_Version : option string;
  smf_AutoSelect : option bool
}.

Record BuiltInAdapter := mkAdapter {
  bia_ServerType : string;
  bia_RuntimeManagementPort : Z;
  bia_MemBufferBytes : Z;
  bia_ModelLoadingTimeoutMillis : Z;
  bia_Env : list EnvVar
}.

Record ServingRuntimeSpec := mkSRSpec {
  sr_SupportedModelFormats : list SupportedModelFormat;
  sr_ProtocolVersions : list string;
  sr_MultiModel : option bool;
  sr_Disabled : option bool;
  sr_Replicas : option Z;
  sr_Containers : list Container;
  sr_Volumes : list Volume;
  sr_BuiltInAdapter : option BuiltInAdapter;
  sr_GrpcDataEndpoint : option string;
  sr_GrpcMultiModelManagementEndpoint : option string;
  (** StorageHelper, by its Disabled field *)
  sr_StorageHelper : option bool;
  sr_NodeSelector : gmap string string;
  sr_Tolerations : list string;
  sr_Affinity : option Affinity;
  sr_Labels : gmap string string;
  sr_Annotations : gmap string string;
  sr_ImagePullSecrets : list string
}.

(** The methods of kserve's ServingRuntimeSpec the controller calls. *)
Class KServeRuntime := {
  IsDisabled : ServingRuntimeSpec → bool;
  IsMultiModelRuntime : ServingRuntimeSpec → bool
}.

(** An instance for concrete runs. *)
Definition kserveImpl : KServeRuntime := {|
  IsDisabled := λ s, default false (sr_Disabled s);
  IsMultiModelRuntime := λ s, default false (sr_MultiModel s)
|}.

(** A ServingRuntime or ClusterServingRuntime: its name (and namespace, empty
    for the cluster scoped kind), its labels, annotations and spec. *)
Record ServingRuntime := mkRuntime {
  rt_Namespace : string;
  rt_Name : string;
  rt_Labels : gmap string string;
  rt_Annotations : gmap string string;
  rt_Spec : ServingRuntimeSpec
}.

(** The zero spec with given formats and protocol versions, for examples. *)
Definition bareSpec (fs : list SupportedModelFormat) (pvs : list string) : ServingRuntimeSpec :=
  mkSRSpec fs pvs (Some true) None None [] [] None None None None ∅ [] None ∅ ∅ [].
