(* ===== verification/ModelTypes.v ===== *)
(** * Model type labels and the type-constraints ConfigMap

    controllers/modelmesh/model_type_labels.go and cluster_config.go, and
    [runtimeSupportsPredictor] of controllers/servingruntime_controller.go.

    Two parts of the controller decide independently which runtimes may hold a
    Predictor: the scaling logic, through [runtimeSupportsPredictor], and
    model-mesh itself, through the constraints written to the ConfigMap and the
    labels given to each pod. The theorems show that they agree. *)

From S2P Require Import Prelude GoStrings Types K8s.
From Stdlib Require Import Ascii.

(** ** Labels *)

(** kserve's protocol version names (pkg/constants of kserve) *)
Class ProtocolNames := {
  ProtocolGRPCV2 : string;
  ProtocolV2 : string
}.

Definition protocolNamesImpl : ProtocolNames :=
  {| ProtocolGRPCV2 := "grpc-v2"; ProtocolV2 := "v2" |}.

Section Labels.
Context `{!ProtocolNames}.

(** The label [mt:name], and [mt:name:version] for a versioned format *)
Definition formatLabels (t : SupportedModelFormat) : gset string :=
  if default false (smf_AutoSelect t) then
    {[ "mt:" +:+ smf_Name t ]} ∪
    match smf_Version t with
    | Some v => {[ "mt:" +:+ smf_Name t +:+ ":" +:+ v ]}
    | None => ∅
    end
  else ∅.

Definition protocolLabels (restProxyEnabled : bool) (pv : string) : gset string :=
  {[ "pv:" +:+ pv ]} ∪
  (if restProxyEnabled && bool_decide (pv = ProtocolGRPCV2)
   then {[ "pv:" +:+ ProtocolV2 ]} else ∅).

Definition GetServingRuntimeLabelSets (rt : ServingRuntimeSpec) (restProxyEnabled : bool)
    (rtName : string) : gset string * gset string * string :=
  (foldl (λ s t, s ∪ formatLabels t) ∅ (sr_SupportedModelFormats rt),
   foldl (λ s pv, s ∪ protocolLabels restProxyEnabled pv) ∅ (sr_ProtocolVersions rt),
   "rt:" +:+ rtName).

Definition GetServingRuntimeLabelSet (rt : ServingRuntimeSpec) (restProxyEnabled : bool)
    (rtName : string) : gset string :=
  let '(s1, s2, l) := GetServingRuntimeLabelSets rt restProxyEnabled rtName in
  s1 ∪ s2 ∪ {[ l ]}.

(** [runtime.Name] goes through the embedded *RuntimeRef, which may be nil. *)
Definition GetPredictorTypeLabel (p : Predictor) : exec string :=
  let byType :=
    let mt := m_Type (ps_Model (p_Spec p)) in
    let label := "mt:" +:+ mt_Name mt in
    let label := match mt_Version mt with
                 | Some v => label +:+ ":" +:+ v
                 | None => label
                 end in
    match ps_ProtocolVersion (p_Spec p) with
    | Some pv => label +:+ "|pv:" +:+ pv
    | None => label
    end in
  match ps_Runtime (p_Spec p) with
  | None => Ret byType
  | Some runtime =>
      ref ← deref (pr_RuntimeRef runtime);
      Ret (if bool_decide (rr_Name ref = "") then byType else "rt:" +:+ rr_Name ref)
  end.

Definition runtimeSupportsPredictor (rt : ServingRuntimeSpec) (p : Predictor)
    (restProxyEnabled : bool) (rtName : string) : exec bool :=
  let runtimeLabelSet := GetServingRuntimeLabelSet rt restProxyEnabled rtName in
  predictorTypeString ← GetPredictorTypeLabel p;
  Ret (forallb (λ l, bool_decide (l ∈ runtimeLabelSet))
               (Split predictorTypeString "|"%char)).

(** ** Constraints *)

Context `{!KServeRuntime}.

Definition defaultTypeConstraint : string := "_default".
Definition ModelTypeLabelThatNoRuntimeSupports : string := "_no_runtime".

(** Each entry [{"required": [...]}] of the JSON object, by its required labels *)
Definition addRuntimeConstraints (restProxyEnabled : bool) (name : string)
    (spec : ServingRuntimeSpec) (m : gmap string (list string)) : gmap string (list string) :=
  if negb (IsDisabled spec) && IsMultiModelRuntime spec then
    let '(mtLabels, pvLabels, rtLabel) :=
      GetServingRuntimeLabelSets spec restProxyEnabled name in
    let m := <[rtLabel := [rtLabel]]> m in
    set_fold (λ l m,
      let m := <[l := [l]]> m in
      set_fold (λ pvl m, <[l +:+ "|" +:+ pvl := [l; pvl]]> m) m pvLabels) m mtLabels
  else m.

(** The map that [calculateConstraintData] marshals to JSON *)
Definition constraintMap (srSpecs : gmap string ServingRuntimeSpec)
    (restProxyEnabled : bool) : gmap string (list string) :=
  <[defaultTypeConstraint := [ModelTypeLabelThatNoRuntimeSupports]]>
    (map_fold (addRuntimeConstraints restProxyEnabled) ∅ srSpecs).

(** json.Marshal of the map is an argument. *)
Definition calculateConstraintData {bytes : Type}
    (Marshal : gmap string (list string) → bytes)
    (srSpecs : gmap string ServingRuntimeSpec) (restProxyEnabled : bool) : bytes :=
  Marshal (constraintMap srSpecs restProxyEnabled).
End Labels.

(** ** Lemmas on label sets *)

Lemma elem_of_foldl_union {A} (f : A → gset string) (l : list A) (s : gset string) x :
  x ∈ foldl (λ s t, s ∪ f t) s l ↔ x ∈ s ∨ ∃ t, t ∈ l ∧ x ∈ f t.
Proof.
  revert s. induction l as [|t l IH]; intros s; simpl; [set_solver|].
  rewrite IH. set_solver.
Qed.

Section LabelLemmas.
Context `{!ProtocolNames, !KServeRuntime}.
Implicit Types (spec : ServingRuntimeSpec) (rest : bool).

Definition mtLabels spec rest name := (GetServingRuntimeLabelSets spec rest name).1.1.
Definition pvLabels spec rest name := (GetServingRuntimeLabelSets spec rest name).1.2.

(** The three families of labels are told apart by their prefix. *)
Lemma mtLabels_prefix spec rest name l :
  l ∈ mtLabels spec rest name → ∃ t, l = "mt:" +:+ t.
Proof.
  unfold mtLabels; simpl. rewrite elem_of_foldl_union.
  intros [?|(f & _ & Hl)]; [set_solver|].
  unfold formatLabels in Hl. destruct (default false _); [|set_solver].
  destruct (smf_Version f); set_solver.
Qed.

Lemma pvLabels_prefix spec rest name l :
  l ∈ pvLabels spec rest name → ∃ t, l = "pv:" +:+ t.
Proof.
  unfold pvLabels; simpl. rewrite elem_of_foldl_union.
  intros [?|(f & _ & Hl)]; [set_solver|].
  unfold protocolLabels in Hl. destruct (_ && _); set_solver.
Qed.

Lemma elem_of_label_set spec rest name l :
  l ∈ GetServingRuntimeLabelSet spec rest name ↔
  l ∈ mtLabels spec rest name ∨ l ∈ pvLabels spec rest name ∨ l = "rt:" +:+ name.
Proof. unfold GetServingRuntimeLabelSet, mtLabels, pvLabels; simpl. set_solver. Qed.

Lemma label_mt spec rest name t :
  "mt:" +:+ t ∈ GetServingRuntimeLabelSet spec rest name ↔
  "mt:" +:+ t ∈ mtLabels spec rest name.
Proof.
  rewrite elem_of_label_set. split; [|by left].
  intros [?|[[u Hu]%pvLabels_prefix|Hu]]; [done|discriminate Hu..].
Qed.

Lemma label_pv spec rest name t :
  "pv:" +:+ t ∈ GetServingRuntimeLabelSet spec rest name ↔
  "pv:" +:+ t ∈ pvLabels spec rest name.
Proof.
  rewrite elem_of_label_set. split; [|by right; left].
  intros [[u Hu]%mtLabels_prefix|[?|Hu]]; [discriminate Hu|done|discriminate Hu].
Qed.

Lemma label_rt spec rest name t :
  "rt:" +:+ t ∈ GetServingRuntimeLabelSet spec rest name ↔ t = name.
Proof.
  rewrite elem_of_label_set. split; [|by intros ->; right; right].
  intros [[u Hu]%mtLabels_prefix|[[u Hu]%pvLabels_prefix|Hu]];
    [discriminate Hu..|]. by injection Hu.
Qed.

(** No runtime carries the label that marks the default constraint. *)
Lemma no_runtime_label spec rest name :
  ModelTypeLabelThatNoRuntimeSupports ∉ GetServingRuntimeLabelSet spec rest name.
Proof.
  rewrite elem_of_label_set.
  intros [[u Hu]%mtLabels_prefix|[[u Hu]%pvLabels_prefix|Hu]]; discriminate Hu.
Qed.

(** ** The entries of the constraint map *)

(** The entry that the runtime [name] contributes under key [k] *)
Inductive constraint_of rest name spec : string → list string → Prop :=
| constraint_rt : constraint_of rest name spec ("rt:" +:+ name) ["rt:" +:+ name]
| constraint_mt l :
    l ∈ mtLabels spec rest name → constraint_of rest name spec l [l]
| constraint_mt_pv l pvl :
    l ∈ mtLabels spec rest name → pvl ∈ pvLabels spec rest name →
    constraint_of rest name spec (l +:+ "|" +:+ pvl) [l; pvl].

Definition eligible spec : bool := negb (IsDisabled spec) && IsMultiModelRuntime spec.

Lemma set_fold_insert_sound {A} `{Countable A} (f : A → string) (g : A → list string)
    (X : gset A) (m : gmap string (list string)) k req :
  set_fold (λ a m, <[f a := g a]> m) m X !! k = Some req →
  m !! k = Some req ∨ ∃ a, a ∈ X ∧ k = f a ∧ req = g a.
Proof.
  revert k req.
  apply (set_fold_ind_L (λ r X, ∀ k req, r !! k = Some req →
    m !! k = Some req ∨ ∃ a, a ∈ X ∧ k = f a ∧ req = g a)); [by left|].
  intros x Y r Hx IH k req. rewrite lookup_insert. case_decide as Hk.
  - intros [= <-]. right. exists x. set_solver.
  - intros [?|(a & ? & ? & ?)]%IH; [by left|]. right. exists a. set_solver.
Qed.

Lemma set_fold_insert_complete {A} `{Countable A} (f : A → string) (g : A → list string)
    (X : gset A) (m : gmap string (list string)) k :
  is_Some (m !! k) ∨ (∃ a, a ∈ X ∧ k = f a) →
  is_Some (set_fold (λ a m, <[f a := g a]> m) m X !! k).
Proof.
  revert k.
  apply (set_fold_ind_L (λ r X, ∀ k, is_Some (m !! k) ∨ (∃ a, a ∈ X ∧ k = f a) →
    is_Some (r !! k))); [set_solver|].
  intros x Y r Hx IH k Hk. rewrite lookup_insert. case_decide; [done|].
  apply IH. destruct Hk as [?|(a & Ha & ->)]; [by left|].
  right. exists a. split; [|done]. set_solver.
Qed.

Lemma addRuntimeConstraints_sound rest name spec m k req :
  addRuntimeConstraints rest name spec m !! k = Some req →
  m !! k = Some req ∨ eligible spec = true ∧ constraint_of rest name spec k req.
Proof.
  unfold addRuntimeConstraints, eligible. destruct (_ && _) eqn:He; [|by left].
  destruct (GetServingRuntimeLabelSets spec rest name) as [[mts pvs] rtl] eqn:E.
  assert (mts = mtLabels spec rest name) as -> by (unfold mtLabels; by rewrite E).
  assert (pvs = pvLabels spec rest name) as -> by (unfold pvLabels; by rewrite E).
  assert (rtl = "rt:" +:+ name) as -> by (by injection E).
  revert k req.
  apply (set_fold_ind_L (λ r X, X ⊆ mtLabels spec rest name → ∀ k req,
    r !! k = Some req →
    m !! k = Some req ∨ true = true ∧ constraint_of rest name spec k req)); [| |done].
  - intros _ k req. rewrite lookup_insert. case_decide as Hk; [|by left].
    intros [= <-]. subst k. right. split; [done|constructor].
  - intros l X r Hl IH Hsub k req [Hr|(pvl & Hpv & -> & ->)]%set_fold_insert_sound.
    + rewrite lookup_insert in Hr. case_decide as Hk; [|by apply IH; [set_solver|]].
      injection Hr as <-. subst k. right. split; [done|]. constructor. set_solver.
    + right. split; [done|]. constructor; set_solver.
Qed.

Lemma addRuntimeConstraints_complete rest name spec m k :
  is_Some (m !! k) ∨ (eligible spec = true ∧ ∃ req, constraint_of rest name spec k req) →
  is_Some (addRuntimeConstraints rest name spec m !! k).
Proof.
  unfold addRuntimeConstraints, eligible. destruct (_ && _) eqn:He; [|naive_solver].
  destruct (GetServingRuntimeLabelSets spec rest name) as [[mts pvs] rtl] eqn:E.
  assert (mts = mtLabels spec rest name) as -> by (unfold mtLabels; by rewrite E).
  assert (pvs = pvLabels spec rest name) as -> by (unfold pvLabels; by rewrite E).
  assert (rtl = "rt:" +:+ name) as -> by (by injection E).
  intros Hk.
  assert (is_Some (m !! k) ∨ k = "rt:" +:+ name ∨ ∃ l, l ∈ mtLabels spec rest name ∧
    (k = l ∨ ∃ pvl, pvl ∈ pvLabels spec rest name ∧ k = l +:+ "|" +:+ pvl)) as Hk'.
  { destruct Hk as [?|[_ [req Hc]]]; [by left|]. right. destruct Hc; naive_solver. }
  clear Hk. revert k Hk'.
  apply (set_fold_ind_L (λ r X, ∀ k,
    (is_Some (m !! k) ∨ k = "rt:" +:+ name ∨ ∃ l, l ∈ X ∧
      (k = l ∨ ∃ pvl, pvl ∈ pvLabels spec rest name ∧ k = l +:+ "|" +:+ pvl)) →
    is_Some (r !! k))).
  - intros k Hk. rewrite lookup_insert. case_decide; [done|]. set_solver.
  - intros l X r Hl IH k Hk. apply set_fold_insert_complete.
    destruct Hk as [?|[?|(l' & Hl' & Hk)]].
    1,2: left; rewrite lookup_insert; case_decide; [done|]; apply IH; auto.
    apply elem_of_union in Hl' as [->%elem_of_singleton|Hl'].
    + destruct Hk as [->|Hk]; [left|by right].
      rewrite lookup_insert. by case_decide.
    + left. rewrite lookup_insert. case_decide; [done|]. apply IH. right. right. eauto.
Qed.

Lemma constraintMap_sound srSpecs rest k req :
  constraintMap srSpecs rest !! k = Some req →
  (k = defaultTypeConstraint ∧ req = [ModelTypeLabelThatNoRuntimeSupports]) ∨
  ∃ name spec, srSpecs !! name = Some spec ∧ eligible spec = true ∧
               constraint_of rest name spec k req.
Proof.
  unfold constraintMap. rewrite lookup_insert. case_decide as Hk.
  { intros [= <-]. by left. }
  intros Hm. right. revert k req Hk Hm.
  apply (map_fold_weak_ind (λ r srSpecs, ∀ k req, defaultTypeConstraint ≠ k →
    r !! k = Some req → ∃ name spec, srSpecs !! name = Some spec ∧
      eligible spec = true ∧ constraint_of rest name spec k req));
    [by intros ???; rewrite lookup_empty|].
  intros name spec M r Hnone IH k req Hk [Hr|[He Hc]]%addRuntimeConstraints_sound.
  - destruct (IH k req Hk Hr) as (n & s & Hn & ?). exists n, s.
    rewrite lookup_insert_ne by congruence. done.
  - exists name, spec. by rewrite lookup_insert_eq.
Qed.

Lemma constraintMap_complete srSpecs rest name spec k req :
  srSpecs !! name = Some spec → eligible spec = true →
  constraint_of rest name spec k req → is_Some (constraintMap srSpecs rest !! k).
Proof.
  intros Hn He Hc. unfold constraintMap. rewrite lookup_insert. case_decide; [done|].
  revert Hn.
  apply (map_fold_weak_ind (λ r srSpecs, srSpecs !! name = Some spec → is_Some (r !! k)));
    [by rewrite lookup_empty|].
  intros n s M r Hnone IH. rewrite lookup_insert. case_decide as Hn.
  - intros [= ->]. subst n. apply addRuntimeConstraints_complete. eauto.
  - intros HM. apply addRuntimeConstraints_complete. left. eauto.
Qed.
End LabelLemmas.

(** ** Placement: the controller and model-mesh agree *)

(** The separator of combined type labels does not occur in the names a
    Predictor or a runtime declares. *)
Definition bar_free (s : string) : Prop := has_char "|"%char s = false.

Definition spec_bar_free (spec : ServingRuntimeSpec) : Prop :=
  Forall (λ t, bar_free (smf_Name t) ∧ from_option bar_free True (smf_Version t))
         (sr_SupportedModelFormats spec).

Definition predictor_bar_free (p : Predictor) : Prop :=
  let mt := m_Type (ps_Model (p_Spec p)) in
  bar_free (mt_Name mt) ∧ from_option bar_free True (mt_Version mt) ∧
  from_option bar_free True (ps_ProtocolVersion (p_Spec p)) ∧
  from_option bar_free True
    (rt ← ps_Runtime (p_Spec p); rr_Name <$> pr_RuntimeRef rt).

(** model-mesh's documented rule: a model of type [ty] may be placed on an
    instance that carries every label required for [ty], types without an entry
    falling under [_default]. *)
Definition mm_may_place (m : gmap string (list string)) (ty : string)
    (labels : gset string) : Prop :=
  match m !! ty with
  | Some req => Forall (λ l, l ∈ labels) req
  | None => from_option (Forall (λ l, l ∈ labels)) True (m !! defaultTypeConstraint)
  end.

Section Placement.
Context `{!ProtocolNames, !KServeRuntime}.
Implicit Types (spec : ServingRuntimeSpec) (rest : bool).

Lemma bar_free_app s t : bar_free (s +:+ t) ↔ bar_free s ∧ bar_free t.
Proof. unfold bar_free. rewrite has_char_app. by rewrite orb_false_iff. Qed.

Lemma mtLabels_bar_free spec rest name l :
  spec_bar_free spec → l ∈ mtLabels spec rest name → bar_free l.
Proof.
  intros Hs. unfold mtLabels; simpl. rewrite elem_of_foldl_union.
  intros [?|(f & Hf & Hl)]; [set_solver|].
  unfold spec_bar_free in Hs. rewrite Forall_forall in Hs. destruct (Hs f Hf) as [Hn Hv].
  unfold formatLabels in Hl. destruct (default false _); [|set_solver].
  apply elem_of_union in Hl as [->%elem_of_singleton|Hl]; [by apply bar_free_app|].
  destruct (smf_Version f); [|set_solver]. apply elem_of_singleton in Hl as ->.
  rewrite !bar_free_app. done.
Qed.

(** The two shapes a Predictor's type label can take *)
Inductive type_label_shape : string → list string → Prop :=
| shape_rt t : bar_free t → type_label_shape ("rt:" +:+ t) ["rt:" +:+ t]
| shape_mt t : bar_free t → type_label_shape ("mt:" +:+ t) ["mt:" +:+ t]
| shape_mt_pv t v : bar_free t → bar_free v →
    type_label_shape ("mt:" +:+ t +:+ "|pv:" +:+ v) ["mt:" +:+ t; "pv:" +:+ v].

Lemma type_label_split L ls : type_label_shape L ls → Split L "|"%char = ls.
Proof.
  intros Hsh. unfold bar_free in *. destruct Hsh as [t Ht|t Ht|t v Ht Hv].
  - by apply Split_no_sep.
  - by apply Split_no_sep.
  - change ("mt:" +:+ t +:+ "|pv:" +:+ v)
      with (("mt:" +:+ t) +:+ String "|" ("pv:" +:+ v)).
    rewrite Split_app by done. f_equal. by apply Split_no_sep.
Qed.

Lemma GetPredictorTypeLabel_shape p L :
  predictor_bar_free p → GetPredictorTypeLabel p = Ret L →
  type_label_shape L (Split L "|"%char).
Proof.
  intros (Hn & Hv & Hp & Hr) HL.
  assert (∃ ls, type_label_shape L ls) as [ls Hls].
  2:{ by rewrite (type_label_split _ _ Hls). }
  revert HL. unfold GetPredictorTypeLabel.
  set (byType := match ps_ProtocolVersion _ with Some _ => _ | None => _ end).
  assert (∃ ls, type_label_shape byType ls) as Hby.
  { subst byType. set (mt := m_Type _) in *.
    destruct (mt_Version mt) as [v|], (ps_ProtocolVersion _) as [pv|];
      rewrite <- ?str_app_assoc; simpl in *; eexists.
    - change ("mt:" +:+ mt_Name mt +:+ ":" +:+ v +:+ "|pv:" +:+ pv)
        with ("mt:" +:+ mt_Name mt +:+ (":" +:+ v) +:+ "|pv:" +:+ pv).
      rewrite (str_app_assoc (mt_Name mt)).
      apply shape_mt_pv; [by rewrite !bar_free_app|done].
    - apply shape_mt. by rewrite !bar_free_app.
    - by apply shape_mt_pv.
    - by apply shape_mt. }
  destruct (ps_Runtime _) as [rt|]; simpl in *; [|intros [= <-]; done].
  destruct (pr_RuntimeRef rt) as [[n]|]; simpl in *; [|done].
  case_bool_decide; intros [= <-]; [done|]. eexists. by apply shape_rt.
Qed.

(** Under a bar free spec an entry with a Predictor's type as key requires
    exactly the parts of the type. *)
Lemma constraint_of_split rest name spec L req ls :
  spec_bar_free spec → type_label_shape L ls → constraint_of rest name spec L req →
  req = ls.
Proof.
  intros Hs Hsh Hc.
  destruct Hc as [|l Hl|l pvl Hl Hpv].
  - remember ("rt:" +:+ name) as L eqn:E.
    destruct Hsh; [by rewrite E|discriminate E..].
  - assert (Hb := mtLabels_bar_free _ _ _ _ Hs Hl).
    rewrite <- (type_label_split _ _ Hsh). by rewrite Split_no_sep.
  - assert (Hb := mtLabels_bar_free _ _ _ _ Hs Hl).
    assert (Hsp := type_label_split _ _ Hsh).
    change (l +:+ "|" +:+ pvl) with (l +:+ String "|" pvl) in Hsp, Hsh.
    rewrite Split_app in Hsp by done.
    clear Hl Hpv Hb. remember (l +:+ String "|" pvl) as L eqn:E.
    destruct Hsh as [t Ht|t Ht|t v Ht Hv]; clear E.
    1,2: pose proof (Split_nonempty pvl "|"%char); congruence.
    injection Hsp as -> Hpvl. f_equal.
    rewrite <- (Join_Split pvl "|"%char), Hpvl. done.
Qed.

(** A runtime whose labels include every part of the type has an entry for it. *)
Lemma labels_constraint rest name spec L ls :
  type_label_shape L ls →
  Forall (λ l, l ∈ GetServingRuntimeLabelSet spec rest name) ls →
  constraint_of rest name spec L ls.
Proof.
  intros Hsh Hall. destruct Hsh as [t Ht|t Ht|t v Ht Hv].
  - apply Forall_singleton, label_rt in Hall as ->. constructor.
  - apply Forall_singleton, label_mt in Hall. by constructor.
  - apply Forall_cons in Hall as [H1%label_mt H2%Forall_singleton%label_pv].
    change ("mt:" +:+ t +:+ "|pv:" +:+ v)
      with (("mt:" +:+ t) +:+ "|" +:+ ("pv:" +:+ v)).
    by constructor.
Qed.

(** A runtime satisfies the entries it contributes. *)
Lemma constraint_labels rest name spec L req :
  constraint_of rest name spec L req →
  Forall (λ l, l ∈ GetServingRuntimeLabelSet spec rest name) req.
Proof. destruct 1; repeat constructor; apply elem_of_label_set; naive_solver. Qed.

Lemma runtimeSupports_iff spec p rest name L :
  GetPredictorTypeLabel p = Ret L →
  runtimeSupportsPredictor spec p rest name = Ret true ↔
  Forall (λ l, l ∈ GetServingRuntimeLabelSet spec rest name) (Split L "|"%char).
Proof.
  intros HL. unfold runtimeSupportsPredictor. rewrite HL. simpl.
  rewrite Forall_forall. split.
  - intros [= Hall] l Hl. rewrite forallb_forall in Hall.
    specialize (Hall l). rewrite bool_decide_eq_true in Hall.
    apply Hall. by apply list_elem_of_In.
  - intros Hall. f_equal. apply forallb_forall. intros l Hl.
    apply bool_decide_eq_true. apply Hall. by apply list_elem_of_In.
Qed.

(** C1: For every multi-model runtime that is listed and not disabled, the
    controller considers the runtime to support a Predictor
    ([runtimeSupportsPredictor]) exactly when model-mesh, applying the
    type-constraints ConfigMap to the labels of that runtime's pods, may place the
    Predictor's model there. Names are assumed free of the separator "|". *)
Theorem placement_agreement srSpecs rest p L name spec :
  (∀ n s, srSpecs !! n = Some s → spec_bar_free s) →
  predictor_bar_free p →
  GetPredictorTypeLabel p = Ret L →
  srSpecs !! name = Some spec →
  IsDisabled spec = false → IsMultiModelRuntime spec = true →
  runtimeSupportsPredictor spec p rest name = Ret true ↔
  mm_may_place (constraintMap srSpecs rest) L
               (GetServingRuntimeLabelSet spec rest name).
Proof.
  intros Hspecs Hp HL Hn Hd Hm.
  assert (Hsh := GetPredictorTypeLabel_shape p L Hp HL).
  rewrite (runtimeSupports_iff _ _ _ _ _ HL).
  assert (Hreq : ∀ req, constraintMap srSpecs rest !! L = Some req →
                        req = Split L "|"%char).
  { intros req [[-> _]|(n & s & Hn' & _ & Hc)]%constraintMap_sound.
    - inversion Hsh; discriminate.
    - eapply constraint_of_split; eauto. }
  assert (eligible spec = true) as He by (unfold eligible; by rewrite Hd, Hm).
  unfold mm_may_place. split.
  - intros Hall. destruct (constraintMap_complete srSpecs rest name spec L _ Hn He
                             (labels_constraint _ _ _ _ _ Hsh Hall)) as [req Hr].
    rewrite Hr. by rewrite (Hreq _ Hr).
  - destruct (constraintMap srSpecs rest !! L) as [req|] eqn:Hr.
    + by rewrite (Hreq _ eq_refl).
    + unfold constraintMap at 1. rewrite lookup_insert_eq. simpl.
      intros []%Forall_singleton%no_runtime_label.
Qed.

(** A Predictor type that no enabled multi-model runtime supports is caught by
    the default constraint, whose label no runtime carries: model-mesh places its
    model nowhere. *)
Theorem unsupported_type_placed_nowhere srSpecs rest p L :
  (∀ n s, srSpecs !! n = Some s → spec_bar_free s) →
  predictor_bar_free p →
  GetPredictorTypeLabel p = Ret L →
  (∀ n s, srSpecs !! n = Some s → IsDisabled s = false → IsMultiModelRuntime s = true →
          runtimeSupportsPredictor s p rest n = Ret false) →
  constraintMap srSpecs rest !! L = None ∧
  ∀ spec name, ¬ mm_may_place (constraintMap srSpecs rest) L
                   (GetServingRuntimeLabelSet spec rest name).
Proof.
  intros Hspecs Hp HL Hno.
  assert (Hsh := GetPredictorTypeLabel_shape p L Hp HL).
  assert (constraintMap srSpecs rest !! L = None) as Hnone.
  { destruct (constraintMap srSpecs rest !! L) as [req|] eqn:Hr; [|done].
    destruct (constraintMap_sound _ _ _ _ Hr) as [[-> _]|(n & s & Hn & He & Hc)].
    { inversion Hsh; discriminate. }
    pose proof (constraint_of_split _ _ _ _ _ _ (Hspecs _ _ Hn) Hsh Hc) as ->.
    apply andb_true_iff in He as [He1%negb_true_iff He2].
    specialize (Hno n s Hn He1 He2).
    assert (runtimeSupportsPredictor s p rest n = Ret true) as Hyes.
    { apply (runtimeSupports_iff _ _ _ _ _ HL). eapply constraint_labels; eauto. }
    congruence. }
  split; [done|]. intros spec name. unfold mm_may_place. rewrite Hnone.
  unfold constraintMap. rewrite lookup_insert_eq. simpl.
  by intros []%Forall_singleton%no_runtime_label.
Qed.
End Placement.

(** ** Witnesses *)

Definition ex_spec : ServingRuntimeSpec :=
  bareSpec [mkFormat "sklearn" (Some "0") (Some true); mkFormat "keras" None None]
           ["grpc-v2"].
Definition ex_predictor (ty : string) (v pv : option string) : Predictor :=
  mkPredictor (mkMeta "p" "ns" "1" None ∅ ∅)
    (mkPredictorSpec None (mkModel (mkModelType ty v) "" None None) None None pv)
    defaultStatus.
Definition ex_specs : gmap string ServingRuntimeSpec := {["mlserver" := ex_spec]}.

Lemma ex_specs_bar_free n s : ex_specs !! n = Some s → spec_bar_free s.
Proof. unfold ex_specs. intros [_ <-]%lookup_singleton_Some. repeat constructor. Qed.

(** A scikit-learn model with protocol v2 is supported through the REST proxy. *)
Lemma placement_agreement_witness :
  @mm_may_place
    (@constraintMap protocolNamesImpl kserveImpl ex_specs true)
    "mt:sklearn:0|pv:v2"
    (@GetServingRuntimeLabelSet protocolNamesImpl ex_spec true "mlserver").
Proof.
  apply (@placement_agreement protocolNamesImpl kserveImpl ex_specs true
           (ex_predictor "sklearn" (Some "0") (Some "v2")) _ "mlserver" ex_spec).
  - exact ex_specs_bar_free.
  - repeat split.
  - reflexivity.
  - reflexivity.
  - reflexivity.
  - reflexivity.
  - vm_compute. reflexivity.
Defined.

(** A format that is not auto-selected is supported by nobody. *)
Lemma unsupported_type_placed_nowhere_witness :
  @constraintMap protocolNamesImpl kserveImpl ex_specs true !! "mt:keras" = None.
Proof.
  apply (@unsupported_type_placed_nowhere protocolNamesImpl kserveImpl ex_specs true
           (ex_predictor "keras" None None)).
  - exact ex_specs_bar_free.
  - repeat split.
  - reflexivity.
  - unfold ex_specs. intros n s [<- <-]%lookup_singleton_Some _ _. vm_compute. reflexivity.
Defined.
