(* ===== verification/Registry.v ===== *)
(** * The registry interface and the Predictor CR registry

    pkg/predictor_source/predictor_source.go and predictor_registry.go. The
    controllers reach every source of Predictors through the PredictorRegistry
    interface; [PredictorRegistry] is its record of operations and
    [RegistryLaws] what the controllers' theorems rely on. *)

From S2P Require Import Prelude GoStrings Types.
From Stdlib Require Import Ascii.

(** ** Source prefixes *)

(** [i] is -1 (here [None]) or the index of the last underscore. *)
Definition ResolveSource (nn : NamespacedName) (defaultSource : string)
  : exec (NamespacedName * string) :=
  let namespace := Namespace nn in
  let i := LastIndex namespace "_" in
  ns ← slice namespace (match i with Some j => S j | None => 0 end)
             (String.length namespace);
  let nn := mkNN ns (Name nn) in
  match i with
  | None | Some 0 => Ret (nn, defaultSource)
  | Some j => src ← slice namespace 0 j; Ret (nn, src)
  end.

(** ** The interface *)

(** A predicate passed to Find may update variables of its caller (getPVCs
    collects names): it takes and returns that state. *)
Record PredictorRegistry := mkRegistry {
  reg_Get : NamespacedName → exec (result error (option Predictor));
  reg_Find : ∀ {St : Type}, string → (St → Predictor → exec (St * bool)) → St →
             exec (St * result error bool);
  reg_UpdateStatus : Predictor → result error bool;
  reg_GetSourceName : string
}.

(** The range loop of every Find: stop at the first match. *)
Fixpoint find_loop {St A : Type} (visit : St → A → exec (St * bool)) (s : St)
    (items : list A) : exec (St * bool) :=
  match items with
  | [] => Ret (s, false)
  | x :: rest =>
      '(s', found) ← visit s x;
      if found : bool then Ret (s', true) else find_loop visit s' rest
  end.

(** What the clients rely on: Get answers with the object it was asked for, and
    Find does not overlook what Get sees. The predicate of the second law does
    not depend on the status, which Find need not fill in. *)
Class RegistryLaws (r : PredictorRegistry) := {
  get_name n p :
    reg_Get r n = Ret (Ok (Some p)) →
    mkNN (om_Namespace (p_Meta p)) (om_Name (p_Meta p)) = n;
  find_complete n p (f : unit → Predictor → exec (unit * bool)) :
    reg_Get r n = Ret (Ok (Some p)) →
    (∀ q st, f tt (set_Status st q) = f tt q) →
    f tt p = Ret (tt, true) →
    match reg_Find r (Namespace n) f tt with
    | Ret (_, Ok b) => b = true
    | _ => True
    end
}.

(** ** PredictorCRRegistry *)

(** The Kubernetes client, as far as the registries use it: reads from the
    informer cache and a status write. *)
Record ObjectClient (O : Type) := mkClient {
  cl_Get : NamespacedName → result error O;
  cl_List : string → result error (list O);
  cl_StatusUpdate : O → option error
}.
Arguments mkClient {O} _ _ _.
Arguments cl_Get {O} _ _.
Arguments cl_List {O} _ _.
Arguments cl_StatusUpdate {O} _ _.

(** The informer cache answers Get and List from one snapshot: an object found
    by name has that name and is part of its namespace's list. *)
Class ClientLaws {O} (name_of : O → NamespacedName) (c : ObjectClient O) := {
  cl_get_name n o : cl_Get c n = Ok o → name_of o = n;
  cl_get_listed n o l : cl_Get c n = Ok o → cl_List c (Namespace n) = Ok l → o ∈ l
}.

Definition predictor_nn (p : Predictor) : NamespacedName :=
  mkNN (om_Namespace (p_Meta p)) (om_Name (p_Meta p)).

Section CRRegistry.
Variable Client : ObjectClient Predictor.

Definition PredictorCRRegistry_Get (name : NamespacedName)
  : exec (result error (option Predictor)) :=
  match cl_Get Client name with
  | Err e => Ret (Err e)
  | Ok p => Ret (Ok (Some p))
  end.

Definition PredictorCRRegistry_Find {St : Type} (namespace : string)
    (predicate : St → Predictor → exec (St * bool)) (s : St)
  : exec (St * result error bool) :=
  match cl_List Client namespace with
  | Err e => Ret (s, Err e)
  | Ok items =>
      r ← find_loop predicate s items;
      Ret (r.1, Ok r.2)
  end.

Definition PredictorCRRegistry_UpdateStatus (predictor : Predictor) : result error bool :=
  match cl_StatusUpdate Client predictor with
  | Some e => if IsConflict e then Ok false else Err e
  | None => Ok true
  end.

Definition PredictorCRRegistry_GetSourceName : string := "Predictor".

Definition PredictorCRRegistry : PredictorRegistry :=
  mkRegistry PredictorCRRegistry_Get (@PredictorCRRegistry_Find)
             PredictorCRRegistry_UpdateStatus PredictorCRRegistry_GetSourceName.
End CRRegistry.

(** ** Lemmas *)

(** A loop that visits an element satisfying a state-independent visit stops
    with a match (or panics before it gets there). *)
Lemma find_loop_complete {A : Type} (visit : unit → A → exec (unit * bool)) items x :
  x ∈ items → visit tt x = Ret (tt, true) →
  match find_loop visit tt items with Ret (_, b) => b = true | Panic => True end.
Proof.
  induction 1 as [x l|x y l Hin IH]; intros Hx; simpl.
  - by rewrite Hx.
  - destruct (visit tt y) as [[[] b]|]; simpl; [|done].
    destruct b; [done|]. by apply IH.
Qed.

#[export] Instance PredictorCRRegistry_laws Client :
  ClientLaws predictor_nn Client → RegistryLaws (PredictorCRRegistry Client).
Proof.
  intros HC. split; simpl.
  - unfold PredictorCRRegistry_Get. intros n p.
    destruct (cl_Get Client n) eqn:E; [|done]. intros [= <-].
    by apply (cl_get_name (name_of := predictor_nn) n _ E).
  - unfold PredictorCRRegistry_Get, PredictorCRRegistry_Find. intros n p f.
    destruct (cl_Get Client n) eqn:E; [|done]. intros [= <-] _ Hf.
    destruct (cl_List Client (Namespace n)) as [items|] eqn:El; [|done].
    pose proof (find_loop_complete f items _ (cl_get_listed (name_of := predictor_nn) _ _ _ E El) Hf) as Hl.
    destruct (find_loop f tt items) as [[[] b]|]; done.
Qed.

(** ResolveSource on a prefixed name: the inverse of [prefixName]. *)
Lemma ResolveSource_prefixed src ns name d :
  src ≠ "" → has_char "_"%char ns = false →
  ResolveSource (mkNN (src +:+ "_" +:+ ns) name) d = Ret (mkNN ns name, src).
Proof.
  intros Hsrc Hns. unfold ResolveSource. cbn [Namespace Name].
  change (src +:+ "_" +:+ ns) with (src +:+ String "_" ns).
  rewrite LastIndex_char_app by done.
  change (src +:+ String "_" ns) with (src +:+ "_" +:+ ns).
  rewrite (str_app_assoc src "_" ns).
  replace (S (String.length src)) with (String.length (src +:+ "_"))
    by (rewrite str_length_app; simpl; lia).
  rewrite slice_from_app. simpl.
  rewrite <- str_app_assoc.
  rewrite slice_ok by (rewrite ?str_length_app; lia).
  destruct src; [done|]. simpl. rewrite str_take_app. done.
Qed.

(** A namespace without underscore, which is every Kubernetes namespace, belongs
    to the default source. *)
Lemma ResolveSource_plain ns name d :
  has_char "_"%char ns = false →
  ResolveSource (mkNN ns name) d = Ret (mkNN ns name, d).
Proof.
  intros Hns. unfold ResolveSource. cbn [Namespace Name].
  rewrite LastIndex_char_None by done.
  rewrite slice_ok by lia. simpl. rewrite Nat.sub_0_r, str_take_all. done.
Qed.

Lemma LastIndex_bound s c i :
  LastIndex s (String c "") = Some i → S i ≤ String.length s.
Proof.
  revert i. induction s as [|d s IH]; intros i; simpl; [done|].
  destruct (LastIndex s (String c "")) as [j|] eqn:E.
  - intros [= <-]. specialize (IH j eq_refl). lia.
  - destruct (ascii_dec c d); [|done]. destruct s; intros [= <-]; simpl; lia.
Qed.

(** ResolveSource never slices out of range. *)
Lemma ResolveSource_total nn d : ∃ r, ResolveSource nn d = Ret r.
Proof.
  destruct nn as [ns name]. unfold ResolveSource. cbn [Namespace Name].
  destruct (LastIndex ns "_") as [i|] eqn:E.
  - apply LastIndex_bound in E. rewrite !slice_ok by lia. simpl.
    destruct i; by eexists.
  - rewrite slice_ok by lia. by eexists.
Qed.
