(* ===== verification/ISVCRegistry.v ===== *)
(** * The InferenceService registry

    pkg/predictor_source/inferenceservice_registry.go: InferenceServices in
    ModelMesh deployment mode seen as Predictors, and Predictor statuses written
    back to them. *)

From S2P Require Import Prelude GoStrings Types Registry.
From Stdlib Require Import Ascii.

(** ** kserve v1beta1 InferenceService *)

Record PredictorExtensionSpec := mkExt {
  pe_StorageURI : option string;
  pe_ProtocolVersion : option string;
  pe_Storage : option StorageSpec
}.

Record ModelSpec := mkModelSpec {
  ms_FormatName : string;
  ms_FormatVersion : option string;
  ms_Runtime : option string;
  ms_Ext : PredictorExtensionSpec
}.

Record ISVCPredictorSpec := mkISVCSpec {
  is_XGBoost : option PredictorExtensionSpec;
  is_LightGBM : option PredictorExtensionSpec;
  is_SKLearn : option PredictorExtensionSpec;
  is_Tensorflow : option PredictorExtensionSpec;
  is_ONNX : option PredictorExtensionSpec;
  is_PyTorch : option PredictorExtensionSpec;
  is_Triton : option PredictorExtensionSpec;
  is_PMML : option PredictorExtensionSpec;
  is_Model : option ModelSpec
}.

(** The v1beta1 FailureInfo, as far as it is read and written: the model is named by its
    revision. *)
Record ISVCFailureInfo := mkISVCFailureInfo {
  if_Location : string;
  if_Reason : FailureReason;
  if_Message : string;
  if_ModelRevisionName : string;
  if_Time : option Z
}.

(** knative's conditions and URLs, and net/url, are not part of the repository. *)
Class Knative := {
  URL : Type;
  ParseURL : string → result error (option URL);
  URL_String : URL → string;
  Conditions : Type;
  noConditions : Conditions;
  MarkTrue : Conditions → Conditions;
  MarkFalse : Conditions → Conditions;
  IsConditionReady : Conditions → bool;
  ready_MarkTrue c : IsConditionReady (MarkTrue c) = true;
  ready_MarkFalse c : IsConditionReady (MarkFalse c) = false
}.

(** A parsed net/url URL: the parts the code uses, the remaining ones opaque *)
Record NetUrl := mkUrl { u_Scheme : string; u_Host : string; u_Path : string; u_Rest : string }.

Class NetURL := {
  url_Parse : string → result error NetUrl;
  url_String : NetUrl → string
}.

(** Names defined by kserve's constants package *)
Class ISVCNames := {
  DeploymentMode : string;
  ModelMeshDeployment : string;
  ProtocolUnknown : string;
  PredictorComponent : string
}.

Section ISVC.
Context `{!Knative, !NetURL, !ISVCNames}.

Record ComponentStatus := mkComponent {
  cs_URL : option URL;
  cs_GrpcURL : option URL;
  cs_RestURL : option URL
}.

Record ISVCStatus := mkISVCStatus {
  iss_TransitionStatus : TransitionStatus;
  (** ModelCopies: failed and total *)
  iss_ModelCopies : option (Z * Z);
  (** ModelRevisionStates: active and target *)
  iss_ModelRevisionStates : option (ModelState * ModelState);
  iss_LastFailureInfo : option ISVCFailureInfo;
  iss_URL : option URL;
  iss_Components : gmap string ComponentStatus;
  iss_Conditions : Conditions
}.

Definition emptyISVCStatus : ISVCStatus :=
  mkISVCStatus NoTransitionStatus None None None None ∅ noConditions.

Record InferenceService := mkISVC {
  isvc_Meta : ObjectMeta;
  isvc_Spec : ISVCPredictorSpec;
  isvc_Status : ISVCStatus
}.

Definition secretKeyAnnotation : string := "serving.kserve.io/secretKey".
Definition schemaPathAnnotation : string := "serving.kserve.io/schemaPath".
Definition runtimeAnnotation : string := "serving.kserve.io/servingRuntime".
Definition azureBlobHostSuffix : string := "blob.core.windows.net".

(** ** Translation of the spec *)

Definition getPredictorFramework (s : ISVCPredictorSpec)
  : string * option PredictorExtensionSpec :=
  if is_XGBoost s then ("xgboost", is_XGBoost s)
  else if is_LightGBM s then ("lightgbm", is_LightGBM s)
  else if is_SKLearn s then ("sklearn", is_SKLearn s)
  else if is_Tensorflow s then ("tensorflow", is_Tensorflow s)
  else if is_ONNX s then ("onnx", is_ONNX s)
  else if is_PyTorch s then ("pytorch", is_PyTorch s)
  else if is_Triton s then ("triton", is_Triton s)
  else if is_PMML s then ("pmml", is_PMML s)
  else ("", None).

Definition knownProtocol (pv : option string) : option string :=
  match pv with
  | Some v => if bool_decide (v = ProtocolUnknown) then None else Some v
  | None => None
  end.

Definition runtimeNamed (n : string) : PredictorRuntime :=
  mkPredictorRuntime (Some (mkRuntimeRef n)).

(** The Predictor without status and storage; [Ok None] stands for (nil, nil). *)
Definition BuildBasePredictorFromInferenceService (isvc : InferenceService)
  : result error (option Predictor) :=
  let annotations := om_Annotations (isvc_Meta isvc) in
  if bool_decide (default "" (annotations !! DeploymentMode) ≠ ModelMeshDeployment)
  then Ok None
  else
    let '(framework, frameworkSpec) := getPredictorFramework (isvc_Spec isvc) in
    let base (ty : ModelType) (rt : option PredictorRuntime) (pv : option string) :=
      Ok (Some (mkPredictor (isvc_Meta isvc)
                 (mkPredictorSpec None (mkModel ty "" None None) None rt pv) zeroStatus)) in
    match is_Model (isvc_Spec isvc) with
    | Some m =>
        if frameworkSpec then
          Err (ErrMsg ("the InferenceService " +:+ om_Name (isvc_Meta isvc) +:+
                       " cannot have both the model spec and a framework spec (" +:+
                       framework +:+ ")"))
        else if annotations !! runtimeAnnotation then
          Err (ErrMsg ("the InferenceService " +:+ om_Name (isvc_Meta isvc) +:+
                       " cannot have both the model spec and the runtime annotation "
                       +:+ runtimeAnnotation))
        else base (mkModelType (ms_FormatName m) (ms_FormatVersion m))
                  (runtimeNamed <$> ms_Runtime m)
                  (knownProtocol (pe_ProtocolVersion (ms_Ext m)))
    | None =>
        match frameworkSpec with
        | None => Err (ErrMsg "no valid InferenceService predictor framework found")
        | Some fs => base (mkModelType framework None)
                          (runtimeNamed <$> annotations !! runtimeAnnotation)
                          (knownProtocol (pe_ProtocolVersion fs))
        end
    end.

(** ** Storage *)

(** The model path and the parameters encoded in a storage URI *)
Definition uriStorage (nname : NamespacedName) (storageUri : string)
  : result error (string * gmap string string) :=
  let who := Namespace nname +:+ "/" +:+ Name nname in
  match url_Parse storageUri with
  | Err e => Err (ErrWrap ("could not parse storageUri in InferenceService " +:+ who) e)
  | Ok u =>
      let path := TrimPrefix (u_Path u) "/" in
      let scheme := u_Scheme u in
      if bool_decide (scheme = "pvc") then
        Ok (path, <["name" := u_Host u]> {["type" := "pvc"]})
      else if bool_decide (scheme = "s3") then
        Ok (path, <["bucket" := u_Host u]> {["type" := "s3"]})
      else if bool_decide (scheme = "gs") then
        Ok (path, <["bucket" := u_Host u]> {["type" := "gcs"]})
      else if bool_decide (scheme = "http") || bool_decide (scheme = "https") then
        if HasSuffix (u_Host u) azureBlobHostSuffix then
          match Split path "/"%char, Split (u_Host u) "."%char with
          | container :: rest, account :: _ =>
              Ok (Join rest "/",
                  <["account_name" := account]> (<["container" := container]>
                    {["type" := "azure"]}))
          | _, _ => Err (ErrMsg ("the InferenceService " +:+ who +:+
                                 " has an invalid URL path " +:+ storageUri))
          end
        else Ok (path, <["url" := url_String (mkUrl scheme (u_Host u) "" (u_Rest u))]>
                         {["type" := "http"]})
      else Err (ErrMsg ("the InferenceService " +:+ who +:+
                        " has an unsupported storageUri scheme " +:+ scheme))
  end.

(** secretKey, parameters, modelPath and schemaPath *)
Definition processInferenceServiceStorage (isvc : InferenceService) (nname : NamespacedName)
  : exec (result error (option string * gmap string string * string * option string)) :=
  let who := Namespace nname +:+ "/" +:+ Name nname in
  pSpec ← deref (match is_Model (isvc_Spec isvc) with
                 | Some m => Some (ms_Ext m)
                 | None => (getPredictorFramework (isvc_Spec isvc)).2
                 end);
  let storageSpec := pe_Storage pSpec in
  let specPath : option string := storageSpec ≫= ss_Path in
  let located :=
    match pe_StorageURI pSpec with
    | None =>
        match specPath with
        | None => Err (ErrMsg ("the InferenceService " +:+ who +:+
                               " must have either the storageUri or the storage.path"))
        | Some p => Ok (p, ∅)
        end
    | Some uri =>
        if specPath then
          Err (ErrMsg ("the InferenceService " +:+ who +:+
                       " cannot have both the storageUri and the storage.path"))
        else uriStorage nname uri
    end in
  match located with
  | Err e => Ret (Err e)
  | Ok (modelPath, uriParameters) =>
      let annotations := om_Annotations (isvc_Meta isvc) in
      let secretKey := match storageSpec ≫= ss_StorageKey with
                       | Some k => Some k
                       | None => annotations !! secretKeyAnnotation
                       end in
      let schemaPath := match storageSpec ≫= ss_SchemaPath with
                        | Some p => Some p
                        | None => annotations !! schemaPathAnnotation
                        end in
      let parameters := match storageSpec ≫= ss_Parameters with
                        | Some ps => uriParameters ∪ ps
                        | None => uriParameters
                        end in
      Ret (Ok (secretKey, parameters, modelPath, schemaPath))
  end.

(** p.Spec.Storage filled in from the result *)
Definition withStorage (p : Predictor)
    (r : option string * gmap string string * string * option string) : Predictor :=
  let '(secretKey, parameters, modelPath, schemaPath) := r in
  let spec := p_Spec p in
  let m := ps_Model spec in
  mkPredictor (p_Meta p)
    (mkPredictorSpec (ps_ServiceAccountName spec)
       (mkModel (m_Type m) (m_Path m) (m_SchemaPath m)
          (Some (mkStorage
             (mkStorageSpec (Some modelPath) schemaPath (Some parameters) secretKey)
             None None)))
       (ps_Gpu spec) (ps_Runtime spec) (ps_ProtocolVersion spec))
    (p_Status p).

(** ** Status *)

(** The failure that Get reads, and the one that UpdateStatus writes *)
Definition failureFromISVC (i : ISVCFailureInfo) : FailureInfo :=
  {| fi_Location := if_Location i;
     fi_Reason := if_Reason i;
     fi_Message := if_Message i;
     fi_ModelId := if_ModelRevisionName i;
     fi_Time := if_Time i |}.

Definition isvcFromFailure (f : FailureInfo) : ISVCFailureInfo :=
  {| if_Location := fi_Location f;
     if_Reason := fi_Reason f;
     if_Message := fi_Message f;
     if_ModelRevisionName := fi_ModelId f;
     if_Time := fi_Time f |}.

(** The Predictor status that Get reads out of the InferenceService *)
Definition statusFromISVC (s : ISVCStatus) : PredictorStatus :=
  let comp := iss_Components s !! PredictorComponent in
  let ep (sel : ComponentStatus → option URL) :=
    from_option URL_String "" (comp ≫= sel) in
  let active := from_option fst NoModelState (iss_ModelRevisionStates s) in
  mkPredictorStatus (IsConditionReady (iss_Conditions s)) (iss_TransitionStatus s)
    (if bool_decide (active = NoModelState) then Pending else active)
    (from_option snd NoModelState (iss_ModelRevisionStates s))
    (failureFromISVC <$> iss_LastFailureInfo s)
    (ep cs_RestURL) (ep cs_GrpcURL)
    (from_option snd 0%Z (iss_ModelCopies s)) (from_option fst 0%Z (iss_ModelCopies s)).

(** The InferenceService object that UpdateStatus sends *)
Definition isvcFromStatus (predictor : Predictor) : result error InferenceService :=
  let st := p_Status predictor in
  let build url comps conds :=
    mkISVC (p_Meta predictor)
      (mkISVCSpec None None None None None None None None None)
      (mkISVCStatus (st_TransitionStatus st)
         (Some (FailedCopies st, TotalCopies st))
         (Some (ActiveModelState st, TargetModelState st))
         (isvcFromFailure <$> LastFailureInfo st) url comps conds) in
  if Available st then
    match ParseURL (GrpcEndpoint st) with
    | Err e => Err e
    | Ok grpcUrl =>
        match ParseURL (HTTPEndpoint st) with
        | Err e => Err e
        | Ok restUrl =>
            Ok (build grpcUrl {[PredictorComponent := mkComponent grpcUrl grpcUrl restUrl]}
                      (MarkTrue noConditions))
        end
    end
  else Ok (build None ∅ (MarkFalse noConditions)).

(** ** Registry functions *)

Variable Client : ObjectClient InferenceService.

Definition isvc_nn (i : InferenceService) : NamespacedName :=
  mkNN (om_Namespace (isvc_Meta i)) (om_Name (isvc_Meta i)).

Definition InferenceServiceRegistry_Get (nname : NamespacedName)
  : exec (result error (option Predictor)) :=
  match cl_Get Client nname with
  | Err e => Ret (Err e)
  | Ok isvc =>
      match BuildBasePredictorFromInferenceService isvc with
      | Err e => Ret (Err e)
      | Ok None => Ret (Ok None)
      | Ok (Some p) =>
          let p := set_Status (statusFromISVC (isvc_Status isvc)) p in
          storage ← processInferenceServiceStorage isvc nname;
          match storage with
          | Err e => Ret (Err e)
          | Ok r => Ret (Ok (Some (withStorage p r)))
          end
      end
  end.

(** One iteration of Find: an InferenceService that cannot be translated counts
    as a match. *)
Definition isvc_visit {St : Type} (predicate : St → Predictor → exec (St * bool)) (s : St)
    (isvc : InferenceService) : exec (St * bool) :=
  match BuildBasePredictorFromInferenceService isvc with
  | Err _ => Ret (s, true)
  | Ok None => Ret (s, false)
  | Ok (Some p) =>
      storage ← processInferenceServiceStorage isvc (isvc_nn isvc);
      match storage with
      | Err _ => Ret (s, true)
      | Ok r => predicate s (withStorage p r)
      end
  end.

Definition InferenceServiceRegistry_Find {St : Type} (namespace : string)
    (predicate : St → Predictor → exec (St * bool)) (s : St)
  : exec (St * result error bool) :=
  match cl_List Client namespace with
  | Err e => Ret (s, Err e)
  | Ok items =>
      r ← find_loop (isvc_visit predicate) s items;
      Ret (r.1, Ok r.2)
  end.

Definition InferenceServiceRegistry_UpdateStatus (predictor : Predictor)
  : result error bool :=
  match isvcFromStatus predictor with
  | Err e => Err e
  | Ok isvc =>
      match cl_StatusUpdate Client isvc with
      | Some e => if IsConflict e then Ok false else Err e
      | None => Ok true
      end
  end.

Definition InferenceServiceRegistry_GetSourceName : string := "InferenceService".

Definition InferenceServiceRegistry : PredictorRegistry :=
  mkRegistry InferenceServiceRegistry_Get (@InferenceServiceRegistry_Find)
    InferenceServiceRegistry_UpdateStatus InferenceServiceRegistry_GetSourceName.
End ISVC.

(** ** Lemmas *)

Section ISVCLemmas.
Context `{!Knative, !NetURL, !ISVCNames}.

Lemma BuildBase_shape isvc p :
  BuildBasePredictorFromInferenceService isvc = Ok (Some p) →
  p_Meta p = isvc_Meta isvc ∧
  m_Path (ps_Model (p_Spec p)) = "" ∧ m_SchemaPath (ps_Model (p_Spec p)) = None ∧
  from_option (λ rt, is_Some (pr_RuntimeRef rt)) True (ps_Runtime (p_Spec p)) ∧
  (is_Some (is_Model (isvc_Spec isvc)) ∨
   is_Some (getPredictorFramework (isvc_Spec isvc)).2).
Proof.
  unfold BuildBasePredictorFromInferenceService.
  case_bool_decide; [done|].
  destruct (getPredictorFramework (isvc_Spec isvc)) as [fw fs] eqn:Ef.
  destruct (is_Model (isvc_Spec isvc)) as [m|].
  - destruct fs; [done|]. destruct (_ !! runtimeAnnotation) eqn:Er; [done|].
    intros [= <-]. simpl. repeat split; [destruct (ms_Runtime m); simpl; eauto|left; eauto].
  - destruct fs; [|done]. intros [= <-]. simpl.
    repeat split; [destruct (_ !! runtimeAnnotation); simpl; eauto|right; eauto].
Qed.

(** Storage processing does not panic once the base Predictor could be built. *)
Lemma processStorage_total isvc p nname :
  BuildBasePredictorFromInferenceService isvc = Ok (Some p) →
  ∃ r, processInferenceServiceStorage isvc nname = Ret r.
Proof.
  intros (_ & _ & _ & _ & Hm)%BuildBase_shape. unfold processInferenceServiceStorage.
  destruct (is_Model (isvc_Spec isvc)) as [m|]; simpl.
  - destruct (match pe_StorageURI _ with Some _ => _ | None => _ end) as [[]|]; eauto.
  - destruct Hm as [[? ?]|[ext Hext]]; [done|]. rewrite Hext. simpl.
    destruct (match pe_StorageURI _ with Some _ => _ | None => _ end) as [[]|]; eauto.
Qed.

Lemma ISVC_Get_inv Client n p :
  InferenceServiceRegistry_Get Client n = Ret (Ok (Some p)) →
  ∃ isvc p0 r,
    cl_Get Client n = Ok isvc ∧
    BuildBasePredictorFromInferenceService isvc = Ok (Some p0) ∧
    processInferenceServiceStorage isvc n = Ret (Ok r) ∧
    p = withStorage (set_Status (statusFromISVC (isvc_Status isvc)) p0) r.
Proof.
  unfold InferenceServiceRegistry_Get. destruct (cl_Get Client n) as [isvc|] eqn:Eg; [|done].
  destruct (BuildBasePredictorFromInferenceService isvc) as [[p0|]|] eqn:Eb; [|done..].
  destruct (processInferenceServiceStorage isvc n) as [[r|]|] eqn:Es; simpl; [|done..].
  intros [= <-]. exists isvc, p0, r. done.
Qed.

Lemma p_Meta_withStorage p r : p_Meta (withStorage p r) = p_Meta p.
Proof. by destruct r as [[[??]?]?]. Qed.

Lemma set_Status_withStorage st p r :
  withStorage (set_Status st p) r = set_Status st (withStorage p r).
Proof. by destruct r as [[[??]?]?]. Qed.

(** The InferenceService registry satisfies the registry interface. *)
#[export] Instance InferenceServiceRegistry_laws Client :
  ClientLaws isvc_nn Client → RegistryLaws (InferenceServiceRegistry Client).
Proof.
  intros HC. split; simpl.
  - intros n p (isvc & p0 & r & Hg & Hb & Hs & ->)%ISVC_Get_inv.
    rewrite p_Meta_withStorage. simpl. destruct (BuildBase_shape _ _ Hb) as (-> & _).
    by apply (cl_get_name (name_of := isvc_nn) _ _ Hg).
  - intros n p f (isvc & p0 & r & Hg & Hb & Hs & ->)%ISVC_Get_inv Hst Hf.
    unfold InferenceServiceRegistry_Find.
    destruct (cl_List Client (Namespace n)) as [items|] eqn:El; [|done].
    assert (isvc_visit f tt isvc = Ret (tt, true)) as Hv.
    { unfold isvc_visit. rewrite Hb.
      rewrite (cl_get_name (name_of := isvc_nn) _ _ Hg), Hs. simpl.
      by rewrite set_Status_withStorage, Hst in Hf. }
    pose proof (find_loop_complete (isvc_visit f) items _
                  (cl_get_listed (name_of := isvc_nn) _ _ _ Hg El) Hv) as Hl.
    destruct (find_loop (isvc_visit f) tt items) as [[[] b]|]; done.
Qed.

(** The status that survives being written to an InferenceService and read back:
    an empty active state is read as Pending, and the endpoints are only kept
    while the Predictor is available. *)
Definition isvcNormalStatus (st : PredictorStatus) : PredictorStatus :=
  mkPredictorStatus (Available st) (st_TransitionStatus st)
    (if bool_decide (ActiveModelState st = NoModelState) then Pending
     else ActiveModelState st)
    (TargetModelState st) (LastFailureInfo st)
    (if Available st then HTTPEndpoint st else "")
    (if Available st then GrpcEndpoint st else "")
    (TotalCopies st) (FailedCopies st).

(** [ParseURL] followed by [String] reproduces an endpoint. *)
Definition url_faithful (ep : string) : Prop :=
  ∃ u, ParseURL ep = Ok u ∧ from_option URL_String "" u = ep.

Lemma failure_roundtrip (o : option FailureInfo) :
  failureFromISVC <$> (isvcFromFailure <$> o) = o.
Proof. by destruct o as [[]|]. Qed.

(** C36: A Predictor status whose endpoints are URLs (parsed and printed they are the same)
    written through the InferenceService registry is read back by Get as the same status,
    with every field of the last failure, except that an empty active state becomes
    Pending and the endpoints of an unavailable Predictor are dropped; and the
    InferenceService names the failed model as the revision that failed. *)
Theorem isvc_status_roundtrip p :
  url_faithful (GrpcEndpoint (p_Status p)) →
  url_faithful (HTTPEndpoint (p_Status p)) →
  ∃ isvc, isvcFromStatus p = Ok isvc ∧ isvc_nn isvc = predictor_nn p ∧
          statusFromISVC (isvc_Status isvc) = isvcNormalStatus (p_Status p) ∧
          if_ModelRevisionName <$> iss_LastFailureInfo (isvc_Status isvc) =
            fi_ModelId <$> LastFailureInfo (p_Status p).
Proof.
  intros (gu & Hg & Hgs) (hu & Hh & Hhs). destruct p as [meta spec st].
  unfold isvcFromStatus. simpl in *. destruct (Available st) eqn:Ea.
  - rewrite Hg, Hh. eexists. split; [done|]. split; [done|].
    unfold statusFromISVC, isvcNormalStatus. simpl.
    rewrite lookup_singleton_eq, failure_roundtrip. simpl.
    rewrite ready_MarkTrue, Hgs, Hhs, Ea. by destruct (LastFailureInfo st).
  - eexists. split; [done|]. split; [done|].
    unfold statusFromISVC, isvcNormalStatus. simpl.
    rewrite lookup_empty, failure_roundtrip. simpl. rewrite ready_MarkFalse, Ea.
    by destruct (LastFailureInfo st).
Qed.

(** The storage parameters of an InferenceService: those encoded in the
    storage URI take precedence over those of the storage spec, and no other
    parameter appears. *)
Theorem isvc_storage_parameters isvc nname sk params path schema m :
  is_Model (isvc_Spec isvc) = Some m →
  processInferenceServiceStorage isvc nname = Ret (Ok (sk, params, path, schema)) →
  let own := default ∅ (pe_Storage (ms_Ext m) ≫= ss_Parameters) in
  ∃ fromUri,
    match pe_StorageURI (ms_Ext m) with
    | Some uri => uriStorage nname uri = Ok (path, fromUri)
    | None => fromUri = ∅ ∧ pe_Storage (ms_Ext m) ≫= ss_Path = Some path
    end ∧
    ∀ k, params !! k = match fromUri !! k with Some v => Some v | None => own !! k end.
Proof.
  intros Hm. unfold processInferenceServiceStorage. rewrite Hm. simpl.
  set (own := pe_Storage (ms_Ext m) ≫= ss_Parameters).
  assert (Hun : ∀ u : gmap string string, ∀ k,
    (match own with Some ps => u ∪ ps | None => u end) !! k =
    match u !! k with Some v => Some v | None => default ∅ own !! k end).
  { intros u k. destruct own; simpl.
    - rewrite lookup_union. destruct (u !! k), (g !! k); done.
    - rewrite lookup_empty. by destruct (u !! k). }
  destruct (pe_StorageURI (ms_Ext m)) as [uri|].
  - destruct (pe_Storage (ms_Ext m) ≫= ss_Path); [done|].
    destruct (uriStorage nname uri) as [[mp u]|] eqn:Eu; [|done].
    intros [= _ <- <- _]. exists u. split; [done|]. apply Hun.
  - destruct (pe_Storage (ms_Ext m) ≫= ss_Path) as [pth|]; [|done].
    intros [= _ <- <- _]. exists ∅. split; [done|]. apply Hun.
Qed.
End ISVCLemmas.

(** ** Witnesses *)

Definition knativeImpl : Knative := {|
  URL := string;
  ParseURL := λ s, Ok (if bool_decide (s = "") then None else Some s);
  URL_String := λ u, u;
  Conditions := option bool;
  noConditions := None;
  MarkTrue := λ _, Some true;
  MarkFalse := λ _, Some false;
  IsConditionReady := λ c, default false c;
  ready_MarkTrue := λ _, eq_refl;
  ready_MarkFalse := λ _, eq_refl
|}.

(** Scheme, host and path of the URIs used below *)
Definition netUrlImpl : NetURL := {|
  url_Parse := λ s,
    match Split s "/"%char with
    | scheme :: _ :: host :: path =>
        Ok (mkUrl (str_take (String.length scheme - 1) scheme) host
                  ("/" +:+ Join path "/") "")
    | _ => Err (ErrMsg "invalid URL")
    end;
  url_String := λ u, u_Scheme u +:+ "://" +:+ u_Host u +:+ u_Path u
|}.

Definition isvcNamesImpl : ISVCNames := {|
  DeploymentMode := "serving.kserve.io/deploymentMode";
  ModelMeshDeployment := "ModelMesh";
  ProtocolUnknown := "";
  PredictorComponent := "predictor"
|}.

Definition exISVCPredictor : Predictor :=
  mkPredictor (mkMeta "p" "ns" "1" None ∅ ∅) emptySpec
    (mkPredictorStatus true BlockedByFailedLoad Loaded FailedToLoad
       (Some (mkFailureInfo "pod-1" ModelLoadFailed "out of memory" "p__ksp-1" (Some 5%Z)))
       "http://mm.ns:8008" "grpc://mm.ns:8033" 2 0).

Lemma isvc_status_roundtrip_witness :
  ∃ isvc : @InferenceService knativeImpl,
    @isvcFromStatus knativeImpl isvcNamesImpl exISVCPredictor = Ok isvc ∧
    @isvc_nn knativeImpl isvc = predictor_nn exISVCPredictor ∧
    @statusFromISVC knativeImpl isvcNamesImpl (isvc_Status isvc) =
      isvcNormalStatus (p_Status exISVCPredictor) ∧
    if_ModelRevisionName <$> iss_LastFailureInfo (isvc_Status isvc) = Some "p__ksp-1".
Proof.
  apply (@isvc_status_roundtrip knativeImpl isvcNamesImpl exISVCPredictor).
  - exists (Some "grpc://mm.ns:8033"). split; vm_compute; reflexivity.
  - exists (Some "http://mm.ns:8008"). split; vm_compute; reflexivity.
Defined.

Definition exISVCModel : ModelSpec :=
  mkModelSpec "sklearn" None None
    (mkExt (Some "s3://bucket1/models/m1") None
       (Some (mkStorageSpec None None
                (Some (<["bucket" := "other"]> {["region" := "us"]})) (Some "key")))).

Definition exISVC : @InferenceService knativeImpl :=
  @mkISVC knativeImpl
    (mkMeta "p" "ns" "1" None ∅ {["serving.kserve.io/deploymentMode" := "ModelMesh"]})
    (mkISVCSpec None None None None None None None None (Some exISVCModel))
    (@emptyISVCStatus knativeImpl).

Lemma isvc_storage_parameters_witness :
  ∃ fromUri : gmap string string,
    @uriStorage netUrlImpl (mkNN "ns" "p") "s3://bucket1/models/m1" =
      Ok ("models/m1", fromUri) ∧
    ∀ k, (<["bucket" := "bucket1"]> (<["region" := "us"]> {["type" := "s3"]})
            : gmap string string) !! k =
         match fromUri !! k with
         | Some v => Some v
         | None => (<["bucket" := "other"]> {["region" := "us"]} : gmap string string) !! k
         end.
Proof.
  apply (@isvc_storage_parameters knativeImpl netUrlImpl exISVC (mkNN "ns" "p")
           (Some "key") _ "models/m1" None exISVCModel).
  - reflexivity.
  - vm_compute. reflexivity.
Defined.
