(* ===== verification/PredictorController.v ===== *)
(** * The Predictor controller (controllers/predictor_controller.go)

    Reconciliation of one Predictor with model-mesh. The calls to the model-mesh
    client and the status update are recorded in a trace; their results, the clock
    and the registry are arguments. *)

From S2P Require Import Prelude GoStrings Types K8s ModelTypes Registry.
From Stdlib Require Import Ascii.
Open Scope go_scope.

Definition InferenceServiceCRSourceId : string := "isvc".
Definition PredictorCRSourceId : string := "ksp".

(** ** The model-mesh API *)

Inductive ModelStatus :=
| MS_NOT_FOUND | MS_NOT_LOADED | MS_LOADING | MS_LOADED | MS_LOADING_FAILED | MS_UNKNOWN.

Inductive VModelStatus :=
| VMS_NOT_FOUND | VMS_DEFINED | VMS_TRANSITIONING | VMS_TRANSITION_FAILED | VMS_UNKNOWN.

#[export] Instance ModelStatus_eq_dec : EqDecision ModelStatus.
Proof. solve_decision. Defined.

(** Time is a uint64 of milliseconds. *)
Record ModelCopyInfo := mkCopy {
  ci_Location : string;
  ci_CopyStatus : ModelStatus;
  ci_Time : Z
}.

Record ModelStatusInfo := mkStatusInfo {
  msi_Status : ModelStatus;
  msi_Errors : list string;
  msi_ModelCopyInfos : list (option ModelCopyInfo)
}.

Record VModelStatusInfo := mkVStatus {
  vs_Status : VModelStatus;
  vs_ActiveModelId : string;
  vs_TargetModelId : string;
  vs_ActiveModelStatus : option ModelStatusInfo;
  vs_TargetModelStatus : option ModelStatusInfo
}.

Record GetVModelStatusRequest := mkGetVModel { gv_VModelId : string; gv_Owner : string }.
Record DeleteVModelRequest := mkDeleteVModel { dv_VModelId : string; dv_Owner : string }.
Record SetVModelRequest := mkSetVModel {
  sv_VModelId : string;
  sv_Owner : string;
  sv_TargetModelId : string;
  sv_AutoDeleteTargetModel : bool;
  sv_LoadNow : bool;
  sv_Type : string;
  sv_Path : string;
  sv_Key : string
}.

Record ModelMeshClient := mkMMC {
  GetVModelStatus : GetVModelStatusRequest → result error VModelStatusInfo;
  SetVModel : SetVModelRequest → result error VModelStatusInfo;
  DeleteVModel : DeleteVModelRequest → option error
}.

(** Effects of a reconciliation, in order *)
Inductive PredictorCall :=
| CallGetVModelStatus (req : GetVModelStatusRequest)
| CallSetVModel (req : SetVModelRequest)
| CallDeleteVModel (req : DeleteVModelRequest)
| CallUpdateStatus (p : Predictor).

(** ** Libraries

    grpc's status.Convert, encoding/json and crypto/sha1. *)

Definition Unavailable : Z := 14.
Definition AlreadyExists : Z := 6.

(** passed in ModelInfo.Key field of registration requests *)
Record ModelKeyInfo := mkKeyInfo {
  mki_StorageKey : option string;
  mki_StorageParams : option (gmap string string);
  mki_ModelType : option ModelType;
  mki_SchemaPath : option string
}.

Class PredictorLibs := {
  Convert : error → Z * string;
  Convert_status c m : Convert (ErrGrpc c m) = (c, m);
  MarshalKeyInfo : ModelKeyInfo → result error string;
  MarshalSpec : PredictorSpec → string;
  sha1_Sum : string → string;
  sha1_Size b : String.length (sha1_Sum b) = 20
}.

(** encoding/hex: two lower case digits per byte *)
Definition hex_digit (n : N) : ascii :=
  if bool_decide (n < 10)%N then ascii_of_N (48 + n) else ascii_of_N (87 + n).

Fixpoint hex_EncodeToString (s : string) : string :=
  match s with
  | EmptyString => ""
  | String c s' =>
      String (hex_digit (N_of_ascii c / 16))
        (String (hex_digit (N_of_ascii c mod 16)) (hex_EncodeToString s'))
  end.

Section PredictorController.
Context `{!ProtocolNames, !PredictorLibs}.

Definition Hash (predictorSpec : PredictorSpec) : string :=
  hex_EncodeToString (str_take 5 (sha1_Sum (MarshalSpec predictorSpec))).

Definition concreteModelName (predictor : Predictor) (sourceId : string) : string :=
  om_Name (p_Meta predictor) +:+ "__" +:+ sourceId +:+ "-" +:+ Hash (p_Spec predictor).

Definition isNoAddresses (err : error) : bool :=
  let s := Convert err in
  bool_decide (s.1 = Unavailable) && Contains s.2 "produced zero addresses".

(** ** Validation *)

Definition validatePredictor (predictor : Predictor) : string :=
  let m := ps_Model (p_Spec predictor) in
  match m_Storage m with
  | None => ""
  | Some storage =>
      let ss := st_StorageSpec storage in
      if bool_decide (is_Some (ss_Path ss)) && bool_decide (m_Path m ≠ "") then
        "Only one of spec.path and spec.storage.path can be specified"
      else if bool_decide (is_Some (ss_SchemaPath ss)) &&
              bool_decide (is_Some (m_SchemaPath m)) then
        "Only one of spec.schemaPath and spec.storage.schemaPath can be specified"
      else if bool_decide (is_Some (st_PersistentVolumeClaim storage)) then
        "spec.storage.PersistentVolumeClaim is not supported"
      else if bool_decide (is_Some (st_S3 storage)) &&
              (bool_decide (is_Some (ss_Path ss)) ||
               bool_decide (is_Some (ss_SchemaPath ss)) ||
               bool_decide (is_Some (ss_Parameters ss)) ||
               bool_decide (is_Some (ss_StorageKey ss))) then
        "spec.storage.s3 cannot be specified with any other keys in spec.storage"
      else ""
  end.

(** ** Registration *)

(** path, schemaPath, storageKey and storageParams *)
Definition extractModelFields (predictor : Predictor)
  : string * option string * option string * option (gmap string string) :=
  let m := ps_Model (p_Spec predictor) in
  match m_Storage m with
  | None => ("", None, None, None)
  | Some storage =>
      let ss := st_StorageSpec storage in
      (match ss_Path ss with Some p => p | None => m_Path m end,
       match ss_SchemaPath ss with Some p => Some p | None => m_SchemaPath m end,
       match ss_StorageKey ss with
       | Some k => Some k
       | None => s3_SecretKey <$> st_S3 storage
       end,
       match ss_Parameters ss with
       | Some ps => Some ps
       | None => b ← (st_S3 storage ≫= s3_Bucket); Some {["bucket" := b]}
       end)
  end.

Definition setVModel (mmc : ModelMeshClient) (predictor : Predictor) (loadNow : bool)
    (sourceId : string) : io PredictorCall (result error VModelStatusInfo) :=
  let spec := p_Spec predictor in
  let '(path, schemaPath, storageKey, storageParams) := extractModelFields predictor in
  let mki := mkKeyInfo storageKey storageParams (Some (m_Type (ps_Model spec))) schemaPath in
  match MarshalKeyInfo mki with
  | Err e => return Err (ErrWrap "error json-marshalling VModel parameters" e)
  | Ok keyJSONBytes =>
      ty ← lift (GetPredictorTypeLabel predictor);
      let req := mkSetVModel (om_Name (p_Meta predictor)) sourceId
                   (concreteModelName predictor sourceId) true loadNow ty path
                   keyJSONBytes in
      _ ← call (CallSetVModel req);
      return (SetVModel mmc req)
  end.

(** ** Status *)

Definition noHomeMessage : string :=
  "There are no running instances that meet the label requirements of type ".

(** The zero value for the keys the map does not have *)
Definition modelStateMap (s : ModelStatus) : ModelState :=
  match s with
  | MS_NOT_LOADED => Standby
  | MS_LOADING => Loading
  | MS_LOADED => Loaded
  | MS_LOADING_FAILED => FailedToLoad
  | MS_NOT_FOUND | MS_UNKNOWN => NoModelState
  end.

Definition transitionStatusMap (s : VModelStatus) : TransitionStatus :=
  match s with
  | VMS_DEFINED => UpToDate
  | VMS_TRANSITIONING => InProgress
  | VMS_TRANSITION_FAILED => BlockedByFailedLoad
  | VMS_NOT_FOUND | VMS_UNKNOWN => NoTransitionStatus
  end.

Definition decodeModelState (status : option ModelStatusInfo)
  : exec (ModelState * FailureReason * string) :=
  match status with
  | None => Ret (Pending, NoFailureReason, "")
  | Some info =>
      let state := modelStateMap (msi_Status info) in
      let '(reason, msg) :=
        match msi_Errors info with
        | e :: _ => (ModelLoadFailed, e)
        | [] => (NoFailureReason, "")
        end in
      if bool_decide (state ≠ FailedToLoad) then Ret (state, reason, msg)
      else if negb (HasPrefix msg noHomeMessage) then
        Ret (FailedToLoad, ModelLoadFailed, msg)
      else if negb (HasSuffix msg ("[" +:+ ModelTypeLabelThatNoRuntimeSupports +:+ "]")) then
        Ret (Loading, RuntimeUnhealthy,
             "Waiting for supporting runtime Pod to become available")
      else
        let n := String.length noHomeMessage in
        three ← slice msg n (n + 3);
        Ret (if bool_decide (three = "rt:")
             then (FailedToLoad, RuntimeNotRecognized,
                   "Specified runtime name not recognized")
             else (FailedToLoad, NoSupportingRuntime,
                   "No ServingRuntime supports specified model type and/or protocol"))
  end.

(** loading, loaded, failed and total *)
Definition counts4 : Type := Z * Z * Z * Z.

Definition countCopy (c : counts4) (info : option ModelCopyInfo) : counts4 :=
  match info with
  | None => c
  | Some i =>
      let '(loading, loaded, failed, total) := c in
      match ci_CopyStatus i with
      | MS_LOADING => (loading + 1, loaded, failed, total + 1)
      | MS_LOADED => (loading, loaded + 1, failed, total + 1)
      | MS_LOADING_FAILED => (loading, loaded, failed + 1, total + 1)
      | _ => (loading, loaded, failed, total + 1)
      end%Z
  end.

Definition countModelCopyStates (statusInfo : option ModelStatusInfo) (counts : counts4)
  : counts4 :=
  match statusInfo with
  | None => counts
  | Some info => foldl countCopy counts (msi_ModelCopyInfos info)
  end.

(** returns true if changed *)
Definition setStatusFailureInfo (crStatus : PredictorStatus) (info : option FailureInfo)
  : bool * PredictorStatus :=
  if bool_decide (info = LastFailureInfo crStatus) then (false, crStatus)
  else (true, mkPredictorStatus (Available crStatus) (st_TransitionStatus crStatus)
                (ActiveModelState crStatus) (TargetModelState crStatus) info
                (HTTPEndpoint crStatus) (GrpcEndpoint crStatus)
                (TotalCopies crStatus) (FailedCopies crStatus)).

Definition set_TransitionStatus (ts : TransitionStatus) (s : PredictorStatus) :=
  mkPredictorStatus (Available s) ts (ActiveModelState s) (TargetModelState s)
    (LastFailureInfo s) (HTTPEndpoint s) (GrpcEndpoint s) (TotalCopies s) (FailedCopies s).
Definition set_ActiveModelState (st : ModelState) (s : PredictorStatus) :=
  mkPredictorStatus (Available s) (st_TransitionStatus s) st (TargetModelState s)
    (LastFailureInfo s) (HTTPEndpoint s) (GrpcEndpoint s) (TotalCopies s) (FailedCopies s).
Definition set_TargetModelState (st : ModelState) (s : PredictorStatus) :=
  mkPredictorStatus (Available s) (st_TransitionStatus s) (ActiveModelState s) st
    (LastFailureInfo s) (HTTPEndpoint s) (GrpcEndpoint s) (TotalCopies s) (FailedCopies s).
Definition set_Available (b : bool) (s : PredictorStatus) :=
  mkPredictorStatus b (st_TransitionStatus s) (ActiveModelState s) (TargetModelState s)
    (LastFailureInfo s) (HTTPEndpoint s) (GrpcEndpoint s) (TotalCopies s) (FailedCopies s).
Definition set_Endpoints (http grpc : string) (s : PredictorStatus) :=
  mkPredictorStatus (Available s) (st_TransitionStatus s) (ActiveModelState s)
    (TargetModelState s) (LastFailureInfo s) http grpc (TotalCopies s) (FailedCopies s).
Definition set_Copies (failed total : Z) (s : PredictorStatus) :=
  mkPredictorStatus (Available s) (st_TransitionStatus s) (ActiveModelState s)
    (TargetModelState s) (LastFailureInfo s) (HTTPEndpoint s) (GrpcEndpoint s) total failed.

(** The Unix epoch, in nanoseconds since the zero time *)
Definition unixEpoch : Z := 62135596800 * Second.
Definition unixTime (sec nsec : Z) : Z := unixEpoch + sec * Second + nsec.

(** Location and time of the first failed copy *)
Fixpoint failedCopy (infos : list (option ModelCopyInfo)) : option ModelCopyInfo :=
  match infos with
  | [] => None
  | Some i :: rest =>
      if bool_decide (ci_CopyStatus i = MS_LOADING_FAILED) then Some i else failedCopy rest
  | None :: rest => failedCopy rest
  end.

(** The failure info that reflects the state of the target model *)
Definition targetFailureInfo (now : Z) (status : PredictorStatus)
    (targetModelStatus : option ModelStatusInfo) (targetModelId : string)
    (reason : FailureReason) (message : string) : option FailureInfo :=
  match targetModelStatus with
  | None => None
  | Some ts =>
      if bool_decide (msi_Status ts = MS_LOADED) then None
      else if bool_decide (reason = NoFailureReason) then
        if WaitingForRuntime status then LastFailureInfo status else None
      else if bool_decide (reason = ModelLoadFailed) then
        Some match failedCopy (msi_ModelCopyInfos ts) with
             | Some i =>
                 mkFailureInfo (ci_Location i) reason message targetModelId
                   (if bool_decide (ci_Time i = 0%Z) then None
                    else Some (unixTime (ci_Time i / 1000)
                                        ((ci_Time i mod 1000) * 1000000)))
             | None => mkFailureInfo "" reason message targetModelId None
             end
      else
        Some (mkFailureInfo "" reason message targetModelId
          match (LastFailureInfo status ≫= fi_Time) with
          | Some t => if bool_decide (now - t > 20 * Second)%Z then Some now else Some t
          | None => Some now
          end)
  end.

(** Returns true if any changes were made to the Status, false otherwise.
    [endpoints] are the inference endpoints of the namespace's model-mesh
    service, if it has one. *)
Definition updatePredictorStatusFromVModel (now : Z) (endpoints : option (string * string))
    (status : PredictorStatus) (vModelState : VModelStatusInfo)
    (includeTransitionAndFailure : bool) : exec (bool * PredictorStatus) :=
  let ts := transitionStatusMap (vs_Status vModelState) in
  '(ams, amfr, amm) ← decodeModelState (vs_ActiveModelStatus vModelState);
  let '(changed, status) :=
    if bool_decide (ams = NoModelState) then (false, status)
    else if bool_decide (ActiveModelState status ≠ ams)
         then (true, set_ActiveModelState ams status) else (false, status) in
  let tmsBefore := TargetModelState status in
  let counts : counts4 := (0, 0, 0, 0)%Z in
  let counts := if bool_decide (amfr = NoFailureReason ∨ amfr = ModelLoadFailed)
                then countModelCopyStates (vs_ActiveModelStatus vModelState) counts
                else counts in
  '(targetModelStatus, reason, message, status, counts) ←
    (if bool_decide (vs_ActiveModelId vModelState = vs_TargetModelId vModelState)
     then Ret (vs_ActiveModelStatus vModelState, amfr, amm,
               set_TargetModelState NoModelState status, counts)
     else match vs_TargetModelStatus vModelState with
          | Some t =>
              '(tms, r, m) ← decodeModelState (Some t);
              Ret (Some t, r, m, set_TargetModelState tms status,
                   if bool_decide (r = NoFailureReason ∨ r = ModelLoadFailed)
                   then countModelCopyStates (Some t) counts else counts)
          | None => Ret (None, NoFailureReason, "", status, counts)
          end);
  let changed := if bool_decide (TargetModelState status ≠ tmsBefore)
                 then true else changed in
  let '(changed, status) :=
    if includeTransitionAndFailure : bool then
      let ts :=
        match ts, targetModelStatus with
        | BlockedByFailedLoad, Some t =>
            if bool_decide (msi_Status t = MS_LOADING) then InProgress else ts
        | _, _ => ts
        end in
      let '(changed, status) :=
        if bool_decide (st_TransitionStatus status ≠ ts)
        then (true, set_TransitionStatus ts status) else (changed, status) in
      let fi := targetFailureInfo now status targetModelStatus
                  (vs_TargetModelId vModelState) reason message in
      let '(c, status) := setStatusFailureInfo status fi in
      (if c : bool then true else changed, status)
    else (changed, status) in
  let status := set_Available
    (bool_decide (ActiveModelState status ≠ NoModelState) &&
     bool_decide (ActiveModelState status ≠ FailedToLoad) &&
     negb (WaitingForRuntime status)) status in
  let '(endpoint, httpEndpoint) := default ("", "") endpoints in
  let '(changed, status) :=
    if bool_decide (GrpcEndpoint status ≠ endpoint ∨ HTTPEndpoint status ≠ httpEndpoint)
    then (true, set_Endpoints httpEndpoint endpoint status) else (changed, status) in
  let failed := counts.1.2 in
  let total := counts.2 in
  Ret (if bool_decide (failed ≠ FailedCopies status ∨ total ≠ TotalCopies status)
       then (true, set_Copies failed total status) else (changed, status)).

(** ** Reconciliation *)

(** The model-mesh client and the inference endpoints for the namespace at the
    time of the reconciliation, and the clock *)
Record Env := mkEnvR {
  env_MMClient : option ModelMeshClient;
  env_endpoints : option (string * string);
  env_now : Z
}.

Definition handlePredictorNotFound (env : Env) (name : NamespacedName) (sourceId : string)
  : io PredictorCall (CtrlResult * option error) :=
  match env_MMClient env with
  | None => return (requeueAfter (10 * Second), None)
  | Some mmc =>
      let req := mkDeleteVModel (Name name) sourceId in
      _ ← call (CallDeleteVModel req);
      match DeleteVModel mmc req with
      | Some err =>
          if isNoAddresses err then
            if bool_decide (sourceId = InferenceServiceCRSourceId)
            then return (emptyResult, None)
            else return (requeueAfter (10 * Second), None)
          else return (emptyResult,
                 Some (ErrWrap ("failed to remove corresponding VModel for deleted Predictor "
                                +:+ Namespace name +:+ "/" +:+ Name name) err))
      | None => return (emptyResult, None)
      end
  end.

(** What the validation and registration steps leave for the status update:
    whether to update, the status, whether the client is usable, the error *)
Definition Progress : Type := bool * PredictorStatus * bool * option error.

(** Reflect an invalid spec in the Status (overwrite) *)
Definition markInvalid (predictor : Predictor) (sourceId message : string)
    (updateStatus : bool) (status : PredictorStatus) : bool * PredictorStatus :=
  let '(c, status) := setStatusFailureInfo status
    (Some (mkFailureInfo "" InvalidPredictorSpec message
                         (concreteModelName predictor sourceId) None)) in
  let updateStatus : bool := if c : bool then true else updateStatus in
  if bool_decide (st_TransitionStatus status ≠ InvalidSpec)
  then (true, set_TransitionStatus InvalidSpec status)
  else (updateStatus, status).

Definition reconcileInvalid (env : Env) (predictor : Predictor) (sourceId message : string)
  : io PredictorCall Progress :=
  let status := p_Status predictor in
  '(upd, status, mmc, finalErr) ←
    match env_MMClient env with
    | None => return (false, status, false, None)
    | Some mmc =>
        let req := mkGetVModel (om_Name (p_Meta predictor)) sourceId in
        _ ← call (CallGetVModelStatus req);
        match GetVModelStatus mmc req with
        | Err err =>
            if isNoAddresses err then return (false, status, false, None)
            else return (false, status, true,
                         Some (ErrWrap "failed GetVModelStatus" err))
        | Ok vModelState =>
            '(changed, status) ←
              lift (updatePredictorStatusFromVModel (env_now env) (env_endpoints env)
                      status vModelState false);
            return (changed, status, true, None)
        end
    end;
  let '(upd, status) := markInvalid predictor sourceId message upd status in
  return (upd, status, mmc, finalErr).

(** Whether the registration should trigger an explicit load *)
Definition shouldLoadNow (predictor : Predictor) : bool :=
  let status := p_Status predictor in
  bool_decide (om_DeletionTimestamp (p_Meta predictor) = None) &&
  (bool_decide (ActiveModelState status = Pending) ||
   bool_decide (ActiveModelState status = FailedToLoad) ||
   bool_decide (TargetModelState status ≠ NoModelState) ||
   (bool_decide (ActiveModelState status = Loading) && WaitingForRuntime status)).

Definition reconcileValid (env : Env) (mmc : ModelMeshClient) (predictor : Predictor)
    (sourceId resourceType : string) : io PredictorCall Progress :=
  let status := p_Status predictor in
  r ← setVModel mmc predictor (shouldLoadNow predictor) sourceId;
  match r with
  | Ok vModelState =>
      '(changed, status) ←
        lift (updatePredictorStatusFromVModel (env_now env) (env_endpoints env)
                status vModelState true);
      return (changed, status, true, None)
  | Err err =>
      if isNoAddresses err then
        let '(c, status) := setStatusFailureInfo status
          (Some (mkFailureInfo "" RuntimeUnhealthy
                   "Waiting for runtime Pod to become available"
                   (concreteModelName predictor sourceId) None)) in
        return (c, status, true, None)
      else if bool_decide ((Convert err).1 = AlreadyExists) then
        let '(c, status) := setStatusFailureInfo status
          (Some (mkFailureInfo "" InvalidPredictorSpec
                   "Predictor already exists with the same name from a different source"
                   "" None)) in
        return (c, status, true,
                Some (ErrWrap ("failed to create vmodel " +:+ om_Name (p_Meta predictor)
                        +:+ " for " +:+ resourceType
                        +:+ " because one already exists from different source") err))
      else return (false, status, true,
                   Some (ErrWrap ("failed to SetVModel for " +:+ resourceType +:+ " "
                                  +:+ om_Name (p_Meta predictor)) err))
  end.

Definition reconcileModel (env : Env) (predictor : Predictor) (sourceId resourceType : string)
  : io PredictorCall Progress :=
  let message := validatePredictor predictor in
  if bool_decide (message ≠ "")
  then reconcileInvalid env predictor sourceId message
  else match env_MMClient env with
       | Some mmc => reconcileValid env mmc predictor sourceId resourceType
       | None => return (false, p_Status predictor, false, None)
       end.

(** The decision at the end of a reconciliation that did not fail *)
Definition requeueFor (haveClient : bool) (status : PredictorStatus) : CtrlResult :=
  if negb haveClient || WaitingForRuntime status then requeueAfter (3 * Second)
  else if bool_decide (ActiveModelState status = Loading) then requeueAfter (1 * Second)
  else emptyResult.

Definition finish (haveClient : bool) (status : PredictorStatus) (finalErr : option error)
  : io PredictorCall (CtrlResult * option error) :=
  match finalErr with
  | Some e => return (emptyResult, Some e)
  | None => return (requeueFor haveClient status, None)
  end.

(** How a reconciliation goes on after it asked to update the status *)
Definition afterUpdate (resourceType : string) (predictor : Predictor)
    (waitingBefore haveClient : bool) (finalErr : option error) (r : result error bool)
  : io PredictorCall (CtrlResult * option error) :=
  let status := p_Status predictor in
  match r with
  | Err e => finish haveClient status (Some (ErrWrap ("unable to update Status of " +:+ resourceType
                                   +:+ " " +:+ om_Name (p_Meta predictor)) e))
  | Ok false => return (mkResult true 0, None)
  | Ok true =>
      (* the message logged for a newly waiting Predictor *)
      _ ← lift (if negb waitingBefore && WaitingForRuntime status
                then fi ← deref (LastFailureInfo status); Ret (fi_Message fi)
                else Ret "");
      finish haveClient status finalErr
  end.

Definition ReconcilePredictor (env : Env) (nname : NamespacedName) (sourceId : string)
    (registry : PredictorRegistry) : io PredictorCall (CtrlResult * option error) :=
  let resourceType := reg_GetSourceName registry in
  got ← lift (reg_Get registry nname);
  match got with
  | Ok None => handlePredictorNotFound env nname sourceId
  | Err err =>
      if IsNotFound err then handlePredictorNotFound env nname sourceId
      else return (emptyResult,
             Some (ErrWrap ("failed to fetch CR from kubebuilder cache for predictor "
                            +:+ Name nname) err))
  | Ok (Some predictor) =>
      let waitingBefore := WaitingForRuntime (p_Status predictor) in
      '(updateStatus, status, haveClient, finalErr) ←
        reconcileModel env predictor sourceId resourceType;
      if updateStatus : bool then
        let predictor := set_Status status predictor in
        _ ← call (CallUpdateStatus predictor);
        afterUpdate resourceType predictor waitingBefore haveClient finalErr
          (reg_UpdateStatus registry predictor)
      else finish haveClient status finalErr
  end.

Definition Reconcile (env : Env) (req : NamespacedName)
    (RegistryLookup : gmap string PredictorRegistry)
  : io PredictorCall (CtrlResult * option error) :=
  '(nname, source) ← lift (ResolveSource req PredictorCRSourceId);
  match RegistryLookup !! source with
  | None => return (emptyResult, None)
  | Some registry => ReconcilePredictor env nname source registry
  end.

(** The request that an event of an InferenceService is turned into *)
Definition prefixName (prefix : string) (o : ObjectMeta) : list NamespacedName :=
  [mkNN (prefix +:+ "_" +:+ om_Namespace o) (om_Name o)].
End PredictorController.
