(* ===== verification/PredictorControllerProps.v ===== *)
(** * Properties of the Predictor controller

    No slice of a model-mesh error message is out of range; the status computed
    from a vmodel is reported as changed exactly when it changed (but for
    Available), and computing it again changes nothing; what a reconciliation
    calls, in which order, and when it asks to run again. *)

From S2P Require Import Prelude GoStrings Types K8s ModelTypes Registry ISVCRegistry.
From S2P Require Import PredictorController.
From Stdlib Require Import Ascii.
Open Scope go_scope.

(** ** decodeModelState never slices out of range *)

Lemma noHome_suffix_length msg :
  HasPrefix msg noHomeMessage = true →
  HasSuffix msg ("[" +:+ ModelTypeLabelThatNoRuntimeSupports +:+ "]") = true →
  String.length noHomeMessage + 3 ≤ String.length msg.
Proof.
  intros [t ->]%HasPrefix_true. rewrite str_length_app.
  destruct t as [|a [|b [|c t]]]; [| | |simpl; lia]; intros Hs; exfalso;
    vm_compute in Hs; discriminate.
Qed.

Definition decoded (status : option ModelStatusInfo) : ModelState * FailureReason * string :=
  match decodeModelState status with
  | Ret r => r
  | Panic => (Pending, NoFailureReason, "")
  end.

Lemma decodeModelState_total status : decodeModelState status = Ret (decoded status).
Proof.
  unfold decoded. destruct (decodeModelState status) eqn:E; [done|exfalso].
  revert E. unfold decodeModelState. destruct status as [info|]; [|done].
  set (mr := match msi_Errors info with _ :: _ => _ | [] => _ end).
  destruct mr as [reason msg].
  case_bool_decide; [done|].
  destruct (HasPrefix msg noHomeMessage) eqn:Hp; simpl; [|done].
  destruct (HasSuffix msg _) eqn:Hs; simpl; [|done].
  rewrite slice_ok; [done|lia|]. by apply noHome_suffix_length.
Qed.

Lemma decoded_None : decoded None = (Pending, NoFailureReason, "").
Proof. done. Qed.

(** ** The status update in closed form *)

#[local] Opaque decodeModelState decoded.

(** The controller is done with the request. *)
Definition done_with (out : CtrlResult * option error) : bool :=
  bool_decide (out.2 = None) && negb (Requeue out.1) && bool_decide (RequeueAfter out.1 = 0%Z).

Section ClosedForm.
Variables (now : Z) (eps : option (string * string)) (v : VModelStatusInfo).

Definition keep (m old : ModelState) : ModelState :=
  if bool_decide (m = NoModelState) then old else m.

(** The model the transition leads to, with its failure *)
Definition targetOf : option ModelStatusInfo * FailureReason * string :=
  if bool_decide (vs_ActiveModelId v = vs_TargetModelId v)
  then (vs_ActiveModelStatus v, (decoded (vs_ActiveModelStatus v)).1.2,
        (decoded (vs_ActiveModelStatus v)).2)
  else match vs_TargetModelStatus v with
       | Some t => (Some t, (decoded (Some t)).1.2, (decoded (Some t)).2)
       | None => (None, NoFailureReason, "")
       end.

Definition targetStateOf (old : ModelState) : ModelState :=
  if bool_decide (vs_ActiveModelId v = vs_TargetModelId v) then NoModelState
  else match vs_TargetModelStatus v with
       | Some t => (decoded (Some t)).1.1
       | None => old
       end.

Definition transitionOf : TransitionStatus :=
  let ts := transitionStatusMap (vs_Status v) in
  match ts, targetOf.1.1 with
  | BlockedByFailedLoad, Some t =>
      if bool_decide (msi_Status t = MS_LOADING) then InProgress else ts
  | _, _ => ts
  end.

Definition failureOf (st : PredictorStatus) : option FailureInfo :=
  targetFailureInfo now st targetOf.1.1 (vs_TargetModelId v) targetOf.1.2 targetOf.2.

Definition countable_reason (r : FailureReason) : bool :=
  bool_decide (r = NoFailureReason ∨ r = ModelLoadFailed).

Definition countsOf : counts4 :=
  let c := if countable_reason (decoded (vs_ActiveModelStatus v)).1.2
           then countModelCopyStates (vs_ActiveModelStatus v) (0, 0, 0, 0)%Z
           else (0, 0, 0, 0)%Z in
  if bool_decide (vs_ActiveModelId v = vs_TargetModelId v) then c
  else match vs_TargetModelStatus v with
       | Some t => if countable_reason (decoded (Some t)).1.2
                   then countModelCopyStates (Some t) c else c
       | None => c
       end.

(** The status fields after the update; [incl] is includeTransitionAndFailure *)
Definition newStatus (incl : bool) (st : PredictorStatus) : PredictorStatus :=
  let ams := keep (decoded (vs_ActiveModelStatus v)).1.1 (ActiveModelState st) in
  let lfi := if incl then failureOf st else LastFailureInfo st in
  let waiting := WaitingForRuntime (setStatusFailureInfo st lfi).2 in
  mkPredictorStatus
    (bool_decide (ams ≠ NoModelState) && bool_decide (ams ≠ FailedToLoad) && negb waiting)
    (if incl then transitionOf else st_TransitionStatus st)
    ams (targetStateOf (TargetModelState st)) lfi
    (default ("", "") eps).2 (default ("", "") eps).1 countsOf.2 countsOf.1.2.

(** Each conditional assignment of the code sets the field and flags a
    difference. *)
Lemma assign_active ams s :
  (if bool_decide (ams = NoModelState) then (false, s)
   else if bool_decide (ActiveModelState s ≠ ams)
        then (true, set_ActiveModelState ams s) else (false, s)) =
  (bool_decide (ActiveModelState s ≠ keep ams (ActiveModelState s)),
   set_ActiveModelState (keep ams (ActiveModelState s)) s).
Proof. unfold keep. destruct s. by repeat case_bool_decide; simplify_eq/=. Qed.

Lemma assign_transition ts s (c : bool) :
  (if bool_decide (st_TransitionStatus s ≠ ts)
   then (true, set_TransitionStatus ts s) else (c, s)) =
  (bool_decide (st_TransitionStatus s ≠ ts) || c, set_TransitionStatus ts s).
Proof. destruct s. by case_bool_decide; simplify_eq/=. Qed.

Lemma assign_endpoints ep http s (c : bool) :
  (if bool_decide (GrpcEndpoint s ≠ ep ∨ HTTPEndpoint s ≠ http)
   then (true, set_Endpoints http ep s) else (c, s)) =
  (bool_decide (GrpcEndpoint s ≠ ep ∨ HTTPEndpoint s ≠ http) || c, set_Endpoints http ep s).
Proof.
  destruct s. case_bool_decide as Hd; [done|]. simpl in *.
  apply Decidable.not_or in Hd as [?%dec_stable ?%dec_stable]. by simplify_eq.
Qed.

Lemma assign_copies failed total s (c : bool) :
  (if bool_decide (failed ≠ FailedCopies s ∨ total ≠ TotalCopies s)
   then (true, set_Copies failed total s) else (c, s)) =
  (bool_decide (failed ≠ FailedCopies s ∨ total ≠ TotalCopies s) || c,
   set_Copies failed total s).
Proof.
  destruct s. case_bool_decide as Hd; [done|]. simpl in *.
  apply Decidable.not_or in Hd as [?%dec_stable ?%dec_stable]. by simplify_eq.
Qed.

Lemma assign_failure info s :
  setStatusFailureInfo s info =
  (bool_decide (info ≠ LastFailureInfo s),
   mkPredictorStatus (Available s) (st_TransitionStatus s) (ActiveModelState s)
     (TargetModelState s) info (HTTPEndpoint s) (GrpcEndpoint s) (TotalCopies s)
     (FailedCopies s)).
Proof.
  unfold setStatusFailureInfo. destruct s; simpl.
  by repeat case_bool_decide; simplify_eq/=.
Qed.

Lemma waiting_lfi s s' : LastFailureInfo s = LastFailureInfo s' →
  WaitingForRuntime s = WaitingForRuntime s'.
Proof. unfold WaitingForRuntime. by intros ->. Qed.

Lemma setStatusFailureInfo_lfi s i : LastFailureInfo (setStatusFailureInfo s i).2 = i.
Proof. unfold setStatusFailureInfo. by case_bool_decide. Qed.

Lemma targetFailureInfo_lfi s s' t id r m :
  LastFailureInfo s = LastFailureInfo s' →
  targetFailureInfo now s t id r m = targetFailureInfo now s' t id r m.
Proof.
  intros E. unfold targetFailureInfo. by rewrite (waiting_lfi s s' E), E.
Qed.

(** Two statuses differ, availability aside, exactly when some field differs. *)
Lemma status_differs a b ts ts' am am' tm tm' (fi fi' : option FailureInfo)
    h h' g g' n n' f f' :
  bool_decide (f ≠ f' ∨ n ≠ n') ||
  (bool_decide (g' ≠ g ∨ h' ≠ h) ||
   (bool_decide (fi ≠ fi') || (bool_decide (ts' ≠ ts) ||
      (bool_decide (tm ≠ tm') || bool_decide (am' ≠ am))))) = true ↔
  set_Available false (mkPredictorStatus a ts am tm fi h g n f) ≠
  set_Available false (mkPredictorStatus b ts' am' tm' fi' h' g' n' f').
Proof.
  unfold set_Available. simpl. rewrite !orb_true_iff, !bool_decide_eq_true.
  split; [intros Hd Heq; injection Heq; intros; subst; tauto|]. intros Hne.
  destruct (decide (f = f')), (decide (n = n')), (decide (g' = g)), (decide (h' = h)),
    (decide (fi = fi')), (decide (ts' = ts)), (decide (tm = tm')), (decide (am' = am));
    subst; tauto.
Qed.

Lemma update_closed_form incl st :
  ∃ c, updatePredictorStatusFromVModel now eps st v incl = Ret (c, newStatus incl st) ∧
       (c = true ↔ set_Available false (newStatus incl st) ≠ set_Available false st).
Proof.
  unfold updatePredictorStatusFromVModel. rewrite decodeModelState_total.
  unfold mbind, exec_bind.
  unfold newStatus, failureOf, transitionOf, targetStateOf, countsOf, targetOf.
  destruct (decoded (vs_ActiveModelStatus v)) as [[ams amfr] amm].
  cbn beta iota zeta. rewrite assign_active.
  set (a := keep ams (ActiveModelState st)).
  destruct (default ("", "") eps) as [ep http].
  (* the three shapes of the target *)
  case_bool_decide as Hid; [|destruct (vs_TargetModelStatus v) as [t|]].
  2: rewrite decodeModelState_total; destruct (decoded (Some t)) as [[tms r] msg].
  all: cbn beta iota zeta; destruct incl; rewrite ?assign_transition, ?assign_failure;
       cbn beta iota zeta; rewrite assign_endpoints; cbn beta iota zeta;
       rewrite assign_copies; cbn [fst snd].
  all: try match goal with |- context [targetFailureInfo now (set_TransitionStatus ?ts ?s) ?t] =>
         rewrite (targetFailureInfo_lfi (set_TransitionStatus ts s) st t) by done;
         set (ts' := ts) end.
  all: eexists; split; [by destruct st|].
  1,3,5: destruct st; apply status_differs.
  all: destruct st as [av ts am tm fi h g n f]; 
       eapply iff_trans; [|apply (status_differs _ av _ ts _ am _ tm fi fi _ h _ g _ n _ f)];
       rewrite !(bool_decide_false (ts ≠ ts)), !(bool_decide_false (fi ≠ fi)) by tauto;
       done.
Qed.
End ClosedForm.

(** ** Status properties *)

(** Decoding model-mesh's answers never panics, and the status update reports a
    change exactly when some status field other than Available changed. *)
Theorem update_reports_changes now eps st v incl :
  ∃ changed st', updatePredictorStatusFromVModel now eps st v incl = Ret (changed, st') ∧
    (changed = true ↔ set_Available false st' ≠ set_Available false st).
Proof.
  destruct (update_closed_form now eps v incl st) as (c & Hu & Hc).
  exists c, (newStatus now eps v incl st). done.
Qed.

Lemma keep_idem m old : keep m (keep m old) = keep m old.
Proof. unfold keep. by repeat case_bool_decide. Qed.

Lemma targetStateOf_idem v old : targetStateOf v (targetStateOf v old) = targetStateOf v old.
Proof. unfold targetStateOf. case_bool_decide; [done|]. by case_match. Qed.

(** The failure info is stable while its time is recent. *)
Lemma failureOf_stable now now' v st st' :
  LastFailureInfo st' = failureOf now v st →
  (∀ fi t, LastFailureInfo st' = Some fi → fi_Reason fi ≠ ModelLoadFailed →
           fi_Time fi = Some t → now' - t ≤ 20 * Second)%Z →
  failureOf now' v st' = failureOf now v st.
Proof.
  intros Hl Hrecent. unfold failureOf in *. revert Hl Hrecent.
  destruct (targetOf v) as [[t r] m]. cbn [fst snd]. unfold targetFailureInfo.
  destruct t as [t|]; [|done].
  case_bool_decide; [done|]. case_bool_decide; [|case_bool_decide; [done|]].
  - unfold WaitingForRuntime.
    destruct (LastFailureInfo st) as [fi|]; simpl; [|by intros ->].
    case_bool_decide as Hr; [|by intros ->]. intros ->. by rewrite bool_decide_true.
  - intros Hl Hrecent. rewrite Hl. simpl.
    destruct (match LastFailureInfo st ≫= fi_Time with Some _ => _ | None => _ end)
      as [t'|] eqn:Ht; [|by repeat case_match].
    rewrite bool_decide_false; [done|].
    specialize (Hrecent _ t' Hl). simpl in Hrecent. specialize (Hrecent ltac:(done) eq_refl).
    lia.
Qed.

Lemma newStatus_stable now now' eps v st :
  let st' := newStatus now eps v true st in
  (∀ fi t, LastFailureInfo st' = Some fi → fi_Reason fi ≠ ModelLoadFailed →
           fi_Time fi = Some t → now' - t ≤ 20 * Second)%Z →
  newStatus now' eps v true st' = st'.
Proof.
  intros st' Hrecent. assert (Hf := failureOf_stable now now' v st st' eq_refl Hrecent).
  unfold newStatus at 1. rewrite Hf. subst st'. unfold newStatus. simpl.
  rewrite keep_idem, targetStateOf_idem. f_equal. do 2 f_equal.
  apply waiting_lfi. by rewrite !setStatusFailureInfo_lfi.
Qed.

(** C35: The status update is idempotent: applied again to its own result with the
    same vmodel state it changes nothing, as long as the time recorded with a
    failure other than a load failure is at most 20 seconds old. This is what
    keeps status updates from triggering each other. *)
Theorem update_idempotent now now' eps st v c st' :
  updatePredictorStatusFromVModel now eps st v true = Ret (c, st') →
  (∀ fi t, LastFailureInfo st' = Some fi → fi_Reason fi ≠ ModelLoadFailed →
           fi_Time fi = Some t → now' - t ≤ 20 * Second)%Z →
  updatePredictorStatusFromVModel now' eps st' v true = Ret (false, st').
Proof.
  intros Hu Hrecent. destruct (update_closed_form now eps v true st) as (c1 & Hu1 & _).
  rewrite Hu1 in Hu. injection Hu as -> <-.
  destruct (update_closed_form now' eps v true (newStatus now eps v true st))
    as (c2 & Hu2 & Hc2).
  rewrite newStatus_stable in Hu2, Hc2 by done. rewrite Hu2. do 2 f_equal.
  destruct c2; [|done]. by destruct (proj1 Hc2 eq_refl).
Qed.

(** ** Reconciliation *)

Section Reconcile.
Context `{!ProtocolNames, !PredictorLibs}.

(** The runtime reference of a Predictor, if any, is not nil; the CRD schema
    requires the name it holds. *)
Definition runtime_ref_ok (p : Predictor) : Prop :=
  from_option (λ rt, is_Some (pr_RuntimeRef rt)) True (ps_Runtime (p_Spec p)).

Lemma GetPredictorTypeLabel_ok p :
  runtime_ref_ok p → ∃ L, GetPredictorTypeLabel p = Ret L.
Proof.
  unfold runtime_ref_ok, GetPredictorTypeLabel. destruct (ps_Runtime (p_Spec p)); simpl;
    [intros [ref ->]|]; eauto.
Qed.

(** The registration request for a Predictor *)
Definition vmodelRequest (p : Predictor) (sourceId : string) (req : SetVModelRequest) : Prop :=
  sv_VModelId req = om_Name (p_Meta p) ∧ sv_Owner req = sourceId ∧
  sv_TargetModelId req = concreteModelName p sourceId ∧
  sv_AutoDeleteTargetModel req = true ∧ sv_LoadNow req = shouldLoadNow p ∧
  GetPredictorTypeLabel p = Ret (sv_Type req).

(** The calls the model step may make: at most one, and which *)
Inductive model_calls (env : Env) (p : Predictor) (sourceId : string)
  : list PredictorCall → Prop :=
| calls_none : model_calls env p sourceId []
| calls_set mmc req : env_MMClient env = Some mmc → validatePredictor p = "" →
    vmodelRequest p sourceId req → model_calls env p sourceId [CallSetVModel req]
| calls_get mmc : env_MMClient env = Some mmc → validatePredictor p ≠ "" →
    model_calls env p sourceId
      [CallGetVModelStatus (mkGetVModel (om_Name (p_Meta p)) sourceId)].

Definition marked_invalid (p : Predictor) (sourceId : string) (st : PredictorStatus) : Prop :=
  st_TransitionStatus st = InvalidSpec ∧
  LastFailureInfo st = Some (mkFailureInfo "" InvalidPredictorSpec (validatePredictor p)
                               (concreteModelName p sourceId) None).

(** What the model step establishes *)
Record model_post (env : Env) (p : Predictor) (sourceId : string)
    (upd : bool) (st : PredictorStatus) (have : bool) : Prop := {
  mp_unchanged : upd = false → set_Available false st = set_Available false (p_Status p);
  mp_invalid : validatePredictor p ≠ "" → marked_invalid p sourceId st;
  mp_client : have = true → is_Some (env_MMClient env)
}.

Lemma update_ret now eps v incl st :
  ∃ c st', updatePredictorStatusFromVModel now eps st v incl = Ret (c, st') ∧
    (c = false → set_Available false st' = set_Available false st).
Proof.
  destruct (update_closed_form now eps v incl st) as (c & Hu & Hc). exists c, (newStatus now eps v incl st).
  split; [done|]. intros ->.
  destruct (decide (set_Available false (newStatus now eps v incl st) =
                    set_Available false st)) as [|Hne]; [done|].
  by apply Hc in Hne.
Qed.

Lemma set_Available_inj b s s' :
  set_Available b s = set_Available b s' →
  st_TransitionStatus s = st_TransitionStatus s' ∧
  ActiveModelState s = ActiveModelState s' ∧ LastFailureInfo s = LastFailureInfo s'.
Proof. unfold set_Available. by intros [= ? ? ? ? ? ? ? ?]. Qed.

(** The two assignments that mark an invalid spec *)
Lemma markInvalid_spec p sourceId st0 (upd0 : bool) st :
  (upd0 = false → set_Available false st = set_Available false st0) →
  ∃ upd st', markInvalid p sourceId (validatePredictor p) upd0 st = (upd, st') ∧
    marked_invalid p sourceId st' ∧
    (upd = false → set_Available false st' = set_Available false st0).
Proof.
  intros Hu. unfold markInvalid. rewrite assign_failure. cbn zeta beta iota.
  case_bool_decide as Ht.
  - eexists _, _. split; [done|]. split; done.
  - eexists _, _. split; [done|]. split; [done|].
    case_bool_decide as Hf; [done|]. intros Hupd.
    rewrite <- (Hu Hupd). rewrite Hf. by destruct st.
Qed.

Lemma reconcileModel_spec env p sourceId rt tr :
  runtime_ref_ok p →
  ∃ calls upd st have e,
    reconcileModel env p sourceId rt tr = Ret (tr ++ calls, (upd, st, have, e)) ∧
    model_calls env p sourceId calls ∧ model_post env p sourceId upd st have.
Proof.
  intros Href. unfold reconcileModel. case_bool_decide as Hv.
  - unfold reconcileInvalid. destruct (env_MMClient env) as [mmc|] eqn:Em.
    2:{ run_io. edestruct (markInvalid_spec p sourceId (p_Status p) false)
          as (upd & st' & Hr & Hinv & Hun); [done|].
        rewrite Hr. eexists [], upd, st', false, _. rewrite app_nil_r.
        split; [done|]. split; [constructor|]. split; [done..|by intros]. }
    run_io.
    set (g := GetVModelStatus mmc _). destruct g as [vms|err].
    + destruct (update_ret (env_now env) (env_endpoints env) vms false (p_Status p))
        as (c & st1 & -> & Hc).
      edestruct (markInvalid_spec p sourceId (p_Status p) c)
        as (upd & st' & Hr & Hinv & Hun); [exact Hc|].
      rewrite Hr. eexists _, upd, st', true, _. split; [done|].
      split; [by econstructor|]. split; [done..|by eexists].
    + edestruct (markInvalid_spec p sourceId (p_Status p) false)
        as (upd & st' & Hr & Hinv & Hun); [done|].
      destruct (isNoAddresses err); run_io; rewrite Hr; eexists _, upd, st', _, _;
        (split; [done|]); (split; [by econstructor|]); (split; [done..|by eexists]).
  - destruct (env_MMClient env) as [mmc|] eqn:Em.
    2:{ run_io. eexists [], _, _, _, _. rewrite app_nil_r. split; [done|].
        split; [constructor|]. by split. }
    unfold reconcileValid, setVModel.
    destruct (extractModelFields p) as [[[path sp] sk] params].
    destruct (GetPredictorTypeLabel_ok p Href) as [L HL].
    destruct (MarshalKeyInfo _) as [key|kerr].
    + rewrite HL. run_io. set (req := mkSetVModel _ _ _ _ _ _ _ _).
      assert (model_calls env p sourceId [CallSetVModel req]) as Hcalls
        by (by econstructor).
      destruct (SetVModel mmc req) as [vms|err].
      * destruct (update_ret (env_now env) (env_endpoints env) vms true (p_Status p))
          as (c & st1 & -> & Hc).
        eexists _, _, _, _, _. split; [done|]. split; [done|]. by split.
      * destruct (isNoAddresses err); [|case_bool_decide]; rewrite ?assign_failure;
          cbn beta iota zeta; eexists _, _, _, _, _; (split; [done|]); (split; [done|]);
          (split; [|done|done]); try done; intros Hf%bool_decide_eq_false%dec_stable;
          rewrite Hf; by destruct (p_Status p).
    + run_io. set (err := ErrWrap _ _).
      destruct (isNoAddresses err); [|case_bool_decide]; rewrite ?assign_failure;
          cbn beta iota zeta; eexists [], _, _, _, _; rewrite app_nil_r;
          (split; [done|]); (split; [constructor|]);
          (split; [|done|done]); try done; intros Hf%bool_decide_eq_false%dec_stable;
          rewrite Hf; by destruct (p_Status p).
Qed.

(** A run of a reconciliation that found its Predictor *)
Lemma reconcile_run env n sourceId reg p :
  reg_Get reg n = Ret (Ok (Some p)) → runtime_ref_ok p →
  ∃ calls (upd : bool) st have res err,
    run (ReconcilePredictor env n sourceId reg) =
      Ret (calls ++ (if upd then [CallUpdateStatus (set_Status st p)] else []), (res, err)) ∧
    model_calls env p sourceId calls ∧ model_post env p sourceId upd st have ∧
    (err = None → res = requeueFor have st ∨
      upd = true ∧ reg_UpdateStatus reg (set_Status st p) = Ok false ∧ Requeue res = true) ∧
    ∃ e, reconcileModel env p sourceId (reg_GetSourceName reg) [] = Ret (calls, (upd, st, have, e)).
Proof.
  intros Hg Href.
  destruct (reconcileModel_spec env p sourceId (reg_GetSourceName reg) [] Href)
    as (calls & upd & st & have & e & Hm & Hcalls & Hpost).
  exists calls, upd, st, have. unfold ReconcilePredictor. rewrite Hg. run_io. rewrite Hm.
  unfold afterUpdate, finish. run_io. cbn [p_Status set_Status]. destruct upd.
  - destruct (reg_UpdateStatus reg (set_Status st p)) as [[]|ue] eqn:Eu.
    + assert (∃ x, (if negb (WaitingForRuntime (p_Status p)) && WaitingForRuntime st
                    then match deref (LastFailureInfo st) with
                         | Ret fi => Ret (fi_Message fi) | Panic => Panic end
                    else Ret "") = Ret x) as [x ->].
      { destruct (_ && _) eqn:Ew; [|by eexists].
        apply andb_true_iff in Ew as [_ Ew]. unfold WaitingForRuntime in Ew.
        destruct (LastFailureInfo st); [by eexists|done]. }
      destruct e; eexists _, _; split_and!; try (done || by eexists). by left.
    + eexists _, _; split_and!; try (done || by eexists). by right.
    + eexists _, _; split_and!; try done; by eexists.
  - rewrite app_nil_r. destruct e; eexists _, _; split_and!; try (done || by eexists). by left.
Qed.

(** C8: Reconciling an existing Predictor never panics. It makes at most one call to
    model-mesh, then at most one status update: a valid Predictor is registered
    under its name and source with its concrete model name, an invalid one is only
    queried, and the status is written when a field other than Available changed. *)
Theorem reconcile_calls env n sourceId reg p :
  reg_Get reg n = Ret (Ok (Some p)) → runtime_ref_ok p →
  ∃ calls (upd : bool) st res err,
    run (ReconcilePredictor env n sourceId reg) =
      Ret (calls ++ (if upd then [CallUpdateStatus (set_Status st p)] else []), (res, err)) ∧
    model_calls env p sourceId calls ∧
    (upd = false → set_Available false st = set_Available false (p_Status p)).
Proof.
  intros Hg Href. destruct (reconcile_run env n sourceId reg p Hg Href)
    as (calls & upd & st & have & res & err & Hr & Hc & [Hu _ _] & _).
  exists calls, upd, st, res, err. done.
Qed.

(** The status a reconciliation leaves behind: the one it wrote, else the one it
    found *)
Definition final_status (p : Predictor) (tr : list PredictorCall) : PredictorStatus :=
  match last tr with
  | Some (CallUpdateStatus q) => p_Status q
  | _ => p_Status p
  end.

Lemma final_status_run p sourceId env calls (upd : bool) st :
  model_calls env p sourceId calls →
  (upd = false → set_Available false st = set_Available false (p_Status p)) →
  set_Available false (final_status p (calls ++
     (if upd then [CallUpdateStatus (set_Status st p)] else []))) = set_Available false st.
Proof.
  intros Hc Hu. unfold final_status. destruct upd.
  - rewrite last_snoc. by destruct st.
  - rewrite app_nil_r. rewrite Hu by done. by destruct Hc.
Qed.

(** C34: A Predictor with an invalid spec is never registered with model-mesh, and
    after its reconciliation the status shows the transition InvalidSpec with the
    validation message. *)
Theorem reconcile_invalid_spec env n sourceId reg p tr res err :
  reg_Get reg n = Ret (Ok (Some p)) → runtime_ref_ok p →
  validatePredictor p ≠ "" →
  run (ReconcilePredictor env n sourceId reg) = Ret (tr, (res, err)) →
  (∀ req, CallSetVModel req ∉ tr) ∧ marked_invalid p sourceId (final_status p tr).
Proof.
  intros Hg Href Hv Hrun. destruct (reconcile_run env n sourceId reg p Hg Href)
    as (calls & upd & st & have & res' & err' & Hr & Hc & [Hu Hi _] & _).
  rewrite Hr in Hrun. injection Hrun as <- _ _. split.
  - intros req. rewrite elem_of_app. destruct upd, Hc; set_solver.
  - pose proof (final_status_run p sourceId env calls upd st Hc Hu)
      as (Ht & _ & Hl)%set_Available_inj.
    unfold marked_invalid. rewrite Ht, Hl. by apply Hi.
Qed.

(** A reconciliation that neither fails nor asks to be run again leaves a
    Predictor for which model-mesh is connected and that is neither waiting for a
    runtime nor loading: nothing is forgotten in an unsettled state. *)
Theorem reconcile_polls env n sourceId reg p tr res :
  reg_Get reg n = Ret (Ok (Some p)) → runtime_ref_ok p →
  run (ReconcilePredictor env n sourceId reg) = Ret (tr, (res, None)) →
  Requeue res = false → RequeueAfter res = 0%Z →
  is_Some (env_MMClient env) ∧
  WaitingForRuntime (final_status p tr) = false ∧
  ActiveModelState (final_status p tr) ≠ Loading.
Proof.
  intros Hg Href Hrun Hq Ha. destruct (reconcile_run env n sourceId reg p Hg Href)
    as (calls & upd & st & have & res' & err' & Hr & Hc & [Hu _ Hcl] & Hres & _).
  rewrite Hr in Hrun. injection Hrun as <- -> ->.
  pose proof (final_status_run p sourceId env calls upd st Hc Hu)
    as (_ & Hact & Hl)%set_Available_inj.
  rewrite (waiting_lfi _ _ Hl), Hact.
  destruct (Hres eq_refl) as [->|(_ & _ & ?)]; [|congruence].
  unfold requeueFor in Ha. destruct have; simpl in Ha; [|done].
  destruct (WaitingForRuntime st); [done|]. case_bool_decide; [done|]. auto.
Qed.

(** A Predictor that the registry no longer has (or, for an InferenceService,
    that is not in ModelMesh mode) has its vmodel deleted, under its own name and
    source, as the only call; without a model-mesh client the deletion is retried. *)
Theorem reconcile_deleted env n sourceId reg g :
  reg_Get reg n = Ret g →
  match g with Ok None => True | Ok (Some _) => False | Err e => IsNotFound e = true end →
  ∃ res err,
    run (ReconcilePredictor env n sourceId reg) =
      Ret (match env_MMClient env with
           | Some _ => [CallDeleteVModel (mkDeleteVModel (Name n) sourceId)]
           | None => []
           end, (res, err)) ∧
    (env_MMClient env = None → RequeueAfter res = (10 * Second)%Z ∧ err = None).
Proof.
  intros Hg Hnf.
  assert (run (ReconcilePredictor env n sourceId reg) =
          run (handlePredictorNotFound env n sourceId)) as ->.
  { unfold ReconcilePredictor. rewrite Hg. run_io.
    destruct g as [[?|]|e]; [done|done|]. by rewrite Hnf. }
  unfold handlePredictorNotFound. destruct (env_MMClient env) as [mmc|].
  - run_io. destruct (DeleteVModel mmc _) as [e|]; [|eexists _, _; by split].
    destruct (isNoAddresses e); [case_bool_decide|]; eexists _, _; by split.
  - run_io. eexists _, _. by split.
Qed.

(** The requests that InferenceService events are turned into reach the
    InferenceService registry with the object's own name. *)
Theorem isvc_event_reconciled env (o : ObjectMeta) regs reg req :
  has_char "_"%char (om_Namespace o) = false →
  regs !! InferenceServiceCRSourceId = Some reg →
  req ∈ prefixName InferenceServiceCRSourceId o →
  run (Reconcile env req regs) =
  run (ReconcilePredictor env (mkNN (om_Namespace o) (om_Name o))
         InferenceServiceCRSourceId reg).
Proof.
  intros Hns Hreg ->%list_elem_of_singleton. unfold Reconcile.
  rewrite ResolveSource_prefixed by done. run_io. by rewrite Hreg.
Qed.

(** A Predictor obtained from an InferenceService always passes validation, and
    the model fields registered for it are those of its storage. *)
Theorem isvc_predictor_valid `{!Knative, !NetURL, !ISVCNames} Client n p :
  InferenceServiceRegistry_Get Client n = Ret (Ok (Some p)) →
  validatePredictor p = "" ∧ runtime_ref_ok p ∧
  ∃ isvc sk params path schema,
    cl_Get Client n = Ok isvc ∧
    processInferenceServiceStorage isvc n = Ret (Ok (sk, params, path, schema)) ∧
    extractModelFields p = (path, schema, sk, Some params).
Proof.
  intros (isvc & p0 & r & Hg & Hb & Hs & ->)%ISVC_Get_inv.
  destruct r as [[[sk params] path] schema].
  destruct (BuildBase_shape _ _ Hb) as (_ & Hpath & Hschema & Href & _).
  split_and!.
  - unfold validatePredictor. simpl. rewrite Hpath, Hschema. simpl.
    rewrite andb_false_r. by destruct schema.
  - done.
  - exists isvc, sk, params, path, schema. split_and!; [done..|].
    unfold extractModelFields. simpl. rewrite Hschema. by destruct schema, sk.
Qed.
End Reconcile.

(** ** Witnesses *)

Definition predictorLibsImpl : PredictorLibs := {|
  Convert := λ e, match e with ErrGrpc c m => (c, m) | _ => (2%Z, "") end;
  Convert_status := λ _ _, eq_refl;
  MarshalKeyInfo := λ _, Ok "{}";
  MarshalSpec := λ _, "{}";
  sha1_Sum := λ _, "aaaaabbbbbcccccddddd";
  sha1_Size := λ _, eq_refl
|}.

#[local] Existing Instance predictorLibsImpl.
#[local] Existing Instance protocolNamesImpl.

(** A registry that always answers with one Predictor *)
Definition exRegistry (g : result error (option Predictor)) : PredictorRegistry :=
  mkRegistry (λ _, Ret g) (λ _ _ _ s, Ret (s, Ok false)) (λ _, Ok true) "Predictor".

Definition exLoading : VModelStatusInfo :=
  mkVStatus VMS_DEFINED "m1" "m1" (Some (mkStatusInfo MS_LOADING [] [])) None.

Definition exClient : ModelMeshClient :=
  mkMMC (λ _, Ok exLoading) (λ _, Ok exLoading) (λ _, None).

Definition exEnv : Env := mkEnvR (Some exClient) (Some ("grpc://mm", "http://mm")) 1000.

Definition exPredictor1 (storage : option Storage) (st : PredictorStatus) : Predictor :=
  mkPredictor (mkMeta "p" "ns" "1" None ∅ ∅)
    (mkPredictorSpec None (mkModel (mkModelType "onnx" None) "path" None storage)
       None None None) st.

(** Both spec.path and spec.storage.path *)
Definition exBadStorage : Storage :=
  mkStorage (mkStorageSpec (Some "p2") None None None) None None.

Lemma update_idempotent_witness :
  ∃ c st', updatePredictorStatusFromVModel 1000 None defaultStatus exLoading true =
             Ret (c, st') ∧
           updatePredictorStatusFromVModel 2000 None st' exLoading true = Ret (false, st').
Proof.
  eexists true, _. split; [vm_compute; reflexivity|].
  apply (update_idempotent 1000 2000 None defaultStatus exLoading true).
  - vm_compute. reflexivity.
  - simpl. discriminate.
Defined.

Lemma reconcile_calls_witness :
  ∃ calls (upd : bool) st res err,
    run (ReconcilePredictor exEnv (mkNN "ns" "p") "ksp"
           (exRegistry (Ok (Some (exPredictor1 None defaultStatus))))) =
      Ret (calls ++ (if upd then [CallUpdateStatus
             (set_Status st (exPredictor1 None defaultStatus))] else []), (res, err)) ∧
    model_calls exEnv (exPredictor1 None defaultStatus) "ksp" calls ∧
    (upd = false → set_Available false st = set_Available false defaultStatus).
Proof.
  apply (reconcile_calls exEnv (mkNN "ns" "p") "ksp"
           (exRegistry (Ok (Some (exPredictor1 None defaultStatus))))).
  - reflexivity.
  - exact I.
Defined.

Lemma reconcile_invalid_spec_witness :
  ∃ tr res err,
    run (ReconcilePredictor exEnv (mkNN "ns" "p") "ksp"
           (exRegistry (Ok (Some (exPredictor1 (Some exBadStorage) defaultStatus))))) =
      Ret (tr, (res, err)) ∧
    marked_invalid (exPredictor1 (Some exBadStorage) defaultStatus) "ksp"
      (final_status (exPredictor1 (Some exBadStorage) defaultStatus) tr).
Proof.
  eexists _, _, _. split; [vm_compute; reflexivity|].
  eapply (reconcile_invalid_spec exEnv (mkNN "ns" "p") "ksp"
           (exRegistry (Ok (Some (exPredictor1 (Some exBadStorage) defaultStatus))))).
  - reflexivity.
  - exact I.
  - vm_compute. discriminate.
  - vm_compute. reflexivity.
Defined.

Definition exLoadedClient : ModelMeshClient :=
  let vs := mkVStatus VMS_DEFINED "m1" "m1" (Some (mkStatusInfo MS_LOADED [] [])) None in
  mkMMC (λ _, Ok vs) (λ _, Ok vs) (λ _, None).

Lemma reconcile_polls_witness :
  ∃ tr res,
    run (ReconcilePredictor (mkEnvR (Some exLoadedClient) None 1000) (mkNN "ns" "p") "ksp"
           (exRegistry (Ok (Some (exPredictor1 None defaultStatus))))) =
      Ret (tr, (res, None)) ∧
    ActiveModelState (final_status (exPredictor1 None defaultStatus) tr) ≠ Loading.
Proof.
  eexists _, _. split; [vm_compute; reflexivity|].
  eapply (reconcile_polls (mkEnvR (Some exLoadedClient) None 1000) (mkNN "ns" "p") "ksp"
           (exRegistry (Ok (Some (exPredictor1 None defaultStatus))))).
  - reflexivity.
  - exact I.
  - vm_compute. reflexivity.
  - reflexivity.
  - reflexivity.
Defined.

Lemma reconcile_deleted_witness :
  ∃ res err,
    run (ReconcilePredictor exEnv (mkNN "ns" "p") "ksp" (exRegistry (Err ErrNotFound))) =
      Ret ([CallDeleteVModel (mkDeleteVModel "p" "ksp")], (res, err)) ∧
    (Some exClient = None → RequeueAfter res = (10 * Second)%Z ∧ err = None).
Proof.
  apply (reconcile_deleted exEnv (mkNN "ns" "p") "ksp" (exRegistry (Err ErrNotFound))
           (Err ErrNotFound)).
  - reflexivity.
  - reflexivity.
Defined.

Lemma isvc_event_reconciled_witness :
  run (Reconcile exEnv (mkNN "isvc_ns" "p")
         {["isvc" := exRegistry (Ok None)]}) =
  run (ReconcilePredictor exEnv (mkNN "ns" "p") "isvc" (exRegistry (Ok None))).
Proof.
  apply (isvc_event_reconciled exEnv (mkMeta "p" "ns" "1" None ∅ ∅)
           {["isvc" := exRegistry (Ok None)]}).
  - reflexivity.
  - apply lookup_singleton_eq.
  - left.
Defined.

Definition exISVCClient : ObjectClient (@InferenceService knativeImpl) :=
  mkClient (λ _, Ok exISVC) (λ _, Ok [exISVC]) (λ _, None).

Lemma isvc_predictor_valid_witness :
  ∃ p, @InferenceServiceRegistry_Get knativeImpl netUrlImpl isvcNamesImpl exISVCClient
         (mkNN "ns" "p") = Ret (Ok (Some p)) ∧ validatePredictor p = "".
Proof.
  eexists. split; [vm_compute; reflexivity|].
  apply (@isvc_predictor_valid knativeImpl netUrlImpl isvcNamesImpl exISVCClient
           (mkNN "ns" "p")).
  vm_compute. reflexivity.
Defined.

(** ** Availability goes unreported *)

(** A Predictor whose invalid spec is already recorded, and whose model loads *)
Definition exStaleStatus : PredictorStatus :=
  mkPredictorStatus false InvalidSpec Loading NoModelState
    (Some (mkFailureInfo "" InvalidPredictorSpec
             "Only one of spec.path and spec.storage.path can be specified"
             "p__ksp-6161616161" None)) "http://mm" "grpc://mm" 0 0.

(** The code computes Available without flagging its change: this reconciliation
    computes that the Predictor is available while its stored status says it is
    not, and writes nothing. *)
Theorem available_change_not_written :
  let p := exPredictor1 (Some exBadStorage) exStaleStatus in
  ∃ st', updatePredictorStatusFromVModel 1000 (Some ("grpc://mm", "http://mm"))
           (p_Status p) exLoading false = Ret (false, st') ∧
    Available st' = true ∧ Available (p_Status p) = false ∧
    run (ReconcilePredictor exEnv (mkNN "ns" "p") "ksp" (exRegistry (Ok (Some p)))) =
      Ret ([CallGetVModelStatus (mkGetVModel "p" "ksp")],
           (requeueAfter (1 * Second), None)).
Proof. eexists. split_and!; vm_compute; reflexivity. Qed.

(** A target model that only waits for a runtime pod is reported as Loading, but the
    transition stays blocked: the code compares the status model-mesh sent, which is a
    failure, and not the state it was converted to. *)
Theorem waiting_target_stays_blocked :
  ∃ st', updatePredictorStatusFromVModel 1000 None defaultStatus
           (mkVStatus VMS_TRANSITION_FAILED "m1" "m2" (Some (mkStatusInfo MS_LOADED [] []))
              (Some (mkStatusInfo MS_LOADING_FAILED [noHomeMessage +:+ "[onnx]"] []))) true =
         Ret (true, st') ∧
    TargetModelState st' = Loading ∧ st_TransitionStatus st' = BlockedByFailedLoad.
Proof. eexists. split_and!; vm_compute; reflexivity. Qed.
