(* ===== verification/Config.v ===== *)
(** * Controller configuration (pkg/config/config.go)

    The merged configuration, its validation, and the provider that reloads it
    when the user's ConfigMap changes. viper, the quantity parser and the process
    environment are arguments. *)

From S2P Require Import Prelude GoStrings Types K8s.
From Stdlib Require Import Ascii.

Definition DefaultEtcdSecretName : string := "model-serving-etcd".
Definition EnvEtcdSecretName : string := "ETCD_SECRET_NAME".

(** ** Data *)

Record ConfigEnvVar := mkConfigEnv { ce_Name : string; ce_Value : string }.

Definition ToKubernetesEnv (evl : list ConfigEnvVar) : list EnvVar :=
  map (λ e, mkEnv (ce_Name e) (ce_Value e) None) evl.

Record PrometheusConfig := mkPrometheus {
  pc_Enabled : bool;
  pc_Port : Z;
  pc_Scheme : string;
  pc_DisablePrometheusOperatorSupport : bool
}.

Record ScaleToZeroConfig := mkScaleToZero {
  sz_Enabled : bool;
  sz_GracePeriodSeconds : Z
}.

Record TLSConfig := mkTLS { tls_SecretName : string; tls_ClientAuth : string }.

Record ImageConfig := mkImage {
  im_Name : string;
  im_Tag : string;
  im_Digest : string;
  im_Command : list string
}.

Definition TaggedImage (m : ImageConfig) : string :=
  if bool_decide (im_Digest m ≠ "") then im_Name m +:+ "@" +:+ im_Digest m
  else if bool_decide (im_Tag m ≠ "") then im_Name m +:+ ":" +:+ im_Tag m
  else im_Name m.

Record ResourceQuantities := mkQuantities { rq_CPU : string; rq_Memory : string }.

(** config.ResourceRequirements; the last field caches the parsed form *)
Record ConfigResources := mkConfigResources {
  cr_Requests : ResourceQuantities;
  cr_Limits : ResourceQuantities;
  cr_parsed : option ResourceRequirements
}.

Record RESTProxyConfig := mkRESTProxy {
  rp_Enabled : bool;
  rp_SkipVerify : bool;
  rp_Port : Z;
  rp_Image : ImageConfig;
  rp_Resources : ConfigResources
}.

Record Config := mkConfig {
  EtcdSecretName : string;
  ModelMeshEndpoint : string;
  AllowAnyPVC : bool;
  InferenceServiceName : string;
  InferenceServicePort : Z;
  TLS : TLSConfig;
  HeadlessService : bool;
  GrpcMaxMessageSizeBytes : Z;
  ModelMeshImage : ImageConfig;
  ModelMeshResources : ConfigResources;
  RESTProxy : RESTProxyConfig;
  StorageHelperImage : ImageConfig;
  StorageHelperResources : ConfigResources;
  PodsPerRuntime : Z;
  StorageSecretName : string;
  EnableAccessLogging : bool;
  BuiltInServerTypes : list string;
  PayloadProcessors : list string;
  ServiceAccountName : string;
  Metrics : PrometheusConfig;
  ScaleToZero : ScaleToZeroConfig;
  RuntimePodLabels : gmap string string;
  RuntimePodAnnotations : gmap string string;
  ImagePullSecrets : list string;
  InternalModelMeshEnvVars : list ConfigEnvVar
}.

(** os.LookupEnv is an argument. *)
Definition GetEtcdSecretName (LookupEnv : string → option string) (c : Config) : string :=
  let secretName := default DefaultEtcdSecretName (LookupEnv EnvEtcdSecretName) in
  if bool_decide (secretName = DefaultEtcdSecretName) && bool_decide (EtcdSecretName c ≠ "")
  then EtcdSecretName c else secretName.

(** ** Resource quantities *)

(** resource.ParseQuantity *)
Class Quantities := { ParseQuantity : string → result error Z }.

(** Explicit panic when the cache has not been filled *)
Definition ToKubernetesType (rr : ConfigResources) : exec ResourceRequirements :=
  deref (cr_parsed rr).

Section Merge.
Context `{!Quantities}.

Definition parseAndValidate (rr : ConfigResources) : result error ConfigResources :=
  match ParseQuantity (rq_CPU (cr_Limits rr)) with
  | Err e => Err (ErrWrap "Cannot parse 'Limits.CPU' as a quantity" e)
  | Ok limitsCPU =>
  match ParseQuantity (rq_CPU (cr_Requests rr)) with
  | Err e => Err (ErrWrap "Cannot parse 'Requests.CPU' a quantity" e)
  | Ok requestsCPU =>
  match ParseQuantity (rq_Memory (cr_Limits rr)) with
  | Err e => Err (ErrWrap "Cannot parse 'Limits.Memory' as a quantity" e)
  | Ok limitsMemory =>
  match ParseQuantity (rq_Memory (cr_Requests rr)) with
  | Err e => Err (ErrWrap "Cannot parse 'Requests.Memory' a quantity" e)
  | Ok requestsMemory =>
      Ok (mkConfigResources (cr_Requests rr) (cr_Limits rr)
            (Some (mkResources
               (<["cpu" := limitsCPU]> {["memory" := limitsMemory]})
               (<["cpu" := requestsCPU]> {["memory" := requestsMemory]}))))
  end end end end.

(** ** Merging (viper is the store of keys it is used as) *)

Class Viper := {
  viper : Type;
  (** the defaults, shared by every merge *)
  defaultConfig : viper;
  (** a store over the defaults that has read a YAML document *)
  ReadConfig : string → result error viper;
  GetString : viper → string → string;
  Set' : viper → string → string → viper;
  Unmarshal : viper → result error Config
}.
Context `{!Viper}.

Definition clearDigestIfTagsDiffer (v : viper) (imageConfigField : string) : viper :=
  let tag := imageConfigField +:+ ".tag" in
  let digest := imageConfigField +:+ ".digest" in
  if bool_decide (GetString v tag ≠ GetString defaultConfig tag) &&
     bool_decide (GetString v digest = GetString defaultConfig digest)
  then Set' v digest "" else v.

Definition set_resources (mm rp sh : ConfigResources) (c : Config) : Config :=
  let r := RESTProxy c in
  mkConfig (EtcdSecretName c) (ModelMeshEndpoint c) (AllowAnyPVC c)
    (InferenceServiceName c) (InferenceServicePort c) (TLS c) (HeadlessService c)
    (GrpcMaxMessageSizeBytes c) (ModelMeshImage c) mm
    (mkRESTProxy (rp_Enabled r) (rp_SkipVerify r) (rp_Port r) (rp_Image r) rp)
    (StorageHelperImage c) sh (PodsPerRuntime c) (StorageSecretName c)
    (EnableAccessLogging c) (BuiltInServerTypes c) (PayloadProcessors c)
    (ServiceAccountName c) (Metrics c) (ScaleToZero c) (RuntimePodLabels c)
    (RuntimePodAnnotations c) (ImagePullSecrets c) (InternalModelMeshEnvVars c).

Definition NewMergedConfigFromString (configYaml : string) : result error Config :=
  match ReadConfig configYaml with
  | Err e => Err e
  | Ok v =>
      let v := clearDigestIfTagsDiffer v "modelMeshImage" in
      let v := clearDigestIfTagsDiffer v "storageHelperImage" in
      let v := clearDigestIfTagsDiffer v "restProxy.image" in
      match Unmarshal v with
      | Err e => Err e
      | Ok config =>
      match parseAndValidate (ModelMeshResources config) with
      | Err e => Err (ErrWrap "Invalid config for 'ModelMeshResources'" e)
      | Ok mm =>
      match parseAndValidate (rp_Resources (RESTProxy config)) with
      | Err e => Err (ErrWrap "Invalid config for 'RESTProxy.Resources'" e)
      | Ok rp =>
      match parseAndValidate (StorageHelperResources config) with
      | Err e => Err (ErrWrap "Invalid config for 'StorageHelperResources'" e)
      | Ok sh =>
          match List.find (λ p, Contains p " ") (PayloadProcessors config) with
          | Some processor =>
              Err (ErrMsg ("Error parsing payload processor '" +:+ processor +:+
                           "': endpoint must not contain spaces."))
          | None => Ok (set_resources mm rp sh config)
          end
      end end end end
  end.

(** A user ConfigMap; a missing one has the empty resource version. *)
Record ConfigMapObj := mkConfigMap {
  cm_ResourceVersion : string;
  cm_Data : gmap string string
}.

Definition NewMergedConfigFromConfigMap (m : ConfigMapObj) : result error Config :=
  match cm_Data m !! "config.yaml" with
  | None => Err (ErrMsg "User ConfigMap must contain a key named config.yaml")
  | Some configYaml => NewMergedConfigFromString configYaml
  end.

(** ** The provider *)

Record ConfigProvider := mkProvider {
  cp_config : Config;
  cp_isReloading : bool;
  cp_loadedResourceVersion : string
}.

Definition GetConfig (cp : ConfigProvider) : Config := cp_config cp.

(** The part of ReloadConfigMap that runs under the lock: the error, if any, and
    the provider with its isReloading flag up *)
Definition reload (get : result error ConfigMapObj) (cp : ConfigProvider)
  : option error * ConfigProvider :=
  let cp := mkProvider (cp_config cp) true (cp_loadedResourceVersion cp) in
  let load (configmap : ConfigMapObj) :=
    if bool_decide (cm_ResourceVersion configmap ≠ cp_loadedResourceVersion cp) then
      match (if bool_decide (cm_ResourceVersion configmap = "")
             then NewMergedConfigFromString ""
             else NewMergedConfigFromConfigMap configmap) with
      | Err e => (Some e, cp)
      | Ok newConfig =>
          (None, mkProvider newConfig true (cm_ResourceVersion configmap))
      end
    else (None, cp) in
  match get with
  | Ok configmap => load configmap
  | Err e => if IsNotFound e then load (mkConfigMap "" ∅) else (Some e, cp)
  end.

(** ReloadConfigMap as a whole: the deferred function lowers the flag. *)
Definition ReloadConfigMap (get : result error ConfigMapObj) (cp : ConfigProvider)
  : option error * ConfigProvider :=
  let '(err, cp) := reload get cp in
  (err, mkProvider (cp_config cp) false (cp_loadedResourceVersion cp)).

Definition NewConfigProvider (get : result error ConfigMapObj)
  : result error (ConfigProvider * option error) :=
  match NewMergedConfigFromString "" with
  | Err e => Err e
  | Ok config =>
      let '(err, cp) := ReloadConfigMap get (mkProvider config false "") in
      Ok (cp, err)
  end.

(** The handler of ConfigMap events: [f] lists the requests to enqueue. *)
Definition ConfigWatchHandler {R : Type} (configMapName : NamespacedName)
    (f : ConfigProvider → list R) (get : result error ConfigMapObj) (o : NamespacedName)
    (cp : ConfigProvider) : list R * ConfigProvider :=
  if bool_decide (Name o = Name configMapName) &&
     bool_decide (Namespace o = Namespace configMapName)
  then let '(_, cp) := ReloadConfigMap get cp in (f cp, cp)
  else ([], cp).
End Merge.

(** ** Waiting for a reload

    AwaitReload and ReloadConfigMap interleave on a mutex and a condition
    variable. The reloader's program points are its lock, its broadcast, its
    unlock and the final write of isReloading; the waiter sleeps in Wait with the
    mutex released until a broadcast. *)

Inductive reloader := R_idle | R_locked | R_broadcast | R_unlocked.
Inductive waiter := W_start | W_locked | W_waiting | W_woken | W_done.

Record AwaitState := mkAwait {
  aw_mutex : bool;
  aw_isReloading : bool;
  aw_reloader : reloader;
  aw_waiter : waiter
}.

Inductive await_step : AwaitState → AwaitState → Prop :=
| R_lock r w : await_step (mkAwait false r R_idle w) (mkAwait true true R_locked w)
| R_bcast m r w :
    await_step (mkAwait m r R_locked w)
      (mkAwait m r R_broadcast (match w with W_waiting => W_woken | _ => w end))
(* an error return skips the broadcast *)
| R_error m r w : await_step (mkAwait m r R_locked w) (mkAwait m r R_broadcast w)
| R_unlock r w : await_step (mkAwait true r R_broadcast w) (mkAwait false r R_unlocked w)
| R_reset m r w : await_step (mkAwait m r R_unlocked w) (mkAwait m false R_idle w)
| W_lock r rl : await_step (mkAwait false r rl W_start) (mkAwait true r rl W_locked)
| W_pass rl : await_step (mkAwait true false rl W_locked) (mkAwait false false rl W_done)
| W_wait rl : await_step (mkAwait true true rl W_locked) (mkAwait false true rl W_waiting)
| W_wake r rl : await_step (mkAwait false r rl W_woken) (mkAwait false r rl W_done).
