(* ===== verification/ConfigProps.v ===== *)
(** * Properties of the configuration

    A configuration that was accepted never panics when it is used, payload
    processors survive their encoding as one variable, and a reload keeps the last
    good configuration. The condition variable protocol of AwaitReload loses
    wake-ups. *)

From S2P Require Import Prelude GoStrings Types K8s Config.
From Stdlib Require Import Ascii.

Section Props.
Context `{!Quantities, !Viper}.

Lemma parseAndValidate_parsed rr rr' :
  parseAndValidate rr = Ok rr' → is_Some (cr_parsed rr').
Proof.
  unfold parseAndValidate. repeat case_match; intros; simplify_eq/=; eauto.
Qed.

Lemma NewMerged_inv y c :
  NewMergedConfigFromString y = Ok c →
  is_Some (cr_parsed (ModelMeshResources c)) ∧
  is_Some (cr_parsed (rp_Resources (RESTProxy c))) ∧
  is_Some (cr_parsed (StorageHelperResources c)) ∧
  Forall (λ p, has_char " "%char p = false) (PayloadProcessors c).
Proof.
  unfold NewMergedConfigFromString.
  destruct (ReadConfig y) as [v|]; [|done]. cbn zeta.
  destruct (Unmarshal _) as [c0|]; [|done].
  destruct (parseAndValidate (ModelMeshResources c0)) as [mm|] eqn:E1; [|done].
  destruct (parseAndValidate (rp_Resources (RESTProxy c0))) as [rp|] eqn:E2; [|done].
  destruct (parseAndValidate (StorageHelperResources c0)) as [sh|] eqn:E3; [|done].
  destruct (List.find _ _) eqn:E4; [done|]. intros [= <-]. simpl.
  split_and!; try by eapply parseAndValidate_parsed.
  apply Forall_forall. intros p Hp. rewrite <- Contains_char.
  by apply (List.find_none _ _ E4), list_elem_of_In.
Qed.

(** The resource requirements of a configuration that was accepted are all
    parsed: using them never runs into the panic of ToKubernetesType. *)
Theorem merged_config_no_panic y c :
  NewMergedConfigFromString y = Ok c →
  ∃ mm rp sh, ToKubernetesType (ModelMeshResources c) = Ret mm ∧
              ToKubernetesType (rp_Resources (RESTProxy c)) = Ret rp ∧
              ToKubernetesType (StorageHelperResources c) = Ret sh.
Proof.
  intros ([mm Hm] & [rp Hr] & [sh Hs] & _)%NewMerged_inv. exists mm, rp, sh.
  unfold ToKubernetesType. by rewrite Hm, Hr, Hs.
Qed.

(** The payload processors of an accepted configuration survive being joined
    with spaces into one environment variable. *)
Theorem payload_processors_roundtrip y c :
  NewMergedConfigFromString y = Ok c → PayloadProcessors c ≠ [] →
  Split (Join (PayloadProcessors c) " ") " "%char = PayloadProcessors c.
Proof. intros (_ & _ & _ & Hp)%NewMerged_inv Hne. by apply Split_Join. Qed.

(** A reload that fails keeps configuration and version, one that succeeds
    leaves the version of the ConfigMap it read (the empty one when it is gone) and
    replaces the configuration only when that version is new. Reading the same
    ConfigMap again changes nothing. *)
Theorem reload_keeps_last_good get cp err cp' :
  ReloadConfigMap get cp = (err, cp') →
  match err with
  | Some _ => GetConfig cp' = GetConfig cp ∧
              cp_loadedResourceVersion cp' = cp_loadedResourceVersion cp
  | None =>
      let cm := match get with Ok m => m | Err _ => mkConfigMap "" ∅ end in
      cp_loadedResourceVersion cp' = cm_ResourceVersion cm ∧
      (if bool_decide (cm_ResourceVersion cm = cp_loadedResourceVersion cp)
       then GetConfig cp' = GetConfig cp
       else (if bool_decide (cm_ResourceVersion cm = "")
             then NewMergedConfigFromString ""
             else NewMergedConfigFromConfigMap cm) = Ok (GetConfig cp')) ∧
      ReloadConfigMap get cp' = (None, cp')
  end.
Proof.
  assert (Hload : ∀ cm, get = Ok cm ∨ (∃ e, get = Err e ∧ IsNotFound e = true ∧
                                        cm = mkConfigMap "" ∅) →
    ∀ cp, reload get cp = reload (Ok cm) cp).
  { intros cm [->|(e & -> & Hnf & ->)] c0; [done|]. simpl. by rewrite Hnf. }
  intros Hr.
  assert (∃ cm, (get = Ok cm ∨ (∃ e, get = Err e ∧ IsNotFound e = true ∧
                                  cm = mkConfigMap "" ∅)) ∨
                (∃ e, get = Err e ∧ IsNotFound e = false)) as [cm [Hcm|(e & -> & He)]].
  { destruct get as [cm|e]; [by exists cm; left; left|].
    destruct (IsNotFound e) eqn:He; [exists (mkConfigMap "" ∅); left; right; eauto|].
    exists (mkConfigMap "" ∅). right. eauto. }
  2:{ unfold ReloadConfigMap in Hr. simpl in Hr. rewrite He in Hr. by simplify_eq/=. }
  assert (Hget : match get with Ok m => m | Err _ => mkConfigMap "" ∅ end = cm).
  { by destruct Hcm as [->|(e & -> & _ & ->)]. }
  rewrite Hget. unfold ReloadConfigMap in *. rewrite !(Hload cm Hcm) in *.
  clear Hload Hget Hcm get. unfold reload in Hr |- *. cbn zeta in *.
  cbn [cp_loadedResourceVersion cp_config] in *.
  set (merged := if bool_decide (cm_ResourceVersion cm = "") then _ else _) in *.
  destruct (decide (cm_ResourceVersion cm = cp_loadedResourceVersion cp)) as [Hv|Hv].
  - rewrite bool_decide_false in Hr by tauto. injection Hr as <- <-.
    cbn [cp_loadedResourceVersion cp_config]. rewrite bool_decide_true by done.
    rewrite bool_decide_false by tauto. done.
  - rewrite bool_decide_true in Hr by done.
    destruct merged as [c|e]; injection Hr as <- <-; [|done].
    cbn [cp_loadedResourceVersion cp_config]. rewrite bool_decide_false by done.
    split_and!; [done..|]. by rewrite bool_decide_false by tauto.
Qed.
End Props.

(** AwaitReload can sleep through a finished reload: isReloading is lowered only
    after the mutex is released, so a waiter that locks in between starts to wait
    when the broadcast is already over. The reloader has then finished and the
    waiter has no step left of its own. *)
Theorem AwaitReload_lost_wakeup :
  ∃ s, rtc await_step (mkAwait false false R_idle W_start) s ∧
       aw_waiter s = W_waiting ∧ aw_reloader s = R_idle ∧ aw_isReloading s = false ∧
       ∀ s', await_step s s' → aw_waiter s' = W_waiting ∧ aw_reloader s' = R_locked.
Proof.
  exists (mkAwait false false R_idle W_waiting). split_and!; [|done..|].
  - eapply rtc_l; [apply R_lock|]. eapply rtc_l; [apply R_bcast|].
    eapply rtc_l; [apply R_unlock|]. eapply rtc_l; [apply W_lock|].
    eapply rtc_l; [apply W_wait|]. apply rtc_once. apply R_reset.
  - intros s' Hs. by inversion Hs.
Qed.

(** ** Witnesses *)

Definition quantitiesImpl : Quantities := {|
  ParseQuantity := λ s, match Atoi s with
                        | Some n => Ok n
                        | None => Err (ErrMsg "invalid quantity")
                        end
|}.

Definition exResources : ConfigResources :=
  mkConfigResources (mkQuantities "1" "64") (mkQuantities "2" "128") None.
Definition exImage : ImageConfig := mkImage "img" "v1" "" [].
Definition exConfig : Config :=
  mkConfig "" "" false "modelmesh-serving" 8033 (mkTLS "" "") true 16777216
    exImage exResources (mkRESTProxy true false 8008 exImage exResources)
    exImage exResources 2 "storage-config" false ["triton"; "mlserver"]
    ["http://a"; "http://b"] "" (mkPrometheus false 2112 "https" false)
    (mkScaleToZero true 60) ∅ ∅ [] [].

(** A store that has nothing but the defaults *)
Definition viperImpl : Viper := {|
  viper := unit;
  defaultConfig := tt;
  ReadConfig := λ _, Ok tt;
  GetString := λ _ _, "";
  Set' := λ _ _ _, tt;
  Unmarshal := λ _, Ok exConfig
|}.

#[local] Existing Instance quantitiesImpl.
#[local] Existing Instance viperImpl.

Definition exMerged : Config :=
  match NewMergedConfigFromString "" with Ok c => c | Err _ => exConfig end.

Lemma merged_config_no_panic_witness :
  ∃ mm rp sh, ToKubernetesType (ModelMeshResources exMerged) = Ret mm ∧
              ToKubernetesType (rp_Resources (RESTProxy exMerged)) = Ret rp ∧
              ToKubernetesType (StorageHelperResources exMerged) = Ret sh.
Proof. apply (merged_config_no_panic ""). vm_compute. reflexivity. Defined.

Lemma payload_processors_roundtrip_witness :
  Split (Join (PayloadProcessors exMerged) " ") " "%char = ["http://a"; "http://b"].
Proof.
  apply (payload_processors_roundtrip "").
  - vm_compute. reflexivity.
  - vm_compute. discriminate.
Defined.

Definition exProvider : ConfigProvider := mkProvider exMerged false "".

Lemma reload_keeps_last_good_witness :
  ∃ cp', ReloadConfigMap (Ok (mkConfigMap "7" {["config.yaml" := ""]})) exProvider =
           (None, cp') ∧ cp_loadedResourceVersion cp' = "7".
Proof.
  eexists. split; [vm_compute; reflexivity|].
  eapply (reload_keeps_last_good (Ok (mkConfigMap "7" {["config.yaml" := ""]}))
           exProvider None).
  vm_compute. reflexivity.
Defined.
