(* ===== verification/ConfigKeys.v ===== *)
(** * Keys of the configuration (pkg/config/config.go)

    The defaults that are compiled in, and the keys under which nested values are
    found. The stores are created with the key delimiter [::], so that labels and
    annotations may have dots in their names; a key with a dot is then a plain name.
    The digests of the images are looked up under such keys. *)

From S2P Require Import Prelude GoStrings Types K8s Config ConfigProps.
From Stdlib Require Import Ascii.

Definition ViperKeyDelimiter : string := "::".

Definition concatStringsWithDelimiter (elems : list string) : string :=
  Join elems ViperKeyDelimiter.

(** ** The compiled-in defaults *)

Inductive setting :=
| SString (s : string)
| SInt (n : Z)
| SBool (b : bool)
| SStrings (l : list string).

(** The calls of SetDefault, in order. The names of the built-in servers are
    constants of the KServe API. *)
Definition defaults (MLServer Triton OVMS : string) : list (string * setting) :=
  [("InferenceServiceName", SString "modelmesh-serving");
   ("InferenceServicePort", SInt 8033);
   ("PodsPerRuntime", SInt 2);
   ("StorageSecretName", SString "storage-config");
   ("ServiceAccountName", SString "");
   ("PayloadProcessors", SStrings []);
   (concatStringsWithDelimiter ["Metrics"; "Port"], SInt 2112);
   (concatStringsWithDelimiter ["Metrics"; "Scheme"], SString "https");
   (concatStringsWithDelimiter ["ScaleToZero"; "Enabled"], SBool true);
   (concatStringsWithDelimiter ["ScaleToZero"; "GracePeriodSeconds"], SInt 60);
   ("GrpcMaxMessageSizeBytes", SInt 16777216);
   ("BuiltInServerTypes", SStrings [MLServer; Triton; OVMS; "torchserve"])].

(** No default overwrites another. *)
Lemma defaults_distinct a b c : NoDup (map fst (defaults a b c)).
Proof. apply (bool_decide_unpack _). vm_compute. exact I. Qed.

(** ** Looking up a key *)

(** A key without the delimiter is the name of a top-level value, and a name that has no
    scalar value reads as the empty string. *)
Class ViperKeys `{!Viper} := {
  topLevel : viper → string → option string;
  GetString_top v key :
    Contains key ViperKeyDelimiter = false → GetString v key = default "" (topLevel v key)
}.

Section Keys.
Context `{!Quantities, !Viper, !ViperKeys}.

(** No value of the store is called, for example, [modelMeshImage.tag]. *)
Definition no_dotted_names (v : viper) : Prop :=
  ∀ f k, f ∈ ["modelMeshImage"; "storageHelperImage"; "restProxy.image"] →
         k ∈ [".tag"; ".digest"] → topLevel v (f +:+ k) = None.

Lemma dotted_empty v f k :
  no_dotted_names v → f ∈ ["modelMeshImage"; "storageHelperImage"; "restProxy.image"] →
  k ∈ [".tag"; ".digest"] → GetString v (f +:+ k) = "".
Proof.
  intros Hv Hf Hk. rewrite GetString_top, (Hv f k Hf Hk); [done|].
  apply elem_of_cons in Hf as [->|[->|[->|[]%not_elem_of_nil]%elem_of_cons]%elem_of_cons];
    apply elem_of_cons in Hk as [->|[->|[]%not_elem_of_nil]%elem_of_cons]; by vm_compute.
Qed.

(** Clearing the digest of an image whose tag was overridden never does anything: the tag
    and the digest are asked for under names that no configuration has. *)
Theorem digest_never_cleared v f :
  no_dotted_names v → no_dotted_names defaultConfig →
  f ∈ ["modelMeshImage"; "storageHelperImage"; "restProxy.image"] →
  clearDigestIfTagsDiffer v f = v.
Proof.
  intros Hv Hd Hf. unfold clearDigestIfTagsDiffer.
  rewrite !dotted_empty by (done || set_solver). done.
Qed.

(** The configuration is the one that was read, digests of the defaults included. *)
Theorem merged_without_clearing y v c :
  ReadConfig y = Ok v → no_dotted_names v → no_dotted_names defaultConfig →
  NewMergedConfigFromString y = Ok c →
  ∃ c0, Unmarshal v = Ok c0 ∧ ModelMeshImage c = ModelMeshImage c0 ∧
        StorageHelperImage c = StorageHelperImage c0 ∧
        rp_Image (RESTProxy c) = rp_Image (RESTProxy c0).
Proof.
  intros Hr Hv Hd. unfold NewMergedConfigFromString. rewrite Hr. cbn zeta.
  rewrite !(digest_never_cleared v) by (done || set_solver).
  destruct (Unmarshal v) as [c0|]; [|done].
  destruct (parseAndValidate (ModelMeshResources c0)); [|done].
  destruct (parseAndValidate (rp_Resources (RESTProxy c0))); [|done].
  destruct (parseAndValidate (StorageHelperResources c0)); [|done].
  destruct (List.find _ _); [done|]. intros [= <-]. by exists c0.
Qed.
End Keys.

(** ** A run

    A store with the tag and the digest of one image; the document is the user's tag. The
    defaults have a digest. *)

Definition exStore (tag digest : string) : Config :=
  let c := exConfig in
  mkConfig (EtcdSecretName c) (ModelMeshEndpoint c) (AllowAnyPVC c)
    (InferenceServiceName c) (InferenceServicePort c) (TLS c) (HeadlessService c)
    (GrpcMaxMessageSizeBytes c) (mkImage "kserve/modelmesh" tag digest []) (ModelMeshResources c)
    (RESTProxy c) (StorageHelperImage c) (StorageHelperResources c) (PodsPerRuntime c)
    (StorageSecretName c) (EnableAccessLogging c) (BuiltInServerTypes c) (PayloadProcessors c)
    (ServiceAccountName c) (Metrics c) (ScaleToZero c) (RuntimePodLabels c)
    (RuntimePodAnnotations c) (ImagePullSecrets c) (InternalModelMeshEnvVars c).

Definition keyedViper : Viper := {|
  viper := string * string;
  defaultConfig := ("latest", "sha256:d");
  ReadConfig := λ tag, Ok (tag, "sha256:d");
  GetString := λ v key,
    if bool_decide (key = "modelMeshImage::tag") then v.1
    else if bool_decide (key = "modelMeshImage::digest") then v.2 else "";
  Set' := λ v key s,
    if bool_decide (key = "modelMeshImage::tag") then (s, v.2)
    else if bool_decide (key = "modelMeshImage::digest") then (v.1, s) else v;
  Unmarshal := λ v, Ok (exStore v.1 v.2)
|}.

#[local] Existing Instance quantitiesImpl.
#[local] Existing Instance keyedViper.

#[local] Instance keyedKeys : ViperKeys.
Proof.
  refine {| topLevel := λ _ _, None |}. intros v key Hk. unfold GetString, keyedViper.
  case_bool_decide; [subst; by vm_compute in Hk|].
  case_bool_decide; [subst; by vm_compute in Hk|]. done.
Defined.

(** The tag a user sets is not used when the defaults have a digest. *)
Theorem user_tag_ignored :
  ∃ c, NewMergedConfigFromString "my-tag" = Ok c ∧ im_Tag (ModelMeshImage c) = "my-tag" ∧
       TaggedImage (ModelMeshImage c) = "kserve/modelmesh@sha256:d".
Proof. eexists. split_and!; vm_compute; reflexivity. Qed.

Lemma digest_never_cleared_witness :
  clearDigestIfTagsDiffer (("my-tag", "sha256:d") : viper) "modelMeshImage"
    = ("my-tag", "sha256:d").
Proof. apply digest_never_cleared; [by intros ? ?..|set_solver]. Defined.
