(* ===== verification/MMService.v ===== *)
(** * The model-mesh service connection (pkg/mmesh/modelmesh_service.go)

    One MMService per namespace: the target Service spec derived from the
    configuration and the gRPC client connection. *)

From S2P Require Import Prelude GoStrings Types K8s Config.

Definition KUBE_SCHEME : string := "kube".

(** ** Data *)

Record ServicePort := mkServicePort { svp_Name : string; svp_Port : Z; svp_TargetPort : string }.

Record ServiceSpec := mkServiceSpec {
  svs_Selector : gmap string string;
  svs_Ports : list ServicePort;
  svs_ClusterIP : string
}.

#[export] Instance ServicePort_eq_dec : EqDecision ServicePort.
Proof. solve_decision. Defined.
#[export] Instance ServiceSpec_eq_dec : EqDecision ServiceSpec.
Proof. solve_decision. Defined.

(** An established client: the connection with the parameters it was dialled
    with, and the endpoints to report *)
Record mmClient := mkMMClient {
  grpcConn : nat;
  endpoint : string;
  restEndpoint : string
}.

Record MMService := mkMMS {
  mms_namespace : string;
  mms_name : string;
  mms_port : Z;
  mms_restPort : Z;
  mms_managementEndpoint : string;
  mms_headless : bool;
  mms_tlsSecretName : string;
  mms_metricsPort : Z;
  mms_reconnect : bool;
  mms_serviceSpec : option ServiceSpec;
  mms_client : option mmClient
}.

Definition NewMMService (namespace : string) : MMService :=
  mkMMS namespace "" 0 0 "" false "" 0 false None None.

Definition dnsName (name namespace : string) : string := name +:+ "." +:+ namespace.

Definition GetNameAndSpec (mms : MMService) : string * option ServiceSpec :=
  (mms_name mms, mms_serviceSpec mms).

(** ** Configuration *)

(** The spec built when it changed *)
Definition targetSpec (name : string) (port restPort : Z) (headless : bool)
    (metricsPort : Z) : ServiceSpec :=
  mkServiceSpec {["modelmesh-service" := name]}
    ([mkServicePort "grpc" port "grpc"] ++
     (if bool_decide (restPort > 0)%Z then [mkServicePort "http" restPort "http"] else []) ++
     (if bool_decide (metricsPort > 0)%Z
      then [mkServicePort "prometheus" metricsPort "prometheus"] else []))
    (if headless then "None" else "").

(** The second component reports a change of the spec or of the client. *)
Definition UpdateConfig (cfg : Config) (mms : MMService) : bool * MMService :=
  let nameChange := bool_decide (InferenceServiceName cfg ≠ mms_name mms) in
  let name := InferenceServiceName cfg in
  let portChange := bool_decide (InferenceServicePort cfg ≠ mms_port mms) in
  let port := InferenceServicePort cfg in
  let restPort := if rp_Enabled (RESTProxy cfg) then rp_Port (RESTProxy cfg) else 0%Z in
  let restChange := bool_decide (restPort ≠ mms_restPort mms) in
  let ep := if bool_decide (ModelMeshEndpoint cfg = "")
            then KUBE_SCHEME +:+ ":///" +:+ dnsName name (mms_namespace mms) +:+ ":" +:+
                 Itoa port
            else ModelMeshEndpoint cfg in
  let epChange := bool_decide (ep ≠ mms_managementEndpoint mms) in
  let tlsChange := bool_decide (tls_SecretName (TLS cfg) ≠ mms_tlsSecretName mms) in
  let headlessChange := bool_decide (HeadlessService cfg ≠ mms_headless mms) in
  let metricsPort := if pc_Enabled (Metrics cfg) then pc_Port (Metrics cfg) else 0%Z in
  let metricsChange := bool_decide (metricsPort ≠ mms_metricsPort mms) in
  let specChange := nameChange || portChange || restChange || headlessChange ||
                    metricsChange in
  let clientChange := nameChange || portChange || epChange || tlsChange ||
                      headlessChange in
  (specChange || clientChange,
   mkMMS (mms_namespace mms) name port restPort ep (HeadlessService cfg)
     (tls_SecretName (TLS cfg)) metricsPort
     (if clientChange then true else mms_reconnect mms)
     (if specChange
      then Some (targetSpec name port restPort (HeadlessService cfg) metricsPort)
      else mms_serviceSpec mms)
     (mms_client mms)).

(** ** Connection *)

Definition InferenceEndpoints (mms : MMService) : string * string :=
  match mms_client mms with
  | Some c => (endpoint c, restEndpoint c)
  | None => ("", "")
  end.

Definition MMClient (mms : MMService) : option nat := grpcConn <$> mms_client mms.

Definition set_client (c : option mmClient) (mms : MMService) : MMService :=
  mkMMS (mms_namespace mms) (mms_name mms) (mms_port mms) (mms_restPort mms)
    (mms_managementEndpoint mms) (mms_headless mms) (mms_tlsSecretName mms)
    (mms_metricsPort mms) (mms_reconnect mms) (mms_serviceSpec mms) c.
Definition set_reconnect (b : bool) (mms : MMService) : MMService :=
  mkMMS (mms_namespace mms) (mms_name mms) (mms_port mms) (mms_restPort mms)
    (mms_managementEndpoint mms) (mms_headless mms) (mms_tlsSecretName mms)
    (mms_metricsPort mms) b (mms_serviceSpec mms) (mms_client mms).

(** The endpoints a client is created with *)
Definition inferenceEndpoint (mms : MMService) : string :=
  "grpc://" +:+ dnsName (mms_name mms) (mms_namespace mms) +:+ ":" +:+ Itoa (mms_port mms).
Definition restEndpointOf (mms : MMService) : string :=
  if bool_decide (mms_restPort mms > 0)%Z then
    (if bool_decide (mms_tlsSecretName mms = "") then "http" else "https") +:+ "://" +:+
    dnsName (mms_name mms) (mms_namespace mms) +:+ ":" +:+ Itoa (mms_restPort mms)
  else "".

(** [closeErr] is what closing the connection returns. *)
Definition Disconnect (closeErr : option error) (mms : MMService) : MMService :=
  match mms_client mms with
  | Some _ => match closeErr with None => set_client None mms | Some _ => mms end
  | None => mms
  end.

(** The TLS configuration of a secret, and the dial: endpoint, TLS configuration
    (if any) and the service name give a connection. *)
Record ConnectEnv := mkConnectEnv {
  ce_tlsConfig : string → result error string;
  ce_dial : string → option string → string → result error nat;
  ce_closeErr : option error
}.

Definition newMmClient (env : ConnectEnv) (mmeshEndpoint : string) (tlsConfig : option string)
    (serviceName externalEndpoint restEp : string) : result error mmClient :=
  match ce_dial env mmeshEndpoint tlsConfig serviceName with
  | Err e => Err e
  | Ok conn => Ok (mkMMClient conn externalEndpoint restEp)
  end.

Definition ConnectIfNeeded (env : ConnectEnv) (mms : MMService)
  : option error * MMService :=
  if bool_decide (is_Some (mms_client mms)) && negb (mms_reconnect mms) then (None, mms)
  else
    let tlsSecret := mms_tlsSecretName mms in
    let mms := set_reconnect false mms in
    match (if bool_decide (tlsSecret ≠ "")
           then match ce_tlsConfig env tlsSecret with
                | Ok c => Ok (Some c)
                | Err e => Err e
                end
           else Ok None) with
    | Err e => (Some e, mms)
    | Ok tlsConfig =>
        match newMmClient env (mms_managementEndpoint mms) tlsConfig
                (dnsName (mms_name mms) (mms_namespace mms))
                (inferenceEndpoint mms) (restEndpointOf mms) with
        | Err e => (Some e, set_reconnect true mms)
        | Ok mmc => (None, set_client (Some mmc) (Disconnect (ce_closeErr env) mms))
        end
    end.

(** ** Properties *)

(** Connecting would forget a pending reconnection: the service keeps a client, and the
    TLS secret cannot be read. *)
Definition forgets (env : ConnectEnv) (mms : MMService) : bool :=
  bool_decide (is_Some (mms_client mms)) && mms_reconnect mms &&
  bool_decide (mms_tlsSecretName mms ≠ "") &&
  match ce_tlsConfig env (mms_tlsSecretName mms) with Err _ => true | Ok _ => false end.

(** Operations of the service reconciler on the service that forget no reconnection *)
Inductive mms_step : MMService → MMService → Prop :=
| step_UpdateConfig cfg mms : mms_step mms (UpdateConfig cfg mms).2
| step_Connect env mms :
    forgets env mms = false →
    mms_step mms (ConnectIfNeeded env mms).2
| step_Disconnect closeErr mms : mms_step mms (Disconnect closeErr mms).

(** The service spec is the one of the current fields, once there is one. *)
Definition spec_ok (mms : MMService) : Prop :=
  match mms_serviceSpec mms with
  | Some s => s = targetSpec (mms_name mms) (mms_port mms) (mms_restPort mms)
                    (mms_headless mms) (mms_metricsPort mms)
  | None => mms_name mms = "" ∧ mms_port mms = 0%Z ∧ mms_restPort mms = 0%Z ∧
            mms_headless mms = false ∧ mms_metricsPort mms = 0%Z
  end.

(** ... and the gRPC endpoint reported to Predictors is the current one, unless a
    reconnection is pending. *)
Record mms_ok (mms : MMService) : Prop := {
  mo_spec : spec_ok mms;
  mo_client c : mms_client mms = Some c → mms_reconnect mms = false →
                endpoint c = inferenceEndpoint mms
}.

Lemma NewMMService_ok ns : mms_ok (NewMMService ns).
Proof. by split. Qed.

Lemma UpdateConfig_keeps_spec cfg mms : spec_ok mms → spec_ok (UpdateConfig cfg mms).2.
Proof.
  intros Hs. unfold UpdateConfig, spec_ok in *. cbn zeta. simpl.
  set (rp := if rp_Enabled _ then _ else _). set (mp := if pc_Enabled _ then _ else _).
  destruct (_ || _ || _ || _ || _) eqn:E; [done|].
  rewrite !orb_false_iff, !bool_decide_eq_false in E.
  destruct E as [[[[E1%dec_stable E2%dec_stable] E3%dec_stable] E4%dec_stable] E5%dec_stable].
  by rewrite E1, E2, E3, E4, E5.
Qed.

Lemma Disconnect_keeps_spec closeErr mms : spec_ok mms → spec_ok (Disconnect closeErr mms).
Proof. unfold Disconnect. by destruct (mms_client mms), closeErr. Qed.

Lemma ConnectIfNeeded_keeps_spec env mms : spec_ok mms → spec_ok (ConnectIfNeeded env mms).2.
Proof.
  intros Hs. unfold ConnectIfNeeded. destruct (_ && _); [done|]. cbn zeta.
  destruct (if bool_decide _ then _ else _); [|done]. destruct (newMmClient _ _ _ _ _ _); [|done].
  simpl. unfold Disconnect. by destruct (mms_client _), (ce_closeErr env).
Qed.

Lemma UpdateConfig_ok cfg mms : mms_ok mms → mms_ok (UpdateConfig cfg mms).2.
Proof.
  intros [Hs Hc]. split; [by apply UpdateConfig_keeps_spec|]. unfold UpdateConfig. cbn zeta. simpl.
  - intros c Hcl. destruct (_ || _ || _ || _ || _) eqn:E; [done|]. intros Hr.
    rewrite !orb_false_iff, !bool_decide_eq_false in E.
    destruct E as [[[[E1%dec_stable E2%dec_stable] _] _] _].
    rewrite (Hc c Hcl Hr). unfold inferenceEndpoint. simpl. by rewrite E1, E2.
Qed.

Lemma mms_step_ok mms mms' : mms_ok mms → mms_step mms mms' → mms_ok mms'.
Proof.
  intros Hok Hstep. destruct Hstep as [cfg mms|env mms Htls|closeErr mms].
  - by apply UpdateConfig_ok.
  - unfold ConnectIfNeeded, forgets in *. destruct (_ && negb _) eqn:Eb; [done|]. cbn zeta.
    destruct (if bool_decide (mms_tlsSecretName mms ≠ "") then _ else _) as [c|e] eqn:Et.
    2:{ destruct (bool_decide (mms_tlsSecretName mms ≠ "")); [|done].
        destruct (ce_tlsConfig _ _); [done|]. destruct Hok as [Hs _]. split; [done|]. simpl.
        intros c' Hc' _. rewrite Hc' in *. simpl in *. by destruct (mms_reconnect mms). }
    destruct (newMmClient _ _ _ _ _ _) as [mmc|e] eqn:En; simpl; destruct Hok as [Hs _].
    + unfold Disconnect. simpl. split; simpl.
      * by destruct (mms_client mms), (ce_closeErr env).
      * intros c' [= <-] _. unfold newMmClient in En.
        destruct (ce_dial env _ _ _); simplify_eq/=.
        by destruct (mms_client mms), (ce_closeErr env).
    + split; simpl; [by destruct (mms_client mms)|done].
  - unfold Disconnect. destruct (mms_client mms) eqn:E; [|done]. destruct closeErr; [done|].
    destruct Hok as [Hs Hc]. by split.
Qed.

(** In every state of a model-mesh service connection reached without forgetting a
    reconnection, the Service spec is the one of the current configuration fields,
    and the gRPC endpoint reported to Predictors is the current one unless a
    reconnection is pending. *)
Theorem mms_ok_reachable ns mms : rtc mms_step (NewMMService ns) mms → mms_ok mms.
Proof.
  intros Hr. eapply (rtc_invariant _ mms_ok); [|exact Hr|apply NewMMService_ok].
  apply mms_step_ok.
Qed.

(** Applying the same configuration a second time changes nothing and reports no
    change, so that unchanged configurations cause no Service update and no
    reconnection. *)
Theorem UpdateConfig_idempotent cfg mms :
  let mms' := (UpdateConfig cfg mms).2 in UpdateConfig cfg mms' = (false, mms').
Proof.
  unfold UpdateConfig. cbn zeta. simpl.
  rewrite !(bool_decide_false (_ ≠ _)) by tauto. done.
Qed.

(** When a connection succeeds its client carries both current endpoints, and
    nothing remains to be done: connecting again is a no-op. *)
Theorem ConnectIfNeeded_spec env mms mms' :
  mms_client mms = None ∨ mms_reconnect mms = true →
  ConnectIfNeeded env mms = (None, mms') →
  InferenceEndpoints mms' = (inferenceEndpoint mms, restEndpointOf mms) ∧
  mms_reconnect mms' = false ∧ ConnectIfNeeded env mms' = (None, mms').
Proof.
  intros Hneed. unfold ConnectIfNeeded at 1.
  assert (bool_decide (is_Some (mms_client mms)) && negb (mms_reconnect mms) = false) as ->.
  { destruct Hneed as [->| ->]; [done|]. apply andb_false_r. }
  cbn zeta. set (t := if bool_decide _ then _ else _). destruct t as [c|]; [|done].
  unfold newMmClient. destruct (ce_dial env _ _ _) as [conn|]; [|done].
  intros [= <-]. unfold Disconnect, ConnectIfNeeded. simpl.
  destruct (mms_client mms), (ce_closeErr env); done.
Qed.

Definition exDial : ConnectEnv :=
  mkConnectEnv (λ _, Err (ErrMsg "secret not found")) (λ _ _ _, Ok 1) None.

Definition exMMS : MMService :=
  mkMMS "ns" "mm" 8033 0 "kube:///mm.ns:8033" true "" 0 true None None.

Lemma ConnectIfNeeded_spec_witness :
  ∃ mms', ConnectIfNeeded exDial exMMS = (None, mms') ∧
          InferenceEndpoints mms' = ("grpc://mm.ns:8033", "").
Proof.
  eexists. split; [vm_compute; reflexivity|].
  eapply (ConnectIfNeeded_spec exDial exMMS).
  - right. reflexivity.
  - vm_compute. reflexivity.
Defined.

(** ** Two ways to keep a stale client *)

Definition exCfg (rest : bool) (tls : string) : Config :=
  mkConfig "" "" false "mm" 8033 (mkTLS tls "") true 0
    (mkImage "" "" "" []) (mkConfigResources (mkQuantities "" "") (mkQuantities "" "") None)
    (mkRESTProxy rest false 8008 (mkImage "" "" "" [])
       (mkConfigResources (mkQuantities "" "") (mkQuantities "" "") None))
    (mkImage "" "" "" []) (mkConfigResources (mkQuantities "" "") (mkQuantities "" "") None)
    2 "" false [] [] "" (mkPrometheus false 0 "" false) (mkScaleToZero false 0) ∅ ∅ [] [].

(** The service after a first configuration and a successful connection *)
Definition exConnected : MMService :=
  (ConnectIfNeeded exDial (UpdateConfig (exCfg false "") (NewMMService "ns")).2).2.

(** Enabling the REST proxy in the configuration does not make a connected
    service reconnect, so the HTTP endpoint that Predictors report stays empty
    although the Service exposes the port. *)
Theorem rest_endpoint_stale :
  let mms := (UpdateConfig (exCfg true "") exConnected).2 in
  ConnectIfNeeded exDial mms = (None, mms) ∧
  InferenceEndpoints mms = ("grpc://mm.ns:8033", "") ∧
  restEndpointOf mms = "http://mm.ns:8008" ∧
  mms_serviceSpec mms = Some (targetSpec "mm" 8033 8008 true 0).
Proof. split_and!; vm_compute; reflexivity. Qed.

(** When the TLS secret lookup fails the pending reconnection is forgotten: the
    next attempt reports success and keeps the old, non-TLS connection. *)
Theorem tls_failure_loses_reconnect :
  let mms := (UpdateConfig (exCfg false "secret") exConnected).2 in
  mms_reconnect mms = true ∧
  ∃ e mms', ConnectIfNeeded exDial mms = (Some e, mms') ∧
            mms_reconnect mms' = false ∧
            ConnectIfNeeded exDial mms' = (None, mms') ∧
            MMClient mms' = MMClient exConnected.
Proof. split; [reflexivity|]. eexists _, _. split_and!; vm_compute; reflexivity. Qed.

Lemma mms_ok_reachable_witness : mms_ok exConnected.
Proof.
  apply (mms_ok_reachable "ns").
  eapply rtc_l; [apply (step_UpdateConfig (exCfg false ""))|].
  apply rtc_once. apply (step_Connect exDial). reflexivity.
Defined.
