(* ===== verification/Resolver.v ===== *)
(** * The gRPC resolver for Kubernetes services (pkg/mmesh/grpc_resolver.go)

    [KubeResolver] resolves targets of the form kube:///service.namespace:port to
    the addresses of the service's Endpoints, and keeps the connections up to date
    when the Endpoints change. Resolvers are pointers: they are identified by a
    number. Calls on the client connections are recorded in order. *)

From stdpp Require Import pretty.
From S2P Require Import Prelude GoStrings Types K8s Config MMService.
From Stdlib Require Import Ascii.

(** ** Data *)

Record serviceResolver := mkResolver {
  sr_id : nat;
  sr_name : NamespacedName;
  sr_port : string
}.

#[export] Instance serviceResolver_eq_dec : EqDecision serviceResolver.
Proof. solve_decision. Defined.

Record KubeResolver := mkKubeResolver {
  kr_defaultNamespace : string;
  kr_resolvers : gmap NamespacedName (list serviceResolver)
}.

Definition makeKubeResolver (defaultNamespace : string) : KubeResolver :=
  mkKubeResolver defaultNamespace ∅.

(** The parts of resolver.Target.URL *)
Record Target := mkTarget {
  t_Scheme : string; t_Host : string; t_Path : string; t_Opaque : string
}.

(** corev1.Endpoints: subsets of ports (name, int32 number) and addresses (IP) *)
Record EndpointSubset := mkSubset {
  es_Ports : list (string * Z);
  es_Addresses : list string
}.

(** Calls on a client connection *)
Inductive ConnCall :=
| UpdateState (r : nat) (addrs : list string)
| ReportError (r : nat).

(** ** Resolution *)

Fixpoint hasTargetPort (ports : list (string * Z)) (port : string) : Z :=
  match ports with
  | [] => -1
  | (name, p) :: rest =>
      if bool_decide (name = port) || bool_decide (Itoa p = port) then p
      else hasTargetPort rest port
  end.

Definition resolveAddrs (subsets : list EndpointSubset) (port : string) : list string :=
  flat_map (λ s, let p := hasTargetPort (es_Ports s) port in
                 if bool_decide (p > 0)%Z
                 then map (λ ip, ip +:+ ":" +:+ Itoa p) (es_Addresses s) else [])
           subsets.

(** The error of UpdateState that marks a connection being reconfigured *)
Definition badState : error := ErrMsg "bad resolver state".

(** The loop over the resolvers: the calls, the result and the last error.
    [updateState] is what the connection answers. *)
Fixpoint reconcile_list (updateState : nat → option error) (subsets : list EndpointSubset)
    (rs : list serviceResolver) (res : CtrlResult) (err : option error)
  : list ConnCall * CtrlResult * option error :=
  match rs with
  | [] => ([], res, err)
  | r :: rest =>
      let addrs := resolveAddrs subsets (sr_port r) in
      let '(res, err) :=
        match updateState (sr_id r) with
        | Some e =>
            if bool_decide (e = badState) then (requeueAfter (1 * Second), err)
            else (res, Some (ErrWrap
                  "error updating state of ClientConn with new addresses" e))
        | None => (res, err)
        end in
      let '(calls, res, err) := reconcile_list updateState subsets rest res err in
      (UpdateState (sr_id r) addrs :: calls, res, err)
  end.

(** called under lock; [get] is the answer of the API server's cache *)
Definition reconcile (updateState : nat → option error)
    (get : result error (list EndpointSubset)) (rs : list serviceResolver)
  : (list ConnCall * CtrlResult * option error) :=
  match get with
  | Err e =>
      if IsNotFound e
      then (map (λ r, ReportError (sr_id r)) rs, emptyResult, None)
      else ([], emptyResult, Some (ErrWrap "error obtaining endpoints for service" e))
  | Ok subsets => reconcile_list updateState subsets rs emptyResult None
  end.

Definition Reconcile (updateState : nat → option error)
    (get : result error (list EndpointSubset)) (name : NamespacedName) (kr : KubeResolver)
  : list ConnCall * CtrlResult * option error :=
  match kr_resolvers kr !! name with
  | Some rs => reconcile updateState get rs
  | None => ([], emptyResult, None)
  end.

(** ** Building and closing *)

Definition targetHost (target : Target) : string :=
  if bool_decide (t_Host target = "") then
    let ep := if bool_decide (t_Path target = "") then t_Opaque target else t_Path target in
    TrimPrefix ep "/"
  else t_Host target.

(** name and port of a target *)
Definition parseTarget (defaultNamespace : string) (target : Target)
  : result error (NamespacedName * string) :=
  if bool_decide (t_Scheme target ≠ KUBE_SCHEME)
  then Err (ErrMsg ("unsupported scheme: " +:+ t_Scheme target))
  else
    match Split (targetHost target) ":"%char with
    | [h; p] =>
        if bool_decide (h = "") || bool_decide (p = "")
        then Err (ErrMsg "target must be of form: kube:///servicename:port")
        else match Split h "."%char with
             | n :: ns :: _ => Ok (mkNN ns n, p)
             | [n] => Ok (mkNN defaultNamespace n, p)
             | [] => Err (ErrMsg "unreachable: Split returns at least one piece")
             end
    | _ => Err (ErrMsg "target must be of form: kube:///servicename:port")
    end.

(** [id] is the identity of the new resolver. The returned list holds the calls;
    the resolver is returned together with the error of the initial
    reconciliation, as gRPC sees it. *)
Definition Build (updateState : nat → option error)
    (get : NamespacedName → result error (list EndpointSubset)) (id : nat)
    (target : Target) (kr : KubeResolver)
  : (list ConnCall * result error (serviceResolver * option error)) * KubeResolver :=
  match parseTarget (kr_defaultNamespace kr) target with
  | Err e => (([], Err e), kr)
  | Ok (nn, port) =>
      let r := mkResolver id nn port in
      let rs := default [] (kr_resolvers kr !! nn) in
      let kr := mkKubeResolver (kr_defaultNamespace kr)
                  (<[nn := rs ++ [r]]> (kr_resolvers kr)) in
      let '(calls, _, err) := reconcile updateState (get nn) [r] in
      ((calls, Ok (r, err)), kr)
  end.

(** The position of a resolver in a list *)
Fixpoint position (r : serviceResolver) (rs : list serviceResolver) : option nat :=
  match rs with
  | [] => None
  | x :: rest => if bool_decide (sr_id x = sr_id r) then Some 0 else S <$> position r rest
  end.

(** Close overwrites the entry with the last one and shrinks the slice. *)
Definition Close (sr : serviceResolver) (kr : KubeResolver) : KubeResolver :=
  match kr_resolvers kr !! sr_name sr with
  | None => kr
  | Some rs =>
      match position sr rs with
      | None => kr
      | Some i =>
          let last := length rs - 1 in
          mkKubeResolver (kr_defaultNamespace kr)
            (if bool_decide (last ≤ 0) then delete (sr_name sr) (kr_resolvers kr)
             else <[sr_name sr := take last
                      (<[i := default sr (rs !! last)]> rs)]> (kr_resolvers kr))
      end
  end.

(** ** Properties *)

Definition registered (kr : KubeResolver) (r : serviceResolver) : Prop :=
  ∃ rs, kr_resolvers kr !! sr_name r = Some rs ∧ r ∈ rs.

(** Entries are non-empty, hold resolvers of their own name, and no resolver
    twice. *)
Definition kr_wf (kr : KubeResolver) : Prop :=
  ∀ nn rs, kr_resolvers kr !! nn = Some rs →
    rs ≠ [] ∧ Forall (λ r, sr_name r = nn) rs ∧ NoDup (sr_id <$> rs).

Lemma position_Some r rs i :
  position r rs = Some i → ∃ x, rs !! i = Some x ∧ sr_id x = sr_id r.
Proof.
  revert i. induction rs as [|y rs IH]; intros i; simpl; [done|].
  case_bool_decide; [intros [= <-]; by exists y|].
  destruct (position r rs) as [j|]; simpl; [|done]. intros [= <-]. by apply IH.
Qed.

Lemma position_elem r rs : r ∈ rs → is_Some (position r rs).
Proof.
  induction 1 as [r rs|r y rs _ [j IH]]; simpl; [by rewrite bool_decide_true|].
  case_bool_decide; [done|]. rewrite IH. by eexists.
Qed.

(** Overwriting an entry with the last one and shrinking removes that entry. *)
Lemma swap_remove_Permutation {A} (l : list A) i x d :
  l !! i = Some x →
  x :: take (length l - 1) (<[i := default d (l !! (length l - 1))]> l) ≡ₚ l.
Proof.
  destruct l as [|z l _] using rev_ind; [done|]. intros Hi.
  rewrite length_app. simpl. replace (length l + 1 - 1) with (length l) by lia.
  rewrite lookup_app_r, Nat.sub_diag by lia. simpl.
  destruct (decide (i = length l)) as [->|Hne].
  - rewrite lookup_app_r, Nat.sub_diag in Hi by lia. injection Hi as ->.
    replace (length l) with (length l + 0) at 2 by lia.
    rewrite insert_app_r, take_app_length. simpl. apply Permutation_cons_append.
  - assert (i < length l) as Hlt.
    { apply lookup_lt_Some in Hi. rewrite length_app in Hi. simpl in Hi. lia. }
    rewrite lookup_app_l in Hi by done.
    rewrite insert_app_l by done. rewrite take_app_le by (rewrite length_insert; lia).
    rewrite take_ge by (rewrite length_insert; lia).
    rewrite insert_take_drop by done. rewrite <- (take_drop_middle l i x Hi) at 3.
    rewrite <- Permutation_middle, <- app_assoc. simpl.
    rewrite <- Permutation_middle. constructor.
    rewrite app_assoc. apply Permutation_cons_append.
Qed.

Lemma makeKubeResolver_wf ns : kr_wf (makeKubeResolver ns).
Proof. intros nn rs. simpl. by rewrite lookup_empty. Qed.

(** The identities in use *)
Definition fresh_id (kr : KubeResolver) (id : nat) : Prop :=
  ∀ nn rs, kr_resolvers kr !! nn = Some rs → id ∉ sr_id <$> rs.

Lemma Build_registers updateState get id target kr calls r err kr' :
  Build updateState get id target kr = ((calls, Ok (r, err)), kr') →
  kr_wf kr → fresh_id kr id →
  sr_id r = id ∧ kr_wf kr' ∧ (∀ q, registered kr' q ↔ registered kr q ∨ q = r).
Proof.
  unfold Build. destruct (parseTarget _ _) as [[nn port]|]; [|done].
  destruct (reconcile _ _ _) as [[calls' res] e]. intros [= _ <- _ <-] Hwf Hfr.
  split; [done|]. split.
  - intros n rs. simpl. rewrite lookup_insert. case_decide as Hn.
    + intros [= <-]. subst n. split; [by destruct (default [] _)|].
      destruct (kr_resolvers kr !! nn) as [rs0|] eqn:E; simpl.
      * destruct (Hwf _ _ E) as (_ & Hall & Hnd). split.
        -- apply Forall_app. split; [done|]. by apply Forall_singleton.
        -- rewrite fmap_app. simpl. apply NoDup_app. split_and!; [done| |].
           ++ intros j Hj. rewrite list_elem_of_singleton. intros ->. by apply (Hfr _ _ E).
           ++ apply NoDup_singleton.
      * split; [by apply Forall_singleton|apply NoDup_singleton].
    + apply Hwf.
  - intros q. unfold registered. simpl. split.
    + intros (rs & Hl & Hq). rewrite lookup_insert in Hl. case_decide as Hn.
      * injection Hl as <-. apply elem_of_app in Hq as [Hq|Hq%list_elem_of_singleton].
        -- left. destruct (kr_resolvers kr !! nn) as [rs0|] eqn:E; simpl in Hq; [|set_solver].
           rewrite <- Hn. by exists rs0.
        -- by right.
      * left. by exists rs.
    + intros [(rs & Hl & Hq)| ->].
      * rewrite lookup_insert. case_decide as Hn; [|by exists rs].
        eexists. split; [done|]. rewrite Hn, Hl. simpl. set_solver.
      * simpl. rewrite lookup_insert_eq. eexists. split; [done|]. set_solver.
Qed.

Lemma Close_unregisters sr kr :
  kr_wf kr → registered kr sr →
  kr_wf (Close sr kr) ∧ (∀ q, registered (Close sr kr) q ↔ registered kr q ∧ q ≠ sr).
Proof.
  intros Hwf (rs & Hl & Hin). destruct (Hwf _ _ Hl) as (Hne & Hall & Hnd).
  unfold Close. rewrite Hl. destruct (position_elem _ _ Hin) as [i Hpos]. rewrite Hpos.
  destruct (position_Some _ _ _ Hpos) as (x & Hi & Hid).
  (* identities are unique in a list *)
  assert (x = sr) as ->.
  { apply list_elem_of_lookup in Hin as [j Hj].
    assert (i = j) as <-.
    { eapply (NoDup_lookup (sr_id <$> rs) _ _ (sr_id sr)); [done| |];
        rewrite list_lookup_fmap; [by rewrite Hi; simpl; rewrite Hid|by rewrite Hj]. }
    congruence. }
  set (rs' := take _ _).
  assert (sr :: rs' ≡ₚ rs) as Hperm by (by apply swap_remove_Permutation).
  assert (sr ∉ rs') as Hnot.
  { rewrite <- Hperm in Hnd. simpl in Hnd. apply NoDup_cons in Hnd as [Hnd _].
    intros H. apply Hnd. by apply list_elem_of_fmap_2. }
  assert (Hrs' : ∀ q, q ∈ rs' ↔ q ∈ rs ∧ q ≠ sr).
  { intros q. rewrite <- Hperm. rewrite elem_of_cons. set_solver. }
  case_bool_decide as Hlast.
  - assert (length rs = 1) as Hlen by (destruct rs as [|? [|]]; simpl in *; [done|done|lia]).
    assert (rs' = []) as Hnil.
    { apply Permutation_length in Hperm. simpl in Hperm. destruct rs'; [done|].
      simpl in Hperm. lia. }
    split.
    + intros nn l. simpl. rewrite lookup_delete. case_decide; [done|]. apply Hwf.
    + intros q. unfold registered. simpl. rewrite lookup_delete.
      case_decide as Hq.
      * split; [by intros (? & ? & _)|]. intros ((l & Hl' & Hql) & Hqs).
        assert (q ∈ rs') as Hq'.
        { apply Hrs'. split; [|done]. rewrite <- Hq, Hl in Hl'. by injection Hl' as <-. }
        rewrite Hnil in Hq'. set_solver.
      * split; [|tauto]. intros Hr. split; [done|]. congruence.
  - split.
    + intros nn l. simpl. rewrite lookup_insert. case_decide as Hn; [|apply Hwf].
      intros [= <-]. subst nn. split_and!.
      * intros Hnil. apply Permutation_length in Hperm. rewrite Hnil in Hperm.
        simpl in Hperm. lia.
      * rewrite Forall_forall in Hall |- *. intros q Hq. apply Hall. by apply Hrs'.
      * rewrite <- Hperm in Hnd. simpl in Hnd. by apply NoDup_cons in Hnd as [_ ?].
    + intros q. unfold registered. simpl. rewrite lookup_insert. case_decide as Hn.
      * rewrite <- Hn, Hl. split.
        -- intros (l & [= <-] & [? ?]%Hrs'). eauto.
        -- intros ((l & [= <-] & Hq) & Hqs). eexists. split; [done|]. by apply Hrs'.
      * split; [|tauto]. intros Hr. split; [done|]. congruence.
Qed.

Lemma elem_of_resolveAddrs subsets port a :
  a ∈ resolveAddrs subsets port ↔
  ∃ s ip, s ∈ subsets ∧ ip ∈ es_Addresses s ∧ (0 < hasTargetPort (es_Ports s) port)%Z ∧
          a = ip +:+ ":" +:+ Itoa (hasTargetPort (es_Ports s) port).
Proof.
  unfold resolveAddrs. rewrite list_elem_of_In, in_flat_map. split.
  - intros (s & Hs & Ha). case_bool_decide as Hp; [|done].
    apply in_map_iff in Ha as (ip & <- & Hip). exists s, ip.
    rewrite !list_elem_of_In. split_and!; [done..|lia|done].
  - intros (s & ip & Hs & Hip & Hp & ->). exists s. rewrite <- list_elem_of_In.
    split; [done|]. rewrite bool_decide_true by lia. apply in_map_iff.
    exists ip. by rewrite <- list_elem_of_In.
Qed.

(** The port that is chosen carries the requested name or number. *)
Lemma hasTargetPort_spec ports port :
  (0 < hasTargetPort ports port)%Z →
  ∃ name, (name, hasTargetPort ports port) ∈ ports ∧
          (name = port ∨ Itoa (hasTargetPort ports port) = port).
Proof.
  induction ports as [|[name p] ports IH]; simpl; [lia|].
  destruct (bool_decide (name = port) || bool_decide (Itoa p = port)) eqn:E.
  - intros _. exists name. rewrite orb_true_iff, !bool_decide_eq_true in E.
    split; [left|tauto].
  - intros H. destruct (IH H) as (n & Hin & ?). exists n. split; [by right|done].
Qed.

Lemma reconcile_list_calls updateState subsets rs res err :
  (reconcile_list updateState subsets rs res err).1.1 =
  map (λ r, UpdateState (sr_id r) (resolveAddrs subsets (sr_port r))) rs.
Proof.
  revert res err. induction rs as [|r rs IH]; intros res err; simpl; [done|].
  destruct (match updateState (sr_id r) with Some _ => _ | None => _ end) as [res' err'].
  specialize (IH res' err').
  destruct (reconcile_list updateState subsets rs res' err') as [[calls res''] err''].
  simpl in *. by rewrite IH.
Qed.

(** C37: When the Endpoints of a service are reconciled, every resolver registered for
    the service receives exactly one update, whose addresses are those of the
    subsets that expose its port, by name or by number, and no other. *)
Theorem resolver_addresses updateState subsets name kr rs r :
  kr_resolvers kr !! name = Some rs → r ∈ rs → NoDup (sr_id <$> rs) →
  ∃ addrs, (Reconcile updateState (Ok subsets) name kr).1.1 =
             map (λ r, UpdateState (sr_id r) (resolveAddrs subsets (sr_port r))) rs ∧
    (∀ l, UpdateState (sr_id r) l ∈ (Reconcile updateState (Ok subsets) name kr).1.1 ↔
          l = addrs) ∧
    ∀ a, a ∈ addrs ↔ ∃ s ip p portName,
      s ∈ subsets ∧ ip ∈ es_Addresses s ∧ p = hasTargetPort (es_Ports s) (sr_port r) ∧
      (0 < p)%Z ∧ (portName, p) ∈ es_Ports s ∧ (portName = sr_port r ∨ Itoa p = sr_port r) ∧
      a = ip +:+ ":" +:+ Itoa p.
Proof.
  intros Hl Hr Hnd. exists (resolveAddrs subsets (sr_port r)).
  unfold Reconcile. rewrite Hl. simpl. rewrite reconcile_list_calls.
  split_and!; [done| |].
  - intros l. rewrite list_elem_of_In, in_map_iff. split.
    + intros (q & Hq & Hqin). injection Hq as Hid <-.
      rewrite <- list_elem_of_In in Hqin.
      apply list_elem_of_lookup in Hqin as [i Hi]. apply list_elem_of_lookup in Hr as [j Hj].
      assert (i = j) as <-; [|congruence].
      eapply (NoDup_lookup (sr_id <$> rs) _ _ (sr_id r)); [done| |];
        rewrite list_lookup_fmap; [by rewrite Hi; simpl; rewrite Hid|by rewrite Hj].
    + intros ->. exists r. by rewrite <- list_elem_of_In.
  - intros a. rewrite elem_of_resolveAddrs. split.
    + intros (s & ip & Hs & Hip & Hp & ->).
      destruct (hasTargetPort_spec _ _ Hp) as (n & Hn & Hor).
      exists s, ip, (hasTargetPort (es_Ports s) (sr_port r)), n. done.
    + intros (s & ip & p & n & Hs & Hip & -> & Hp & _ & _ & ->). exists s, ip. done.
Qed.

(** Building a resolver registers exactly it, and closing it again removes exactly
    it: afterwards the resolvers in use are the same as before, for every target
    and whatever the Endpoints lookup returned. *)
Theorem resolver_lifecycle updateState get id target kr calls r err kr' :
  kr_wf kr → fresh_id kr id →
  Build updateState get id target kr = ((calls, Ok (r, err)), kr') →
  kr_wf kr' ∧ (∀ q, registered kr' q ↔ registered kr q ∨ q = r) ∧
  kr_wf (Close r kr') ∧ (∀ q, registered (Close r kr') q ↔ registered kr q).
Proof.
  intros Hwf Hfr Hb. destruct (Build_registers _ _ _ _ _ _ _ _ _ Hb Hwf Hfr)
    as (Hid & Hwf' & Hreg).
  destruct (Close_unregisters r kr' Hwf') as [Hwf'' Hreg''].
  { apply Hreg. by right. }
  split_and!; [done..|]. intros q. rewrite Hreg'', Hreg. split; [tauto|].
  intros Hq. split; [by left|]. intros ->.
  destruct Hq as (rs & Hl & Hin). apply (Hfr _ _ Hl). rewrite <- Hid.
  by apply list_elem_of_fmap_2.
Qed.

(** The endpoint that a model-mesh service derives from its configuration is
    understood by the resolver as that very service, namespace and port. *)
Theorem endpoint_resolved cfg mms path d :
  ModelMeshEndpoint cfg = "" →
  mms_managementEndpoint (UpdateConfig cfg mms).2 = "kube://" +:+ path →
  InferenceServiceName cfg ≠ "" → (0 ≤ InferenceServicePort cfg)%Z →
  has_char ":"%char (InferenceServiceName cfg) = false →
  has_char "."%char (InferenceServiceName cfg) = false →
  has_char ":"%char (mms_namespace mms) = false →
  has_char "."%char (mms_namespace mms) = false →
  parseTarget d (mkTarget "kube" "" path "") =
    Ok (mkNN (mms_namespace mms) (InferenceServiceName cfg), Itoa (InferenceServicePort cfg)).
Proof.
  intros Hep Hpath Hne Hport Hn1 Hn2 Hs1 Hs2.
  unfold UpdateConfig in Hpath. cbn zeta in Hpath. cbn [snd mms_managementEndpoint] in Hpath.
  rewrite bool_decide_true in Hpath by done. unfold dnsName in Hpath.
  set (name := InferenceServiceName cfg) in *. set (ns := mms_namespace mms) in *.
  assert (path = "/" +:+ ((name +:+ "." +:+ ns) +:+ String ":" (Itoa (InferenceServicePort cfg))))
    as ->.
  { apply (inj (String.append "kube://")). rewrite <- Hpath, <- !str_app_assoc. done. }
  unfold parseTarget, targetHost. cbn [t_Scheme t_Host t_Path t_Opaque].
  rewrite bool_decide_false by (by intros []). rewrite bool_decide_true by done.
  rewrite (bool_decide_false (_ = "")) by done. cbn zeta. rewrite TrimPrefix_app.
  rewrite Split_app by (by rewrite !has_char_app, Hn1, Hs1).
  rewrite Split_no_sep by (apply has_char_Itoa; [done|done]).
  rewrite bool_decide_false by (by destruct name).
  rewrite bool_decide_false by (by apply Itoa_nonempty). simpl orb.
  change (name +:+ "." +:+ ns) with (name +:+ String "." ns).
  rewrite Split_app by done. by rewrite Split_no_sep.
Qed.

(** When the first lookup of the Endpoints fails, Build reports the error but
    keeps the resolver registered; gRPC does not close a resolver whose Build
    failed, so it stays. *)
Theorem build_error_keeps_resolver updateState get id target kr nn port e :
  parseTarget (kr_defaultNamespace kr) target = Ok (nn, port) →
  get nn = Err e → IsNotFound e = false →
  ∃ e' kr', Build updateState get id target kr =
              (([], Ok (mkResolver id nn port, Some e')), kr') ∧
            registered kr' (mkResolver id nn port).
Proof.
  intros Hp Hg Hnf. unfold Build. rewrite Hp, Hg. simpl. rewrite Hnf.
  eexists _, _. split; [done|]. unfold registered. simpl. rewrite lookup_insert_eq.
  eexists. split; [done|]. set_solver.
Qed.

(** ** Witnesses *)

Definition exKR : KubeResolver :=
  mkKubeResolver "default"
    {[mkNN "ns" "mm" := [mkResolver 1 (mkNN "ns" "mm") "8033"]]}.

Lemma exKR_wf : kr_wf exKR.
Proof.
  unfold exKR. intros nn rs. cbn [kr_resolvers]. intros [<- <-]%lookup_singleton_Some. split_and!; [done| |].
  - by apply Forall_singleton.
  - apply NoDup_singleton.
Qed.

Lemma exKR_fresh : fresh_id exKR 2.
Proof.
  unfold exKR. intros nn rs. cbn [kr_resolvers]. intros [<- <-]%lookup_singleton_Some. simpl. set_solver.
Qed.

Definition exTarget : Target := mkTarget "kube" "" "/mm.ns:grpc" "".

Lemma resolver_addresses_witness :
  ∃ addrs : list string, (Reconcile (λ _, None) (Ok [mkSubset [("grpc", 8033%Z)] ["10.0.0.1"]])
              (mkNN "ns" "mm") exKR).1.1 = [UpdateState 1 ["10.0.0.1:8033"]] ∧
    "10.0.0.1:8033" ∈ addrs.
Proof.
  destruct (resolver_addresses (λ _, None) [mkSubset [("grpc", 8033%Z)] ["10.0.0.1"]]
              (mkNN "ns" "mm") exKR [mkResolver 1 (mkNN "ns" "mm") "8033"]
              (mkResolver 1 (mkNN "ns" "mm") "8033")) as (addrs & Hcalls & _ & Ha).
  - vm_compute. reflexivity.
  - left.
  - apply NoDup_singleton.
  - exists addrs. split; [vm_compute; reflexivity|]. apply Ha.
    exists (mkSubset [("grpc", 8033%Z)] ["10.0.0.1"]), "10.0.0.1", 8033%Z, "grpc".
    split_and!; [left|left|vm_compute; reflexivity|lia|left|right; vm_compute; reflexivity|
                 vm_compute; reflexivity].
Defined.

Lemma resolver_lifecycle_witness :
  ∃ r kr', (∀ q, registered (Close r kr') q ↔ registered exKR q).
Proof.
  eexists _, _.
  eapply (resolver_lifecycle (λ _, None) (λ _, Err ErrNotFound) 2 exTarget exKR).
  - exact exKR_wf.
  - exact exKR_fresh.
  - vm_compute. reflexivity.
Defined.

Lemma endpoint_resolved_witness :
  parseTarget "default" (mkTarget "kube" "" "/mm.ns:8033" "") = Ok (mkNN "ns" "mm", "8033").
Proof.
  apply (endpoint_resolved (exCfg false "") (NewMMService "ns") "/mm.ns:8033" "default");
    first [reflexivity | discriminate | vm_compute; discriminate].
Defined.

Lemma build_error_keeps_resolver_witness :
  ∃ e' kr', Build (λ _, None) (λ _, Err (ErrMsg "timeout")) 2 exTarget exKR =
              (([], Ok (mkResolver 2 (mkNN "ns" "mm") "grpc", Some e')), kr') ∧
            registered kr' (mkResolver 2 (mkNN "ns" "mm") "grpc").
Proof.
  apply (build_error_keeps_resolver (λ _, None) (λ _, Err (ErrMsg "timeout")) 2 exTarget
           exKR (mkNN "ns" "mm") "grpc" (ErrMsg "timeout"));
    vm_compute; reflexivity.
Defined.
