(* ===== verification/RangeWatcher.v ===== *)
(** * Watching a key range of etcd (pkg/mmesh/etcdrangewatcher.go)

    [EtcdRangeWatcher.Start] keeps a cache of a key range and tells a listener
    about every difference: a sync phase reads the range page by page, a watch
    phase follows its changes, and a compacted watch leads back to a sync. The
    goroutine's loop is a step relation whose inputs are what etcd delivers; the
    notifications are recorded in order. *)

From S2P Require Import Prelude GoStrings.

(** ** Data *)

Inductive KeyEventType := UPDATE | DELETE | INITIALIZED.

(** mvccpb.KeyValue: key, value, modification revision *)
Record KeyValue := mkKV { kv_Key : string; kv_Value : string; kv_ModRevision : Z }.

Record cacheEntry := mkEntry { ce_kv : KeyValue; ce_found : bool }.

(** A call of the listener; the value is nil for INITIALIZED and for deletions of
    unknown keys. *)
Record Notification := mkNotif { n_type : KeyEventType; n_key : string; n_value : option string }.

Inductive WatchEvent := PutEvent (kv : KeyValue) | DeleteEvent (kv : KeyValue).

Record Watcher := mkWatcher {
  initSent : bool;
  wcache : gmap string cacheEntry;
  notified : list Notification
}.

Definition newWatcher : Watcher := mkWatcher false ∅ [].

(** The key without the watched prefix *)
Definition key (kv : KeyValue) (prefixBytes : nat) : exec string :=
  slice (kv_Key kv) prefixBytes (String.length (kv_Key kv)).

Section Watcher.
Variable prefixBytes : nat.

(** ** Operations *)

(** One key of a page of the sync phase *)
Definition sync_kv (w : Watcher) (kv : KeyValue) : exec Watcher :=
  k ← key kv prefixBytes;
  let fresh := mkWatcher (initSent w) (<[k := mkEntry kv true]> (wcache w))
                 (notified w ++ [mkNotif UPDATE k (Some (kv_Value kv))]) in
  Ret match wcache w !! k with
      | None => fresh
      | Some current =>
          if bool_decide (kv_ModRevision kv > kv_ModRevision (ce_kv current))%Z then fresh
          else mkWatcher (initSent w) (<[k := mkEntry (ce_kv current) true]> (wcache w))
                 (notified w)
      end.

Fixpoint sync_page (w : Watcher) (kvs : list KeyValue) : exec Watcher :=
  match kvs with
  | [] => Ret w
  | kv :: rest => w ← sync_kv w kv; sync_page w rest
  end.

(** One entry of the loop over the cache that ends a resync *)
Definition sweep_entry (k : string) (entry : cacheEntry) (w : Watcher) : Watcher :=
  if ce_found entry
  then mkWatcher (initSent w) (<[k := mkEntry (ce_kv entry) false]> (wcache w)) (notified w)
  else mkWatcher (initSent w) (delete k (wcache w))
         (notified w ++ [mkNotif DELETE k (Some (kv_Value (ce_kv entry)))]).

Definition sweep (w : Watcher) : Watcher :=
  foldl (λ w kv, sweep_entry kv.1 kv.2 w) w (map_to_list (wcache w)).

(** The end of the sync phase *)
Definition sync_end (w : Watcher) : Watcher :=
  if initSent w then sweep w
  else mkWatcher true (wcache w) (notified w ++ [mkNotif INITIALIZED "" None]).

(** One event of the watch phase *)
Definition watch_event (w : Watcher) (e : WatchEvent) : exec Watcher :=
  match e with
  | PutEvent kv =>
      k ← key kv prefixBytes;
      Ret (mkWatcher (initSent w) (<[k := mkEntry kv false]> (wcache w))
             (notified w ++ [mkNotif UPDATE k (Some (kv_Value kv))]))
  | DeleteEvent kv =>
      k ← key kv prefixBytes;
      Ret match wcache w !! k with
          | Some prev => mkWatcher (initSent w) (delete k (wcache w))
              (notified w ++ [mkNotif DELETE k (Some (kv_Value (ce_kv prev)))])
          | None => mkWatcher (initSent w) (wcache w)
              (notified w ++ [mkNotif DELETE k None])
          end
  end.

Fixpoint watch_response (w : Watcher) (es : list WatchEvent) : exec Watcher :=
  match es with
  | [] => Ret w
  | e :: rest => w ← watch_event w e; watch_response w rest
  end.

(** ** The loop

    A failed sync starts over; the entries it has marked stay marked. *)
Inductive phase := Syncing | Watching.

Inductive watcher_step : phase * Watcher → phase * Watcher → Prop :=
| step_page w kvs w' :
    sync_page w kvs = Ret w' → watcher_step (Syncing, w) (Syncing, w')
| step_sync_error w : watcher_step (Syncing, w) (Syncing, w)
| step_sync_end w : watcher_step (Syncing, w) (Watching, sync_end w)
| step_events w es w' :
    watch_response w es = Ret w' → watcher_step (Watching, w) (Watching, w')
| step_compacted w : watcher_step (Watching, w) (Syncing, w).

(** ** What the listener knows

    The state a listener reconstructs from its notifications *)
Definition apply_notif (view : gmap string string) (n : Notification) : gmap string string :=
  match n_type n, n_value n with
  | UPDATE, Some v => <[n_key n := v]> view
  | DELETE, _ => delete (n_key n) view
  | _, _ => view
  end.

Definition listener_view (ns : list Notification) : gmap string string :=
  foldl apply_notif ∅ ns.

Lemma listener_view_app ns n : listener_view (ns ++ [n]) = apply_notif (listener_view ns) n.
Proof. unfold listener_view. by rewrite foldl_app. Qed.

Definition cached_values (w : Watcher) : gmap string string :=
  (λ e, kv_Value (ce_kv e)) <$> wcache w.

Definition in_sync (w : Watcher) : Prop := listener_view (notified w) = cached_values w.

Lemma sync_kv_in_sync w kv w' : sync_kv w kv = Ret w' → in_sync w → in_sync w'.
Proof.
  unfold sync_kv, in_sync. destruct (key kv prefixBytes) as [k|]; [|done]. simpl.
  intros [= <-] Hs.
  assert (Hf : listener_view (notified w ++ [mkNotif UPDATE k (Some (kv_Value kv))]) =
               cached_values (mkWatcher (initSent w) (<[k := mkEntry kv true]> (wcache w))
                 (notified w ++ [mkNotif UPDATE k (Some (kv_Value kv))]))).
  { rewrite listener_view_app, Hs. unfold cached_values. simpl. by rewrite fmap_insert. }
  destruct (wcache w !! k) as [cur|] eqn:E; [|done].
  case_bool_decide; [done|]. unfold cached_values. simpl. rewrite Hs, fmap_insert. simpl.
  unfold cached_values. rewrite insert_id; [done|]. by rewrite lookup_fmap, E.
Qed.

Lemma sync_page_in_sync kvs w w' : sync_page w kvs = Ret w' → in_sync w → in_sync w'.
Proof.
  revert w. induction kvs as [|kv kvs IH]; intros w; simpl; [by intros [= <-]|].
  destruct (sync_kv w kv) as [w1|] eqn:E; [|done]. simpl. intros Hp Hs.
  eapply IH; [done|]. by eapply sync_kv_in_sync.
Qed.

Lemma watch_response_in_sync es w w' : watch_response w es = Ret w' → in_sync w → in_sync w'.
Proof.
  revert w. induction es as [|e es IH]; intros w; simpl; [by intros [= <-]|].
  destruct (watch_event w e) as [w1|] eqn:E; [|done]. simpl. intros Hp Hs.
  eapply IH; [done|]. unfold in_sync in *. destruct e as [kv|kv]; simpl in E;
    destruct (key kv prefixBytes) as [k|]; simpl in E; try done; injection E as <-.
  - simpl. rewrite listener_view_app, Hs. unfold cached_values. simpl. by rewrite fmap_insert.
  - destruct (wcache w !! k) as [prev|] eqn:Ek; simpl; rewrite listener_view_app, Hs;
      unfold cached_values, apply_notif; simpl.
    + by rewrite fmap_delete.
    + rewrite delete_id; [done|]. by rewrite lookup_fmap, Ek.
Qed.

(** The sweep over a snapshot [l] of the cache, entry by entry: the cache once the
    entries [dn] of the snapshot have been visited. *)
Definition swept (w : Watcher) (dn : list (string * cacheEntry)) (k : string)
    : option cacheEntry :=
  match (list_to_map dn : gmap string cacheEntry) !! k with
  | Some e => if ce_found e then Some (mkEntry (ce_kv e) false) else None
  | None => wcache w !! k
  end.

Lemma swept_snoc w dn k e u :
  (list_to_map dn : gmap string cacheEntry) !! k = None →
  (∀ j, wcache u !! j = swept w dn j) →
  ∀ j, wcache (sweep_entry k e u) !! j = swept w (dn ++ [(k, e)]) j.
Proof.
  intros Hk Hu j. unfold swept. rewrite list_to_map_app, lookup_union. simpl.
  unfold sweep_entry. destruct (decide (j = k)) as [->|Hj].
  - rewrite Hk, insert_empty, lookup_singleton_eq. simpl.
    destruct (ce_found e); simpl; [by rewrite lookup_insert_eq|by rewrite lookup_delete_eq].
  - rewrite insert_empty, lookup_singleton_ne by done.
    destruct (ce_found e); simpl; rewrite ?lookup_insert_ne, ?lookup_delete_ne by done;
      rewrite Hu; unfold swept; by destruct ((list_to_map dn : gmap string cacheEntry) !! j).
Qed.

Lemma sweep_entry_in_sync k e u :
  wcache u !! k = Some e → in_sync u → in_sync (sweep_entry k e u).
Proof.
  intros Hu Hsync. unfold in_sync, cached_values, sweep_entry in *.
  destruct (ce_found e); simpl.
  - rewrite Hsync, fmap_insert. simpl. rewrite insert_id; [done|]. by rewrite lookup_fmap, Hu.
  - rewrite listener_view_app, Hsync. unfold apply_notif. simpl. by rewrite fmap_delete.
Qed.

Lemma sweep_loop w rest : ∀ dn u,
  map_to_list (wcache w) = dn ++ rest →
  (∀ k, wcache u !! k = swept w dn k) →
  let u' := foldl (λ w kv, sweep_entry kv.1 kv.2 w) u rest in
  (∀ k, wcache u' !! k = swept w (map_to_list (wcache w)) k) ∧
  initSent u' = initSent u ∧ (in_sync u → in_sync u').
Proof.
  induction rest as [|[k e] rest IH]; intros dn u Hl Hu; simpl.
  - rewrite app_nil_r in Hl. subst dn. done.
  - assert (NoDup (dn ++ (k, e) :: rest).*1) as Hnd.
    { rewrite <- Hl. apply NoDup_fst_map_to_list. }
    assert ((list_to_map dn : gmap string cacheEntry) !! k = None) as Hk.
    { apply not_elem_of_list_to_map_1. rewrite fmap_app, NoDup_app in Hnd.
      destruct Hnd as (_ & Hnd & _). intros Hin. apply (Hnd _ Hin). simpl. left. }
    assert (wcache u !! k = Some e) as Hwk.
    { rewrite Hu. unfold swept. rewrite Hk. apply elem_of_map_to_list. rewrite Hl. set_solver. }
    destruct (IH (dn ++ [(k, e)]) (sweep_entry k e u)) as (Hc & Hi & Hs);
      [by rewrite <- app_assoc|by apply swept_snoc|].
    split; [exact Hc|]. split.
    + rewrite Hi. unfold sweep_entry. by destruct (ce_found e).
    + intros Hsync. by apply Hs, sweep_entry_in_sync.
Qed.

Lemma sweep_spec w :
  wcache (sweep w) =
    (λ e, mkEntry (ce_kv e) false) <$> filter (λ kv, ce_found kv.2 = true) (wcache w) ∧
  initSent (sweep w) = initSent w ∧
  (in_sync w → in_sync (sweep w)).
Proof.
  destruct (sweep_loop w (map_to_list (wcache w)) [] w eq_refl) as (Hc & Hi & Hs).
  { intros k. unfold swept. simpl. by rewrite lookup_empty. }
  split; [|split; [exact Hi|exact Hs]].
  apply map_eq. intros k. unfold sweep. rewrite Hc. unfold swept.
  rewrite list_to_map_to_list, lookup_fmap, map_lookup_filter.
  destruct (wcache w !! k) as [e|] eqn:E; simpl; [|done].
  destruct (ce_found e) eqn:Ef; case_guard; simpl; congruence.
Qed.
End Watcher.

(** ** Theorems *)

(** C9: Whatever etcd delivers, in every phase and across resyncs and failures, the
    state a listener reconstructs from its notifications is the watcher's cache:
    no difference goes unreported and none is invented. *)
Theorem listener_in_sync prefixBytes ph w :
  rtc (watcher_step prefixBytes) (Syncing, newWatcher) (ph, w) →
  listener_view (notified w) = cached_values w.
Proof.
  intros Hr. change (in_sync (ph, w).2).
  eapply (rtc_invariant (watcher_step prefixBytes) (λ s, in_sync s.2));
    [|exact Hr|reflexivity].
  intros a b Ha Hab. destruct Hab as [w0 kvs w' Hp|w0|w0|w0 es w' He|w0]; simpl in *.
  - by eapply sync_page_in_sync.
  - done.
  - unfold sync_end. destruct (initSent w0); [by apply sweep_spec|].
    unfold in_sync. simpl. rewrite listener_view_app. done.
  - by eapply watch_response_in_sync.
  - done.
Qed.

(** A range of etcd under a prefix: keys with their values and revisions *)
Definition snapshot_kvs (prefix : string) (l : list (string * (string * Z)))
  : list KeyValue :=
  map (λ kvr, mkKV (prefix +:+ kvr.1) kvr.2.1 kvr.2.2) l.

Lemma key_prefix prefix k v r :
  key (mkKV (prefix +:+ k) v r) (String.length prefix) = Ret k.
Proof. unfold key. simpl. apply slice_from_app. Qed.

Definition found_none (w : Watcher) : Prop :=
  ∀ k e, wcache w !! k = Some e → ce_found e = false.

(** A page leaves the entries of its keys found and with their values, and the
    others alone. *)
Lemma sync_page_spec prefix l w :
  NoDup l.*1 →
  (∀ k v r e, (k, (v, r)) ∈ l → wcache w !! k = Some e →
     (kv_ModRevision (ce_kv e) < r)%Z ∨ kv_Value (ce_kv e) = v) →
  ∃ w1, sync_page (String.length prefix) w (snapshot_kvs prefix l) = Ret w1 ∧
    initSent w1 = initSent w ∧
    (∀ k v r, (k, (v, r)) ∈ l →
       ∃ kv, wcache w1 !! k = Some (mkEntry kv true) ∧ kv_Value kv = v) ∧
    (∀ k, k ∉ l.*1 → wcache w1 !! k = wcache w !! k).
Proof.
  revert w. induction l as [|[k [v r]] l IH]; intros w Hnd Hrev; simpl.
  { exists w. split_and!; [done..| |done]. intros ??? H. set_solver. }
  apply NoDup_cons in Hnd as [Hk Hnd]. unfold sync_kv. rewrite key_prefix. simpl.
  set (w0 := match wcache w !! k with Some _ => _ | None => _ end).
  assert (Hw0 : initSent w0 = initSent w ∧
    (∃ kv, wcache w0 !! k = Some (mkEntry kv true) ∧ kv_Value kv = v) ∧
    ∀ j, j ≠ k → wcache w0 !! j = wcache w !! j).
  { subst w0. destruct (wcache w !! k) as [e|] eqn:E; [case_bool_decide as Hgt|];
      (split; [done|split]); simpl; try (intros; by rewrite lookup_insert_ne);
      rewrite lookup_insert_eq; eexists; (split; [done|]); try done.
    destruct (Hrev k v r e) as [?|?]; [set_solver|done|lia|done]. }
  destruct Hw0 as (Hi & (kv & Hkv & Hv) & Hoth).
  destruct (IH w0 Hnd) as (w1 & Hp & Hi1 & Hin & Hout).
  { intros j v' r' e Hj He. rewrite Hoth in He.
    - apply (Hrev j v' r' e); [set_solver|done].
    - intros ->. apply Hk. apply list_elem_of_fmap. by exists (k, (v', r')). }
  exists w1. split_and!; [done|congruence| |].
  - intros j v' r' [Hj|Hj]%elem_of_cons; [|by eapply Hin].
    injection Hj as -> -> ->. exists kv. rewrite Hout by done. done.
  - intros j Hj. rewrite not_elem_of_cons in Hj. destruct Hj as [Hj1 Hj2].
    rewrite Hout by done. by apply Hoth.
Qed.

(** A resync that starts with no entry marked as found (the documented state of
    the watch phase) ends with the listener knowing exactly the key range etcd
    returned, deletions included, and with no entry marked again. Revisions of a
    key only grow, and a key's value is determined by its revision. *)
Theorem resync_exact prefix w l :
  initSent w = true → found_none w → in_sync w → NoDup l.*1 →
  (∀ k v r e, (k, (v, r)) ∈ l → wcache w !! k = Some e →
     (kv_ModRevision (ce_kv e) < r)%Z ∨ kv_Value (ce_kv e) = v) →
  ∃ w1, sync_page (String.length prefix) w (snapshot_kvs prefix l) = Ret w1 ∧
    listener_view (notified (sync_end w1)) = fst <$> list_to_map l ∧
    found_none (sync_end w1).
Proof.
  intros Hi Hnone Hs Hnd Hrev.
  destruct (sync_page_spec prefix l w Hnd Hrev) as (w1 & Hp & Hi1 & Hin & Hout).
  exists w1. split; [done|]. unfold sync_end. rewrite Hi1, Hi.
  destruct (sweep_spec w1) as (Hc & _ & Hsync). split.
  - rewrite Hsync by (by eapply sync_page_in_sync). unfold cached_values. rewrite Hc.
    apply map_eq. intros k. rewrite !lookup_fmap, map_lookup_filter.
    destruct ((list_to_map l : gmap string (string * Z)) !! k) as [[v r]|] eqn:E.
    + apply elem_of_list_to_map in E; [|done].
      destruct (Hin k v r E) as (kv & Hk & <-). by rewrite Hk.
    + apply not_elem_of_list_to_map_2 in E. rewrite (Hout k E).
      destruct (wcache w !! k) as [e|] eqn:Ek; simpl; [|done].
      case_guard as Hg; simpl; [|done]. by rewrite (Hnone k e Ek) in Hg.
  - intros k e. rewrite Hc, lookup_fmap.
    destruct (filter _ _ !! k) as [e'|]; simpl; intros; by simplify_eq/=.
Qed.

(** The first sync leaves its entries marked as found, so the first resync does
    not notice what was deleted meanwhile: here a key that etcd no longer returns
    stays in the listener's view after the resync. *)
Theorem first_resync_misses_deletion :
  ∃ w, rtc (watcher_step 1) (Syncing, newWatcher) (Syncing, w) ∧
       initSent w = true ∧
       (∃ w1, sync_page 1 w [] = Ret w1 ∧
              listener_view (notified (sync_end w1)) = {["a" := "v"]}).
Proof.
  exists (mkWatcher true {["a" := mkEntry (mkKV "/a" "v" 1) true]}
            [mkNotif UPDATE "a" (Some "v"); mkNotif INITIALIZED "" None]).
  split_and!; [|done|eexists; split; vm_compute; reflexivity].
  eapply rtc_l; [apply (step_page 1 _ [mkKV "/a" "v" 1]); vm_compute; reflexivity|].
  eapply rtc_l; [apply step_sync_end|]. apply rtc_once.
  match goal with |- watcher_step _ (_, ?w) (_, ?w') => assert (w = w') as -> by
    (vm_compute; reflexivity) end.
  apply step_compacted.
Qed.

(** ** Witnesses *)

Definition exWatcher : Watcher :=
  mkWatcher true {["a" := mkEntry (mkKV "/a" "v" 1) true]}
    [mkNotif UPDATE "a" (Some "v"); mkNotif INITIALIZED "" None].

Lemma listener_in_sync_witness :
  listener_view (notified exWatcher) = cached_values exWatcher.
Proof.
  apply (listener_in_sync 1 Watching exWatcher).
  eapply rtc_l; [apply (step_page 1 _ [mkKV "/a" "v" 1]); vm_compute; reflexivity|].
  apply rtc_once. apply step_sync_end.
Defined.

Lemma resync_exact_witness :
  ∃ w1, sync_page 1 (mkWatcher true {["a" := mkEntry (mkKV "/a" "v" 1) false]}
                      [mkNotif UPDATE "a" (Some "v")]) (snapshot_kvs "/" []) = Ret w1 ∧
    listener_view (notified (sync_end w1)) = fst <$> list_to_map ([] : list (string * (string * Z))) ∧
    found_none (sync_end w1).
Proof.
  apply (resync_exact "/").
  - reflexivity.
  - intros k e. cbn [wcache]. intros [_ <-]%lookup_singleton_Some. reflexivity.
  - reflexivity.
  - constructor.
  - intros k v r e H. inversion H.
Defined.
