(* ===== verification/Events.v ===== *)
(** * Model events and etcd configuration

    pkg/mmesh/modelmesh_events.go, etcd_secret.go and the client configuration of
    etcdrangewatcher.go: one pair of range watchers per namespace, over the key
    prefixes that model-mesh uses there, turned into reconcile requests. *)

From S2P Require Import Prelude GoStrings Types K8s RangeWatcher.
From Stdlib Require Import Ascii.

(** ** Data *)

Record EtcdConfig := mkEtcdConfig {
  ec_Endpoints : string;
  ec_Username : string;
  ec_Password : string;
  ec_RootPrefix : string;
  ec_Certificate : string;
  ec_CertificateFile : string;
  ec_ClientKey : string;
  ec_ClientKeyFile : string;
  ec_ClientCertificate : string;
  ec_ClientCertificateFile : string;
  ec_OverrideAuthority : string
}.

(** A Secret: its data by key *)
Definition SecretData : Type := gmap string string.

(** The TLS configuration of the client: the root certificates (None for the
    system's) and the client key pair *)
Record EtcdTLS := mkEtcdTLS { et_RootCAs : option string; et_KeyPair : option string }.

Record EtcdClientConfig := mkEtcdClientConfig {
  cc_Endpoints : list string;
  cc_Username : string;
  cc_Password : string;
  cc_TLS : option EtcdTLS;
  cc_Authority : option string
}.

Definition EtcdSecretKey : string := "etcd_connection".
Definition ModelMeshEtcdPrefix : string := "mm".
Definition ModelRegistryPrefix : string := "registry".
Definition VModelRegistryPrefix : string := "vmodels".

(** encoding/json, crypto/tls and the etcd client *)
Class EtcdLibs := {
  UnmarshalEtcdConfig : string → result error EtcdConfig;
  MarshalEtcdConfig : EtcdConfig → result error string;
  X509KeyPair : string → string → result error string;
  etcd3_New : EtcdClientConfig → result error nat;
  (** the "o" field of a vmodel record *)
  UnmarshalOwner : string → result error string
}.

Record namespaceWatch := mkNW { nw_watchedServiceName : string; nw_cancelFunc : option nat }.

(** A running pair of range watchers, by namespace, etcd client and the prefix of
    the service's keys *)
Record RunningWatch := mkRW { rw_namespace : string; rw_client : option nat; rw_prefix : string }.

Record ModelMeshEventStream := mkStream {
  controllerNamespace : string;
  es_secretName : string;
  es_etcdClient : option nat;
  es_etcdRootPrefix : string;
  es_watchedServices : gmap string namespaceWatch;
  es_running : gmap nat RunningWatch;
  es_next : nat
}.

Definition NewModelEventStream (namespace : string) : ModelMeshEventStream :=
  mkStream namespace "" None "" {[namespace := mkNW "" None]} ∅ 0.

Definition set_watches ws running next (s : ModelMeshEventStream) : ModelMeshEventStream :=
  mkStream (controllerNamespace s) (es_secretName s) (es_etcdClient s)
    (es_etcdRootPrefix s) ws running next.

Section Events.
Context `{!EtcdLibs}.

(** ** The etcd client *)

(** A PEM taken from the JSON or, with priority, from a key of the secret *)
Definition pemFrom (secretData : SecretData) (embedded file what : string)
  : result error string :=
  if bool_decide (file ≠ "") then
    match secretData !! file with
    | Some pem => Ok pem
    | None => Err (ErrMsg ("referenced TLS " +:+ what +:+ " secret key not found: " +:+ file))
    end
  else Ok embedded.

Definition getEtcdClientConfig (etcdConfig : EtcdConfig) (secretData : SecretData)
  : result error EtcdClientConfig :=
  let etcdEndpoints := Split (ec_Endpoints etcdConfig) ","%char in
  let useTLS := HasPrefix (default "" (head etcdEndpoints)) "https://" in
  let certGiven := bool_decide (ec_Certificate etcdConfig ≠ "") ||
                   bool_decide (ec_CertificateFile etcdConfig ≠ "") in
  match pemFrom secretData (ec_Certificate etcdConfig) (ec_CertificateFile etcdConfig)
          "certificate" with
  | Err e => Err e
  | Ok certificate =>
  match pemFrom secretData (ec_ClientKey etcdConfig) (ec_ClientKeyFile etcdConfig) "key" with
  | Err e => Err e
  | Ok clientKey =>
  match pemFrom secretData (ec_ClientCertificate etcdConfig)
          (ec_ClientCertificateFile etcdConfig) "client certificate" with
  | Err e => Err e
  | Ok clientCert =>
      if negb (Bool.eqb (bool_decide (clientKey ≠ "")) (bool_decide (clientCert ≠ "")))
      then Err (ErrMsg ("need to set both client_key/client_key_file and " +:+
                        "client_certificate/client_certificate_file"))
      else
        match (if bool_decide (clientKey ≠ "")
               then match X509KeyPair clientCert clientKey with
                    | Ok p => Ok (Some p)
                    | Err e => Err (ErrWrap "could not load client key pair" e)
                    end
               else Ok None) with
        | Err e => Err e
        | Ok keyPair =>
            let useTLS := useTLS || certGiven || bool_decide (is_Some keyPair) in
            Ok (mkEtcdClientConfig etcdEndpoints (ec_Username etcdConfig)
                  (ec_Password etcdConfig)
                  (if useTLS then Some (mkEtcdTLS (if certGiven then Some certificate
                                                   else None) keyPair)
                   else None)
                  (if bool_decide (ec_OverrideAuthority etcdConfig ≠ "")
                   then Some (ec_OverrideAuthority etcdConfig) else None))
        end
  end end end.

Definition CreateEtcdClient (etcdConfig : EtcdConfig) (secretData : SecretData)
  : result error nat :=
  match getEtcdClientConfig etcdConfig secretData with
  | Err e => Err (ErrWrap "failed to create etcd client config" e)
  | Ok c => etcd3_New c
  end.

(** [get] is the lookup of the secret in the controller's namespace. *)
Definition connectToEtcd (get : result error SecretData) (s : ModelMeshEventStream)
  : option error * ModelMeshEventStream :=
  match get with
  | Err e => (Some (ErrWrap "Unable to access etcd secret" e), s)
  | Ok data =>
  match data !! EtcdSecretKey with
  | None => (Some (ErrMsg "Key 'etcd_connection' was not found in etcd secret"), s)
  | Some json =>
  match UnmarshalEtcdConfig json with
  | Err e => (Some (ErrWrap "failed to parse etcd config json" e), s)
  | Ok etcdConfig =>
  match CreateEtcdClient etcdConfig data with
  | Err e => (Some (ErrWrap "Failed to connect to Etcd" e),
              mkStream (controllerNamespace s) (es_secretName s) None (es_etcdRootPrefix s)
                (es_watchedServices s) (es_running s) (es_next s))
  | Ok client =>
      (None, mkStream (controllerNamespace s) (es_secretName s) (Some client)
               (ec_RootPrefix etcdConfig) (es_watchedServices s) (es_running s) (es_next s))
  end end end end.

(** ** Watches *)

(** The key prefix of a namespace's service *)
Definition servicePrefix (root controllerNs namespace serviceName : string) : string :=
  (if bool_decide (namespace ≠ controllerNs) then root +:+ "/mm_ns/" +:+ namespace else root)
  +:+ "/" +:+ ModelMeshEtcdPrefix +:+ "/" +:+ serviceName.

(** Cancel the watch of a namespace, if it runs *)
Definition cancelWatch (namespace : string) (s : ModelMeshEventStream)
  : ModelMeshEventStream :=
  match es_watchedServices s !! namespace with
  | Some (mkNW name (Some id)) =>
      set_watches (<[namespace := mkNW name None]> (es_watchedServices s))
        (delete id (es_running s)) (es_next s) s
  | _ => s
  end.

(** Start the watchers of a namespace; the previous cancel function is overwritten *)
Definition refreshWatches (namespace serviceName : string) (s : ModelMeshEventStream)
  : ModelMeshEventStream :=
  let id := es_next s in
  set_watches (<[namespace := mkNW serviceName (Some id)]> (es_watchedServices s))
    (<[id := mkRW namespace (es_etcdClient s)
               (servicePrefix (es_etcdRootPrefix s) (controllerNamespace s) namespace
                  serviceName)]> (es_running s)) (S id) s.

Definition namespaces (s : ModelMeshEventStream) : list string :=
  (map_to_list (es_watchedServices s)).*1.

Definition UpdateWatchedService (get : result error SecretData)
    (etcdSecretName serviceName namespace : string) (s : ModelMeshEventStream)
  : option error * ModelMeshEventStream :=
  if bool_decide (serviceName = "") then
    (Some (ErrMsg "serviceName must not be an empty string"), s)
  else if bool_decide (etcdSecretName = "") then
    (Some (ErrMsg "etcdSecretName must not be an empty string"), s)
  else
    let nw := default (mkNW "" None) (es_watchedServices s !! namespace) in
    let s := set_watches (<[namespace := nw]> (es_watchedServices s)) (es_running s)
               (es_next s) s in
    if bool_decide (etcdSecretName ≠ es_secretName s) then
      let s := foldl (λ s n, cancelWatch n s) s (namespaces s) in
      match connectToEtcd get s with
      | (Some e, s) => (Some (ErrWrap "Could not create etcd client" e), s)
      | (None, s) =>
          let s := mkStream (controllerNamespace s) etcdSecretName (es_etcdClient s)
                     (es_etcdRootPrefix s) (es_watchedServices s) (es_running s)
                     (es_next s) in
          (None,
           foldl (λ s n,
             let sn := if bool_decide (n = namespace) then serviceName
                       else from_option nw_watchedServiceName ""
                              (es_watchedServices s !! n) in
             refreshWatches n sn s) s (namespaces s))
      end
    else if bool_decide (serviceName ≠ nw_watchedServiceName nw) then
      (None, refreshWatches namespace serviceName (cancelWatch namespace s))
    else (None, s).

Definition RemoveWatchedService (serviceName namespace : string) (s : ModelMeshEventStream)
  : ModelMeshEventStream :=
  match es_watchedServices s !! namespace with
  | Some nw =>
      if bool_decide (nw_watchedServiceName nw = serviceName) then
        set_watches (delete namespace (es_watchedServices s))
          (match nw_cancelFunc nw with
           | Some id => delete id (es_running s)
           | None => es_running s
           end) (es_next s) s
      else s
  | None => s
  end.

(** ** Listeners: the request an event is turned into, if any *)

Definition vmodelListener (namespace : string) (n : Notification) : option NamespacedName :=
  match n_type n, n_value n with
  | UPDATE, v | DELETE, (Some _) as v =>
      match UnmarshalOwner (default "" v) with
      | Ok owner =>
          Some (mkNN (if bool_decide (owner = "") then namespace
                      else owner +:+ "_" +:+ namespace) (n_key n))
      | Err _ => None
      end
  | _, _ => None
  end.

Definition modelListener (namespace : string) (n : Notification)
  : exec (option NamespacedName) :=
  match n_type n with
  | UPDATE =>
      let k := n_key n in
      match LastIndex k "__" with
      | Some (S i) =>
          let ownerIdx := S i + 2 in
          let hashIdx := (Z.of_nat (String.length k) - 11)%Z in
          if bool_decide (hashIdx > Z.of_nat ownerIdx)%Z then
            let h := Z.to_nat hashIdx in
            c ← slice k h (S h);
            if bool_decide (c = "-") then
              sourceId ← slice k ownerIdx h;
              predictorName ← slice k 0 (ownerIdx - 2);
              Ret (Some (mkNN (sourceId +:+ "_" +:+ namespace) predictorName))
            else Ret None
          else Ret None
      | _ => Ret None
      end
  | _ => Ret None
  end.

(** ** The etcd secret of a user namespace (etcd_secret.go) *)

Inductive SecretCall :=
| CreateSecret (name : NamespacedName) (data : SecretData)
| UpdateSecret (name : NamespacedName) (data : SecretData).

Record EtcdSecret := mkEtcdSecret {
  ets_Name : string;
  ets_Namespace : string;
  ets_EtcdConfig : EtcdConfig
}.

Definition set_RootPrefix (p : string) (c : EtcdConfig) : EtcdConfig :=
  mkEtcdConfig (ec_Endpoints c) (ec_Username c) (ec_Password c) p (ec_Certificate c)
    (ec_CertificateFile c) (ec_ClientKey c) (ec_ClientKeyFile c) (ec_ClientCertificate c)
    (ec_ClientCertificateFile c) (ec_OverrideAuthority c).

(** The configuration of the namespace's secret: the controller's with the
    namespace's root prefix. *)
Definition addData (es : EtcdSecret) (data : SecretData) : result error SecretData :=
  let cfg := set_RootPrefix (ec_RootPrefix (ets_EtcdConfig es) +:+ "/mm_ns/" +:+
                             ets_Namespace es) (ets_EtcdConfig es) in
  match MarshalEtcdConfig cfg with
  | Err e => Err (ErrWrap "error json-marshalling etcd config" e)
  | Ok b => Ok (<[EtcdSecretKey := b]> data)
  end.

(** [get] is the existing secret, [write] the result of the create or update. *)
Definition Apply (es : EtcdSecret) (get : result error SecretData)
    (write : SecretCall → option error) : io SecretCall (option error) :=
  let name := mkNN (ets_Namespace es) (ets_Name es) in
  let go (c : SecretData → SecretCall) (data : SecretData) : io SecretCall (option error) :=
    match addData es data with
    | Err e => mret (Some e)
    | Ok d => _ ← call (c d); mret (write (c d))
    end in
  match get with
  | Ok data => go (UpdateSecret name) data
  | Err e => if IsNotFound e then go (CreateSecret name) ∅ else mret (Some e)
  end.
End Events.
