(* ===== verification/EventsProps.v ===== *)
(** * Properties of the event stream

    The model events of a namespace reach the Predictor they are about; the
    watched key ranges are those model-mesh is configured with, and disjoint
    between namespaces; watches do not leak. *)

From S2P Require Import Prelude GoStrings Types K8s ModelTypes Registry.
From S2P Require Import PredictorController RangeWatcher Events.
From Stdlib Require Import Ascii.

(** ** Keys *)

Lemma LastIndex_no_char c s t : has_char c t = false → LastIndex t (String c s) = None.
Proof.
  induction t as [|d t IH]; simpl; [done|]. intros [Hd Ht]%orb_false_iff.
  rewrite IH by done. apply bool_decide_eq_false in Hd.
  destruct (ascii_dec c d); [congruence|done].
Qed.

Lemma LastIndex_double c t :
  has_char c t = false → LastIndex (String c t) (String c (String c "")) = None.
Proof.
  intros Ht. simpl. rewrite LastIndex_no_char by done.
  destruct (ascii_dec c c); [|done]. destruct t as [|d t]; simpl; [done|].
  simpl in Ht. apply orb_false_iff in Ht as [Hd%bool_decide_eq_false _].
  destruct (ascii_dec c d); [congruence|done].
Qed.

Lemma slice_mid a b c :
  slice (a +:+ b +:+ c) (String.length a) (String.length a + String.length b) = Ret b.
Proof.
  rewrite slice_ok by (rewrite ?str_length_app; lia).
  rewrite str_drop_app. replace (_ + _ - _) with (String.length b) by lia.
  by rewrite str_take_app.
Qed.

Lemma hex_digit_plain n c : (n < 16)%N → c = "_"%char ∨ c = "-"%char → hex_digit n ≠ c.
Proof.
  intros Hn Hc Heq.
  assert (n = 0 ∨ n = 1 ∨ n = 2 ∨ n = 3 ∨ n = 4 ∨ n = 5 ∨ n = 6 ∨ n = 7 ∨ n = 8 ∨ n = 9 ∨
          n = 10 ∨ n = 11 ∨ n = 12 ∨ n = 13 ∨ n = 14 ∨ n = 15)%N as Hcases by lia.
  repeat destruct Hcases as [->|Hcases]; try subst n; vm_compute in Heq;
    destruct Hc as [->| ->]; discriminate.
Qed.

Lemma hex_plain c s :
  c = "_"%char ∨ c = "-"%char → has_char c (hex_EncodeToString s) = false.
Proof.
  intros Hc. induction s as [|d s IH]; [done|]. cbn [hex_EncodeToString has_char].
  rewrite IH. rewrite !bool_decide_false; [done| |]; apply hex_digit_plain; auto.
  - by apply N.mod_lt.
  - pose proof (N_ascii_bounded d). apply N.Div0.div_lt_upper_bound. lia.
Qed.

Lemma hex_length s : String.length (hex_EncodeToString s) = 2 * String.length s.
Proof. induction s as [|c s IH]; simpl; [done|]. rewrite IH. lia. Qed.

Lemma str_length_take n s :
  n ≤ String.length s → String.length (str_take n s) = n.
Proof.
  revert s. induction n as [|n IH]; intros [|c s]; simpl; try lia. intros H.
  rewrite IH; lia.
Qed.

Section Keys.
Context `{!PredictorLibs}.

Lemma Hash_length spec : String.length (Hash spec) = 10.
Proof.
  unfold Hash. rewrite hex_length, str_length_take; [done|]. rewrite sha1_Size. lia.
Qed.

(** C33: A change of a concrete model in model-mesh's registry reaches the Predictor it
    belongs to: the key written for a Predictor (its name, source and spec hash)
    is parsed back into a request that resolves to the same name, namespace and
    source. *)
Theorem model_event_roundtrip p sourceId namespace v d :
  om_Name (p_Meta p) ≠ "" → sourceId ≠ "" →
  has_char "_"%char sourceId = false → has_char "_"%char namespace = false →
  ∃ req, modelListener namespace (mkNotif UPDATE (concreteModelName p sourceId) v) =
           Ret (Some req) ∧
         ResolveSource req d = Ret (mkNN namespace (om_Name (p_Meta p)), sourceId).
Proof.
  intros Hname Hsrc Hs Hns. set (name := om_Name (p_Meta p)) in *.
  exists (mkNN (sourceId +:+ "_" +:+ namespace) name).
  split; [|by apply ResolveSource_prefixed].
  unfold modelListener. cbn [n_type n_key]. unfold concreteModelName. fold name.
  set (hash := Hash (p_Spec p)).
  assert (Hh : has_char "_"%char hash = false) by (apply hex_plain; by left).
  assert (Hl : String.length hash = 10) by apply Hash_length.
  assert (LastIndex (name +:+ "__" +:+ sourceId +:+ "-" +:+ hash) "__" =
          Some (String.length name)) as ->.
  { change ("__" +:+ sourceId +:+ "-" +:+ hash)
      with (String "_" ("_" +:+ (sourceId +:+ "-" +:+ hash))).
    apply (LastIndex_app name "_" "_").
    apply LastIndex_double. by rewrite !has_char_app, Hs, Hh. }
  destruct (String.length name) as [|i] eqn:Elen; [by destruct name|].
  rewrite <- Elen.
  assert (Hk : String.length (name +:+ "__" +:+ sourceId +:+ "-" +:+ hash) =
               String.length name + 2 + String.length sourceId + 11).
  { rewrite !str_length_app, Hl. simpl. lia. }
  rewrite Hk.
  assert (0 < String.length sourceId) by (destruct sourceId; [done|simpl; lia]).
  rewrite bool_decide_true by lia.
  replace (Z.to_nat _) with (String.length name + 2 + String.length sourceId) by lia.
  set (k := name +:+ _).
  assert (slice k (String.length name + 2 + String.length sourceId)
            (S (String.length name + 2 + String.length sourceId)) = Ret "-") as ->.
  { subst k. pose proof (slice_mid (name +:+ "__" +:+ sourceId) "-" hash) as Hm.
    rewrite !str_length_app in Hm. rewrite <- !str_app_assoc in Hm. rewrite <- Hm.
    f_equal; simpl; lia. }
  assert (slice k (String.length name + 2)
            (String.length name + 2 + String.length sourceId) = Ret sourceId) as ->.
  { subst k. pose proof (slice_mid (name +:+ "__") sourceId ("-" +:+ hash)) as Hm.
    rewrite !str_length_app in Hm. rewrite <- !str_app_assoc in Hm. rewrite <- Hm.
    f_equal; simpl; lia. }
  assert (slice k 0 (String.length name + 2 - 2) = Ret name) as ->.
  { subst k. pose proof (slice_mid "" name ("__" +:+ sourceId +:+ "-" +:+ hash)) as Hm.
    simpl in Hm. rewrite <- Hm. f_equal. lia. }
  done.
Qed.
End Keys.

(** ** Prefixes *)

Section Prefixes.
Context `{!EtcdLibs}.

(** C32: The key range watched for a user namespace is the one its model-mesh pods
    write to: it starts with the root prefix that the controller puts in the
    namespace's etcd secret, followed by the key-value store prefix and the
    service name the pods are given. *)
Theorem watched_prefix_matches_secret es data data' controllerNs serviceName root :
  ec_RootPrefix (ets_EtcdConfig es) = root → ets_Namespace es ≠ controllerNs →
  addData es data = Ok data' →
  ∃ cfg json, MarshalEtcdConfig cfg = Ok json ∧ data' !! EtcdSecretKey = Some json ∧
    servicePrefix root controllerNs (ets_Namespace es) serviceName =
    ec_RootPrefix cfg +:+ "/" +:+ ModelMeshEtcdPrefix +:+ "/" +:+ serviceName.
Proof.
  intros Hroot Hns. unfold addData. cbn zeta. rewrite Hroot.
  set (cfg := set_RootPrefix _ _). destruct (MarshalEtcdConfig cfg) as [json|] eqn:E; [|done].
  intros [= <-]. exists cfg, json. split_and!; [done|apply lookup_insert_eq|].
  unfold servicePrefix. by rewrite bool_decide_true.
Qed.

Lemma app_sep_inj c a b x y :
  has_char c a = false → has_char c b = false →
  a +:+ String c x = b +:+ String c y → a = b.
Proof.
  intros Ha Hb Heq. apply (f_equal (λ s, Split s c)) in Heq.
  rewrite !Split_app in Heq by done. congruence.
Qed.

(** The watched key ranges of two namespaces never overlap, so no namespace sees
    the model events of another. *)
Theorem watches_disjoint root controllerNs ns1 ns2 sv1 sv2 k1 k2 :
  ns1 ≠ ns2 → has_char "/"%char ns1 = false → has_char "/"%char ns2 = false →
  servicePrefix root controllerNs ns1 sv1 +:+ "/" +:+ k1 ≠
  servicePrefix root controllerNs ns2 sv2 +:+ "/" +:+ k2.
Proof.
  intros Hne H1 H2. unfold servicePrefix, ModelMeshEtcdPrefix.
  repeat case_bool_decide; rewrite <- !str_app_assoc; intros Heq;
    apply (inj (String.append root)) in Heq.
  - apply Hne. apply (inj (String.append "/mm_ns/")) in Heq.
    eapply (app_sep_inj "/"); [done..|exact Heq].
  - discriminate Heq.
  - discriminate Heq.
  - congruence.
Qed.

(** ** Watches do not leak *)

Record stream_ok (s : ModelMeshEventStream) : Prop := {
  so_running id rw : es_running s !! id = Some rw →
    ∃ name, es_watchedServices s !! rw_namespace rw = Some (mkNW name (Some id));
  so_watched ns name id : es_watchedServices s !! ns = Some (mkNW name (Some id)) →
    es_running s !! id = Some (mkRW ns (es_etcdClient s)
      (servicePrefix (es_etcdRootPrefix s) (controllerNamespace s) ns name));
  so_next id : is_Some (es_running s !! id) → id < es_next s
}.

(** Every service that is being watched has its watchers running. *)
Definition stream_live (s : ModelMeshEventStream) : Prop :=
  ∀ ns name c, es_watchedServices s !! ns = Some (mkNW name c) → name ≠ "" → is_Some c.

Lemma cancelWatch_ok ns s :
  stream_ok s → stream_ok (cancelWatch ns s) ∧
  (∀ n, es_watchedServices (cancelWatch ns s) !! n =
     if decide (n = ns) then (λ w, mkNW (nw_watchedServiceName w) None) <$>
                             es_watchedServices s !! n
     else es_watchedServices s !! n).
Proof.
  intros [Hr Hw Hn]. unfold cancelWatch.
  destruct (es_watchedServices s !! ns) as [[name [id|]]|] eqn:E.
  2,3: split; [done|]; intros n; case_decide as Hd; [|done]; subst n; by rewrite E.
  split.
  - split; simpl.
    + intros i rw. rewrite lookup_delete. case_decide as Hi; [done|].
      intros (nm & Hnm)%Hr. exists nm. rewrite lookup_insert. case_decide as Hns; [|done].
      subst ns. congruence.
    + intros n nm i. rewrite lookup_insert. case_decide as Hns; [done|]. intros H'.
      pose proof (Hw _ _ _ H') as Hi. rewrite lookup_delete. case_decide as Hd; [|done].
      subst i. pose proof (Hw _ _ _ E) as Hi'. congruence.
    + intros i. rewrite lookup_delete. case_decide; [by intros []|apply Hn].
  - intros n. simpl. rewrite lookup_insert. case_decide as Hd.
    + subst n. rewrite decide_True by done. by rewrite E.
    + by rewrite decide_False by congruence.
Qed.

Lemma refreshWatches_ok ns sn s :
  stream_ok s → (∀ name c, es_watchedServices s !! ns = Some (mkNW name c) → c = None) →
  stream_ok (refreshWatches ns sn s).
Proof.
  intros [Hr Hw Hn] Hnone. unfold refreshWatches. split; simpl.
  - intros i rw. rewrite lookup_insert. case_decide as Hi.
    + intros [= <-]. subst i. simpl. rewrite lookup_insert_eq. eauto.
    + intros (nm & Hnm)%Hr. exists nm. rewrite lookup_insert. case_decide as Hns; [|done].
      rewrite <- Hns in Hnm. by apply Hnone in Hnm.
  - intros n nm i. rewrite lookup_insert. case_decide as Hns.
    + intros [= <- <-]. subst n. by rewrite lookup_insert_eq.
    + intros H'. pose proof (Hw _ _ _ H') as Hi. rewrite lookup_insert.
      case_decide as Hd; [|done]. subst i.
      assert (es_next s < es_next s); [|lia]. apply Hn. eauto.
  - intros i. rewrite lookup_insert. case_decide as Hi; [lia|]. intros ?%Hn. lia.
Qed.

(** The fields that watches do not touch *)
Definition same_conn (s s' : ModelMeshEventStream) : Prop :=
  controllerNamespace s' = controllerNamespace s ∧ es_secretName s' = es_secretName s ∧
  es_etcdClient s' = es_etcdClient s ∧ es_etcdRootPrefix s' = es_etcdRootPrefix s.

Lemma cancelWatch_conn ns s : same_conn s (cancelWatch ns s).
Proof. unfold cancelWatch. by repeat case_match. Qed.

Definition cancelled (w : namespaceWatch) : namespaceWatch :=
  mkNW (nw_watchedServiceName w) None.

Lemma cancel_all_ok l s :
  let s' := foldl (λ s n, cancelWatch n s) s l in
  stream_ok s → stream_ok s' ∧ same_conn s s' ∧
  (∀ n, es_watchedServices s' !! n =
     if decide (n ∈ l) then cancelled <$> es_watchedServices s !! n
     else es_watchedServices s !! n).
Proof.
  revert s. induction l as [|m l IH]; intros s; simpl; intros Hok.
  { split_and!; done. }
  destruct (cancelWatch_ok m s Hok) as [Hok1 Hw1].
  destruct (IH (cancelWatch m s) Hok1) as (Hok2 & (C1 & C2 & C3 & C4) & Hw2).
  destruct (cancelWatch_conn m s) as (D1 & D2 & D3 & D4).
  split; [done|]. split; [by repeat split; etrans|].
  intros n. rewrite Hw2, Hw1. unfold cancelled.
  destruct (decide (n = m)) as [->|Hnm].
  - rewrite (decide_True (P := m ∈ m :: l)) by left.
    case_decide; by destruct (es_watchedServices s !! m).
  - destruct (decide (n ∈ l)) as [Hin|Hin].
    + by rewrite (decide_True (P := n ∈ m :: l)) by (by right).
    + rewrite (decide_False (P := n ∈ m :: l)) by (by apply not_elem_of_cons). done.
Qed.

(** The names the refresh loop uses *)
Definition refreshed_name (namespace serviceName n old : string) : string :=
  if bool_decide (n = namespace) then serviceName else old.

Lemma refresh_all_ok namespace serviceName l s :
  NoDup l → stream_ok s →
  (∀ n, n ∈ l → ∃ name, es_watchedServices s !! n = Some (mkNW name None)) →
  let s' := foldl (λ s n,
    refreshWatches n (if bool_decide (n = namespace) then serviceName
      else from_option nw_watchedServiceName "" (es_watchedServices s !! n)) s) s l in
  stream_ok s' ∧ same_conn s s' ∧
  (∀ n name, n ∈ l → es_watchedServices s !! n = Some (mkNW name None) →
     ∃ id, es_watchedServices s' !! n =
             Some (mkNW (refreshed_name namespace serviceName n name) (Some id))) ∧
  (∀ n, n ∉ l → es_watchedServices s' !! n = es_watchedServices s !! n).
Proof.
  revert s. induction l as [|m l IH]; intros s Hnd Hok Hall; simpl.
  { split_and!; [done..| |done]. set_solver. }
  apply NoDup_cons in Hnd as [Hm Hnd].
  destruct (Hall m) as [old Hold]; [set_solver|]. rewrite Hold. simpl.
  set (s1 := refreshWatches m _ s).
  assert (Hw1 : ∀ n, es_watchedServices s1 !! n =
    if decide (n = m) then Some (mkNW (refreshed_name namespace serviceName m old)
                                   (Some (es_next s)))
    else es_watchedServices s !! n).
  { intros n. subst s1. simpl. rewrite lookup_insert. destruct (decide (n = m)) as [->|].
    - by rewrite decide_True by done.
    - by rewrite decide_False by congruence. }
  destruct (IH s1 Hnd) as (Hok2 & Hconn & Hin & Hout).
  { apply refreshWatches_ok; [done|]. intros nm c E. rewrite Hold in E. congruence. }
  { intros n Hn. rewrite Hw1. rewrite decide_False by set_solver. apply Hall. set_solver. }
  split_and!; [done..| |].
  - intros n name Hn Hw. destruct (decide (n = m)) as [->|Hnm].
    + exists (es_next s). rewrite Hout by done. rewrite Hw1, decide_True by done.
      congruence.
    + apply (Hin n name); [set_solver|]. by rewrite Hw1, decide_False.
  - intros n Hn. rewrite Hout by set_solver. rewrite Hw1. by rewrite decide_False by set_solver.
Qed.

Lemma elem_of_namespaces s n :
  n ∈ namespaces s ↔ is_Some (es_watchedServices s !! n).
Proof.
  unfold namespaces. rewrite list_elem_of_fmap. split.
  - intros ([k w] & -> & Hin). apply elem_of_map_to_list in Hin. simpl. eauto.
  - intros [w Hw]. exists (n, w). by rewrite elem_of_map_to_list.
Qed.

Lemma all_cancelled_running s :
  stream_ok s → (∀ n w, es_watchedServices s !! n = Some w → nw_cancelFunc w = None) →
  es_running s = ∅.
Proof.
  intros [Hr _ _] Hnone. apply map_eq. intros i. rewrite lookup_empty.
  destruct (es_running s !! i) as [rw|] eqn:E; [|done].
  destruct (Hr _ _ E) as [name Hn]. by apply Hnone in Hn.
Qed.

Lemma connectToEtcd_ws get s e s' :
  connectToEtcd get s = (e, s') →
  es_watchedServices s' = es_watchedServices s ∧ es_running s' = es_running s ∧
  es_next s' = es_next s ∧ controllerNamespace s' = controllerNamespace s.
Proof. unfold connectToEtcd. repeat case_match; by intros [= <- <-]. Qed.

(** The state after the secret changed and every watch was cancelled *)
Lemma stream_ok_no_watch s :
  es_running s = ∅ →
  (∀ n w, es_watchedServices s !! n = Some w → nw_cancelFunc w = None) → stream_ok s.
Proof.
  intros Hr Hn. split.
  - intros i rw. by rewrite Hr, lookup_empty.
  - intros ns name i Hw. by apply Hn in Hw.
  - intros i. rewrite Hr, lookup_empty. by intros [].
Qed.

(** The entry that a namespace gets when it has none *)
Definition watchOf (ns : string) (s : ModelMeshEventStream) : namespaceWatch :=
  default (mkNW "" None) (es_watchedServices s !! ns).
Definition ensured (ns : string) (s : ModelMeshEventStream) : ModelMeshEventStream :=
  set_watches (<[ns := watchOf ns s]> (es_watchedServices s)) (es_running s) (es_next s) s.

Lemma ensured_lookup ns s n nm c :
  es_watchedServices (ensured ns s) !! n = Some (mkNW nm c) →
  es_watchedServices s !! n = Some (mkNW nm c) ∨ nm = "" ∧ c = None.
Proof.
  unfold ensured, watchOf. simpl. rewrite lookup_insert. case_decide as Hd; [|by left].
  subst n. destruct (es_watchedServices s !! ns) as [w|]; simpl; intros [= E].
  - left. by rewrite E.
  - right. naive_solver.
Qed.

Lemma ensured_ok ns s :
  stream_ok s → stream_ok (ensured ns s) ∧ (stream_live s → stream_live (ensured ns s)).
Proof.
  intros [Hr Hw Hn]. split; [split; [| |done]|].
  - intros i rw Hi. destruct (Hr _ _ Hi) as [nm Hnm]. exists nm.
    unfold ensured, watchOf. simpl. rewrite lookup_insert. case_decide as Hd; [|done].
    subst. by rewrite Hnm.
  - intros n nm i [E|[_ [=]]]%ensured_lookup. by apply Hw.
  - intros Hl n nm c [E|[-> ->]]%ensured_lookup Hne; [by eapply Hl|done].
Qed.

(** Every watch cancelled *)
Lemma cancel_namespaces_ok s :
  stream_ok s →
  let s' := foldl (λ s n, cancelWatch n s) s (namespaces s) in
  es_running s' = ∅ ∧
  (∀ n, es_watchedServices s' !! n = cancelled <$> es_watchedServices s !! n) ∧
  (∀ n w, es_watchedServices s' !! n = Some w → nw_cancelFunc w = None).
Proof.
  intros Hok. destruct (cancel_all_ok (namespaces s) s Hok) as (Hok1 & _ & Hw1). cbn zeta.
  set (s1 := foldl _ s _) in *.
  assert (Hws : ∀ n, es_watchedServices s1 !! n = cancelled <$> es_watchedServices s !! n).
  { intros n. rewrite Hw1. case_decide as Hd; [done|].
    rewrite elem_of_namespaces in Hd. by destruct (es_watchedServices s !! n); [destruct Hd|]. }
  assert (Hnone : ∀ n w, es_watchedServices s1 !! n = Some w → nw_cancelFunc w = None).
  { intros n w. rewrite Hws. destruct (es_watchedServices s !! n); simpl; [|done].
    by intros [= <-]. }
  split_and!; [by apply all_cancelled_running|done..].
Qed.

(** Every watch started again, with the new name for [ns] *)
Lemma restart_ok ns svc s :
  es_running s = ∅ → (∀ n w, es_watchedServices s !! n = Some w → nw_cancelFunc w = None) →
  is_Some (es_watchedServices s !! ns) →
  let s' := foldl (λ s n, refreshWatches n (if bool_decide (n = ns) then svc
      else from_option nw_watchedServiceName "" (es_watchedServices s !! n)) s) s (namespaces s) in
  stream_ok s' ∧ stream_live s' ∧ es_secretName s' = es_secretName s ∧
  ∃ id, es_watchedServices s' !! ns = Some (mkNW svc (Some id)).
Proof.
  intros Hrun Hnone Hns.
  assert (Hentry : ∀ n, n ∈ namespaces s → ∃ name, es_watchedServices s !! n = Some (mkNW name None)).
  { intros n [[name c] Hn]%elem_of_namespaces. exists name. rewrite Hn. do 2 f_equal.
    by apply Hnone in Hn. }
  destruct (refresh_all_ok ns svc (namespaces s) s) as (Hok4 & (_ & D2 & _) & Hin & Hout);
    [apply NoDup_fst_map_to_list|by apply stream_ok_no_watch|done|].
  cbn zeta. set (s' := foldl _ s _) in *. split_and!; [done| |done|].
  - intros n nm c Hn Hnm. destruct (decide (n ∈ namespaces s)) as [Hd|Hd].
    + destruct (Hentry n Hd) as [nm0 Hn0]. destruct (Hin n nm0 Hd Hn0) as [id Hid].
      rewrite Hn in Hid. simplify_eq. by eexists.
    + rewrite Hout in Hn by done. destruct Hd. apply elem_of_namespaces. by eexists.
  - apply elem_of_namespaces in Hns. destruct (Hentry ns Hns) as [nm Hnm].
    destruct (Hin ns nm Hns Hnm) as [id Hid]. exists id. rewrite Hid.
    unfold refreshed_name. by rewrite bool_decide_true.
Qed.

(** The service of a namespace under a new name *)
Lemma rename_ok ns svc s :
  stream_ok s → is_Some (es_watchedServices s !! ns) →
  let s' := refreshWatches ns svc (cancelWatch ns s) in
  stream_ok s' ∧ (stream_live s → stream_live s') ∧ es_secretName s' = es_secretName s ∧
  ∃ id, es_watchedServices s' !! ns = Some (mkNW svc (Some id)).
Proof.
  intros Hok [w Hw]. destruct (cancelWatch_ok ns s Hok) as [Hok1 Hw1]. cbn zeta. split_and!.
  - apply refreshWatches_ok; [done|]. intros nm c. rewrite Hw1, decide_True, Hw by done.
    simpl. congruence.
  - intros Hl n nm c. simpl. rewrite lookup_insert. case_decide; [intros [= <- <-]; eauto|].
    rewrite Hw1, decide_False by congruence. by apply Hl.
  - apply cancelWatch_conn.
  - eexists. apply lookup_insert_eq.
Qed.

(** What a call of UpdateWatchedService establishes *)
Lemma UpdateWatchedService_ok get secret svc ns s e s' :
  stream_ok s → UpdateWatchedService get secret svc ns s = (e, s') →
  stream_ok s' ∧
  (e = None → stream_live s →
   stream_live s' ∧ es_secretName s' = secret ∧
   ∃ id, es_watchedServices s' !! ns = Some (mkNW svc (Some id))).
Proof.
  intros Hok. unfold UpdateWatchedService. cbn zeta.
  case_bool_decide as Hsvc; [by intros [= <- <-]|].
  case_bool_decide as Hsec; [by intros [= <- <-]|].
  fold (watchOf ns s). fold (ensured ns s).
  destruct (ensured_ok ns s Hok) as [Hok0 Hlive0].
  assert (Hns0 : es_watchedServices (ensured ns s) !! ns = Some (watchOf ns s))
    by apply lookup_insert_eq.
  case_bool_decide as Hch; [|case_bool_decide as Hsn].
  - destruct (cancel_namespaces_ok (ensured ns s) Hok0) as (Hrun1 & Hws1 & Hnone1).
    set (s1 := foldl _ (ensured ns s) _) in *.
    destruct (connectToEtcd get s1) as [ce s2] eqn:Ec.
    destruct (connectToEtcd_ws _ _ _ _ Ec) as (W1 & W2 & W3 & W4).
    destruct ce as [ce|]; intros [= <- <-].
    + split; [|done]. apply stream_ok_no_watch; [congruence|by rewrite W1].
    + set (s3 := mkStream _ _ _ _ _ _ _).
      destruct (restart_ok ns svc s3) as (? & ? & ? & ?); [simpl; congruence|simpl; by rewrite W1| |done].
      simpl. rewrite W1, Hws1, Hns0. by eexists.
  - intros [= <- <-]. destruct (rename_ok ns svc (ensured ns s)) as (? & ? & ? & ?);
      [done|by eexists|]. split; [done|]. intros _ Hl. split_and!; [auto| |done].
    congruence.
  - intros [= <- <-]. split; [done|]. intros _ Hl. split_and!; [auto|exact (eq_sym Hch)|].
    assert (watchOf ns s = mkNW svc (nw_cancelFunc (watchOf ns s))) as Enw
      by (rewrite Hsn; by destruct (watchOf ns s)).
    destruct (Hlive0 Hl ns svc (nw_cancelFunc (watchOf ns s))) as [id Hid]; [congruence|done|].
    exists id. congruence.
Qed.

Lemma RemoveWatchedService_ok svc ns s :
  stream_ok s → stream_ok (RemoveWatchedService svc ns s) ∧
  (stream_live s → stream_live (RemoveWatchedService svc ns s)).
Proof.
  intros Hok. unfold RemoveWatchedService.
  destruct (es_watchedServices s !! ns) as [[name c]|] eqn:E; [|done].
  case_bool_decide; [|done]. destruct Hok as [Hr Hw Hn]. split.
  - split; simpl.
    + intros i rw Hi.
      assert (es_running s !! i = Some rw ∧ c ≠ Some i) as [Hi' Hc].
      { destruct c as [id|]; [|done]. rewrite lookup_delete in Hi. case_decide; [done|].
        split; congruence. }
      destruct (Hr _ _ Hi') as [nm Hnm]. exists nm. rewrite lookup_delete.
      case_decide as Hd; [|done]. rewrite <- Hd in Hnm. congruence.
    + intros n nm i. rewrite lookup_delete. case_decide as Hd; [done|]. intros H'.
      pose proof (Hw _ _ _ H') as Hi. destruct c as [id|]; [|done].
      rewrite lookup_delete. case_decide as Hid; [|done]. subst i.
      pose proof (Hw _ _ _ E). congruence.
    + intros i Hi. apply Hn. destruct c as [id|]; [|done].
      rewrite lookup_delete in Hi. case_decide; [by destruct Hi|done].
  - intros Hl n nm c'. simpl. rewrite lookup_delete. case_decide; [done|]. apply Hl.
Qed.

(** The calls of the service reconciler. A connection to etcd may fail. *)
Inductive stream_step : ModelMeshEventStream → ModelMeshEventStream → Prop :=
| step_Update get secret svc ns s :
    stream_step s (UpdateWatchedService get secret svc ns s).2
| step_Remove svc ns s : stream_step s (RemoveWatchedService svc ns s).

Lemma NewModelEventStream_ok ns :
  stream_ok (NewModelEventStream ns) ∧ stream_live (NewModelEventStream ns).
Proof.
  split.
  - apply stream_ok_no_watch; [done|]. intros n w. simpl.
    by intros [_ <-]%lookup_singleton_Some.
  - intros n nm c. simpl. by intros [_ [= <- <-]]%lookup_singleton_Some.
Qed.

(** Watches never leak: after any sequence of updates and removals, failed ones
    included, the running watchers are exactly those some namespace holds the
    cancel function of, and each covers the key range of that namespace's service
    under the current root prefix. *)
Theorem watches_never_leak ns s :
  rtc stream_step (NewModelEventStream ns) s → stream_ok s.
Proof.
  intros Hr. eapply (rtc_invariant stream_step stream_ok); [|exact Hr|].
  - intros a b Ha Hab. destruct Hab as [get secret svc n s0|svc n s0].
    + destruct (UpdateWatchedService get secret svc n s0) as [e s1] eqn:E.
      eapply UpdateWatchedService_ok; [exact Ha|exact E].
    + by apply RemoveWatchedService_ok.
  - apply NewModelEventStream_ok.
Qed.

(** When a watched service is updated without error, starting from a state in
    which every watched service has its watchers, the namespace's service is
    watched over its own key range with the new secret, and every other watched
    service still has its watchers. *)
Theorem UpdateWatchedService_watches get secret svc ns s s' :
  stream_ok s → stream_live s →
  UpdateWatchedService get secret svc ns s = (None, s') →
  stream_live s' ∧ es_secretName s' = secret ∧
  ∃ id, es_watchedServices s' !! ns = Some (mkNW svc (Some id)) ∧
        es_running s' !! id = Some (mkRW ns (es_etcdClient s')
          (servicePrefix (es_etcdRootPrefix s') (controllerNamespace s') ns svc)).
Proof.
  intros Hok Hl Hu. destruct (UpdateWatchedService_ok _ _ _ _ _ _ _ Hok Hu) as [Hok' Hw].
  destruct (Hw eq_refl Hl) as (Hl' & Hs & id & Hid). split_and!; [done..|].
  exists id. split; [done|]. by apply Hok'.
Qed.

(** The etcd client uses TLS exactly when the first endpoint is https, a
    certificate is configured or a client key pair is, and it presents a client
    certificate exactly when both its key and its certificate are given; giving
    one of the two alone is an error. *)
Theorem etcd_client_tls cfg data c :
  getEtcdClientConfig cfg data = Ok c →
  ∃ clientKey clientCert,
    pemFrom data (ec_ClientKey cfg) (ec_ClientKeyFile cfg) "key" = Ok clientKey ∧
    pemFrom data (ec_ClientCertificate cfg) (ec_ClientCertificateFile cfg)
      "client certificate" = Ok clientCert ∧
    (clientKey = "" ↔ clientCert = "") ∧
    (is_Some (cc_TLS c) ↔
       HasPrefix (default "" (head (cc_Endpoints c))) "https://" = true ∨
       ec_Certificate cfg ≠ "" ∨ ec_CertificateFile cfg ≠ "" ∨ clientKey ≠ "") ∧
    (is_Some (cc_TLS c ≫= et_KeyPair) ↔ clientKey ≠ "").
Proof.
  unfold getEtcdClientConfig. cbn zeta.
  destruct (pemFrom _ (ec_Certificate cfg) _ _) as [cert|]; [|done].
  destruct (pemFrom _ (ec_ClientKey cfg) _ _) as [ck|]; [|done].
  destruct (pemFrom _ (ec_ClientCertificate cfg) _ _) as [cc|]; [|done].
  destruct (Bool.eqb _ _) eqn:Eb; simpl; [|done].
  apply Bool.eqb_prop in Eb.
  assert (ck = "" ↔ cc = "") as Hiff.
  { repeat case_bool_decide; simplify_eq; try done; split; tauto. }
  set (https := HasPrefix _ _).
  set (kp := if bool_decide (ck ≠ "") then _ else _).
  assert (Hkp : ∀ k, kp = Ok k → (is_Some k ↔ ck ≠ "")).
  { intros k. subst kp. case_bool_decide as Hck.
    - destruct (X509KeyPair cc ck); [|done]. intros [= <-]. split; eauto.
    - intros [= <-]. split; [by intros []|tauto]. }
  destruct kp as [k|]; [|done]. specialize (Hkp k eq_refl). intros [= <-].
  exists ck, cc. cbn [cc_TLS cc_Endpoints]. fold https.
  set (cg := bool_decide (ec_Certificate cfg ≠ "") || bool_decide (ec_CertificateFile cfg ≠ "")).
  assert (Hcg : cg = true ↔ ec_Certificate cfg ≠ "" ∨ ec_CertificateFile cfg ≠ "").
  { subst cg. by rewrite orb_true_iff, !bool_decide_eq_true. }
  clear Eb. clearbody https cg. split_and!; [done..| |]; rewrite <- Hkp.
  - case_bool_decide as Hk.
    + rewrite orb_true_r. split; [tauto|by eexists].
    + destruct https, cg; simpl; (split; [intros Ht|intros Hor; try by eexists]); try tauto;
        [by destruct Ht|]. exfalso. assert (false = true) as Hf; [|done]. tauto.
  - case_bool_decide as Hk; [rewrite orb_true_r; done|].
    split; [|tauto]. destruct (https || cg || false); simpl; [done|by intros []].
Qed.
End Prefixes.

(** ** Witnesses *)

Definition exEtcdConfig : EtcdConfig :=
  mkEtcdConfig "https://etcd:2379" "" "" "root" "" "" "" "" "" "" "".

Definition etcdLibsImpl : EtcdLibs := {|
  UnmarshalEtcdConfig := λ _, Ok exEtcdConfig;
  MarshalEtcdConfig := λ c, Ok (ec_RootPrefix c);
  X509KeyPair := λ _ _, Ok "pair";
  etcd3_New := λ _, Ok 7;
  UnmarshalOwner := λ o, Ok o
|}.
#[local] Existing Instance etcdLibsImpl.

Definition exEventLibs : PredictorLibs := {|
  Convert := λ e, match e with ErrGrpc c m => (c, m) | _ => (2%Z, "") end;
  Convert_status := λ _ _, eq_refl;
  MarshalKeyInfo := λ _, Ok "{}";
  MarshalSpec := λ _, "{}";
  sha1_Sum := λ _, "aaaaabbbbbcccccddddd";
  sha1_Size := λ _, eq_refl
|}.

Lemma model_event_roundtrip_witness :
  ∃ req, modelListener "ns" (mkNotif UPDATE "my_model__ksp-6161616161" None) =
           Ret (Some req) ∧
         ResolveSource req "ksp" = Ret (mkNN "ns" "my_model", "ksp").
Proof.
  apply (@model_event_roundtrip exEventLibs
           (mkPredictor (mkMeta "my_model" "ns" "1" None ∅ ∅) emptySpec zeroStatus)
           "ksp" "ns" None "ksp"); first [reflexivity | discriminate].
Defined.

Lemma watched_prefix_matches_secret_witness :
  ∃ cfg json, MarshalEtcdConfig cfg = Ok json ∧
    ({[EtcdSecretKey := "root/mm_ns/user"]} : SecretData) !! EtcdSecretKey = Some json ∧
    servicePrefix "root" "controller" "user" "mm-svc" =
    ec_RootPrefix cfg +:+ "/" +:+ ModelMeshEtcdPrefix +:+ "/" +:+ "mm-svc".
Proof.
  apply (watched_prefix_matches_secret (mkEtcdSecret "s" "user" exEtcdConfig) ∅).
  - reflexivity.
  - discriminate.
  - reflexivity.
Defined.

Lemma watches_disjoint_witness :
  servicePrefix "root" "c" "a" "svc" +:+ "/" +:+ "vmodels/m" ≠
  servicePrefix "root" "c" "b" "svc" +:+ "/" +:+ "vmodels/m".
Proof. apply watches_disjoint; [discriminate|reflexivity|reflexivity]. Defined.

Definition exSecretData : result error SecretData := Ok {[EtcdSecretKey := "json"]}.

Definition exStream : ModelMeshEventStream :=
  (UpdateWatchedService exSecretData "secret" "mm-svc" "user" (NewModelEventStream "c")).2.

Lemma watches_never_leak_witness : stream_ok exStream.
Proof. apply (watches_never_leak "c"). apply rtc_once. apply step_Update. Defined.

Lemma UpdateWatchedService_watches_witness :
  ∃ id, es_watchedServices exStream !! "user" = Some (mkNW "mm-svc" (Some id)) ∧
        es_running exStream !! id = Some (mkRW "user" (es_etcdClient exStream)
          (servicePrefix (es_etcdRootPrefix exStream) (controllerNamespace exStream)
             "user" "mm-svc")).
Proof.
  apply (UpdateWatchedService_watches exSecretData "secret" "mm-svc" "user"
           (NewModelEventStream "c")).
  - apply NewModelEventStream_ok.
  - apply NewModelEventStream_ok.
  - vm_compute. reflexivity.
Defined.

Lemma etcd_client_tls_witness :
  ∃ clientKey clientCert,
    pemFrom ∅ (ec_ClientKey exEtcdConfig) (ec_ClientKeyFile exEtcdConfig) "key" = Ok clientKey ∧
    pemFrom ∅ (ec_ClientCertificate exEtcdConfig) (ec_ClientCertificateFile exEtcdConfig)
      "client certificate" = Ok clientCert ∧
    (clientKey = "" ↔ clientCert = "") ∧
    (is_Some (Some (mkEtcdTLS None None)) ↔
       HasPrefix "https://etcd:2379" "https://" = true ∨
       ec_Certificate exEtcdConfig ≠ "" ∨ ec_CertificateFile exEtcdConfig ≠ "" ∨
       clientKey ≠ "") ∧
    (is_Some (None : option string) ↔ clientKey ≠ "").
Proof.
  apply (etcd_client_tls exEtcdConfig ∅
    (mkEtcdClientConfig ["https://etcd:2379"] "" "" (Some (mkEtcdTLS None None)) None)).
  vm_compute. reflexivity.
Defined.

(** ** A failed reconnection is forgotten *)

(** The first secret is in place; a second one cannot be read. *)
Definition exStreamBroken : ModelMeshEventStream :=
  (UpdateWatchedService (Err (ErrMsg "forbidden")) "secret2" "mm-svc" "user" exStream).2.

(** When connecting with a changed etcd secret fails, all watches have already
    been cancelled while the old secret and service names are kept. Going back to
    the old secret then succeeds without restarting anything: no watch is running. *)
Theorem failed_secret_change_stops_watches :
  UpdateWatchedService exSecretData "secret" "mm-svc" "user" exStreamBroken =
    (None, exStreamBroken) ∧
  es_running exStreamBroken = ∅ ∧ es_running exStream ≠ ∅.
Proof. split_and!; [vm_compute; reflexivity..|]. vm_compute. discriminate. Qed.
