(* ===== verification/Validator.v ===== *)
(** * Validation of ServingRuntimes (controllers/servingruntime_validator.go)

    The checks a runtime spec has to pass before a deployment is built from it,
    and the names the deployment reserves for itself (controllers/modelmesh/const.go). *)

From S2P Require Import Prelude GoStrings Types K8s Config.

(** ** Reserved names (const.go) *)

Definition ModelMeshContainerName : string := "mm".
Definition RESTProxyContainerName : string := "rest-proxy".
Definition PullerContainerName : string := "puller".
Definition EtcdVolume : string := "etcd-config".
Definition ModelsDirVolume : string := "models-dir".
Definition SocketVolume : string := "domain-socket".
Definition ConfigStorageMount : string := "storage-config".
Definition InternalConfigMapName : string := "tc-config".

Definition internalContainerNames : gset string :=
  {[ ModelMeshContainerName; RESTProxyContainerName; PullerContainerName ]}.
Definition internalOnlyVolumeMounts : gset string :=
  {[ ConfigStorageMount; EtcdVolume; InternalConfigMapName; SocketVolume ]}.
Definition internalNamedPorts : gset string := {[ "grpc"; "http"; "prometheus" ]}.
Definition internalPorts : gset Z := {[ 8080; 8085; 8089; 8090 ]}%Z.
Definition internalVolumes : gset string :=
  {[ ConfigStorageMount; EtcdVolume; InternalConfigMapName; SocketVolume; ModelsDirVolume ]}.

(** ** Checks: [None] is a nil error *)

Definition checkName (name : string) (internalNames : gset string) (logStr : string)
  : option error :=
  if bool_decide (name ∈ internalNames) then
    Some (ErrMsg (logStr +:+ " " +:+ name +:+ " is reserved for internal use"))
  else if HasPrefix name "mm-" then
    Some (ErrMsg (logStr +:+ " cannot start with mm-, which is reserved for internal use"))
  else None.

(** The first error of a loop *)
Fixpoint first_error {A} (f : A → option error) (l : list A) : option error :=
  match l with
  | [] => None
  | x :: rest => match f x with Some e => Some e | None => first_error f rest end
  end.

Definition validatePort (p : ContainerPort) : option error :=
  match checkName (cp_Name p) internalNamedPorts "port name" with
  | Some e => Some e
  | None =>
      if bool_decide (cp_ContainerPort p ∈ internalPorts) then
        Some (ErrMsg ("Port " +:+ Itoa (cp_ContainerPort p) +:+ " is reserved for internal use"))
      else if bool_decide (11881 ≤ cp_ContainerPort p ∧ cp_ContainerPort p < 11900)%Z then
        Some (ErrMsg "Port range [11881-11899] is reserved for internal use")
      else None
  end.

Definition validateContainer (c : Container) : option error :=
  match checkName (c_Name c) internalContainerNames "container name" with
  | Some e => Some e
  | None =>
      if bool_decide (is_Some (c_ReadinessProbe c)) || bool_decide (is_Some (c_Lifecycle c))
      then Some (ErrMsg "ReadinessProbe and Lifecycle are managed by modelmesh and cannot be set")
      else match first_error (λ m, checkName (vm_Name m) internalOnlyVolumeMounts "volume")
                   (c_VolumeMounts c) with
           | Some e => Some e
           | None => first_error validatePort (c_Ports c)
           end
  end.

Definition validateContainers (rts : ServingRuntimeSpec) (_ : Config) : option error :=
  first_error (λ c, match validateContainer c with
                    | Some e => Some (ErrWrap ("container spec for " +:+ c_Name c +:+
                                               " is invalid") e)
                    | None => None
                    end) (sr_Containers rts).

Definition validateVolumes (rts : ServingRuntimeSpec) (_ : Config) : option error :=
  first_error (λ v, checkName (v_Name v) internalVolumes "volume") (sr_Volumes rts).

Definition validateBuiltInAdapterSpec (rts : ServingRuntimeSpec) (config : Config)
  : option error :=
  match sr_BuiltInAdapter rts with
  | None => None
  | Some a =>
      let st := bia_ServerType a in
      if negb (existsb (λ b, bool_decide (b = st)) (BuiltInServerTypes config)) then
        Some (ErrMsg ("unrecognized built-in runtime server type " +:+ st))
      else if existsb (λ c, bool_decide (c_Name c = st)) (sr_Containers rts) then None
      else Some (ErrMsg ("must include runtime container with name " +:+ st))
  end.

Definition validationChain (rts : ServingRuntimeSpec) (config : Config)
    (funcs : list (ServingRuntimeSpec → Config → option error)) : option error :=
  first_error (λ f, f rts config) funcs.

Definition validateServingRuntimeSpec (rts : ServingRuntimeSpec) (config : Config)
  : option error :=
  validationChain rts config
    [validateBuiltInAdapterSpec; validateContainers; validateVolumes].

(** ** What passing the validation means *)

Definition name_allowed (reserved : gset string) (name : string) : Prop :=
  name ∉ reserved ∧ HasPrefix name "mm-" = false.

Record container_allowed (c : Container) : Prop := {
  ca_name : name_allowed internalContainerNames (c_Name c);
  ca_probe : c_ReadinessProbe c = None;
  ca_lifecycle : c_Lifecycle c = None;
  ca_mounts m : m ∈ c_VolumeMounts c → name_allowed internalOnlyVolumeMounts (vm_Name m);
  ca_ports p : p ∈ c_Ports c →
    name_allowed internalNamedPorts (cp_Name p) ∧ cp_ContainerPort p ∉ internalPorts ∧
    ¬ (11881 ≤ cp_ContainerPort p ≤ 11899)%Z
}.

Record spec_allowed (rts : ServingRuntimeSpec) (config : Config) : Prop := {
  sa_adapter a : sr_BuiltInAdapter rts = Some a →
    bia_ServerType a ∈ BuiltInServerTypes config ∧
    ∃ c, c ∈ sr_Containers rts ∧ c_Name c = bia_ServerType a;
  sa_containers c : c ∈ sr_Containers rts → container_allowed c;
  sa_volumes v : v ∈ sr_Volumes rts → name_allowed internalVolumes (v_Name v)
}.

Lemma first_error_None {A} (f : A → option error) l :
  first_error f l = None ↔ ∀ x, x ∈ l → f x = None.
Proof.
  induction l as [|y l IH]; simpl; [split; [set_solver|done]|].
  destruct (f y) eqn:E.
  - split; [done|]. intros Hall. rewrite (Hall y) in E by left. done.
  - rewrite IH. split.
    + intros Hl x [->|Hx]%elem_of_cons; auto.
    + intros Hall x Hx. apply Hall. by right.
Qed.

Lemma checkName_None name reserved what :
  checkName name reserved what = None ↔ name_allowed reserved name.
Proof.
  unfold checkName, name_allowed. case_bool_decide; [split; [done|tauto]|].
  destruct (HasPrefix name "mm-"); split; naive_solver.
Qed.

Lemma validatePort_None p :
  validatePort p = None ↔
  name_allowed internalNamedPorts (cp_Name p) ∧ cp_ContainerPort p ∉ internalPorts ∧
  ¬ (11881 ≤ cp_ContainerPort p ≤ 11899)%Z.
Proof.
  unfold validatePort. destruct (checkName _ _ _) eqn:E.
  - split; [done|]. intros [H%(checkName_None _ _ "port name") _]. congruence.
  - apply checkName_None in E. case_bool_decide; [split; [done|tauto]|].
    case_bool_decide as Hr; split; [done|intros (_ & _ & []); lia| |done].
    intros _. split_and!; [done..|lia].
Qed.

Lemma validateContainer_None c : validateContainer c = None ↔ container_allowed c.
Proof.
  unfold validateContainer. destruct (checkName _ _ _) eqn:E.
  { split; [done|]. intros [H%(checkName_None _ _ "container name") _ _ _ _]. congruence. }
  apply checkName_None in E.
  destruct (c_ReadinessProbe c) eqn:Ep; simpl.
  { split; [done|]. intros [_ H _ _ _]. congruence. }
  destruct (c_Lifecycle c) eqn:El; simpl.
  { split; [done|]. intros [_ _ H _ _]. congruence. }
  destruct (first_error _ (c_VolumeMounts c)) eqn:Em.
  - split; [done|]. intros [_ _ _ Hm _].
    assert (first_error (λ m, checkName (vm_Name m) internalOnlyVolumeMounts "volume")
              (c_VolumeMounts c) = None) as Hn; [|congruence].
    apply first_error_None. intros m Hin. apply checkName_None. by apply Hm.
  - rewrite first_error_None in Em. rewrite first_error_None. split.
    + intros Hp. split; [done..| |].
      * intros m Hin. eapply checkName_None. by apply Em.
      * intros p Hin. by apply validatePort_None, Hp.
    + intros [_ _ _ _ Hp] p Hin. by apply validatePort_None, Hp.
Qed.

(** C38: A runtime spec is accepted exactly when it respects every reservation: its
    built-in adapter is known and has its container, no container, volume, port
    name or port number collides with an internal one or uses the reserved prefix
    or range, no container mounts an internal volume, and the fields model-mesh
    controls are unset. *)
Theorem validation_iff rts config :
  validateServingRuntimeSpec rts config = None ↔ spec_allowed rts config.
Proof.
  unfold validateServingRuntimeSpec, validationChain. rewrite first_error_None.
  assert (Hb : validateBuiltInAdapterSpec rts config = None ↔
    ∀ a, sr_BuiltInAdapter rts = Some a →
      bia_ServerType a ∈ BuiltInServerTypes config ∧
      ∃ c, c ∈ sr_Containers rts ∧ c_Name c = bia_ServerType a).
  { unfold validateBuiltInAdapterSpec. destruct (sr_BuiltInAdapter rts) as [a|]; [|done].
    destruct (existsb _ (BuiltInServerTypes config)) eqn:E1; simpl.
    - apply existsb_exists in E1 as (b & Hb & ->%bool_decide_eq_true).
      rewrite <- list_elem_of_In in Hb.
      destruct (existsb _ (sr_Containers rts)) eqn:E2.
      + apply existsb_exists in E2 as (c & Hc & Hn%bool_decide_eq_true).
        rewrite <- list_elem_of_In in Hc.
        split; [|done]. intros _ a' [= <-]. eauto.
      + split; [done|]. intros H. destruct (H a eq_refl) as (_ & c & Hc & Hn).
        apply not_true_iff_false in E2. destruct E2. apply existsb_exists. exists c.
        by rewrite <- list_elem_of_In, bool_decide_true.
    - split; [done|]. intros H. destruct (H a eq_refl) as (Hin & _).
      apply not_true_iff_false in E1. destruct E1. apply existsb_exists.
      exists (bia_ServerType a). by rewrite <- list_elem_of_In, bool_decide_true. }
  assert (Hc : validateContainers rts config = None ↔
    ∀ c, c ∈ sr_Containers rts → container_allowed c).
  { unfold validateContainers. rewrite first_error_None. split; intros H c Hin.
    - apply validateContainer_None. specialize (H c Hin). by destruct (validateContainer c).
    - apply H, validateContainer_None in Hin. by rewrite Hin. }
  assert (Hv : validateVolumes rts config = None ↔
    ∀ v, v ∈ sr_Volumes rts → name_allowed internalVolumes (v_Name v)).
  { unfold validateVolumes. rewrite first_error_None.
    split; intros H v Hin; by eapply checkName_None, H. }
  split.
  - intros H. split; [apply Hb|apply Hc|apply Hv]; apply H; set_solver.
  - intros [H1 H2 H3] f Hf. rewrite !elem_of_cons in Hf.
    destruct Hf as [->|[->|[->|Hf]]]; [by apply Hb|by apply Hc|by apply Hv|].
    by apply not_elem_of_nil in Hf.
Qed.
