(* ===== verification/Endpoint.v ===== *)
(** * Endpoints of a runtime (controllers/modelmesh/endpoint.go and util.go)

    Endpoint strings are either "port:N" or "unix:PATH". *)

From S2P Require Import Prelude GoStrings Types K8s.
From Stdlib Require Import Ascii.

(** ** path/filepath *)

(** One element of a cleaned path, on a stack of elements (last first) *)
Definition clean_step (rooted : bool) (stack : list string) (c : string) : list string :=
  if bool_decide (c = "") || bool_decide (c = ".") then stack
  else if bool_decide (c = "..") then
    match stack with
    | top :: rest => if bool_decide (top = "..") then c :: stack else rest
    | [] => if rooted then [] else [c]
    end
  else c :: stack.

Definition path_Clean (p : string) : string :=
  let rooted := HasPrefix p "/" in
  let elems := rev (foldl (clean_step rooted) [] (Split p "/"%char)) in
  if rooted then "/" +:+ Join elems "/"
  else match elems with [] => "." | _ => Join elems "/" end.

(** filepath.Dir: everything up to the last separator, cleaned *)
Definition path_Dir (p : string) : string :=
  path_Clean (match LastIndex p "/" with Some i => str_take (S i) p | None => "" end).

(** ** endpoint.go *)

Inductive Endpoint :=
| TCPEndpoint (Port : string)
| UnixEndpoint (Path ParentPath : string).

(** The path of a unix endpoint: one leading scheme is removed *)
Definition udsPath (s : string) : string := Replace1 (Replace1 s "unix://" "") "unix:" "".

(** strings.SplitAfter(s, "port:")[1] for an s with that prefix *)
Definition portPart (s : string) : string :=
  let rest := TrimPrefix s "port:" in
  match Index rest "port:" with
  | Some i => str_take (i + 5) rest
  | None => rest
  end.

(** The error of ParseEndpoint is always nil. *)
Definition ParseEndpoint (s : string) : Endpoint :=
  if HasPrefix s "port:" then TCPEndpoint (portPart s)
  else UnixEndpoint (udsPath s) (path_Dir (udsPath s)).

Fixpoint all_digits (s : string) : bool :=
  match s with
  | EmptyString => true
  | String c s' => bool_decide (is_Some (digit_of c)) && all_digits s'
  end.

(** The regular expression ^port:[0-9]+$ *)
Definition matchPort (s : string) : bool :=
  HasPrefix s "port:" &&
  let n := str_drop 5 s in bool_decide (n ≠ "") && all_digits n.

Definition ValidateEndpoint (s : string) : result error string :=
  if matchPort s || HasPrefix s "unix:" then Ok s
  else Err (ErrMsg ("Invaid Endpoint: " +:+ s)).

(** ** util.go *)

(** Whether unix domain sockets are present, the endpoints, and their directories *)
Definition unixDomainSockets (rts : ServingRuntimeSpec)
  : bool * list string * list string :=
  let eps := omap (λ o, match o with
                        | Some e => if HasPrefix e "unix:" then Some e else None
                        | None => None
                        end)
               [sr_GrpcDataEndpoint rts; sr_GrpcMultiModelManagementEndpoint rts] in
  match eps with
  | [] => (false, [], [])
  | _ => (true, eps, map (λ e, path_Dir (udsPath e)) eps)
  end.

Definition useStorageHelper (rts : ServingRuntimeSpec) : bool :=
  match sr_BuiltInAdapter rts with
  | None => match sr_StorageHelper rts with None => true | Some disabled => negb disabled end
  | Some _ => false
  end.

(** isUnix and the directory of a single endpoint *)
Definition findParentPath (str : string) : bool * string :=
  match ParseEndpoint str with
  | TCPEndpoint _ => (false, "")
  | UnixEndpoint _ parent => (true, parent)
  end.

(** The mount point for the model-mesh container: that of the data endpoint if
    there is one, else that of the management endpoint. *)
Definition mountPoint (rts : ServingRuntimeSpec) : bool * string :=
  match sr_GrpcDataEndpoint rts with
  | Some e => findParentPath e
  | None => match sr_GrpcMultiModelManagementEndpoint rts with
            | Some e => findParentPath e
            | None => (false, "")
            end
  end.

(** Merge image pull secret lists, keeping the first occurrence of each name *)
Definition mergeImagePullSecrets (secrets : list (list string)) : list string :=
  foldl (λ acc v, if bool_decide (v ∈ acc) then acc else acc ++ [v]) [] (mjoin secrets).

(** ** Lemmas *)

(** An endpoint that passed validation and is not "port:N" is a unix endpoint. *)
Definition endpoint_valid (e : string) : Prop :=
  matchPort e = true ∨ HasPrefix e "unix:" = true.

Lemma ValidateEndpoint_ok e : endpoint_valid e ↔ ValidateEndpoint e = Ok e.
Proof.
  unfold endpoint_valid, ValidateEndpoint. rewrite <- orb_true_iff.
  destruct (matchPort e || HasPrefix e "unix:"); split; done.
Qed.

Lemma port_not_unix e : HasPrefix e "port:" = true → HasPrefix e "unix:" = false.
Proof. intros [t ->]%HasPrefix_true. done. Qed.

Lemma findParentPath_unix e :
  endpoint_valid e → (findParentPath e).1 = HasPrefix e "unix:".
Proof.
  intros Hv. unfold findParentPath, ParseEndpoint.
  destruct (HasPrefix e "port:") eqn:Hp; simpl.
  - by rewrite port_not_unix.
  - destruct Hv as [Hm|Hu]; [|done]. unfold matchPort in Hm. by rewrite Hp in Hm.
Qed.

Lemma unixDomainSockets_iff rts :
  (unixDomainSockets rts).1.1 = true ↔
  ∃ e, (sr_GrpcDataEndpoint rts = Some e ∨ sr_GrpcMultiModelManagementEndpoint rts = Some e) ∧
       HasPrefix e "unix:" = true.
Proof.
  unfold unixDomainSockets.
  destruct (sr_GrpcDataEndpoint rts) as [d|], (sr_GrpcMultiModelManagementEndpoint rts) as [m|];
    simpl;
    repeat match goal with |- context [HasPrefix ?x "unix:"] =>
      lazymatch x with
      | d => destruct (HasPrefix d "unix:") eqn:?; simpl
      | m => destruct (HasPrefix m "unix:") eqn:?; simpl
      end end; split; try done; try (intros _; eauto; fail);
    intros (e & [He|He] & Hu); simplify_eq; congruence.
Qed.

Lemma all_digits_Itoa_go n s : all_digits s = true → all_digits (pretty.pretty_N_go n s) = true.
Proof.
  revert s. induction (N.lt_wf_0 n) as [x _ IH]. intros s Hs.
  destruct (decide (0 < x)%N) as [Hx|Hx].
  - rewrite pretty.pretty_N_go_step by done. apply IH; [by apply N.div_lt|].
    simpl. rewrite Hs, andb_true_r. apply bool_decide_eq_true.
    destruct (digit_of (pretty.pretty_N_char (x `mod` 10))) as [dg|] eqn:E; [by eexists|].
    exfalso. eapply (pretty_N_char_digit (x `mod` 10)%N); [by apply N.mod_lt| |done].
    intros dg. by rewrite E.
  - by replace x with 0%N by lia.
Qed.

Lemma all_digits_Itoa n : (0 ≤ n)%Z → all_digits (Itoa n) = true.
Proof.
  intros Hn. unfold Itoa. destruct n as [|p|p]; [done| |lia].
  change (pretty.pretty (Z.pos p)) with (pretty.pretty (N.pos p)).
  unfold pretty.pretty, pretty.pretty_N. case_decide; [done|]. by apply all_digits_Itoa_go.
Qed.

Lemma Index_prefix_char s c sub i :
  Index s (String c sub) = Some i → has_char c s = true.
Proof.
  revert i. induction s as [|d s IH]; intros i; simpl; [done|].
  destruct (ascii_dec c d) as [->|Hne].
  - by rewrite bool_decide_true.
  - destruct (Index s (String c sub)) as [j|]; simpl; [|done].
    intros _. rewrite (IH j eq_refl). apply orb_true_r.
Qed.

(** Printing a port and parsing it: what the runtime gets is the number. *)
Lemma ParseEndpoint_port n :
  (0 ≤ n)%Z →
  ValidateEndpoint ("port:" +:+ Itoa n) = Ok ("port:" +:+ Itoa n) ∧
  ParseEndpoint ("port:" +:+ Itoa n) = TCPEndpoint (Itoa n).
Proof.
  intros Hn. split.
  - apply ValidateEndpoint_ok. left. unfold matchPort. rewrite HasPrefix_app. simpl.
    change ("" +:+ Itoa n) with (Itoa n).
    rewrite bool_decide_true by (by apply Itoa_nonempty). by apply all_digits_Itoa.
  - unfold ParseEndpoint. rewrite HasPrefix_app. unfold portPart. rewrite TrimPrefix_app.
    destruct (Index (Itoa n) "port:") as [i|] eqn:E; [|done].
    apply Index_prefix_char in E. by rewrite has_char_Itoa in E.
Qed.

Lemma merge_fold_spec l acc :
  NoDup acc →
  let r := foldl (λ acc v, if bool_decide (v ∈ acc) then acc else acc ++ [v]) acc l in
  NoDup r ∧ (∀ x : string, x ∈ r ↔ x ∈ acc ∨ x ∈ l) ∧ acc `prefix_of` r.
Proof.
  revert acc. induction l as [|v l IH]; intros acc Hnd; simpl.
  { split_and!; [done| |done]. intros x. set_solver. }
  case_bool_decide as Hv.
  - destruct (IH acc Hnd) as (H1 & H2 & H3). split_and!; [done| |done].
    intros x. rewrite H2, elem_of_cons. split; [tauto|]. intros [?|[->|?]]; tauto.
  - destruct (IH (acc ++ [v])) as (H1 & H2 & H3).
    { apply NoDup_app. split_and!; [done| |apply NoDup_singleton].
      intros x Hx ->%list_elem_of_singleton. done. }
    split_and!; [done| |].
    + intros x. rewrite H2, elem_of_app, list_elem_of_singleton, elem_of_cons. tauto.
    + etrans; [|exact H3]. by apply prefix_app_r.
Qed.

(** The merged list has every secret once, the first list's first. *)
Lemma mergeImagePullSecrets_spec secrets :
  NoDup (mergeImagePullSecrets secrets) ∧
  (∀ x, x ∈ mergeImagePullSecrets secrets ↔ ∃ l, l ∈ secrets ∧ x ∈ l).
Proof.
  destruct (merge_fold_spec (mjoin secrets) []) as (H1 & H2 & _); [constructor|].
  split; [done|]. intros x. unfold mergeImagePullSecrets. rewrite H2.
  rewrite list_elem_of_join. set_solver.
Qed.
