(* ===== verification/Autoscaler.v ===== *)
(** * Autoscaling of runtimes

    The admission webhook (apis/serving/v1alpha1/servingruntime_webhook.go), the HPA
    reconciler (controllers/hpa) and the autoscaler reconciler that selects it
    (controllers/autoscaler). Decoding of admission requests is an argument. *)

From S2P Require Import Prelude GoStrings Types K8s.

(** The constants of kserve's pkg/constants the code refers to, and its Union *)
Class KServeConstants := {
  AutoscalerClass : string;
  AutoscalerMetrics : string;
  TargetUtilizationPercentage : string;
  KServeAPIGroupName : string;
  InferenceServicePodLabelKey : string;
  KServiceComponentLabel : string;
  PredictorComponent : string;
  AutoscalerClassHPA : string;
  AutoscalerAllowedClassList : list string;
  AutoscalerAllowedMetricsList : list string;
  AutoScalerMetricsCPU : string;
  AutoScalerMetricsMemory : string;
  DefaultCPUUtilization : Z;
  DefaultMinReplicas : Z;
  Union : list (gmap string string) → gmap string string
}.

(** What the code relies on *)
Class KServeConstantsLaws `{!KServeConstants} := {
  cpu_metric : AutoScalerMetricsCPU = "cpu";
  default_utilization : (1 ≤ DefaultCPUUtilization ≤ 100)%Z;
  default_min : DefaultMinReplicas = 1%Z
}.

(** controllers/autoscaler *)
(** The values of kserve 0.12, for concrete runs *)
Definition kserveConstantsImpl : KServeConstants := {|
  AutoscalerClass := "serving.kserve.io/autoscalerClass";
  AutoscalerMetrics := "serving.kserve.io/metrics";
  TargetUtilizationPercentage := "serving.kserve.io/targetUtilizationPercentage";
  KServeAPIGroupName := "serving.kserve.io";
  InferenceServicePodLabelKey := "serving.kserve.io/inferenceservice";
  KServiceComponentLabel := "component";
  PredictorComponent := "predictor";
  AutoscalerClassHPA := "hpa";
  AutoscalerAllowedClassList := ["hpa"; "external"];
  AutoscalerAllowedMetricsList := ["cpu"; "memory"];
  AutoScalerMetricsCPU := "cpu";
  AutoScalerMetricsMemory := "memory";
  DefaultCPUUtilization := 80;
  DefaultMinReplicas := 1;
  Union := foldl (λ acc m, m ∪ acc) ∅
|}.

Definition AutoscalerClassNone : string := "none".

Definition MaxUint16 : Z := 65535.

(** uint16(z) *)
Definition uint16 (z : Z) : Z := (z mod 65536)%Z.

(** Scope of the HPA objects the code builds and compares *)
Record MetricSpec := mkMetric { ms_Resource : string; ms_AverageUtilization : Z }.
Record HPAObj := mkHPA {
  hpa_Name : string;
  hpa_Namespace : string;
  hpa_Labels : gmap string string;
  hpa_Annotations : gmap string string;
  hpa_MinReplicas : option Z;
  hpa_MaxReplicas : Z;
  hpa_Metrics : list MetricSpec
}.

#[export] Instance MetricSpec_eq_dec : EqDecision MetricSpec.
Proof. solve_decision. Defined.
#[export] Instance HPAObj_eq_dec : EqDecision HPAObj.
Proof. solve_decision. Defined.

Section Autoscaler.
Context `{!KServeConstants}.
Implicit Types (annotations : gmap string string).

Definition MinScaleAnnotationKey : string := KServeAPIGroupName +:+ "/min-scale".
Definition MaxScaleAnnotationKey : string := KServeAPIGroupName +:+ "/max-scale".

(** ** The webhook; [None] is the nil error *)

Definition validateHPAMetrics (metric : string) : option error :=
  if existsb (λ item, bool_decide (item = metric)) AutoscalerAllowedMetricsList then None
  else Some (ErrMsg ("[" +:+ metric +:+ "] is not a supported metric.")).

Definition validateServingRuntimeAutoscaler annotations : option error :=
  match annotations !! AutoscalerClass with
  | None => None
  | Some class =>
      if existsb (λ item, bool_decide (class = item)) AutoscalerAllowedClassList then
        if bool_decide (class = AutoscalerClassHPA) then
          match annotations !! AutoscalerMetrics with
          | Some metric => validateHPAMetrics metric
          | None => None
          end
        else Some (ErrMsg ("unknown autoscaler class [" +:+ class +:+ "]"))
      else Some (ErrMsg ("[" +:+ class +:+ "] is not a supported autoscaler class type."))
  end.

Definition utilizationMessage : string :=
  "The target utilization percentage should be a [1-100] integer.".

Definition validateAutoscalerTargetUtilizationPercentage annotations : option error :=
  match annotations !! TargetUtilizationPercentage with
  | None => None
  | Some value =>
      match Atoi value with
      | None => Some (ErrMsg utilizationMessage)
      | Some t => if bool_decide (t < 1 ∨ t > 100)%Z
                  then Some (ErrMsg utilizationMessage) else None
      end
  end.

(** The minimum: 1, or the annotation's *)
Definition webhookMinReplicas annotations : result error Z :=
  match annotations !! MinScaleAnnotationKey with
  | None => Ok 1%Z
  | Some value =>
      match Atoi value with
      | None => Err (ErrMsg "The min replicas should be a integer.")
      | Some n => if bool_decide (n < 1)%Z
                  then Err (ErrMsg "The min replicas should be more than 0") else Ok n
      end
  end.

Definition webhookMaxReplicas annotations : result error Z :=
  match annotations !! MaxScaleAnnotationKey with
  | None => Ok 1%Z
  | Some value =>
      match Atoi value with
      | None => Err (ErrMsg "The max replicas should be a integer.")
      | Some n => Ok n
      end
  end.

Definition validateScalingHPA annotations : option error :=
  let metric := default AutoScalerMetricsCPU (annotations !! AutoscalerMetrics) in
  match webhookMinReplicas annotations with
  | Err e => Some e
  | Ok minReplicas =>
      match webhookMaxReplicas annotations with
      | Err e => Some e
      | Ok maxReplicas =>
          if bool_decide (minReplicas > maxReplicas)%Z then
            Some (ErrMsg "The max replicas should be same or bigger than min replicas.")
          else
            match validateHPAMetrics metric with
            | Some e => Some e
            | None =>
                match annotations !! TargetUtilizationPercentage with
                | None => None
                | Some value =>
                    match Atoi value with
                    | None => Some (ErrMsg utilizationMessage)
                    | Some t =>
                        if bool_decide (metric = AutoScalerMetricsMemory) &&
                           bool_decide (t < 1)%Z
                        then Some (ErrMsg "The target memory should be greater than 1 MiB")
                        else None
                    end
                end
            end
      end
  end.

Definition validateAutoScalingReplicas annotations (srReplicas : Z) : option error :=
  let autoscalerClassType := default AutoscalerClassNone (annotations !! AutoscalerClass) in
  if bool_decide (autoscalerClassType = AutoscalerClassHPA) then
    if bool_decide (srReplicas ≠ MaxUint16)
    then Some (ErrMsg "Autoscaler is enabled and also replicas variable set. You can not set both.")
    else validateScalingHPA annotations
  else None.

(** admission.Response *)
Inductive Response :=
| Errored (err : error)
| Denied (err : error)
| Allowed (msg : string).

(** [decoded] is what the decoder makes of the request. Both kinds of runtime are
    read the same way. *)
Definition Handle (decoded : result error ServingRuntime) : Response :=
  match decoded with
  | Err e => Errored e
  | Ok rt =>
      let srAnnotations := rt_Annotations rt in
      let srReplicas := from_option uint16 MaxUint16 (sr_Replicas (rt_Spec rt)) in
      let multiModel := default false (sr_MultiModel (rt_Spec rt)) in
      if negb multiModel
      then Allowed "Not validating ServingRuntime because it is not ModelMesh compatible"
      else
        match validateServingRuntimeAutoscaler srAnnotations with
        | Some e => Denied e
        | None =>
            match validateAutoscalerTargetUtilizationPercentage srAnnotations with
            | Some e => Denied e
            | None =>
                match validateAutoScalingReplicas srAnnotations srReplicas with
                | Some e => Denied e
                | None => Allowed "Passed all validation checks for ServingRuntime"
                end
            end
        end
  end.

(** ** The HPA *)

Definition getHPAMetrics annotations : list MetricSpec :=
  let utilization :=
    match annotations !! TargetUtilizationPercentage with
    | Some value => default DefaultCPUUtilization (ParseInt value 32)
    | None => DefaultCPUUtilization
    end in
  let resourceName := default "cpu" (annotations !! AutoscalerMetrics) in
  [mkMetric resourceName utilization].

(** An int32 annotation; one that does not parse is ignored. *)
Definition int32Annotation annotations (key : string) (dflt : Z) : Z :=
  match annotations !! key with
  | Some value => default dflt (ParseInt value 32)
  | None => dflt
  end.

(** The runtime's name, labels and annotations are what createHPA reads. *)
Definition createHPA (name : string) (labels annotations : gmap string string)
    (mmDeploymentName mmNamespace : string) : HPAObj :=
  let minReplicas := int32Annotation annotations MinScaleAnnotationKey DefaultMinReplicas in
  let maxReplicas := int32Annotation annotations MaxScaleAnnotationKey DefaultMinReplicas in
  let maxReplicas := if bool_decide (maxReplicas < minReplicas)%Z then minReplicas
                     else maxReplicas in
  mkHPA mmDeploymentName mmNamespace
    (Union [labels; <[InferenceServicePodLabelKey := name]>
                      {[KServiceComponentLabel := PredictorComponent]}])
    annotations (Some minReplicas) maxReplicas (getHPAMetrics annotations).

Inductive HPACall :=
| CreateHPA (h : HPAObj)
| UpdateHPA (h : HPAObj)
| DeleteHPA (h : HPAObj).

(** The client calls on HPAs: reads and the results of writes *)
Record HPAClient := mkHPAClient {
  hc_Get : NamespacedName → result error HPAObj;
  hc_Create : HPAObj → option error;
  hc_Update : HPAObj → option error;
  hc_Delete : HPAObj → option error
}.

Inductive CheckResult := CheckResultCreate | CheckResultUpdate | CheckResultExisted.

Definition semanticHPAEquals (desired existing : HPAObj) : exec bool :=
  if bool_decide (hpa_Metrics desired = hpa_Metrics existing) &&
     bool_decide (hpa_MaxReplicas desired = hpa_MaxReplicas existing)
  then d ← deref (hpa_MinReplicas desired); e ← deref (hpa_MinReplicas existing);
       Ret (bool_decide (d = e))
  else Ret false.

Definition checkHPAExist (cl : HPAClient) (h : HPAObj)
  : exec (result error (CheckResult * option HPAObj)) :=
  match hc_Get cl (mkNN (hpa_Namespace h) (hpa_Name h)) with
  | Err e => if IsNotFound e then Ret (Ok (CheckResultCreate, None)) else Ret (Err e)
  | Ok existing =>
      same ← semanticHPAEquals h existing;
      Ret (Ok (if same : bool then CheckResultExisted else CheckResultUpdate, Some existing))
  end.

Open Scope go_scope.

(** HPAReconciler.Reconcile; the HPA it returns is not used by its callers. *)
Definition HPAReconcile (cl : HPAClient) (h : HPAObj) (scaleToZero : bool)
  : io HPACall (option error) :=
  r ← lift (checkHPAExist cl h);
  match r with
  | Err e => return (Some e)
  | Ok (CheckResultCreate, _) =>
      if scaleToZero then return None
      else _ ← call (CreateHPA h); return (hc_Create cl h)
  | Ok (CheckResultUpdate, _) => _ ← call (UpdateHPA h); return (hc_Update cl h)
  | Ok (CheckResultExisted, existing) =>
      if scaleToZero then
        existing ← lift (deref existing);
        _ ← call (DeleteHPA existing); return (hc_Delete cl existing)
      else return None
  end.

(** ** The autoscaler *)

Record Autoscaler := mkAutoscaler { as_Class : string; as_HPA : HPAObj }.

Definition getAutoscalerClass annotations : string :=
  default AutoscalerClassNone (annotations !! AutoscalerClass).

(** [setOwner] is SetControllerReference on the HPA. *)
Definition createAutoscaler (setOwner : HPAObj → option error) (rt : ServingRuntime)
    (mmDeploymentName mmNamespace : string) : result error Autoscaler :=
  let ac := getAutoscalerClass (rt_Annotations rt) in
  let h := createHPA (rt_Name rt) (rt_Labels rt) (rt_Annotations rt) mmDeploymentName
             mmNamespace in
  if bool_decide (ac = AutoscalerClassHPA) then
    match setOwner h with
    | Some e => Err (ErrWrap "fails to set HPA owner reference" e)
    | None => Ok (mkAutoscaler ac h)
    end
  else if bool_decide (ac = AutoscalerClassNone) then Ok (mkAutoscaler ac h)
  else Err (ErrMsg "unknown autoscaler class type.").

(** AutoscalerReconciler.Reconcile *)
Definition AutoscalerReconcile (cl : HPAClient) (a : Autoscaler) (scaleToZero : bool)
  : io HPACall (option error) :=
  if bool_decide (as_Class a = AutoscalerClassHPA ∨ as_Class a = AutoscalerClassNone)
  then HPAReconcile cl (as_HPA a) scaleToZero
  else return None.
End Autoscaler.
