(* ===== verification/AutoscalerProps.v ===== *)
(** * Properties of autoscaling

    What the webhook admits, the HPA represents; reconciling converges; and where the
    two disagree. *)

From S2P Require Import Prelude GoStrings Types K8s Autoscaler.

Section Admission.
Context `{!KServeConstants, !KServeConstantsLaws}.
Implicit Types (annotations : gmap string string).

(** ** Reading the webhook's answers *)

Lemma validateHPAMetrics_None metric :
  validateHPAMetrics metric = None → metric ∈ AutoscalerAllowedMetricsList.
Proof.
  unfold validateHPAMetrics. destruct (existsb _ _) eqn:E; [|done]. intros _.
  apply existsb_exists in E as (x & Hx & ->%bool_decide_eq_true). by apply list_elem_of_In.
Qed.

(** What an admitted multi-model runtime satisfies *)
Lemma Handle_Allowed rt msg :
  default false (sr_MultiModel (rt_Spec rt)) = true → Handle (Ok rt) = Allowed msg →
  validateServingRuntimeAutoscaler (rt_Annotations rt) = None ∧
  validateAutoscalerTargetUtilizationPercentage (rt_Annotations rt) = None ∧
  validateAutoScalingReplicas (rt_Annotations rt)
    (from_option uint16 MaxUint16 (sr_Replicas (rt_Spec rt))) = None.
Proof.
  intros Hm. unfold Handle. rewrite Hm. cbn [negb].
  destruct (validateServingRuntimeAutoscaler _); [done|].
  destruct (validateAutoscalerTargetUtilizationPercentage _); [done|].
  by destruct (validateAutoScalingReplicas _ _).
Qed.

Lemma validateScalingHPA_None annotations :
  validateScalingHPA annotations = None →
  ∃ mn mx, webhookMinReplicas annotations = Ok mn ∧ webhookMaxReplicas annotations = Ok mx ∧
    (mn ≤ mx)%Z ∧
    default AutoScalerMetricsCPU (annotations !! AutoscalerMetrics)
      ∈ AutoscalerAllowedMetricsList.
Proof.
  unfold validateScalingHPA. destruct (webhookMinReplicas _) as [mn|]; [|done].
  destruct (webhookMaxReplicas _) as [mx|]; [|done]. case_bool_decide; [done|].
  destruct (validateHPAMetrics _) eqn:Em; [done|]. intros _.
  exists mn, mx. split_and!; [done..|lia|]. by apply validateHPAMetrics_None.
Qed.

Lemma webhookMin_int32 annotations mn :
  webhookMinReplicas annotations = Ok mn →
  (1 ≤ mn)%Z ∧
  (1 ≤ int32Annotation annotations MinScaleAnnotationKey DefaultMinReplicas)%Z ∧
  ((mn < 2 ^ 31)%Z → int32Annotation annotations MinScaleAnnotationKey DefaultMinReplicas = mn).
Proof.
  unfold webhookMinReplicas, int32Annotation. rewrite default_min.
  destruct (annotations !! MinScaleAnnotationKey) as [value|]; [|intros [= <-]; lia].
  unfold Atoi. destruct (ParseInt value 64) as [n|] eqn:E64; [|done].
  case_bool_decide; [done|]. intros [= <-]. split; [lia|].
  destruct (decide (n < 2 ^ 31)%Z) as [Hn|Hn].
  - rewrite (ParseInt_width _ 64 32 n E64) by (change (32 - 1)%Z with 31%Z; lia).
    simpl. split; [lia|done].
  - split; [|lia]. destruct (ParseInt value 32) as [k|] eqn:E32; simpl; [|lia].
    assert (ParseInt value 64 = Some k) as Hk.
    { apply (ParseInt_width _ 32 64); [done|].
      apply ParseInt_range in E32; [|lia]. change (64 - 1)%Z with 63%Z.
      change (32 - 1)%Z with 31%Z in E32. lia. }
    simplify_eq. lia.
Qed.

Lemma webhookMax_int32 annotations mx :
  webhookMaxReplicas annotations = Ok mx → (- 2 ^ 31 ≤ mx < 2 ^ 31)%Z →
  int32Annotation annotations MaxScaleAnnotationKey DefaultMinReplicas = mx.
Proof.
  unfold webhookMaxReplicas, int32Annotation. rewrite default_min.
  destruct (annotations !! MaxScaleAnnotationKey) as [value|]; [|by intros [= <-]].
  unfold Atoi. destruct (ParseInt value 64) as [n|] eqn:E64; [|done].
  intros [= <-] Hn. by rewrite (ParseInt_width _ 64 32 n E64).
Qed.

Lemma utilization_int32 annotations :
  validateAutoscalerTargetUtilizationPercentage annotations = None →
  Forall (λ ms, 1 ≤ ms_AverageUtilization ms ≤ 100)%Z (getHPAMetrics annotations).
Proof.
  unfold validateAutoscalerTargetUtilizationPercentage, getHPAMetrics. intros Hv.
  apply Forall_singleton. simpl. pose proof default_utilization.
  destruct (annotations !! TargetUtilizationPercentage) as [value|]; [|done].
  unfold Atoi in Hv. destruct (ParseInt value 64) as [n|] eqn:E64; [|done].
  case_bool_decide; [done|].
  rewrite (ParseInt_width _ 64 32 n E64) by (change (32 - 1)%Z with 31%Z; lia). simpl. lia.
Qed.

(** C39: A multi-model runtime with HPA autoscaling that the webhook admits gets a
    well-formed HPA: at least one replica, no more than the maximum, a supported
    metric and a target between 1 and 100 percent; and as long as the annotations
    fit 32 bits the HPA has exactly the replica bounds the webhook checked. *)
Theorem admitted_hpa_wf rt msg mmDeploymentName mmNamespace :
  default false (sr_MultiModel (rt_Spec rt)) = true →
  getAutoscalerClass (rt_Annotations rt) = AutoscalerClassHPA →
  Handle (Ok rt) = Allowed msg →
  let h := createHPA (rt_Name rt) (rt_Labels rt) (rt_Annotations rt) mmDeploymentName
             mmNamespace in
  ∃ mn mx lo,
    webhookMinReplicas (rt_Annotations rt) = Ok mn ∧
    webhookMaxReplicas (rt_Annotations rt) = Ok mx ∧
    hpa_MinReplicas h = Some lo ∧ (1 ≤ lo ≤ hpa_MaxReplicas h)%Z ∧
    Forall (λ ms, ms_Resource ms ∈ AutoscalerAllowedMetricsList ∧
                  1 ≤ ms_AverageUtilization ms ≤ 100)%Z (hpa_Metrics h) ∧
    ((mx < 2 ^ 31)%Z → lo = mn ∧ hpa_MaxReplicas h = mx).
Proof.
  intros Hm Hc Ha h. destruct (Handle_Allowed _ _ Hm Ha) as (_ & Hu & Hr).
  unfold validateAutoScalingReplicas in Hr. unfold getAutoscalerClass in Hc.
  rewrite Hc, bool_decide_true in Hr by done. case_bool_decide; [done|].
  destruct (validateScalingHPA_None _ Hr) as (mn & mx & Hmn & Hmx & Hle & Hmet).
  destruct (webhookMin_int32 _ _ Hmn) as (M1 & M2 & M3).
  exists mn, mx, (int32Annotation (rt_Annotations rt) MinScaleAnnotationKey DefaultMinReplicas).
  do 3 (split; [done|]). split.
  - subst h. unfold createHPA. cbn [hpa_MaxReplicas]. case_bool_decide; lia.
  - pose proof (utilization_int32 _ Hu) as Hf. subst h. unfold createHPA.
    cbn [hpa_Metrics hpa_MaxReplicas]. split.
    + unfold getHPAMetrics in *. rewrite Forall_singleton in *. simpl in *.
      rewrite cpu_metric in Hmet. done.
    + intros Hlt. rewrite M3 by lia. split; [done|].
      rewrite (webhookMax_int32 _ _ Hmx) by lia. by rewrite bool_decide_false by lia.
Qed.

(** The runtime controller dereferences the autoscaler it created without checking
    the error. For a runtime the webhook admitted the class is always known, so the
    creation fails only if the owner reference cannot be set. *)
Theorem admitted_autoscaler_known rt msg setOwner mmDeploymentName mmNamespace :
  default false (sr_MultiModel (rt_Spec rt)) = true →
  Handle (Ok rt) = Allowed msg →
  (∀ h, setOwner h = None) →
  ∃ a, createAutoscaler setOwner rt mmDeploymentName mmNamespace = Ok a ∧
       as_Class a = getAutoscalerClass (rt_Annotations rt) ∧
       (as_Class a = AutoscalerClassHPA ∨ as_Class a = AutoscalerClassNone).
Proof.
  intros Hm Ha Ho. destruct (Handle_Allowed _ _ Hm Ha) as (Hc & _).
  unfold createAutoscaler. rewrite Ho.
  assert (getAutoscalerClass (rt_Annotations rt) = AutoscalerClassHPA ∨
          getAutoscalerClass (rt_Annotations rt) = AutoscalerClassNone) as Hcl.
  { unfold validateServingRuntimeAutoscaler in Hc. unfold getAutoscalerClass.
    destruct (rt_Annotations rt !! AutoscalerClass) as [c|]; [|by right].
    destruct (existsb _ _); [|done]. case_bool_decide; [by left|done]. }
  case_bool_decide; [by eexists|].
  destruct Hcl; [done|]. rewrite bool_decide_true by done. eexists. split; [done|]. simpl. auto.
Qed.

(** ** Convergence *)

(** The HPA of the runtime in the cluster, if there is one. Writes succeed. *)
Definition storeClient (s : option HPAObj) : HPAClient :=
  mkHPAClient (λ _, match s with Some h => Ok h | None => Err ErrNotFound end)
    (λ _, None) (λ _, None) (λ _, None).

Definition apply_call (s : option HPAObj) (c : HPACall) : option HPAObj :=
  match c with CreateHPA h | UpdateHPA h => Some h | DeleteHPA _ => None end.

(** One reconciliation against the cluster *)
Definition hpa_round (h : HPAObj) (scaleToZero : bool) (s : option HPAObj)
  : exec (option HPAObj) :=
  '(tr, _) ← run (HPAReconcile (storeClient s) h scaleToZero); Ret (foldl apply_call s tr).

(** The HPA has a minimum: the API server defaults it. *)
Definition has_min (h : HPAObj) : Prop := is_Some (hpa_MinReplicas h).

Lemma semanticHPAEquals_total h h' :
  has_min h → has_min h' →
  semanticHPAEquals h h' =
    Ret (bool_decide (hpa_Metrics h = hpa_Metrics h' ∧ hpa_MaxReplicas h = hpa_MaxReplicas h' ∧
                      hpa_MinReplicas h = hpa_MinReplicas h')).
Proof.
  intros [a Ha] [b Hb]. unfold semanticHPAEquals. rewrite Ha, Hb.
  destruct (decide (hpa_Metrics h = hpa_Metrics h')) as [Hm|Hm].
  - destruct (decide (hpa_MaxReplicas h = hpa_MaxReplicas h')) as [Hx|Hx].
    + rewrite !(bool_decide_true (hpa_Metrics h = _)), (bool_decide_true (hpa_MaxReplicas h = _))
        by done. simpl. f_equal. apply bool_decide_ext. rewrite Hm, Hx.
      split; [by intros ->|intros (_ & _ & [=])]. done.
    + rewrite (bool_decide_false (hpa_MaxReplicas h = _)), andb_false_r by done.
      rewrite bool_decide_false by tauto. done.
  - rewrite (bool_decide_false (hpa_Metrics h = _)) by done. simpl.
    rewrite bool_decide_false by tauto. done.
Qed.

(** Reconciling the HPA converges. With autoscaling on, one round leaves an HPA with
    the desired metrics and bounds in the cluster, whatever was there before. With
    scale to zero or no autoscaler, two rounds remove it. *)
Theorem hpa_converges h s :
  has_min h → from_option has_min True s →
  (∃ h', hpa_round h false s = Ret (Some h') ∧ semanticHPAEquals h h' = Ret true) ∧
  (s' ← hpa_round h true s; hpa_round h true s') = Ret None.
Proof.
  intros Hh Hs.
  assert (Hself : semanticHPAEquals h h = Ret true)
    by (rewrite semanticHPAEquals_total by done; f_equal; by apply bool_decide_eq_true).
  unfold hpa_round, HPAReconcile, checkHPAExist, storeClient.
  cbn [hc_Get hc_Create hc_Update hc_Delete]. destruct s as [e|]; simpl in Hs.
  - rewrite !semanticHPAEquals_total by done. case_bool_decide as Heq; split; run_io.
    + exists e. split; [done|]. rewrite semanticHPAEquals_total by done.
      by rewrite bool_decide_true.
    + done.
    + by exists h.
    + cbn [foldl apply_call app storeClient hc_Get]. by rewrite Hself.
  - split; run_io; [by exists h|done].
Qed.
End Admission.

(** ** Concrete runs *)

Definition exampleRuntime (annotations : gmap string string) : ServingRuntime :=
  mkRuntime "ns" "rt" ∅ annotations (bareSpec [] []).

Definition hpaAnnotations (mn mx : string) : gmap string string :=
  <["serving.kserve.io/autoscalerClass" := "hpa"]>
  (<["serving.kserve.io/metrics" := "memory"]>
   (<["serving.kserve.io/targetUtilizationPercentage" := "75"]>
    (<["serving.kserve.io/min-scale" := mn]> {["serving.kserve.io/max-scale" := mx]}))).

#[local] Instance kserveConstantsImpl_laws : @KServeConstantsLaws kserveConstantsImpl.
Proof. split; simpl; [done|lia|done]. Qed.

Lemma admitted_hpa_wf_witness :
  let rt := exampleRuntime (hpaAnnotations "2" "3") in
  let h := @createHPA kserveConstantsImpl (rt_Name rt) (rt_Labels rt) (rt_Annotations rt)
             "mm-rt" "ns" in
  hpa_MinReplicas h = Some 2%Z ∧ hpa_MaxReplicas h = 3%Z.
Proof.
  destruct (@admitted_hpa_wf kserveConstantsImpl _ (exampleRuntime (hpaAnnotations "2" "3"))
              "Passed all validation checks for ServingRuntime" "mm-rt" "ns")
    as (mn & mx & lo & H1 & H2 & H3 & _ & _ & H4); [vm_compute; reflexivity..|].
  vm_compute in H1, H2. injection H1 as <-. injection H2 as <-.
  destruct H4 as [-> H5]; [lia|]. by split.
Defined.

Lemma admitted_autoscaler_known_witness :
  ∃ a, @createAutoscaler kserveConstantsImpl (λ _, None)
         (exampleRuntime (hpaAnnotations "2" "3")) "mm-rt" "ns" = Ok a ∧
       as_Class a = "hpa".
Proof.
  destruct (@admitted_autoscaler_known kserveConstantsImpl
              (exampleRuntime (hpaAnnotations "2" "3"))
              "Passed all validation checks for ServingRuntime" (λ _, None) "mm-rt" "ns")
    as (a & H1 & H2 & _); [vm_compute; reflexivity..|done|].
  exists a. split; [done|]. rewrite H2. vm_compute. reflexivity.
Defined.

Definition exampleHPA (mn : Z) : HPAObj := mkHPA "mm-rt" "ns" ∅ ∅ (Some mn) 5 [].

Lemma hpa_converges_witness :
  ∃ h', hpa_round (exampleHPA 2) false (Some (exampleHPA 1)) = Ret (Some h') ∧
        semanticHPAEquals (exampleHPA 2) h' = Ret true.
Proof.
  destruct (hpa_converges (exampleHPA 2) (Some (exampleHPA 1))) as [H _];
    [by eexists|by eexists|exact H].
Defined.

(** The webhook reads annotations as 64-bit integers and the HPA as 32-bit ones, which it
    ignores when they do not parse: an admitted minimum of three billion becomes one. *)
Theorem admitted_minimum_ignored :
  ∃ rt, @Handle kserveConstantsImpl (Ok rt) =
          Allowed "Passed all validation checks for ServingRuntime" ∧
        @webhookMinReplicas kserveConstantsImpl (rt_Annotations rt) = Ok 3000000000%Z ∧
        hpa_MinReplicas (@createHPA kserveConstantsImpl (rt_Name rt) (rt_Labels rt)
                           (rt_Annotations rt) "mm-rt" "ns") = Some 1%Z.
Proof.
  exists (exampleRuntime (hpaAnnotations "3000000000" "3000000000")).
  split_and!; vm_compute; reflexivity.
Qed.

(** Scaling to zero updates an HPA that is out of date instead of deleting it. *)
Theorem scale_to_zero_keeps_outdated_hpa :
  ∃ h old, hpa_round h true (Some old) = Ret (Some h).
Proof. by exists (exampleHPA 2), (exampleHPA 1). Qed.

(** Unknown classes have no autoscaler. *)
Theorem unknown_class_no_autoscaler :
  ∃ rt e, @createAutoscaler kserveConstantsImpl (λ _, None) rt "mm-rt" "ns" = Err e.
Proof.
  exists (exampleRuntime {["serving.kserve.io/autoscalerClass" := "external"]}).
  eexists. vm_compute. reflexivity.
Qed.
