(* ===== verification/RuntimeScaling.v ===== *)
(** * Namespaces and scaling to zero (controllers/util.go and
      controllers/servingruntime_controller.go)

    Which namespaces model mesh serves, and how many replicas a runtime gets. The
    reconciler remembers, per runtime, since when it has had no Predictors; the map
    survives between reconciliations and is the state of this component. *)

From S2P Require Import Prelude GoStrings Types K8s ModelTypes Registry Config ConfigProps.

(** ** const.go: the delay before a failed request is tried again *)

Definition DefaultRequeueTime : Z := (5 * Second)%Z.
Definition RequeueResult : CtrlResult := requeueAfter DefaultRequeueTime.

(** ** util.go *)

Record NamespaceObj := mkNamespace {
  ns_Name : string;
  ns_Labels : gmap string string;
  ns_Terminating : bool
}.

(** The zero Namespace, which a failed Get leaves *)
Definition zeroNamespace : NamespaceObj := mkNamespace "" ∅ false.

Definition modelMeshEnabled (n : NamespaceObj) (controllerNamespace : string) : bool :=
  match ns_Labels n !! "modelmesh-enabled" with
  | Some v => if ns_Terminating n then false else bool_decide (v = "true")
  | None => bool_decide (ns_Name n = controllerNamespace)
  end.

(** The error result is always nil. *)
Definition modelMeshEnabled2 (get : string → result error NamespaceObj)
    (namespace controllerNamespace : string) (clusterScope : bool) : bool :=
  if negb clusterScope then bool_decide (namespace = controllerNamespace)
  else match get namespace with
       | Ok n => modelMeshEnabled n controllerNamespace
       | Err e => if IsNotFound e then false
                  else modelMeshEnabled zeroNamespace controllerNamespace
       end.

(** ** time *)

(** A Duration is an int64: time.Since saturates. *)
Definition Since (now t : Z) : Z := Z.max (- 2 ^ 63) (Z.min (2 ^ 63 - 1) (now - t)).

(** ** The runtime info map *)

(** runtimeInfo by its TimeTransitionedToNoPredictors; nil (here [None]) signals that
    the last check had Predictors. *)
Notation RuntimeInfoMap := (gmap NamespacedName (option Z)).

(** A nil map behaves as an empty one. *)
Definition removeRuntimeFromInfoMap (req : NamespacedName) (m : RuntimeInfoMap)
  : RuntimeInfoMap := delete req m.

Section Scaling.
Context `{!ProtocolNames}.

Definition determineReplicas (config : Config) (rt : ServingRuntimeSpec) : Z :=
  match sr_Replicas rt with None => PodsPerRuntime config | Some n => n end.

(** The registries in the order the map is iterated in *)
Fixpoint runtimeHasPredictors (registries : list PredictorRegistry) (config : Config)
    (rt : ServingRuntimeSpec) (rtName : NamespacedName) : exec (result error bool) :=
  match registries with
  | [] => Ret (Ok false)
  | pr :: rest =>
      let f (_ : unit) p :=
        b ← runtimeSupportsPredictor rt p (rp_Enabled (RESTProxy config)) (Name rtName);
        Ret (tt, b) in
      '(_, r) ← reg_Find pr (Namespace rtName) f tt;
      match r with
      | Ok true => Ret (Ok true)
      | Err e => Ret (Err e)
      | Ok false => runtimeHasPredictors rest config rt rtName
      end
  end.

Definition gracePeriodDuration (config : Config) : Z :=
  (sz_GracePeriodSeconds (ScaleToZero config) * Second)%Z.

(** The part under the mutex: replicas and requeue duration, and the new map *)
Definition scaleDecision (now gracePeriod scaledUp : Z) (hasPredictors : bool)
    (rtName : NamespacedName) (m : RuntimeInfoMap) : RuntimeInfoMap * (Z * Z) :=
  let info := default (Some zeroTime) (m !! rtName) in
  if hasPredictors then (<[rtName := None]> m, (scaledUp, 0%Z))
  else
    let t := default now info in
    let m := <[rtName := Some t]> m in
    let sinceTransition := Since now t in
    if bool_decide (sinceTransition < gracePeriod)%Z
    then (m, (scaledUp, (gracePeriod - sinceTransition)%Z))
    else (m, (0%Z, 0%Z)).

Definition determineReplicasAndRequeueDuration (now : Z) (registries : list PredictorRegistry)
    (config : Config) (rt : ServingRuntimeSpec) (rtName : NamespacedName) (m : RuntimeInfoMap)
  : exec (RuntimeInfoMap * result error (Z * Z)) :=
  let scaledUp := determineReplicas config rt in
  if negb (sz_Enabled (ScaleToZero config)) then Ret (m, Ok (scaledUp, 0%Z))
  else
    r ← runtimeHasPredictors registries config rt rtName;
    match r with
    | Err e => Ret (m, Err e)
    | Ok hasPredictors =>
        let '(m, res) :=
          scaleDecision now (gracePeriodDuration config) scaledUp hasPredictors rtName m in
        Ret (m, Ok res)
    end.
End Scaling.

(** ** The grace period

    Runs of the decision over time, for one runtime: each observation is made at a
    time not before the previous one. The history records when the runtime was last
    seen with Predictors. *)

Record History := mkHistory {
  h_map : RuntimeInfoMap;
  h_clock : Z;
  h_lastSeen : option Z
}.

Section Grace.
Variables (rtName : NamespacedName) (grace : Z).
Hypothesis Hgrace : (0 ≤ grace < 2 ^ 62)%Z.

Inductive history_step : History → History → Prop :=
| observe now up has m clock seen :
    (clock ≤ now)%Z →
    history_step (mkHistory m clock seen)
      (mkHistory (scaleDecision now grace up has rtName m).1 now
         (if has then Some now else seen))
(* another runtime is observed, or removed *)
| other_runtime now up has name m clock seen :
    name ≠ rtName → (clock ≤ now)%Z →
    history_step (mkHistory m clock seen)
      (mkHistory (scaleDecision now grace up has name m).1 now seen)
| remove_other name m clock seen :
    name ≠ rtName →
    history_step (mkHistory m clock seen) (mkHistory (removeRuntimeFromInfoMap name m) clock seen)
(* the runtime is deleted and forgotten *)
| remove m clock seen :
    history_step (mkHistory m clock seen)
      (mkHistory (removeRuntimeFromInfoMap rtName m) clock None).

Definition startHistory (now : Z) : History := mkHistory ∅ now None.

(** The recorded transition is not before the last time Predictors were seen. *)
Definition history_ok (h : History) : Prop :=
  match h_map h !! rtName with
  | None => h_lastSeen h = None
  | Some None => is_Some (h_lastSeen h)
  | Some (Some t) => (t ≤ h_clock h)%Z ∧ from_option (λ s, s ≤ t)%Z True (h_lastSeen h)
  end ∧ (zeroTime ≤ h_clock h)%Z ∧ from_option (λ s, s ≤ h_clock h)%Z True (h_lastSeen h).

Lemma scaleDecision_lookup now up has name m :
  (scaleDecision now grace up has name m).1 !! name =
    Some (if has then None else Some (default now (default (Some zeroTime) (m !! name)))).
Proof.
  unfold scaleDecision. destruct has; [apply lookup_insert_eq|].
  case_bool_decide; apply lookup_insert_eq.
Qed.

Lemma scaleDecision_other now up has name name' m :
  name' ≠ name → (scaleDecision now grace up has name m).1 !! name' = m !! name'.
Proof.
  intros Hn. unfold scaleDecision. destruct has; [by apply lookup_insert_ne|].
  case_bool_decide; by apply lookup_insert_ne.
Qed.

Lemma remove_lookup name m : removeRuntimeFromInfoMap name m !! name = None.
Proof. apply lookup_delete_eq. Qed.
Lemma remove_lookup_ne name name' m :
  name ≠ name' → removeRuntimeFromInfoMap name m !! name' = m !! name'.
Proof. intros. by apply lookup_delete_ne. Qed.

Lemma history_ok_step h h' : history_ok h → history_step h h' → history_ok h'.
Proof.
  intros (Hm & Hz & Hs) Hstep. destruct Hstep as
    [now up has m clock seen Hc|now up has name m clock seen Hn Hc|name m clock seen Hn|];
    unfold history_ok in *; cbn [h_map h_clock h_lastSeen] in *.
  - rewrite scaleDecision_lookup. destruct has; simpl.
    { split_and!; [by eexists|lia|lia]. }
    split_and!; [| |lia|destruct seen; simpl in *; lia].
    + destruct (m !! rtName) as [[t|]|]; simpl; unfold zeroTime in *; lia.
    + destruct (m !! rtName) as [[t|]|]; simpl; subst; simpl; try done.
      * destruct Hm as [_ Hm]. destruct seen; simpl in *; [lia|done].
      * destruct seen; simpl in *; [lia|done].
  - rewrite scaleDecision_other by done.
    destruct (m !! rtName) as [[t|]|]; destruct seen; simpl in *; split_and!;
      try done; try lia; tauto.
  - by rewrite remove_lookup_ne.
  - by rewrite remove_lookup.
Qed.

Lemma history_ok_reachable now h :
  (zeroTime ≤ now)%Z → rtc history_step (startHistory now) h → history_ok h.
Proof.
  intros Hn Hr. eapply rtc_invariant; [apply history_ok_step|done|].
  unfold history_ok. cbn [h_map h_clock h_lastSeen startHistory].
  by rewrite lookup_empty.
Qed.

(** C12: A runtime is scaled to zero only after the grace period: in every history of
    reconciliations of this and other runtimes, when the decision is zero replicas
    for a runtime that had Predictors since it was created, the last observation
    with Predictors is at least the grace period ago. *)
Theorem scale_to_zero_after_grace start h now up :
  (zeroTime ≤ start)%Z → rtc history_step (startHistory start) h → (h_clock h ≤ now)%Z →
  (0 < up)%Z →
  (scaleDecision now grace up false rtName (h_map h)).2.1 = 0%Z →
  ∀ s, h_lastSeen h = Some s → (s + grace ≤ now)%Z.
Proof.
  intros Hst Hr Hc Hup Hz s Hs. destruct (history_ok_reachable _ _ Hst Hr) as (Hm & _ & Hl).
  rewrite Hs in Hm, Hl. simpl in Hl. unfold scaleDecision in Hz.
  destruct (h_map h !! rtName) as [[t|]|]; cbn [default from_option] in Hz; [| |done].
  - destruct Hm as [Ht Hst']. simpl in Hst'. case_bool_decide as Hd; simpl in Hz; [lia|].
    simpl in Hd. unfold Since in Hd. lia.
  - case_bool_decide as Hd; simpl in Hz; [lia|]. simpl in Hd. unfold Since in Hd. lia.
Qed.

(** Scaling down happens: when a runtime without Predictors is kept up, the
    reconciliation is requeued after a positive time, at most the grace period, and
    if there are still no Predictors when it comes (or later) the decision is zero
    replicas. *)
Theorem scale_down_happens now later up m :
  (0 < up)%Z →
  (∀ t, m !! rtName = Some (Some t) → (t ≤ now)%Z) → (zeroTime ≤ now)%Z →
  let '(m', (replicas, requeue)) := scaleDecision now grace up false rtName m in
  replicas ≠ 0%Z →
  (0 < requeue ≤ grace)%Z ∧
  ((now + requeue ≤ later)%Z → (scaleDecision later grace up false rtName m').2 = (0%Z, 0%Z)).
Proof.
  intros Hup Hpast Hz. unfold scaleDecision at 1.
  set (t := default now (default (Some zeroTime) (m !! rtName))).
  assert (t ≤ now)%Z as Ht.
  { subst t. destruct (m !! rtName) as [[t|]|]; simpl; [by apply Hpast|lia|done]. }
  cbn [negb]. case_bool_decide as Hd; [|done]. intros _. unfold Since in *. split; [lia|].
  intros Hl. unfold scaleDecision. rewrite lookup_insert_eq. cbn [default from_option].
  cbn [id default from_option]. simpl. unfold Since. rewrite bool_decide_false by lia. done.
Qed.
End Grace.

(** ** Runtimes in use *)

Section InUse.
Context `{!ProtocolNames}.

Lemma runtimeHasPredictors_found registries pr config rt rtName p b :
  pr ∈ registries → RegistryLaws pr →
  (∃ n, reg_Get pr n = Ret (Ok (Some p)) ∧ Namespace n = Namespace rtName) →
  runtimeSupportsPredictor rt p (rp_Enabled (RESTProxy config)) (Name rtName) = Ret true →
  runtimeHasPredictors registries config rt rtName = Ret (Ok b) → b = true.
Proof.
  intros Hin Hlaws (n & Hget & Hns) Hsup. induction registries as [|q rest IH]; [set_solver|].
  cbn [runtimeHasPredictors]. set (f := λ (_ : unit) (x : Predictor), _).
  apply elem_of_cons in Hin as [<-|Hin].
  - assert (match reg_Find pr (Namespace n) f tt with
            | Ret (_, Ok b) => b = true | _ => True end) as Hf.
    { eapply find_complete; [done|done|]. subst f. simpl. by rewrite Hsup. }
    rewrite <- Hns. destruct (reg_Find pr (Namespace n) f tt) as [[[] [b'|]]|]; simpl; [|done..].
    subst b'. by intros [= <-].
  - destruct (reg_Find q (Namespace rtName) f tt) as [[[] [[]|]]|]; simpl; try done.
    + by intros [= <-].
    + by apply IH.
Qed.

(** A runtime that a Predictor of its namespace needs is not scaled to zero: when
    some registry knows a Predictor that the runtime supports and the decision
    succeeds, the runtime gets its configured number of replicas, whatever the other
    registries, the order they are asked in, and the recorded times. *)
Theorem needed_runtime_stays_up now registries pr config rt rtName p n m m' res :
  pr ∈ registries → RegistryLaws pr →
  reg_Get pr n = Ret (Ok (Some p)) → Namespace n = Namespace rtName →
  runtimeSupportsPredictor rt p (rp_Enabled (RESTProxy config)) (Name rtName) = Ret true →
  determineReplicasAndRequeueDuration now registries config rt rtName m = Ret (m', Ok res) →
  res = (determineReplicas config rt, 0%Z).
Proof.
  intros Hin Hlaws Hget Hns Hsup. unfold determineReplicasAndRequeueDuration.
  destruct (negb _); [by intros [= <- <-]|].
  destruct (runtimeHasPredictors registries config rt rtName) as [[b|]|] eqn:E; simpl; [|done..].
  rewrite (runtimeHasPredictors_found _ _ _ _ _ _ _ Hin Hlaws
             (ex_intro _ n (conj Hget Hns)) Hsup E).
  by intros [= <- <-].
Qed.
End InUse.

(** ** Namespaces *)

(** A namespace is served exactly when it is not terminating under the label and
    the label says "true", or, without a label, when it is the controller's own; an
    error other than "not found" counts as not served. *)
Theorem modelMeshEnabled2_spec get namespace controllerNamespace :
  controllerNamespace ≠ "" → (∀ n, get namespace = Ok n → ns_Name n = namespace) →
  (modelMeshEnabled2 get namespace controllerNamespace true = true ↔
   ∃ n, get namespace = Ok n ∧
     (ns_Labels n !! "modelmesh-enabled" = Some "true" ∧ ns_Terminating n = false ∨
      ns_Labels n !! "modelmesh-enabled" = None ∧ namespace = controllerNamespace)).
Proof.
  intros Hc Hname. unfold modelMeshEnabled2. cbn [negb].
  destruct (get namespace) as [n|e] eqn:Eg.
  - unfold modelMeshEnabled. split.
    + intros H. exists n. split; [done|].
      destruct (ns_Labels n !! "modelmesh-enabled") as [v|].
      * left. destruct (ns_Terminating n); [done|]. by apply bool_decide_eq_true in H as ->.
      * right. apply bool_decide_eq_true in H. rewrite (Hname n) in H by done. done.
    + intros (n' & [= <-] & [[-> ->]|[-> ->]]); [done|].
      apply bool_decide_eq_true. by apply Hname.
  - split; [|by intros (? & ? & _)]. destruct (IsNotFound e); [done|].
    unfold modelMeshEnabled. simpl. rewrite lookup_empty.
    intros H%bool_decide_eq_true. by destruct Hc.
Qed.

(** ** Concrete runs *)

Definition rtA : NamespacedName := mkNN "ns" "a".

(** Predictors are seen at second 10, gone at 20, and the grace period is a minute. *)
Definition history20 : History :=
  mkHistory (scaleDecision (20 * Second) (60 * Second) 2 false rtA
               (scaleDecision (10 * Second) (60 * Second) 2 true rtA ∅).1).1
    (20 * Second) (Some (10 * Second)%Z).

Lemma history20_reachable : rtc (history_step rtA (60 * Second)) (startHistory 0) history20.
Proof.
  eapply rtc_l; [apply (observe _ _ (10 * Second) 2 true); vm_compute; discriminate|].
  eapply rtc_l; [apply (observe _ _ (20 * Second) 2 false); vm_compute; discriminate|].
  apply rtc_refl.
Qed.

Lemma scale_to_zero_after_grace_witness :
  (scaleDecision (80 * Second) (60 * Second) 2 false rtA (h_map history20)).2.1 = 0%Z ∧
  (10 * Second + 60 * Second ≤ 80 * Second)%Z.
Proof.
  assert (Hz : (scaleDecision (80 * Second) (60 * Second) 2 false rtA (h_map history20)).2.1
               = 0%Z) by (vm_compute; reflexivity).
  split; [exact Hz|].
  apply (scale_to_zero_after_grace rtA (60 * Second) ltac:(vm_compute; split; congruence)
           0 history20 (80 * Second) 2);
    [vm_compute; discriminate|apply history20_reachable|vm_compute; discriminate|lia
    |exact Hz|reflexivity].
Defined.

Lemma scale_down_happens_witness :
  let d := scaleDecision (30 * Second) (60 * Second) 2 false rtA (h_map history20) in
  d.2 = (2, 50 * Second)%Z ∧
  (scaleDecision (80 * Second) (60 * Second) 2 false rtA d.1).2 = (0, 0)%Z.
Proof.
  pose proof (scale_down_happens rtA (60 * Second) ltac:(vm_compute; split; congruence)
                (30 * Second) (80 * Second) 2 (h_map history20)) as H.
  assert (Hv : (scaleDecision (30 * Second) (60 * Second) 2 false rtA (h_map history20)).2
               = (2, 50 * Second)%Z) by (vm_compute; reflexivity).
  split; [exact Hv|].
  destruct (scaleDecision (30 * Second) (60 * Second) 2 false rtA (h_map history20))
    as [m' [r q]]. cbn [snd] in Hv. injection Hv as -> ->.
  destruct H as [_ H]; [lia| |vm_compute; discriminate|lia|].
  - intros t Ht. vm_compute in Ht. injection Ht as <-. vm_compute. discriminate.
  - apply H. vm_compute. discriminate.
Defined.

Lemma modelMeshEnabled2_spec_witness :
  modelMeshEnabled2 (λ n, Ok (mkNamespace n {["modelmesh-enabled" := "true"]} false))
    "user" "controller" true = true.
Proof.
  apply (modelMeshEnabled2_spec _ "user" "controller"); [done|by intros n [= <-]|].
  eexists. split; [reflexivity|]. by left.
Defined.

Definition exPredictor : Predictor :=
  mkPredictor (mkMeta "p" "ns" "1" None ∅ ∅) emptySpec defaultStatus.

Definition exClient : ObjectClient Predictor :=
  mkClient (λ n, if decide (n = mkNN "ns" "p") then Ok exPredictor else Err ErrNotFound)
    (λ ns, if decide (ns = "ns") then Ok [exPredictor] else Ok []) (λ _, None).

#[local] Instance exClient_laws : ClientLaws predictor_nn exClient.
Proof.
  split.
  - intros n o. simpl. case_decide as Hn; [|done]. by intros [= <-].
  - intros n o l. simpl. case_decide as Hn; [|done]. subst n. intros [= <-] [= <-]. left.
Qed.

(** A runtime whose formats include the Predictor's *)
Definition exSpec : ServingRuntimeSpec :=
  bareSpec [mkFormat (mt_Name (m_Type (ps_Model emptySpec))) None (Some true)] [].

Lemma needed_runtime_stays_up_witness :
  ∃ m', @determineReplicasAndRequeueDuration protocolNamesImpl 0
          [PredictorCRRegistry exClient] exConfig exSpec rtA ∅ = Ret (m', Ok (2, 0)%Z).
Proof.
  assert (∃ m' res, @determineReplicasAndRequeueDuration protocolNamesImpl 0
          [PredictorCRRegistry exClient] exConfig exSpec rtA ∅ = Ret (m', Ok res))
    as (m' & res & E) by (eexists _, _; vm_compute; reflexivity).
  exists m'. rewrite E. do 3 f_equal.
  change (2, 0)%Z with (determineReplicas exConfig exSpec, 0%Z).
  apply (@needed_runtime_stays_up protocolNamesImpl 0 [PredictorCRRegistry exClient]
           (PredictorCRRegistry exClient) exConfig exSpec rtA exPredictor (mkNN "ns" "p") ∅ m');
    [left|apply _|vm_compute; reflexivity|reflexivity|vm_compute; reflexivity|exact E].
Defined.

(** A Get that fails otherwise than with "not found" turns serving off. *)
Theorem namespace_error_disables get namespace controllerNamespace e :
  get namespace = Err e → controllerNamespace ≠ "" →
  modelMeshEnabled2 get namespace controllerNamespace true = false.
Proof.
  intros Hg Hc. unfold modelMeshEnabled2. rewrite Hg. simpl. destruct (IsNotFound e); [done|].
  unfold modelMeshEnabled. simpl. by rewrite bool_decide_false.
Qed.
