(* ===== verification/RuntimePVCs.v ===== *)
(** * The persistent volume claims of a runtime (getPVCs of
      controllers/servingruntime_controller.go)

    Claims come from the storage-config secret and, when any claim is allowed, from
    the Predictors the runtime supports. *)

From stdpp Require Import sorting.
From S2P Require Import Prelude GoStrings Types K8s ModelTypes Registry Config ConfigProps.

Definition StoragePVCType : string := "pvc".

(** sort.Strings *)
Definition sort_Strings (l : list string) : list string := merge_sort String.le l.

(** What json.Unmarshal parses a document into a map[string]string as: [None] is
    the document null. *)
Class JSONMap := { parseMap : string → result error (option (gmap string string)) }.

Section PVCs.
Context `{!ProtocolNames, !JSONMap}.

(** json.Unmarshal into a map variable that may already hold entries: they stay, and
    the document's are added. *)
Definition UnmarshalMap (data : string) (m : gmap string string)
  : result error (gmap string string) :=
  match parseMap data with
  | Err e => Err e
  | Ok None => Ok ∅
  | Ok (Some new) => Ok (new ∪ m)
  end.

(** The loop over the secret's data, in the order the map is iterated in *)
Fixpoint storageConfigPVCs (storageConfig : gmap string string) (data : list string)
    (pvcs : gset string) : result error (gset string) :=
  match data with
  | [] => Ok pvcs
  | storageData :: rest =>
      match UnmarshalMap storageData storageConfig with
      | Err e => Err (ErrWrap "Could not parse storage configuration json" e)
      | Ok storageConfig =>
          let name := default "" (storageConfig !! "name") in
          storageConfigPVCs storageConfig rest
            (if bool_decide (storageConfig !! "type" = Some StoragePVCType) &&
                bool_decide (name ≠ "")
             then {[ name ]} ∪ pvcs else pvcs)
      end
  end.

(** The claim that a Predictor's storage parameters name *)
Definition predictorPVC (p : Predictor) : option string :=
  match m_Storage (ps_Model (p_Spec p)) ≫= λ st, ss_Parameters (st_StorageSpec st) with
  | Some params =>
      let name := default "" (params !! "name") in
      if bool_decide (params !! "type" = Some "pvc") && bool_decide (name ≠ "")
      then Some name else None
  | None => None
  end.

(** The predicate that collects names and never matches *)
Definition collectPVC (rt : ServingRuntimeSpec) (restProxyEnabled : bool) (rtName : string)
    (pvcs : gset string) (p : Predictor) : exec (gset string * bool) :=
  supported ← runtimeSupportsPredictor rt p restProxyEnabled rtName;
  Ret (match predictorPVC p with
       | Some name => if supported : bool then {[ name ]} ∪ pvcs else pvcs
       | None => pvcs
       end, false).

Fixpoint predictorPVCs (registries : list PredictorRegistry) (rt : ServingRuntimeSpec)
    (restProxyEnabled : bool) (req : NamespacedName) (pvcs : gset string)
  : exec (result error (gset string)) :=
  match registries with
  | [] => Ret (Ok pvcs)
  | pr :: rest =>
      '(pvcs, r) ← reg_Find pr (Namespace req)
                     (collectPVC rt restProxyEnabled (Name req)) pvcs;
      match r with
      | Err e => Ret (Err e)
      | Ok _ => predictorPVCs rest rt restProxyEnabled req pvcs
      end
  end.

(** [secret] is the data of the storage-config secret, [pvcExists] whether a claim can
    be read from the namespace. *)
Definition getPVCs (secret : result error (list string)) (registries : list PredictorRegistry)
    (pvcExists : string → bool) (req : NamespacedName) (rt : ServingRuntimeSpec)
    (cfg : Config) : exec (result error (list string)) :=
  match (match secret with
         | Err _ => Ok ∅
         | Ok data => storageConfigPVCs ∅ data ∅
         end) with
  | Err e => Ret (Err e)
  | Ok fromStorage =>
      r ← (if AllowAnyPVC cfg
           then predictorPVCs registries rt (rp_Enabled (RESTProxy cfg)) req ∅
           else Ret (Ok ∅));
      match r with
      | Err e => Ret (Err e)
      | Ok fromPredictors =>
          Ret (Ok (sort_Strings
            (elements fromStorage ++
             filter (λ c, pvcExists c = true) (elements (fromPredictors ∖ fromStorage)))))
      end
  end.

(** ** What the result contains *)

(** When getPVCs succeeds its result is sorted and has every claim once: those of
    the storage secret, and those of supported Predictors that exist; and it is the
    only such list, whatever the order in which the claims were collected. *)
Theorem getPVCs_spec secret registries pvcExists req rt cfg l :
  getPVCs secret registries pvcExists req rt cfg = Ret (Ok l) →
  ∃ fromStorage fromPredictors,
    (match secret with Err _ => Ok ∅ | Ok data => storageConfigPVCs ∅ data ∅ end)
      = Ok fromStorage ∧
    (if AllowAnyPVC cfg
     then predictorPVCs registries rt (rp_Enabled (RESTProxy cfg)) req ∅ = Ret (Ok fromPredictors)
     else fromPredictors = ∅) ∧
    NoDup l ∧ Sorted String.le l ∧
    (∀ x, x ∈ l ↔ x ∈ fromStorage ∨ x ∈ fromPredictors ∧ pvcExists x = true ∧ x ∉ fromStorage) ∧
    (∀ l', NoDup l' → Sorted String.le l' → (∀ x, x ∈ l' ↔ x ∈ l) → l' = l).
Proof.
  unfold getPVCs. set (st := match secret with Ok _ => _ | Err _ => _ end).
  destruct st as [S|]; [|done].
  destruct (if AllowAnyPVC cfg then _ else _) as [[P|]|] eqn:EP; simpl; [|done..].
  intros [= <-]. exists S, P.
  set (raw := elements S ++ filter (λ c, pvcExists c = true) (elements (P ∖ S))).
  assert (Hnd : NoDup raw).
  { apply NoDup_app. split_and!; [apply NoDup_elements| |apply NoDup_filter, NoDup_elements].
    intros x Hx%elem_of_elements Hf. apply list_elem_of_filter in Hf as [_ Hf].
    apply elem_of_elements in Hf. set_solver. }
  assert (Hperm : sort_Strings raw ≡ₚ raw) by apply merge_sort_Permutation.
  split; [done|]. split.
  { destruct (AllowAnyPVC cfg); [done|congruence]. }
  split; [by rewrite Hperm|]. split; [apply (Sorted_merge_sort _)|]. split.
  - intros x. rewrite Hperm. subst raw.
    rewrite elem_of_app, list_elem_of_filter, !elem_of_elements, elem_of_difference. tauto.
  - intros l' Hnd' Hs' Hin. apply (Sorted_unique String.le); [done|apply (Sorted_merge_sort _)|].
    apply NoDup_Permutation; [done|by rewrite Hperm|done].
Qed.

(** ** Independence of the order of the secret's entries *)

(** An entry that says what it is: it has a type, and a name if it is a claim. *)
Definition self_contained (data : string) : Prop :=
  ∃ m, parseMap data = Ok (Some m) ∧ is_Some (m !! "type") ∧
    (m !! "type" = Some StoragePVCType → is_Some (m !! "name")).

(** The claim such an entry names *)
Definition entryPVC (data : string) : gset string :=
  match parseMap data with
  | Ok (Some m) =>
      let name := default "" (m !! "name") in
      if bool_decide (m !! "type" = Some StoragePVCType) && bool_decide (name ≠ "")
      then {[ name ]} else ∅
  | _ => ∅
  end.

Lemma storageConfigPVCs_self_contained data storageConfig pvcs :
  Forall self_contained data →
  storageConfigPVCs storageConfig data pvcs = Ok (⋃ (entryPVC <$> data) ∪ pvcs).
Proof.
  intros Hd. revert storageConfig pvcs.
  induction Hd as [|d rest (m & Hm & [ty Hty] & Hname) Hrest IH]; intros sc pvcs.
  { simpl. f_equal. set_solver. }
  cbn [storageConfigPVCs]. unfold UnmarshalMap. rewrite Hm, IH. f_equal. cbn [fmap list_fmap].
  change (⋃ (entryPVC d :: (entryPVC <$> rest)))
    with (entryPVC d ∪ ⋃ (entryPVC <$> rest)).
  unfold entryPVC at 2. rewrite Hm.
  assert ((m ∪ sc) !! "type" = Some ty) as -> by (by apply lookup_union_Some_l).
  rewrite Hty. destruct (decide (ty = StoragePVCType)) as [->|Hne].
  - destruct (Hname Hty) as [nm Hnm].
    assert ((m ∪ sc) !! "name" = Some nm) as -> by (by apply lookup_union_Some_l).
    rewrite Hnm. simpl. case_bool_decide; set_solver.
  - rewrite bool_decide_false by congruence. simpl. set_solver.
Qed.

(** When every entry of the storage secret says what it is, the claims of a runtime
    do not depend on the order in which the entries are visited: the same secret
    always gives the same deployment. *)
Theorem pvcs_stable data data' registries pvcExists req rt cfg :
  data ≡ₚ data' → Forall self_contained data →
  getPVCs (Ok data) registries pvcExists req rt cfg =
  getPVCs (Ok data') registries pvcExists req rt cfg.
Proof.
  intros Hp Hd. unfold getPVCs.
  rewrite !storageConfigPVCs_self_contained by (done || by rewrite <- Hp).
  by assert (⋃ (entryPVC <$> data) = ⋃ (entryPVC <$> data')) as -> by (by rewrite Hp).
Qed.
End PVCs.

(** ** Concrete runs *)

#[local] Instance jsonMapImpl : JSONMap := {|
  parseMap := λ d,
    if decide (d = "{type:pvc,name:a}")
    then Ok (Some (<["type" := "pvc"]> {["name" := "a"]}))
    else if decide (d = "{type:pvc,name:b}")
    then Ok (Some (<["type" := "pvc"]> {["name" := "b"]}))
    else if decide (d = "{name:c}") then Ok (Some {["name" := "c"]})
    else if decide (d = "{type:s3}") then Ok (Some {["type" := "s3"]})
    else Err (ErrMsg d)
|}.

Definition runPVCs (data : list string) : exec (result error (list string)) :=
  @getPVCs protocolNamesImpl jsonMapImpl (Ok data) [] (λ _, true) (mkNN "ns" "rt")
    (bareSpec [] []) exConfig.

Lemma getPVCs_spec_witness : ∃ l, runPVCs ["{type:pvc,name:b}"; "{type:pvc,name:a}"] = Ret (Ok l)
  ∧ NoDup l ∧ Sorted String.le l.
Proof.
  eexists. split; [vm_compute; reflexivity|].
  edestruct (@getPVCs_spec protocolNamesImpl jsonMapImpl
    (Ok ["{type:pvc,name:b}"; "{type:pvc,name:a}"]) [] (λ _, true) (mkNN "ns" "rt")
    (bareSpec [] []) exConfig) as (_ & _ & _ & _ & H1 & H2 & _); [vm_compute; reflexivity|].
  exact (conj H1 H2).
Defined.

Lemma pvcs_stable_witness :
  runPVCs ["{type:pvc,name:b}"; "{type:s3}"] = runPVCs ["{type:s3}"; "{type:pvc,name:b}"].
Proof.
  apply (@pvcs_stable protocolNamesImpl jsonMapImpl); [apply Permutation_swap|].
  apply Forall_cons_2; [|apply Forall_cons_2; [|apply Forall_nil_2]].
  - eexists. split; [reflexivity|]. split; [by eexists|]. by eexists.
  - eexists. split; [reflexivity|]. split; [by eexists|]. done.
Defined.

(** The map the entries are decoded into is reused: an entry without a type takes the
    type of the one visited before it, so the order decides what is mounted. *)
Theorem pvcs_depend_on_order :
  ∃ data data', data ≡ₚ data' ∧
    runPVCs data = Ret (Ok ["a"]) ∧ runPVCs data' = Ret (Ok ["a"; "c"]).
Proof.
  exists ["{name:c}"; "{type:pvc,name:a}"], ["{type:pvc,name:a}"; "{name:c}"].
  split; [apply Permutation_swap|]. split; vm_compute; reflexivity.
Qed.
