(* ===== verification/RuntimeRequests.v ===== *)
(** * The runtimes an event concerns (controllers/servingruntime_controller.go)

    The map functions of the watches: which runtimes are reconciled when a Predictor, a
    cluster runtime, a namespace, the configuration or the storage secret changes. *)

From S2P Require Import Prelude GoStrings Types K8s ModelTypes Registry Config RuntimeScaling.

(** The lists the client returns; [""] lists every namespace. *)
Record RuntimeLists := mkRuntimeLists {
  rl_ServingRuntimes : string → result error (list ServingRuntime);
  rl_ClusterServingRuntimes : result error (list ServingRuntime);
  rl_Namespaces : result error (list NamespaceObj);
  rl_GetNamespace : string → result error NamespaceObj
}.

(** The fields of the reconciler that the functions read *)
Record RuntimeSettings := mkSettings {
  rs_ControllerNamespace : string;
  rs_ClusterScope : bool;
  rs_EnableCSRWatch : bool;
  rs_restProxyEnabled : bool;
  rs_StorageSecretName : string
}.

Section Requests.
Context `{!ProtocolNames, !KServeRuntime}.
Variables (r : RuntimeSettings) (cl : RuntimeLists).

Definition nsEnabled (namespace : string) : bool :=
  modelMeshEnabled2 (rl_GetNamespace cl) namespace (rs_ControllerNamespace r)
    (rs_ClusterScope r).

(** The names of the multi-model runtimes of a list that support the Predictor *)
Fixpoint supportingNames (p : Predictor) (rts : list ServingRuntime) (srnns : gset string)
  : exec (gset string) :=
  match rts with
  | [] => Ret srnns
  | rt :: rest =>
      if IsMultiModelRuntime (rt_Spec rt) then
        b ← runtimeSupportsPredictor (rt_Spec rt) p (rs_restProxyEnabled r) (rt_Name rt);
        supportingNames p rest (if b : bool then {[ rt_Name rt ]} ∪ srnns else srnns)
      else supportingNames p rest srnns
  end.

Definition getRuntimesSupportingPredictor (p : Predictor) : exec (result error (gset string)) :=
  match rl_ServingRuntimes cl (om_Namespace (p_Meta p)) with
  | Err e => Ret (Err e)
  | Ok runtimes =>
      match (if rs_EnableCSRWatch r then rl_ClusterServingRuntimes cl else Ok []) with
      | Err e => Ret (Err e)
      | Ok csrs =>
          srnns ← supportingNames p csrs ∅;
          srnns ← supportingNames p runtimes srnns;
          Ret (Ok srnns)
      end
  end.

Definition runtimeRequestsForPredictor (p : Predictor) : exec (list NamespacedName) :=
  s ← getRuntimesSupportingPredictor p;
  Ret match s with
      | Err _ => []
      | Ok srnns => map (mkNN (om_Namespace (p_Meta p))) (elements srnns)
      end.

(** The names of the cluster runtimes, in every given namespace *)
Definition clusterNames (csrs : list ServingRuntime) (namespaces : list string)
  : gset NamespacedName :=
  list_to_set (csr ← filter (λ c, IsMultiModelRuntime (rt_Spec c) = true) csrs;
               (λ ns, mkNN ns (rt_Name csr)) <$> namespaces).

Definition runtimeNames (runtimes : list ServingRuntime) (keep : string → bool)
  : list NamespacedName :=
  (λ rt, mkNN (rt_Namespace rt) (rt_Name rt)) <$>
    filter (λ rt, keep (rt_Namespace rt) = true) runtimes.

(** [namespace] is "" for all; a nil [keep] is the function that keeps everything. *)
Definition requestsForRuntimes (namespace : string) (keep : string → bool)
  : list NamespacedName :=
  match rl_ServingRuntimes cl namespace with
  | Err _ => []
  | Ok runtimes =>
      match (if rs_EnableCSRWatch r then rl_ClusterServingRuntimes cl else Ok []) with
      | Err _ => []
      | Ok [] => runtimeNames runtimes keep
      | Ok csrs =>
          match (if bool_decide (namespace ≠ "") then Ok [namespace]
                 else match rl_Namespaces cl with
                      | Ok l => Ok (filter (λ n, keep n = true) (ns_Name <$> l))
                      | Err e => Err e
                      end) with
          | Err _ => []
          | Ok namespaces =>
              elements (clusterNames csrs namespaces ∪
                        list_to_set (runtimeNames runtimes keep))
          end
      end
  end.

Definition clusterServingRuntimeRequests (csr : ServingRuntime) : list NamespacedName :=
  if negb (default false (sr_MultiModel (rt_Spec csr))) then []
  else match rl_Namespaces cl with
       | Err _ => []
       | Ok l => (λ ns, mkNN ns (rt_Name csr)) <$>
                   filter (λ n, nsEnabled n = true) (ns_Name <$> l)
       end.

Definition storageSecretRequests (secret : NamespacedName) : list NamespacedName :=
  if nsEnabled (Namespace secret) && bool_decide (Name secret = rs_StorageSecretName r)
  then requestsForRuntimes (Namespace secret) (λ _, true) else [].

(** The requests of a change of the user configuration *)
Definition configRequests : list NamespacedName := requestsForRuntimes "" nsEnabled.

(** The requests of a change of a namespace *)
Definition namespaceRequests (o : string) : list NamespacedName :=
  requestsForRuntimes o (λ _, true).

(** ** Lemmas *)

#[local] Instance mkNN_inj ns : Inj (=) (=) (mkNN ns).
Proof. by intros ?? [=]. Qed.

Lemma supportingNames_spec p rts srnns res x :
  supportingNames p rts srnns = Ret res →
  (x ∈ res ↔ x ∈ srnns ∨
   ∃ rt, rt ∈ rts ∧ rt_Name rt = x ∧ IsMultiModelRuntime (rt_Spec rt) = true ∧
     runtimeSupportsPredictor (rt_Spec rt) p (rs_restProxyEnabled r) (rt_Name rt) = Ret true).
Proof.
  revert srnns. induction rts as [|rt rest IH]; intros srnns; cbn [supportingNames].
  { intros [= <-]. set_solver. }
  destruct (IsMultiModelRuntime (rt_Spec rt)) eqn:Em.
  - destruct (runtimeSupportsPredictor (rt_Spec rt) _ _ _) as [b|] eqn:Es; simpl; [|done].
    intros Hr%IH. rewrite Hr. setoid_rewrite elem_of_cons. destruct b.
    + rewrite elem_of_union, elem_of_singleton. split.
      * intros [[->|?]|(rt' & ? & ?)]; [right; by exists rt; auto|by left|right; exists rt'; auto].
      * intros [?|(rt' & [->|?] & <- & ?)]; [auto|auto|right; eauto].
    + split; [intros [?|(rt' & ? & ?)]; [by left|right; exists rt'; auto]|].
      intros [?|(rt' & [->|?] & ? & ? & ?)]; [by left|congruence|right; eauto 6].
  - intros Hr%IH. rewrite Hr. setoid_rewrite elem_of_cons. split.
    + intros [?|(rt' & ? & ?)]; [by left|right; exists rt'; auto].
    + intros [?|(rt' & [->|?] & ? & ? & ?)]; [by left|congruence|right; eauto 6].
Qed.

(** An event of a Predictor reconciles exactly the multi-model runtimes, of its
    namespace or the cluster's, that support it, in the Predictor's namespace. *)
Theorem predictor_event_requests p runtimes csrs reqs :
  rl_ServingRuntimes cl (om_Namespace (p_Meta p)) = Ok runtimes →
  (if rs_EnableCSRWatch r then rl_ClusterServingRuntimes cl else Ok []) = Ok csrs →
  runtimeRequestsForPredictor p = Ret reqs →
  NoDup reqs ∧
  ∀ n, n ∈ reqs ↔
    Namespace n = om_Namespace (p_Meta p) ∧
    ∃ rt, rt ∈ csrs ++ runtimes ∧ rt_Name rt = Name n ∧
      IsMultiModelRuntime (rt_Spec rt) = true ∧
      runtimeSupportsPredictor (rt_Spec rt) p (rs_restProxyEnabled r) (rt_Name rt) = Ret true.
Proof.
  intros Hr Hc. unfold runtimeRequestsForPredictor, getRuntimesSupportingPredictor.
  rewrite Hr, Hc. destruct (supportingNames p csrs ∅) as [s1|] eqn:E1; simpl; [|done].
  destruct (supportingNames p runtimes s1) as [s2|] eqn:E2; simpl; [|done].
  intros [= <-]. split.
  - apply (NoDup_fmap_2 (mkNN (om_Namespace (p_Meta p)))), NoDup_elements.
  - intros [ns nm]. simpl. rewrite list_elem_of_In, in_map_iff.
    setoid_rewrite <- list_elem_of_In. setoid_rewrite elem_of_elements.
    setoid_rewrite (supportingNames_spec _ _ _ _ _ E2).
    setoid_rewrite (supportingNames_spec _ _ _ _ _ E1). setoid_rewrite elem_of_app. split.
    + intros (x & [= <- <-] & [[[]%elem_of_empty|(rt & ? & ?)]|(rt & ? & ?)]);
        (split; [done|]; exists rt; tauto).
    + intros (-> & rt & [?|?] & <- & ?); exists (rt_Name rt); (split; [done|]);
        [left; right|right]; by exists rt.
Qed.

(** The runtimes of a request for the runtimes of a namespace, or of all ([""]): those
    listed, and the multi-model cluster runtimes in every namespace concerned. *)
Lemma requestsForRuntimes_spec namespace keep runtimes csrs namespaces n :
  rl_ServingRuntimes cl namespace = Ok runtimes →
  (if rs_EnableCSRWatch r then rl_ClusterServingRuntimes cl else Ok []) = Ok csrs →
  rl_Namespaces cl = Ok namespaces →
  (n ∈ requestsForRuntimes namespace keep ↔
   (keep (Namespace n) = true ∧
    ∃ rt, rt ∈ runtimes ∧ rt_Namespace rt = Namespace n ∧ rt_Name rt = Name n) ∨
   (∃ csr, csr ∈ csrs ∧ IsMultiModelRuntime (rt_Spec csr) = true ∧ rt_Name csr = Name n) ∧
   (if decide (namespace = "") then keep (Namespace n) = true ∧ Namespace n ∈ ns_Name <$> namespaces
    else Namespace n = namespace)).
Proof.
  intros Hr Hc Hn. unfold requestsForRuntimes. rewrite Hr, Hc, Hn.
  generalize (ns_Name <$> namespaces) as names. intros names.
  assert (Hrt : n ∈ runtimeNames runtimes keep ↔ keep (Namespace n) = true ∧
    ∃ rt, rt ∈ runtimes ∧ rt_Namespace rt = Namespace n ∧ rt_Name rt = Name n).
  { unfold runtimeNames. rewrite list_elem_of_fmap. setoid_rewrite list_elem_of_filter.
    split.
    - intros (rt & -> & ? & ?). simpl. split; [done|]. by exists rt.
    - intros (? & rt & ? & Hns & Hnm). exists rt. rewrite Hns. split; [|done].
      destruct n; simpl in *; congruence. }
  destruct csrs as [|csr0 rest]; [rewrite Hrt; set_solver|]. generalize (csr0 :: rest). intros csrs.
  set (targets := if decide (namespace = "") then filter (λ n, keep n = true) names
                  else [namespace]).
  assert (n ∈ clusterNames csrs targets ↔
    (∃ csr, csr ∈ csrs ∧ IsMultiModelRuntime (rt_Spec csr) = true ∧ rt_Name csr = Name n) ∧
    Namespace n ∈ targets) as Hcs.
  { unfold clusterNames. rewrite elem_of_list_to_set, list_elem_of_bind.
    setoid_rewrite list_elem_of_fmap. setoid_rewrite list_elem_of_filter. split.
    - intros (csr & (ns & -> & Hin) & Hm & Hcs). simpl. split; [by exists csr|done].
    - intros ((csr & Hcs & Hm & Hnm) & Hin). exists csr. split; [|done].
      exists (Namespace n). split; [|done]. destruct n; simpl in *; congruence. }
  transitivity (n ∈ clusterNames csrs targets ∪ list_to_set (runtimeNames runtimes keep)).
  { subst targets. case_bool_decide as Hne; [rewrite decide_False by done|rewrite decide_True by
      (by destruct (decide (namespace = "")))]; apply elem_of_elements. }
  rewrite elem_of_union, elem_of_list_to_set, Hrt, Hcs. subst targets.
  case_decide; [rewrite list_elem_of_filter|rewrite list_elem_of_singleton]; tauto.
Qed.

(** After a change of the configuration every runtime that runs in an enabled
    namespace is reconciled: the namespace's own, and, when cluster runtimes are
    watched, every multi-model one in every enabled namespace. *)
Theorem config_change_reaches_runtimes runtimes csrs namespaces n :
  rl_ServingRuntimes cl "" = Ok runtimes →
  (if rs_EnableCSRWatch r then rl_ClusterServingRuntimes cl else Ok []) = Ok csrs →
  rl_Namespaces cl = Ok namespaces →
  (n ∈ configRequests ↔ nsEnabled (Namespace n) = true ∧
   ((∃ rt, rt ∈ runtimes ∧ rt_Namespace rt = Namespace n ∧ rt_Name rt = Name n) ∨
    (∃ csr, csr ∈ csrs ∧ IsMultiModelRuntime (rt_Spec csr) = true ∧ rt_Name csr = Name n) ∧
    Namespace n ∈ ns_Name <$> namespaces)).
Proof.
  intros Hr Hc Hn. unfold configRequests.
  rewrite (requestsForRuntimes_spec "" nsEnabled runtimes csrs namespaces n Hr Hc Hn).
  rewrite decide_True by done. tauto.
Qed.

(** A cluster runtime that changes is reconciled in every enabled namespace, and a
    change of the storage secret reconciles every runtime of its namespace. *)
Theorem watch_requests_complete :
  (∀ csr namespaces, rl_Namespaces cl = Ok namespaces → sr_MultiModel (rt_Spec csr) = Some true →
     ∀ n, n ∈ clusterServingRuntimeRequests csr ↔
       Name n = rt_Name csr ∧ Namespace n ∈ ns_Name <$> namespaces ∧
       nsEnabled (Namespace n) = true) ∧
  (∀ ns runtimes csrs, ns ≠ "" → nsEnabled ns = true → rl_ServingRuntimes cl ns = Ok runtimes →
     (if rs_EnableCSRWatch r then rl_ClusterServingRuntimes cl else Ok []) = Ok csrs →
     ∀ rt, rt ∈ runtimes →
       mkNN (rt_Namespace rt) (rt_Name rt)
         ∈ storageSecretRequests (mkNN ns (rs_StorageSecretName r))).
Proof.
  split.
  - intros csr namespaces Hn Hm n. unfold clusterServingRuntimeRequests. rewrite Hm, Hn.
    generalize (ns_Name <$> namespaces) as names. intros names. cbn [default from_option negb]. simpl. rewrite list_elem_of_fmap.
    setoid_rewrite list_elem_of_filter. split.
    + intros (ns & -> & ? & ?). done.
    + intros (? & ? & ?). exists (Namespace n). split; [|done]. destruct n; simpl in *; congruence.
  - intros ns runtimes csrs Hne He Hr Hc rt Hrt. unfold storageSecretRequests. cbn [Namespace Name]. rewrite He.
    rewrite bool_decide_true by done. cbn [andb]. unfold requestsForRuntimes. rewrite Hr, Hc.
    assert (mkNN (rt_Namespace rt) (rt_Name rt) ∈ runtimeNames runtimes (λ _, true)) as Hin.
    { unfold runtimeNames. apply list_elem_of_fmap. exists rt. split; [done|].
      by apply list_elem_of_filter. }
    destruct csrs as [|c cs]; [done|]. rewrite bool_decide_true by done.
    apply elem_of_elements, elem_of_union. right. by apply elem_of_list_to_set.
Qed.
End Requests.

(** ** Concrete runs *)

Definition exRuntime (name : string) : ServingRuntime :=
  mkRuntime "ns" name ∅ ∅ exSpec.
Definition exClusterRuntime : ServingRuntime := mkRuntime "" "cluster-rt" ∅ ∅ exSpec.

Definition exNamespaces : list NamespaceObj :=
  [mkNamespace "ns" {["modelmesh-enabled" := "true"]} false; mkNamespace "off" ∅ false].

Definition exLists : RuntimeLists :=
  mkRuntimeLists
    (λ ns, if decide (ns = "" ∨ ns = "ns") then Ok [exRuntime "rt"] else Ok [])
    (Ok [exClusterRuntime]) (Ok exNamespaces)
    (λ ns, if decide (ns = "ns") then Ok (mkNamespace "ns" {["modelmesh-enabled" := "true"]} false)
           else Ok (mkNamespace ns ∅ false)).

Definition exSettings : RuntimeSettings := mkSettings "controller" true true false "storage-config".

Lemma predictor_event_requests_witness :
  ∃ reqs, @runtimeRequestsForPredictor protocolNamesImpl kserveImpl exSettings exLists exPredictor
            = Ret reqs ∧ mkNN "ns" "rt" ∈ reqs ∧ mkNN "ns" "cluster-rt" ∈ reqs.
Proof.
  eexists. split; [vm_compute; reflexivity|].
  edestruct (@predictor_event_requests protocolNamesImpl kserveImpl exSettings exLists
    exPredictor [exRuntime "rt"] [exClusterRuntime]) as [_ H]; [vm_compute; reflexivity..|].
  split; apply H; (split; [reflexivity|]).
  - exists (exRuntime "rt"). split; [right; left|]. split_and!; vm_compute; reflexivity.
  - exists exClusterRuntime. split; [left|]. split_and!; vm_compute; reflexivity.
Defined.

Lemma config_change_reaches_runtimes_witness :
  mkNN "ns" "cluster-rt" ∈ @configRequests kserveImpl exSettings exLists.
Proof.
  apply (@config_change_reaches_runtimes kserveImpl exSettings exLists
           [exRuntime "rt"] [exClusterRuntime] exNamespaces); [vm_compute; reflexivity..|].
  split; [vm_compute; reflexivity|]. right. split; [|left].
  exists exClusterRuntime. split; [left|]. split; vm_compute; reflexivity.
Defined.

Lemma watch_requests_complete_witness :
  mkNN "ns" "cluster-rt" ∈ clusterServingRuntimeRequests exSettings exLists exClusterRuntime ∧
  mkNN "ns" "rt" ∈ @storageSecretRequests kserveImpl exSettings exLists
                     (mkNN "ns" "storage-config").
Proof.
  destruct (@watch_requests_complete kserveImpl exSettings exLists) as [H1 H2]. split.
  - apply (H1 exClusterRuntime exNamespaces); [vm_compute; reflexivity..|].
    split; [reflexivity|]. split; [left|vm_compute; reflexivity].
  - apply (H2 "ns" [exRuntime "rt"] [exClusterRuntime]) with (rt := exRuntime "rt");
      [done|vm_compute; reflexivity..|left].
Defined.
