(* ===== verification/Manifests.v ===== *)
(** * Templates and manifests (controllers/config/templating.go and manifest.go)

    A manifest is rendered from a template file and then transformed and applied, or
    deleted. Files, text/template and manifestival are parameters; what the code adds is
    the order of the steps, the transformers it appends, and that everything that goes
    wrong with the template itself is a panic and not an error. *)

From S2P Require Import Prelude GoStrings.

Open Scope go_scope.

(** The error of opening a file, or a reader by what reading all of it returns *)
Notation Reader := (result error string).

(** The libraries, for a template context, an owner and a type of resources. A parsed
    template is the function that executes it. *)
Record TemplateLibs (Ctx Owner R : Type) := mkTemplateLibs {
  tl_Open : string → result error Reader;
  tl_Parse : string → result error (Ctx → result error string);
  tl_ManifestFrom : string → result error (list R);
  tl_InjectOwner : Owner → R → exec (result error R);
  tl_InjectNamespace : string → R → exec (result error R);
  tl_GetNamespace : Owner → string;
  tl_Transform : list (R → exec (result error R)) → list R → exec (result error (list R));
  tl_Apply : list R → option error;
  tl_Delete : list R → option error;
  (** the global variable of that name *)
  tl_PathPrefix : string
}.
Arguments tl_Open {Ctx Owner R} _ _.
Arguments tl_Parse {Ctx Owner R} _ _.
Arguments tl_ManifestFrom {Ctx Owner R} _ _.
Arguments tl_InjectOwner {Ctx Owner R} _ _ _.
Arguments tl_InjectNamespace {Ctx Owner R} _ _ _.
Arguments tl_GetNamespace {Ctx Owner R} _ _.
Arguments tl_Transform {Ctx Owner R} _ _ _.
Arguments tl_Apply {Ctx Owner R} _ _.
Arguments tl_Delete {Ctx Owner R} _ _.
Arguments tl_PathPrefix {Ctx Owner R} _.

(** The writes *)
Inductive ManifestCall (R : Type) :=
| ApplyResources (rs : list R)
| DeleteResources (rs : list R).
Arguments ApplyResources {R} _.
Arguments DeleteResources {R} _.

(** Transformers on one resource, in order, up to the first error *)
Fixpoint in_turn {R} (fns : list (R → exec (result error R))) (r : R) : exec (result error R) :=
  match fns with
  | [] => Ret (Ok r)
  | f :: rest =>
      x ← f r;
      match x with Ok r' => in_turn rest r' | Err e => Ret (Err e) end
  end.

(** What manifestival documents of Transform: each resource in order, by all
    transformers in turn *)
Class TransformLaws {Ctx Owner R} (L : TemplateLibs Ctx Owner R) := {
  transform_nil fns : tl_Transform L fns [] = Ret (Ok []);
  transform_cons fns r rs : tl_Transform L fns (r :: rs) =
    x ← in_turn fns r;
    match x with
    | Err e => Ret (Err e)
    | Ok r' =>
        y ← tl_Transform L fns rs;
        Ret match y with Err e => Err e | Ok rs' => Ok (r' :: rs') end
    end
}.

Section Manifests.
Context {Ctx Owner R : Type}.
Variable L : TemplateLibs Ctx Owner R.

(** ** templating.go *)

Definition prefixedPath (p : string) : string :=
  if bool_decide (tl_PathPrefix L ≠ "") then tl_PathPrefix L +:+ "/" +:+ p else p.

(** panic(err) *)
Definition must {A} (r : result error A) : exec A :=
  match r with Ok a => Ret a | Err _ => Panic end.

Definition templateSource (r : Reader) (context : Ctx) : exec string :=
  b ← must r;
  t ← must (tl_Parse L b);
  must (t context).

Definition PathTemplateSource (path : string) (context : Ctx) : exec string :=
  f ← must (tl_Open L (prefixedPath path));
  templateSource f context.

(** ** manifest.go *)

Definition Manifest (templatePath : string) (context : Ctx) : exec (result error (list R)) :=
  src ← PathTemplateSource templatePath context;
  Ret (tl_ManifestFrom L src).

(** The transformers with those for the owner, if there is one *)
Definition withOwner (owner : option Owner) (namespace : Owner → string)
    (fns : list (R → exec (result error R))) : list (R → exec (result error R)) :=
  match owner with
  | Some o => fns ++ [tl_InjectOwner L o; tl_InjectNamespace L (namespace o)]
  | None => fns
  end.

Definition Apply (owner : option Owner) (templatePath : string) (context : Ctx)
    (fns : list (R → exec (result error R))) : io (ManifestCall R) (option error) :=
  m ← lift (Manifest templatePath context);
  match m with
  | Err e => return (Some e)
  | Ok m =>
      m ← lift (tl_Transform L (withOwner owner (tl_GetNamespace L) fns) m);
      match m with
      | Err e => return (Some e)
      | Ok m => _ ← call (ApplyResources m); return (tl_Apply L m)
      end
  end.

Definition Delete (owner : option Owner) (templatePath : string) (context : Ctx)
    (namespace : string) (fns : list (R → exec (result error R)))
  : io (ManifestCall R) (option error) :=
  m ← lift (Manifest templatePath context);
  match m with
  | Err e => return (Some e)
  | Ok m =>
      m ← lift (tl_Transform L (withOwner owner (λ _, namespace) fns) m);
      match m with
      | Err e => return (Some e)
      | Ok m => _ ← call (DeleteResources m); return (tl_Delete L m)
      end
  end.

(** ** Properties *)

(** The template can be used: its file can be read, it parses, and it can be executed
    on this context. *)
Definition renders (path : string) (context : Ctx) (text : string) : Prop :=
  ∃ f b t, tl_Open L (prefixedPath path) = Ok f ∧ f = Ok b ∧ tl_Parse L b = Ok t ∧
    t context = Ok text.

Lemma PathTemplateSource_spec path context text :
  PathTemplateSource path context = Ret text ↔ renders path context text.
Proof.
  unfold PathTemplateSource, templateSource, renders. split.
  - destruct (tl_Open L _) as [f|]; [|done]. cbn [must mbind exec_bind].
    destruct f as [b|]; [|done]. cbn [must mbind exec_bind].
    destruct (tl_Parse L b) as [t|] eqn:Ep; [|done]. cbn [must mbind exec_bind].
    destruct (t context) as [x|] eqn:Ex; [|done]. intros [= <-].
    exists (Ok b), b, t. by rewrite Ep.
  - intros (f & b & t & -> & -> & Hp & Ht). cbn [must mbind exec_bind]. rewrite Hp.
    cbn [must mbind exec_bind]. by rewrite Ht.
Qed.

(** A template that cannot be read, parsed or executed is not an error that is
    returned: Manifest, and with it Apply and Delete, panics exactly then. *)
Theorem template_failure_panics path context :
  Manifest path context = Panic ↔ ¬ ∃ text, renders path context text.
Proof.
  unfold Manifest. destruct (PathTemplateSource path context) as [text|] eqn:E;
    cbn [mbind exec_bind].
  - apply PathTemplateSource_spec in E. split; [done|]. intros Hn. destruct Hn. eauto.
  - split; [|done]. intros _ (text & Hr). apply PathTemplateSource_spec in Hr. congruence.
Qed.

(** *** Deletion *)

Context `{!TransformLaws L}.

Lemma transform_one fns r :
  tl_Transform L fns [r] =
    x ← in_turn fns r; Ret match x with Err e => Err e | Ok r' => Ok [r'] end.
Proof.
  rewrite transform_cons, transform_nil. destruct (in_turn fns r) as [[]|]; done.
Qed.

Lemma in_turn_app {A} (fns gns : list (A → exec (result error A))) r :
  in_turn (fns ++ gns) r =
    x ← in_turn fns r; match x with Ok r' => in_turn gns r' | Err e => Ret (Err e) end.
Proof.
  revert r. induction fns as [|f fns IH]; intros r; [done|]. cbn [app in_turn].
  destruct (f r) as [[r'|]|]; cbn [mbind exec_bind]; [apply IH|done..].
Qed.

(** What a deletion writes: at most one call, and when it succeeds, for a template of one
    resource, the resource with the owner and then the namespace injected *)
Lemma Delete_emits o path context namespace :
  emits (Delete (Some o) path context namespace []) (λ cs err,
    cs = [] ∧ is_Some err ∨ ∃ rs, cs = [DeleteResources rs] ∧ err = tl_Delete L rs ∧
      ∃ m, Manifest path context = Ret (Ok m) ∧
        tl_Transform L [tl_InjectOwner L o; tl_InjectNamespace L namespace] m = Ret (Ok rs)).
Proof.
  unfold Delete, withOwner. cbn [app].
  apply emits_lift_bind. intros [m|] Hm; [|apply emits_ret; left; by split; eauto]. cbn [app].
  eapply emits_bind; [apply emits_lift with (P := λ cs rs, cs = [] ∧
    tl_Transform L [tl_InjectOwner L o; tl_InjectNamespace L namespace] m = Ret rs); done|].
  intros cs [rs|] [-> Hrs]; [|apply emits_ret; left; by split; eauto]. cbn [app].
  eapply emits_bind; [apply emits_call with (P := λ cs _, cs = [DeleteResources rs]); done|].
  intros cs [] ->. apply emits_ret. right. exists rs. rewrite app_nil_r. eauto.
Qed.
End Manifests.
