(* ===== verification/Deployment.v ===== *)
(** * The model-mesh deployment of a runtime (controllers/modelmesh)

    modelmesh.go, runtime.go, util.go, constraints.go, etcd.go, proxy.go, puller.go
    and tls.go: the transformations that turn the deployment rendered from the
    template into the one that is applied. Rendering the template, converting to
    and from unstructured objects and applying the result are not modelled. *)

From S2P Require Import Prelude GoStrings Types K8s ModelTypes Config Validator Endpoint.
From Stdlib Require Import Ascii SpecFloat.

(** ** Constants *)

Definition GrpcPortEnvVar : string := "INTERNAL_GRPC_PORT".
Definition ServeGrpcPortEnvVar : string := "INTERNAL_SERVING_GRPC_PORT".
Definition GrpcUdsPathEnvVar : string := "INTERNAL_GRPC_SOCKET_PATH".
Definition ServeGrpcUdsPathEnvVar : string := "INTERNAL_SERVING_GRPC_SOCKET_PATH".
Definition PullerPortNumber : Z := 8086.
Definition PullerModelPath : string := "/models".
Definition DefaultPVCMountsDir : string := "/pvc_mounts".
Definition PullerConfigPath : string := "/storage-config".
Definition ModelsDir : string := "/models".
Definition PVCRootDir : string := "/pvc_mounts".
Definition etcdMountPath : string := "/opt/kserve/mmesh/etcd".
Definition kvStoreEnvVar : string := "KV_STORE".
Definition EtcdSecretKeyName : string := "etcd_connection".
Definition tlsSecretVolume : string := "tls-certs".
Definition tlsSecretMountPath : string := "/opt/kserve/mmesh/tls".
Definition TLSSecretCertKey : string := "tls.crt".
Definition TLSSecretKeyKey : string := "tls.key".
Definition TLSClientCertKey : string := "ca.crt".

(** ** The Deployment struct: the fields the transformations use *)

Record MMDeployment := mkMMD {
  dep_Name : string;
  dep_Namespace : string;
  dep_ServicePort : Z;
  dep_OwnerAnnotations : gmap string string;
  dep_SRSpec : ServingRuntimeSpec;
  dep_DefaultVModelOwner : string;
  dep_PayloadProcessors : string;
  dep_RESTProxyEnabled : bool;
  dep_RESTProxySkipVerify : bool;
  dep_RESTProxyImage : string;
  dep_RESTProxyResources : ResourceRequirements;
  dep_RESTProxyPort : Z;
  dep_PVCs : list string;
  dep_AdditionalEnvVars : list EnvVar;
  dep_PullerImage : string;
  dep_PullerImageCommand : list string;
  dep_PullerResources : ResourceRequirements;
  dep_TLSSecretName : string;
  dep_TLSClientAuth : string;
  dep_EtcdSecretName : string;
  dep_GrpcMaxMessageSize : Z;
  dep_AnnotationsMap : gmap string string;
  dep_LabelsMap : gmap string string;
  dep_ImagePullSecrets : list string;
  dep_EnableAccessLogging : bool;
  (** the global StorageSecretName of puller.go *)
  dep_StorageSecretName : string;
  (** fields that only the template reads; Replicas is passed beside the record *)
  dep_ServiceName : string;
  dep_Metrics : bool;
  dep_PrometheusPort : Z;
  dep_PrometheusScheme : string;
  dep_ModelMeshImage : string;
  dep_ModelMeshResources : ResourceRequirements;
  dep_Port : Z;
  dep_ServiceAccountName : string
}.

(** A transformation returns an error, or the changed deployment, or panics. *)
Definition Transform : Type := DeploymentObj → exec (result error DeploymentObj).

Definition ok (d : DeploymentObj) : exec (result error DeploymentObj) := Ret (Ok d).
Definition fail (msg : string) : exec (result error DeploymentObj) := Ret (Err (ErrMsg msg)).

(** The transform method: run in order, stop at the first error *)
Fixpoint transform (funcs : list Transform) (d : DeploymentObj)
  : exec (result error DeploymentObj) :=
  match funcs with
  | [] => ok d
  | f :: rest =>
      r ← f d;
      match r with Ok d' => transform rest d' | Err e => Ret (Err e) end
  end.

(** ** Field updates *)

Definition set_Spec (s : PodSpec) (d : DeploymentObj) : DeploymentObj :=
  mkDeployment (d_Name d) (d_Namespace d) (d_Replicas d) (d_Labels d) (d_Annotations d) s.
Definition set_Containers (cs : list Container) (d : DeploymentObj) : DeploymentObj :=
  let s := d_Spec d in
  set_Spec (mkPodSpec cs (pod_Volumes s) (pod_TerminationGracePeriodSeconds s)
              (pod_NodeSelector s) (pod_Tolerations s) (pod_Affinity s)
              (pod_ImagePullSecrets s)) d.
Definition set_Volumes (vs : list Volume) (d : DeploymentObj) : DeploymentObj :=
  let s := d_Spec d in
  set_Spec (mkPodSpec (pod_Containers s) vs (pod_TerminationGracePeriodSeconds s)
              (pod_NodeSelector s) (pod_Tolerations s) (pod_Affinity s)
              (pod_ImagePullSecrets s)) d.
Definition containers (d : DeploymentObj) : list Container := pod_Containers (d_Spec d).
Definition volumes (d : DeploymentObj) : list Volume := pod_Volumes (d_Spec d).

Definition set_Env (env : list EnvVar) (c : Container) : Container :=
  mkContainer (c_Name c) (c_Image c) (c_Command c) env (c_Ports c) (c_Resources c)
    (c_VolumeMounts c) (c_Lifecycle c) (c_ReadinessProbe c) (c_SecurityContext c).
Definition set_Mounts (ms : list VolumeMount) (c : Container) : Container :=
  mkContainer (c_Name c) (c_Image c) (c_Command c) (c_Env c) (c_Ports c) (c_Resources c)
    ms (c_Lifecycle c) (c_ReadinessProbe c) (c_SecurityContext c).

(** ** util.go *)

Fixpoint find_name (name : string) (cs : list Container) : option (nat * Container) :=
  match cs with
  | [] => None
  | c :: rest =>
      if bool_decide (c_Name c = name) then Some (0, c)
      else match find_name name rest with Some (i, x) => Some (S i, x) | None => None end
  end.

(** [None] is (-1, nil). *)
Definition findContainer (name : string) (d : DeploymentObj) : option (nat * Container) :=
  find_name name (containers d).

Fixpoint set_env_value (variable value : string) (env : list EnvVar) : list EnvVar :=
  match env with
  | [] => [mkEnv variable value None]
  | e :: rest =>
      if bool_decide (ev_Name e = variable) then mkEnv variable value (ev_ValueFrom e) :: rest
      else e :: set_env_value variable value rest
  end.

Definition setEnvironmentVar (container variable value : string) (d : DeploymentObj)
  : result error DeploymentObj :=
  match findContainer container d with
  | Some (i, c) =>
      Ok (set_Containers (<[i := set_Env (set_env_value variable value (c_Env c)) c]>
                            (containers d)) d)
  | None => Err (ErrMsg ("Cannot find container: " +:+ container))
  end.

(** A sequence of setEnvironmentVar calls on the model-mesh container *)
Fixpoint setMMEnv (vars : list (string * string)) (d : DeploymentObj)
  : result error DeploymentObj :=
  match vars with
  | [] => Ok d
  | (k, v) :: rest =>
      match setEnvironmentVar ModelMeshContainerName k v d with
      | Ok d' => setMMEnv rest d'
      | Err e => Err e
      end
  end.

Section Deployment.
Context `{!ProtocolNames}.
Variable m : MMDeployment.

(** The config map the productConfig annotation names must be readable; [get] is its
    Get. What is read is not used. *)
Definition setConfigMap (get : NamespacedName → option error) : option error :=
  let configMap := default "" (dep_OwnerAnnotations m !! "productConfig") in
  if bool_decide (configMap = "") then None
  else match get (mkNN (dep_Namespace m) configMap) with
       | Some e => Some (ErrWrap ("Unable to access ConfigMap '" +:+ configMap +:+ "'") e)
       | None => None
       end.

Let rts : ServingRuntimeSpec := dep_SRSpec m.

(** ** runtime.go *)

Definition syncGracePeriod : Transform := λ d,
  match pod_TerminationGracePeriodSeconds (d_Spec d) with
  | Some gracePeriodS =>
      Ret (setEnvironmentVar ModelMeshContainerName "SHUTDOWN_TIMEOUT_MS"
             (Itoa (wrap64 (gracePeriodS * 1000))) d)
  | None => ok d
  end.

(** int64(float64(v) * 1.5), in binary64 arithmetic *)
Definition scaleModelDir (v : Z) : Z :=
  let f := binary_normalize 53 1024 v 0 false in
  match SFmul 53 1024 f (S754_finite false 6755399441055744 (-52)) with
  | S754_finite s mant e =>
      let n := if bool_decide (0 ≤ e)%Z then (Z.pos mant * 2 ^ e)%Z
               else (Z.pos mant / 2 ^ (- e))%Z in
      if s then (- n)%Z else n
  | _ => 0
  end.

(** The sum of the containers' memory limits, scaled *)
Definition calculateModelDirSize : Z :=
  scaleModelDir (foldl (λ acc c, acc + default 0 (rs_Limits (c_Resources c) !! "memory"))%Z
                   0%Z (sr_Containers rts)).

Definition addVolumesToDeployment : Transform := λ d,
  ok (set_Volumes
    (sr_Volumes rts ++
     [mkVolume ModelsDirVolume (EmptyDirSource "" (Some calculateModelDirSize))] ++
     (if (unixDomainSockets rts).1.1
      then [mkVolume SocketVolume (EmptyDirSource "" None)] else []) ++
     (if bool_decide (is_Some (sr_BuiltInAdapter rts)) || useStorageHelper rts
      then [mkVolume ConfigStorageMount (SecretSource (dep_StorageSecretName m))] else []) ++
     map (λ p, mkVolume p (PVCSource p true)) (dep_PVCs m)) d).

(** The mounts every runtime container starts with *)
Definition baseMounts : list VolumeMount :=
  mkVM ModelsDirVolume ModelsDir false ::
  map (λ p, mkVM p (PVCRootDir +:+ "/" +:+ p) true) (dep_PVCs m).

(** ** Slices with spare capacity

    The slice [volumeMounts] is extended with [append] once per container. When it
    has spare capacity, append writes into it: the results share the cells beyond
    its length, and a later append overwrites what an earlier one put there.
    [spare] is that capacity, which depends on the growth policy of the runtime;
    [cells] is the content of the shared cells. *)

Variable spare : nat.

Inductive mslice :=
| MShared (n : nat)
| MOwn (l : list VolumeMount).

Definition zeroMount : VolumeMount := mkVM "" "" false.
Definition freshCells : list VolumeMount := replicate spare zeroMount.

(** Overwrite the cells from position [n] *)
Definition write_cells (n : nat) (xs cells : list VolumeMount) : list VolumeMount :=
  take n cells ++ xs ++ drop (n + length xs) cells.

Definition append_m (cells : list VolumeMount) (s : mslice) (xs : list VolumeMount)
  : list VolumeMount * mslice :=
  match s with
  | MShared n =>
      if bool_decide (n + length xs ≤ spare)
      then (write_cells n xs cells, MShared (n + length xs))
      else (cells, MOwn (baseMounts ++ take n cells ++ xs))
  | MOwn l => (cells, MOwn (l ++ xs))
  end.

(** What a slice contains once the cells have their final content *)
Definition resolve_m (cells : list VolumeMount) (s : mslice) : list VolumeMount :=
  match s with MShared n => baseMounts ++ take n cells | MOwn l => l end.

(** The directory of the domain socket, if one is needed; two different ones are
    an error. *)
Definition socketMount : result error (option VolumeMount) :=
  let visit (acc : result error (option string)) (o : option string) :=
    match acc, o with
    | Err e, _ => Err e
    | Ok cur, None => Ok cur
    | Ok cur, Some ep =>
        match ParseEndpoint ep with
        | TCPEndpoint _ => Ok cur
        | UnixEndpoint _ parent =>
            match cur with
            | Some p => if bool_decide (p ≠ "") && bool_decide (p ≠ parent)
                        then Err (ErrMsg "Only one unix domain socket path is allowed")
                        else Ok (Some parent)
            | None => Ok (Some parent)
            end
        end
    end in
  match foldl visit (Ok None)
          [sr_GrpcDataEndpoint rts; sr_GrpcMultiModelManagementEndpoint rts] with
  | Err e => Err e
  | Ok None => Ok None
  | Ok (Some parent) => Ok (Some (mkVM SocketVolume parent false))
  end.

(** addDomainSocketMount on a container's slice *)
Definition addDomainSocketMount (cells : list VolumeMount) (s : mslice)
  : result error (list VolumeMount * mslice) :=
  match socketMount with
  | Err e => Err e
  | Ok None => Ok (cells, s)
  | Ok (Some vm) => Ok (append_m cells s [vm])
  end.

Definition lifecycle : Lifecycle := PreStopHTTPGet "/prestop" 8090.
Definition dropAll : SecurityContext := DropCapabilities ["ALL"].

(** A container of the runtime with its internal fields; the mounts are a slice *)
Definition runtimeContainer (cspec : Container) : Container :=
  mkContainer (c_Name cspec) (c_Image cspec) (c_Command cspec) (c_Env cspec)
    (c_Ports cspec) (c_Resources cspec) [] (Some lifecycle) (c_ReadinessProbe cspec)
    (Some (default dropAll (c_SecurityContext cspec))).

(** The loop over the runtime's containers: containers with their slices *)
Fixpoint prepareContainers (cells : list VolumeMount) (cs : list Container)
  : result error (list VolumeMount * list (Container * mslice)) :=
  match cs with
  | [] => Ok (cells, [])
  | cspec :: rest =>
      let '(cells, s) := append_m cells (MShared 0) (c_VolumeMounts cspec) in
      match addDomainSocketMount cells s with
      | Err e => Err e
      | Ok (cells, s) =>
          match prepareContainers cells rest with
          | Err e => Err e
          | Ok (cells, out) => Ok (cells, (runtimeContainer cspec, s) :: out)
          end
      end
  end.

(** Replace the container of the same name, or append: the last one wins. *)
Definition putContainer (c : Container) (cs : list Container) : list Container :=
  match find_name (c_Name c) cs with
  | Some (i, _) => <[i := c]> cs
  | None => cs ++ [c]
  end.

(** The variables of the built-in adapter, overridden by those of the spec *)
Definition overrideEnv (env : list EnvVar) (o : EnvVar) : list EnvVar :=
  let fix go (l : list EnvVar) : option (list EnvVar) :=
    match l with
    | [] => None
    | e :: rest => if bool_decide (ev_Name e = ev_Name o) then Some (o :: rest)
                   else match go rest with Some r => Some (e :: r) | None => None end
    end in
  match go env with Some r => r | None => env ++ [o] end.

Definition adapterEnv (a : BuiltInAdapter) (adapterPort rtDataEndpoint runtimeVersion : string)
  : list EnvVar :=
  let ev k v := mkEnv k v None in
  let env :=
    [ev "ADAPTER_PORT" adapterPort;
     ev "RUNTIME_PORT" (Itoa (bia_RuntimeManagementPort a));
     ev "RUNTIME_DATA_ENDPOINT" rtDataEndpoint;
     mkEnv "CONTAINER_MEM_REQ_BYTES" ""
       (Some (ResourceFieldRef (bia_ServerType a) "requests.memory"));
     ev "MEM_BUFFER_BYTES" (Itoa (bia_MemBufferBytes a));
     ev "LOADTIME_TIMEOUT" (Itoa (bia_ModelLoadingTimeoutMillis a));
     ev "USE_EMBEDDED_PULLER" "true";
     ev "RUNTIME_VERSION" runtimeVersion] ++
    (match dep_OwnerAnnotations m !! "maxLoadingConcurrency" with
     | Some v => [ev "LOADING_CONCURRENCY" v] | None => [] end) ++
    (match dep_OwnerAnnotations m !! "perModelConcurrencyLimit" with
     | Some v => [ev "LIMIT_PER_MODEL_CONCURRENCY" v] | None => [] end) in
  foldl overrideEnv env (bia_Env a).

(** The tag of the image of the adapter's runtime container *)
Definition runtimeVersion (serverType : string) (cs : list Container) : string :=
  match find_name serverType cs with
  | Some (_, c) => match Index (c_Image c) ":" with
                   | Some i => str_drop (S i) (c_Image c)
                   | None => ""
                   end
  | None => ""
  end.

(** The adapter container with its slice *)
Definition adapterContainer (cells : list VolumeMount) (cs : list Container)
    (a : BuiltInAdapter) : result error (list VolumeMount * (Container * mslice)) :=
  let name := bia_ServerType a +:+ "-adapter" in
  let '(cells, s) :=
    append_m cells (MShared 0) [mkVM ConfigStorageMount PullerConfigPath true] in
  let withData :=
    match sr_GrpcDataEndpoint rts with
    | Some e => match addDomainSocketMount cells s with
                | Ok (cells, s) => Ok (cells, s, e)
                | Err e => Err e
                end
    | None => Ok (cells, s, "port:" +:+ Itoa (bia_RuntimeManagementPort a))
    end in
  match withData with
  | Err e => Err e
  | Ok (cells, s, rtDataEndpoint) =>
      let finish adapterPort :=
        Ok (cells, (mkContainer name (dep_PullerImage m) ["/opt/app/" +:+ name]
                     (adapterEnv a adapterPort rtDataEndpoint
                        (runtimeVersion (bia_ServerType a) cs)) []
                     (dep_PullerResources m) [] (Some lifecycle) None (Some dropAll), s)) in
      match sr_GrpcMultiModelManagementEndpoint rts with
      | None => finish "8085"
      | Some ep =>
          if matchPort ep then finish (TrimPrefix ep "port:")
          else Err (ErrMsg "Built-in adapter grpcEndpoint must be of the form port:N")
      end
  end.

Definition addRuntimeToDeployment : Transform := λ d,
  match prepareContainers freshCells (sr_Containers rts) with
  | Err e => Ret (Err e)
  | Ok (cells, prepared) =>
      let names := foldl (λ cs cm, putContainer cm.1 cs) (containers d) prepared in
      let withAdapter :=
        match sr_BuiltInAdapter rts with
        | None => Ok (cells, [])
        | Some a => match adapterContainer cells names a with
                    | Ok (cells, x) => Ok (cells, [x])
                    | Err e => Err e
                    end
        end in
      match withAdapter with
      | Err e => Ret (Err e)
      | Ok (cells, adapter) =>
          let final (cm : Container * mslice) := set_Mounts (resolve_m cells cm.2) cm.1 in
          let cs := foldl (λ cs cm, putContainer (final cm) cs) (containers d) prepared in
          ok (set_Containers (cs ++ map final adapter) d)
      end
  end.

Definition archNodeSelector : NodeSelectorTerm :=
  [mkNSR "kubernetes.io/arch" "In" ["amd64"; "arm64"; "s390x"]].

Definition archAffinity : NodeAffinity := mkNodeAffinity (Some [archNodeSelector]) "".

Definition addPassThroughPodFieldsToDeployment : Transform := λ d,
  let s := d_Spec d in
  let affinity :=
    match sr_Affinity rts with
    | None => mkAffinity (Some archAffinity) ""
    | Some a =>
        match af_NodeAffinity a with
        | None => mkAffinity (Some archAffinity) (af_Other a)
        | Some na =>
            match na_Required na with
            | None => mkAffinity (Some (mkNodeAffinity (Some [archNodeSelector]) (na_Other na)))
                        (af_Other a)
            | Some terms =>
                mkAffinity (Some (mkNodeAffinity (Some (terms ++ [archNodeSelector]))
                                    (na_Other na))) (af_Other a)
            end
        end
    end in
  ok (set_Spec (mkPodSpec (pod_Containers s) (pod_Volumes s)
        (pod_TerminationGracePeriodSeconds s) (sr_NodeSelector rts) (sr_Tolerations rts)
        (Some affinity) (pod_ImagePullSecrets s)) d).

(** kserve's utils.Union of maps: later ones take precedence *)
Variable Union : list (gmap string string) → gmap string string.

Definition configureRuntimePodSpecAnnotations : Transform := λ d,
  ok (mkDeployment (d_Name d) (d_Namespace d) (d_Replicas d) (d_Labels d)
        (Union [d_Annotations d; dep_AnnotationsMap m; sr_Annotations rts]) (d_Spec d)).
Definition configureRuntimePodSpecLabels : Transform := λ d,
  ok (mkDeployment (d_Name d) (d_Namespace d) (d_Replicas d)
        (Union [d_Labels d; dep_LabelsMap m; sr_Labels rts]) (d_Annotations d) (d_Spec d)).
Definition configureRuntimePodSpecImagePullSecrets : Transform := λ d,
  let s := d_Spec d in
  ok (set_Spec (mkPodSpec (pod_Containers s) (pod_Volumes s)
        (pod_TerminationGracePeriodSeconds s) (pod_NodeSelector s) (pod_Tolerations s)
        (pod_Affinity s)
        (mergeImagePullSecrets [pod_ImagePullSecrets s; dep_ImagePullSecrets m;
                                sr_ImagePullSecrets rts])) d).

(** ** modelmesh.go *)

Definition addMMDomainSocketMount : Transform := λ d,
  match findContainer ModelMeshContainerName d with
  | None => fail ("Could not find the model mesh container " +:+ ModelMeshContainerName)
  | Some (i, c) =>
      let '(hasUnix, mp) := mountPoint rts in
      ok (if hasUnix
          then set_Containers (<[i := set_Mounts (c_VolumeMounts c ++
                 [mkVM "domain-socket" mp false]) c]> (containers d)) d
          else d)
  end.

(** The variable that carries an endpoint *)
Definition endpointVar (portVar udsVar ep : string) : string * string :=
  match ParseEndpoint ep with
  | TCPEndpoint port => (portVar, port)
  | UnixEndpoint path _ => (udsVar, path)
  end.

(** The variables set before the management endpoint is read, and those after *)
Definition firstEnvVars : list (string * string) :=
  map (λ e, (ev_Name e, ev_Value e)) (dep_AdditionalEnvVars m) ++
  (match sr_GrpcDataEndpoint rts with
   | Some e => [endpointVar ServeGrpcPortEnvVar ServeGrpcUdsPathEnvVar e]
   | None => []
   end).

Definition laterEnvVars : list (string * string) :=
  (if dep_EnableAccessLogging m then [("MM_LOG_EACH_INVOKE", "true")] else []) ++
  (if bool_decide (dep_GrpcMaxMessageSize m > 0)%Z
   then [("MM_SVC_GRPC_MAX_MSG_SIZE", Itoa (dep_GrpcMaxMessageSize m))] else []) ++
  [("MM_KVSTORE_PREFIX", "mm"); ("MM_DEFAULT_VMODEL_OWNER", dep_DefaultVModelOwner m)] ++
  (if bool_decide (dep_PayloadProcessors m ≠ "")
   then [("MM_PAYLOAD_PROCESSORS", dep_PayloadProcessors m)] else []).

Definition managementEnvVar : exec (string * string) :=
  if useStorageHelper rts then Ret (GrpcPortEnvVar, Itoa PullerPortNumber)
  else e ← deref (sr_GrpcMultiModelManagementEndpoint rts);
       Ret (endpointVar GrpcPortEnvVar GrpcUdsPathEnvVar e).

Definition addMMEnvVars : Transform := λ d,
  match setMMEnv firstEnvVars d with
  | Err e => Ret (Err e)
  | Ok d => management ← managementEnvVar; Ret (setMMEnv (management :: laterEnvVars) d)
  end.

Definition ensureMMContainerIsLast : Transform := λ d,
  ok (match findContainer ModelMeshContainerName d with
      | Some (i, c) =>
          let last := length (containers d) - 1 in
          if bool_decide (i = last) then d
          else set_Containers (swap last i (containers d)) d
      | None => d
      end).

(** ** constraints.go; [sortedList] is the sorted list of a set *)

Variable sortedList : gset string → list string.

Definition generateLabelsEnvVar : string :=
  Join (sortedList (GetServingRuntimeLabelSet rts (dep_RESTProxyEnabled m) (dep_Name m))) ",".

Definition addModelTypeConstraints : Transform := λ d,
  match findContainer ModelMeshContainerName d with
  | None => fail "unable to find the model mesh container"
  | Some (i, c) =>
      let c := set_Env (c_Env c ++
        [mkEnv "MM_LABELS" generateLabelsEnvVar None;
         mkEnv "MM_TYPE_CONSTRAINTS_PATH" "/etc/watson/mmesh/config/type_constraints" None;
         mkEnv "MM_DATAPLANE_CONFIG_PATH" "/etc/watson/mmesh/config/dataplane_api_config"
           None]) c in
      let c := set_Mounts (c_VolumeMounts c ++
        [mkVM InternalConfigMapName "/etc/watson/mmesh/config" false]) c in
      ok (set_Volumes (volumes d ++
            [mkVolume InternalConfigMapName (ConfigMapSource InternalConfigMapName)])
            (set_Containers (<[i := c]> (containers d)) d))
  end.

(** ** etcd.go *)

(** Mounts with one updated in place, or appended *)
Definition putMount (vm : VolumeMount) (ms : list VolumeMount) : list VolumeMount :=
  if bool_decide (vm_Name vm ∈ map vm_Name ms)
  then map (λ x, if bool_decide (vm_Name x = vm_Name vm) then vm else x) ms
  else ms ++ [vm].

Definition etcdMount : VolumeMount := mkVM EtcdVolume etcdMountPath true.

(** The loop over the volumes updates a copy: an existing volume is left alone. *)
Definition configureMMDeploymentForEtcdSecret : Transform := λ d,
  let d := match findContainer ModelMeshContainerName d with
           | None => d
           | Some (i, c) =>
               let env := map (λ e, if bool_decide (ev_Name e = kvStoreEnvVar)
                                    then mkEnv (ev_Name e) ("etcd:" +:+ etcdMountPath +:+ "/"
                                           +:+ EtcdSecretKeyName) (ev_ValueFrom e)
                                    else e) (c_Env c) in
               let c := set_Mounts (putMount etcdMount (c_VolumeMounts c)) (set_Env env c) in
               set_Containers (<[i := c]> (containers d)) d
           end in
  ok (if bool_decide (EtcdVolume ∈ map v_Name (volumes d)) then d
      else set_Volumes (volumes d ++ [mkVolume EtcdVolume
                          (SecretSource (dep_EtcdSecretName m))]) d).

(** ** proxy.go *)

Definition addRESTProxyToDeployment : Transform := λ d,
  ok (if dep_RESTProxyEnabled m then
        let ev k v := mkEnv k v None in
        set_Containers (containers d ++
          [mkContainer RESTProxyContainerName (dep_RESTProxyImage m) []
             [ev "REST_PROXY_LISTEN_PORT" (Itoa (dep_RESTProxyPort m));
              ev "REST_PROXY_GRPC_PORT" (Itoa (dep_ServicePort m));
              ev "REST_PROXY_USE_TLS"
                (FormatBool (bool_decide (dep_TLSSecretName m ≠ "")));
              ev "REST_PROXY_GRPC_MAX_MSG_SIZE_BYTES" (Itoa (dep_GrpcMaxMessageSize m));
              ev "REST_PROXY_SKIP_VERIFY" (FormatBool (dep_RESTProxySkipVerify m))]
             [mkPort "http" (dep_RESTProxyPort m)] (dep_RESTProxyResources m) [] None None
             None]) d
      else d).

(** ** tls.go; [tlsSecret] is the lookup of the secret, [TrimSpace] of strings *)

Variable tlsSecret : result error (gmap string string).
Variable TrimSpace : string → string.

Definition tlsMount : VolumeMount := mkVM tlsSecretVolume tlsSecretMountPath true.

(** The first mount of that name is updated. *)
Fixpoint putFirstMount (vm : VolumeMount) (ms : list VolumeMount) : list VolumeMount :=
  match ms with
  | [] => [vm]
  | x :: rest => if bool_decide (vm_Name x = vm_Name vm) then vm :: rest
                 else x :: putFirstMount vm rest
  end.

Fixpoint putVolume (v : Volume) (vs : list Volume) : list Volume :=
  match vs with
  | [] => [v]
  | x :: rest => if bool_decide (v_Name x = v_Name v) then v :: rest
                 else x :: putVolume v rest
  end.

Definition tlsContainer (clientAuth : string) (clientCertExists : bool) (c : Container)
  : Container :=
  let ev k v := mkEnv k v None in
  let cert := tlsSecretMountPath +:+ "/" +:+ TLSSecretCertKey in
  set_Mounts (putFirstMount tlsMount (c_VolumeMounts c))
    (set_Env (c_Env c ++
       [ev "MM_TLS_KEY_CERT_PATH" cert;
        ev "MM_TLS_PRIVATE_KEY_PATH" (tlsSecretMountPath +:+ "/" +:+ TLSSecretKeyKey)] ++
       (if bool_decide (clientAuth ≠ "")
        then [ev "MM_TLS_CLIENT_AUTH" clientAuth;
              ev "MM_TLS_TRUST_CERT_PATH"
                (if clientCertExists
                 then cert +:+ "," +:+ tlsSecretMountPath +:+ "/" +:+ TLSClientCertKey
                 else cert)]
        else [])) c).

Definition configureMMDeploymentForTLSSecret : Transform := λ d,
  if bool_decide (dep_TLSSecretName m = "") then ok d
  else
    match tlsSecret with
    | Err _ => fail ("unable to access TLS secret '" +:+ dep_TLSSecretName m +:+ "'")
    | Ok data =>
        let clientAuth := TrimSpace (dep_TLSClientAuth m) in
        let clientCertExists := bool_decide (is_Some (data !! TLSClientCertKey)) in
        let f c := if bool_decide (c_Name c = ModelMeshContainerName) ||
                      (dep_RESTProxyEnabled m &&
                       bool_decide (c_Name c = RESTProxyContainerName))
                   then tlsContainer clientAuth clientCertExists c else c in
        ok (set_Volumes (putVolume (mkVolume tlsSecretVolume
                           (SecretSource (dep_TLSSecretName m))) (volumes d))
              (set_Containers (map f (containers d)) d))
    end.

(** ** puller.go *)

Definition addPullerSidecar : Transform := λ d,
  ep ← deref (sr_GrpcMultiModelManagementEndpoint rts);
  match ValidateEndpoint ep with
  | Err e => Ret (Err e)
  | Ok endpoint =>
      let ev k v := mkEnv k v None in
      let uds := match ParseEndpoint endpoint with
                 | UnixEndpoint _ parent => [mkVM "domain-socket" parent false]
                 | TCPEndpoint _ => []
                 end in
      let cspec := mkContainer PullerContainerName (dep_PullerImage m)
        (dep_PullerImageCommand m)
        [ev "PORT" (Itoa PullerPortNumber); ev "MODEL_SERVER_ENDPOINT" endpoint;
         ev "ROOT_MODEL_DIR" PullerModelPath; ev "STORAGE_CONFIG_DIR" PullerConfigPath;
         ev "PVC_MOUNTS_DIR" DefaultPVCMountsDir]
        [mkPort "grpc" PullerPortNumber] (dep_PullerResources m)
        ([mkVM ModelsDirVolume PullerModelPath false;
          mkVM ConfigStorageMount PullerConfigPath true] ++ uds ++
         map (λ p, mkVM p (DefaultPVCMountsDir +:+ "/" +:+ p) true) (dep_PVCs m))
        None None None in
      ok (set_Containers (containers d ++ [cspec]) d)
  end.

(** ** Apply: the transformations in order, on the rendered template *)

Definition deploymentTransforms : list Transform :=
  [addVolumesToDeployment; addMMDomainSocketMount; addPassThroughPodFieldsToDeployment;
   addRuntimeToDeployment; syncGracePeriod; addMMEnvVars; addModelTypeConstraints;
   configureMMDeploymentForEtcdSecret; addRESTProxyToDeployment;
   configureMMDeploymentForTLSSecret; configureRuntimePodSpecAnnotations;
   configureRuntimePodSpecLabels; ensureMMContainerIsLast;
   configureRuntimePodSpecImagePullSecrets].

Definition ApplyDeployment : Transform := λ template,
  r ← transform deploymentTransforms template;
  match r with
  | Err e => Ret (Err (ErrWrap "Error transforming" e))
  | Ok d =>
      if useStorageHelper rts then
        r ← addPullerSidecar d;
        match r with
        | Err e => Ret (Err (ErrWrap "Error transforming" e))
        | Ok d => ok d
        end
      else ok d
  end.
End Deployment.
