(* ===== verification/DeploymentProps.v ===== *)
(** * Properties of the deployment

    Every volume a container mounts is declared in the pod; the order of the
    containers; when building the deployment panics; which value of an environment
    variable wins; what spare slice capacity does to volume mounts. *)

From S2P Require Import Prelude GoStrings Types K8s ModelTypes Config Validator Endpoint.
From S2P Require Import Deployment.

(** ** Containers by name *)

Lemma find_name_Some name cs i c :
  find_name name cs = Some (i, c) → cs !! i = Some c ∧ c_Name c = name.
Proof.
  revert i c. induction cs as [|x cs IH]; intros i c; simpl; [done|].
  case_bool_decide; [by intros [= <- <-]|].
  destruct (find_name name cs) as [[j y]|]; [|done]. intros [= <- <-]. by apply IH.
Qed.

Lemma find_name_insert name cs i c c' :
  find_name name cs = Some (i, c) → c_Name c' = name →
  find_name name (<[i := c']> cs) = Some (i, c').
Proof.
  revert i. induction cs as [|x cs IH]; intros i; simpl; [done|].
  case_bool_decide as Hx.
  - intros [= <- <-] Hn. simpl. by rewrite bool_decide_true.
  - destruct (find_name name cs) as [[j y]|]; [|done]. intros [= <- <-] Hn. simpl.
    rewrite bool_decide_false by done. by rewrite (IH j).
Qed.

Lemma find_name_None name cs : find_name name cs = None ↔ name ∉ map c_Name cs.
Proof.
  induction cs as [|x cs IH]; simpl; [set_solver|].
  case_bool_decide as Hn; [set_solver|].
  destruct (find_name name cs) as [[j y]|]; [|set_solver].
  split; [done|]. intros H. exfalso. rewrite not_elem_of_cons in H.
  assert (Some (j, y) = None) by (apply IH; tauto). done.
Qed.

(** ** Reading back field updates *)

Lemma containers_set_Containers cs d : containers (set_Containers cs d) = cs.
Proof. done. Qed.
Lemma containers_set_Volumes vs d : containers (set_Volumes vs d) = containers d.
Proof. done. Qed.
Lemma volumes_set_Containers cs d : volumes (set_Containers cs d) = volumes d.
Proof. done. Qed.
Lemma volumes_set_Volumes vs d : volumes (set_Volumes vs d) = vs.
Proof. done. Qed.
#[export] Hint Rewrite containers_set_Containers containers_set_Volumes
  volumes_set_Containers volumes_set_Volumes : go.

(** ** Mounted volumes are declared *)

Section Covered.
Implicit Types (V : list string) (c : Container) (d : DeploymentObj).

Definition vnames d : list string := map v_Name (volumes d).
Definition mounts_in V (ms : list VolumeMount) : Prop := Forall (λ vm, vm_Name vm ∈ V) ms.
Definition covered_by V (cs : list Container) : Prop :=
  Forall (λ c, mounts_in V (c_VolumeMounts c)) cs.

(** Every mount of every container names a volume of the pod. *)
Definition covered d : Prop := covered_by (vnames d) (containers d).

Lemma mounts_in_mono V V' ms : V ⊆ V' → mounts_in V ms → mounts_in V' ms.
Proof. intros HV Hf. eapply Forall_impl; [exact Hf|]. intros vm. apply HV. Qed.

Lemma covered_by_mono V V' cs : V ⊆ V' → covered_by V cs → covered_by V' cs.
Proof. intros HV Hf. eapply Forall_impl; [exact Hf|]. intros c. by apply mounts_in_mono. Qed.

Lemma covered_by_find V cs name i c :
  covered_by V cs → find_name name cs = Some (i, c) → mounts_in V (c_VolumeMounts c).
Proof.
  intros Hc [Hl _]%find_name_Some. by eapply (Forall_lookup_1 _ _ _ _ Hc).
Qed.

Lemma covered_by_insert V cs i c :
  covered_by V cs → mounts_in V (c_VolumeMounts c) → covered_by V (<[i := c]> cs).
Proof. intros. by apply Forall_insert. Qed.

Lemma covered_by_app V cs cs' : covered_by V (cs ++ cs') ↔ covered_by V cs ∧ covered_by V cs'.
Proof. apply Forall_app. Qed.

Lemma covered_by_putContainer V c cs :
  covered_by V cs → mounts_in V (c_VolumeMounts c) → covered_by V (putContainer c cs).
Proof.
  intros Hcs Hc. unfold putContainer. destruct (find_name _ _) as [[i x]|].
  - by apply covered_by_insert.
  - apply covered_by_app. split; [done|]. by apply Forall_singleton.
Qed.

Lemma covered_by_swap V i j cs : covered_by V cs → covered_by V (swap i j cs).
Proof.
  intros H. unfold covered_by. by rewrite swap_Permutation.
Qed.

Lemma mounts_in_putMount V vm ms :
  mounts_in V ms → vm_Name vm ∈ V → mounts_in V (putMount vm ms).
Proof.
  intros Hms Hvm. unfold putMount. case_bool_decide.
  - unfold mounts_in in *. rewrite Forall_forall in *. intros x Hx.
    apply list_elem_of_In, in_map_iff in Hx as (y & <- & Hy).
    rewrite <- list_elem_of_In in Hy. case_bool_decide; [done|]. by apply Hms.
  - apply Forall_app. split; [done|]. by apply Forall_singleton.
Qed.

Lemma mounts_in_putFirstMount V vm ms :
  mounts_in V ms → vm_Name vm ∈ V → mounts_in V (putFirstMount vm ms).
Proof.
  intros Hms Hvm. induction ms as [|x ms IH]; simpl; [by apply Forall_singleton|].
  apply Forall_cons in Hms as [Hx Hms]. case_bool_decide.
  - apply Forall_cons. done.
  - apply Forall_cons. split; [done|]. by apply IH.
Qed.

Lemma setEnvironmentVar_covered V name k v d d' :
  setEnvironmentVar name k v d = Ok d' → covered_by V (containers d) →
  covered_by V (containers d') ∧ vnames d' = vnames d.
Proof.
  unfold setEnvironmentVar, findContainer.
  destruct (find_name name (containers d)) as [[i c]|] eqn:E; [|done].
  intros [= <-] Hc. split; [|done]. simpl. apply covered_by_insert; [done|]. simpl.
  by eapply covered_by_find.
Qed.

Lemma setMMEnv_covered V vars d d' :
  setMMEnv vars d = Ok d' → covered_by V (containers d) →
  covered_by V (containers d') ∧ vnames d' = vnames d.
Proof.
  revert d. induction vars as [|[k v] vars IH]; intros d; simpl; [by intros [= <-]|].
  destruct (setEnvironmentVar _ k v d) as [d1|] eqn:E; [|done]. intros Hs Hc.
  destruct (setEnvironmentVar_covered V _ _ _ _ _ E Hc) as [H1 H2].
  destruct (IH _ Hs H1) as [H3 H4]. split; [done|congruence].
Qed.
End Covered.

(** ** Environment variables *)

(** The value of a variable: that of the first entry of its name *)
Fixpoint env_lookup (k : string) (env : list EnvVar) : option string :=
  match env with
  | [] => None
  | e :: rest => if decide (ev_Name e = k) then Some (ev_Value e) else env_lookup k rest
  end.

(** The last value that a sequence of assignments gives a variable *)
Definition last_value (k : string) (vars : list (string * string)) : option string :=
  foldl (λ acc kv, if bool_decide (kv.1 = k) then Some kv.2 else acc) None vars.

(** The environment of the model-mesh container *)
Definition mmEnv (d : DeploymentObj) : option (list EnvVar) :=
  (λ ic, c_Env ic.2) <$> findContainer ModelMeshContainerName d.

Lemma setMMEnv_app vars vars' d :
  setMMEnv (vars ++ vars') d =
    match setMMEnv vars d with Ok d' => setMMEnv vars' d' | Err e => Err e end.
Proof.
  revert d. induction vars as [|[k v] vars IH]; intros d; simpl; [done|].
  destruct (setEnvironmentVar _ k v d); [apply IH|done].
Qed.

Lemma addMMEnvVars_vars m d d' :
  addMMEnvVars m d = Ret (Ok d') →
  ∃ mg, managementEnvVar m = Ret mg ∧
        setMMEnv (firstEnvVars m ++ mg :: laterEnvVars m) d = Ok d'.
Proof.
  unfold addMMEnvVars. destruct (setMMEnv (firstEnvVars m) d) as [d1|] eqn:E1; [|done].
  destruct (managementEnvVar m) as [mg|]; simpl; [|done]. intros [= Hs].
  exists mg. split; [done|]. rewrite setMMEnv_app, E1. done.
Qed.

Lemma env_lookup_set k k' v env :
  env_lookup k (set_env_value k' v env) = if decide (k = k') then Some v else env_lookup k env.
Proof.
  induction env as [|e env IH]; simpl; [|case_bool_decide; simpl; rewrite ?IH];
    repeat case_decide; congruence.
Qed.

Lemma setEnvironmentVar_mm k v d d' :
  setEnvironmentVar ModelMeshContainerName k v d = Ok d' →
  ∃ env, mmEnv d = Some env ∧ mmEnv d' = Some (set_env_value k v env).
Proof.
  unfold setEnvironmentVar, mmEnv. destruct (findContainer _ d) as [[i c]|] eqn:E; [|done].
  intros [= <-]. exists (c_Env c). split; [done|].
  unfold findContainer in *. autorewrite with go.
  erewrite find_name_insert; [|exact E|]; [done|]. simpl. by apply find_name_Some in E as [_ ?].
Qed.

Lemma last_value_cons k k' v vars :
  last_value k ((k', v) :: vars) =
    match last_value k vars with
    | Some w => Some w | None => if decide (k = k') then Some v else None
    end.
Proof.
  unfold last_value. simpl.
  assert (∀ acc, foldl (λ acc kv, if bool_decide (kv.1 = k) then Some kv.2 else acc) acc vars
    = match foldl (λ acc kv, if bool_decide (kv.1 = k) then Some kv.2 else acc) None vars with
      | Some w => Some w | None => acc end) as Hacc.
  { induction vars as [|[k1 v1] vars IH]; intros acc; simpl; [done|].
    case_bool_decide; [|apply IH]. rewrite (IH (Some v1)). by case_match. }
  rewrite Hacc. destruct (foldl _ None vars); [done|].
  case_bool_decide; case_decide; congruence.
Qed.

(** After a sequence of assignments a variable has the last value assigned to it. *)
Lemma setMMEnv_last vars d d' :
  setMMEnv vars d = Ok d' → is_Some (mmEnv d) →
  ∃ env env', mmEnv d = Some env ∧ mmEnv d' = Some env' ∧
    ∀ k, env_lookup k env' = match last_value k vars with
                             | Some v => Some v | None => env_lookup k env end.
Proof.
  revert d. induction vars as [|[k v] vars IH]; intros d; cbn [setMMEnv].
  - intros [= <-] [env He]. by exists env, env.
  - destruct (setEnvironmentVar _ k v d) as [d1|] eqn:E; [|done]. intros Hs _.
    apply setEnvironmentVar_mm in E as (env & He & He1).
    destruct (IH _ Hs (mk_is_Some _ _ He1)) as (env1 & env2 & H1 & H2 & H3).
    exists env, env2. split_and!; [done|done|]. intros x.
    rewrite H3, last_value_cons. simplify_eq. rewrite env_lookup_set.
    destruct (last_value x vars); [done|]. by case_decide.
Qed.

Lemma last_value_app k vars vars' :
  last_value k (vars ++ vars') =
    match last_value k vars' with Some v => Some v | None => last_value k vars end.
Proof.
  induction vars as [|[k1 v1] vars IH]; cbn [app]; [by destruct (last_value k vars')|].
  rewrite !last_value_cons, IH. by destruct (last_value k vars').
Qed.

Lemma last_value_None k vars : k ∉ map fst vars → last_value k vars = None.
Proof.
  induction vars as [|[k1 v1] vars IH]; [done|]. rewrite last_value_cons. intros Hk.
  cbn [map fst] in Hk. apply not_elem_of_cons in Hk as [H1 H2].
  rewrite (IH H2). by rewrite decide_False.
Qed.

(** ** The shared cells *)

Lemma baseMounts_in m V :
  ModelsDirVolume ∈ V → dep_PVCs m ⊆ V → mounts_in V (baseMounts m).
Proof.
  intros Hm Hp. apply Forall_cons. split; [done|]. apply Forall_forall.
  intros vm Hvm. apply list_elem_of_In, in_map_iff in Hvm as (p & <- & Hin).
  apply Hp. by apply list_elem_of_In.
Qed.

#[local] Opaque baseMounts.

Section Cells.
Variable m : MMDeployment.
Variable spare : nat.
Variable good : VolumeMount → Prop.

Definition goodto (cells : list VolumeMount) (k : nat) : Prop :=
  ∀ i vm, i < k → cells !! i = Some vm → good vm.

Lemma write_cells_lookup n xs cells i :
  n + length xs ≤ length cells →
  write_cells n xs cells !! i =
    if decide (i < n) then cells !! i
    else if decide (i < n + length xs) then xs !! (i - n) else cells !! i.
Proof.
  intros Hn. unfold write_cells.
  assert (length (take n cells) = n) as Hl by (rewrite length_take; lia).
  case_decide as H1; [|case_decide as H2].
  - rewrite lookup_app_l by lia. by rewrite lookup_take_lt.
  - rewrite lookup_app_r, Hl by lia. by rewrite lookup_app_l by lia.
  - rewrite lookup_app_r, Hl by lia. rewrite lookup_app_r by lia.
    rewrite lookup_drop. f_equal. lia.
Qed.

Lemma write_cells_length n xs cells :
  n + length xs ≤ length cells → length (write_cells n xs cells) = length cells.
Proof. intros. unfold write_cells. rewrite !length_app, length_take, length_drop. lia. Qed.

(** A slice all of whose contents are good *)
Definition slice_good (cells : list VolumeMount) (s : mslice) : Prop :=
  match s with
  | MShared n => n ≤ spare ∧ goodto cells n
  | MOwn l => Forall good l
  end.

Lemma append_m_good cells s xs cells' s' :
  Forall good (baseMounts m) → Forall good xs → length cells = spare →
  slice_good cells s → append_m m spare cells s xs = (cells', s') →
  length cells' = spare ∧ slice_good cells' s' ∧
  (∀ t, slice_good cells t → slice_good cells' t).
Proof.
  intros Hb Hxs Hlen Hs. unfold append_m. destruct s as [n|l]; simpl in Hs.
  - destruct Hs as [Hn Hg]. case_bool_decide as Hfit; intros [= <- <-].
    + assert (Hw : ∀ k, goodto cells k → goodto (write_cells n xs cells) k).
      { intros k Hk i vm Hi. rewrite write_cells_lookup by lia.
        case_decide; [by apply Hk|]. case_decide; [|by apply Hk].
        intros Hx. by eapply (Forall_lookup_1 _ _ _ _ Hxs). }
      split; [by rewrite write_cells_length by lia|]. split.
      * split; [done|]. intros i vm Hi. rewrite write_cells_lookup by lia.
        case_decide as H1; [by apply Hg|]. rewrite decide_True by lia.
        intros Hx. by eapply (Forall_lookup_1 _ _ _ _ Hxs).
      * intros [k|l]; simpl; [|done]. intros [? ?]. split; [done|]. by apply Hw.
    + split; [done|]. split; [|done]. cbn [slice_good]. apply Forall_app_2; [done|].
      apply Forall_app_2; [|done].
      apply Forall_lookup_2. intros i vm Hi. apply lookup_take_Some in Hi as [Hi Hlt].
      by eapply Hg.
  - intros [= <- <-]. split; [done|]. split; [|done]. simpl. by apply Forall_app.
Qed.

Lemma resolve_good cells s :
  Forall good (baseMounts m) → slice_good cells s → Forall good (resolve_m m cells s).
Proof.
  intros Hb. destruct s as [n|l]; cbn [slice_good resolve_m]; [|done]. intros [_ Hg].
  apply Forall_app_2; [done|]. apply Forall_lookup_2. intros i vm Hi.
  apply lookup_take_Some in Hi as [Hi Hlt]. by eapply Hg.
Qed.

Lemma addDomainSocketMount_good cells s cells' s' :
  Forall good (baseMounts m) → (∀ vm, socketMount m = Ok (Some vm) → good vm) →
  length cells = spare → slice_good cells s →
  addDomainSocketMount m spare cells s = Ok (cells', s') →
  length cells' = spare ∧ slice_good cells' s' ∧
  (∀ t, slice_good cells t → slice_good cells' t).
Proof.
  intros Hb Hso Hlen Hs. unfold addDomainSocketMount.
  destruct (socketMount m) as [[vm|]|] eqn:E; [| |done].
  - intros [= Ha]. eapply append_m_good; [done| |done|done|exact Ha].
    apply Forall_singleton. by apply Hso.
  - by intros [= <- <-].
Qed.

Lemma slice_good_start cells : slice_good cells (MShared 0).
Proof. split; [lia|]. intros i vm Hi. lia. Qed.

Lemma prepareContainers_good cs cells cells' out :
  Forall good (baseMounts m) → (∀ vm, socketMount m = Ok (Some vm) → good vm) →
  Forall (λ c, Forall good (c_VolumeMounts c)) cs →
  length cells = spare →
  prepareContainers m spare cells cs = Ok (cells', out) →
  length cells' = spare ∧ Forall (λ cm, slice_good cells' cm.2) out ∧
  (∀ t, slice_good cells t → slice_good cells' t).
Proof.
  intros Hb Hso Hcs. revert cells cells' out.
  induction Hcs as [|c cs Hc Hcs IH]; intros cells cells' out Hlen;
    cbn [prepareContainers].
  { intros [= <- <-]. split; [done|]. by split. }
  destruct (append_m m spare cells (MShared 0) (c_VolumeMounts c)) as [cells1 s1] eqn:E1.
  destruct (append_m_good _ _ _ _ _ Hb Hc Hlen (slice_good_start cells) E1)
    as (L1 & G1 & M1).
  destruct (addDomainSocketMount m spare cells1 s1) as [[cells2 s2]|] eqn:E2; [|done].
  destruct (addDomainSocketMount_good _ _ _ _ Hb Hso L1 G1 E2) as (L2 & G2 & M2).
  destruct (prepareContainers m spare cells2 cs) as [[cells3 out3]|] eqn:E3; [|done].
  destruct (IH _ _ _ L2 E3) as (L3 & G3 & M3).
  intros [= <- <-]. split; [done|]. split.
  - apply Forall_cons. split; [by apply M3|done].
  - intros t Ht. by apply M3, M2, M1.
Qed.

Lemma adapterContainer_good cells cs a cells' x :
  Forall good (baseMounts m) → (∀ vm, socketMount m = Ok (Some vm) → good vm) →
  good (mkVM ConfigStorageMount PullerConfigPath true) → length cells = spare →
  adapterContainer m spare cells cs a = Ok (cells', x) →
  slice_good cells' x.2 ∧ (∀ t, slice_good cells t → slice_good cells' t).
Proof.
  intros Hb Hso Hst Hlen. unfold adapterContainer.
  destruct (append_m m spare cells (MShared 0) _) as [cells1 s1] eqn:E1.
  destruct (append_m_good _ _ _ _ _ Hb (proj2 (Forall_singleton _ _) Hst) Hlen
              (slice_good_start cells) E1) as (L1 & G1 & M1).
  assert (Hd : ∀ cells2 s2 e2,
    match sr_GrpcDataEndpoint (dep_SRSpec m) with
    | Some e => match addDomainSocketMount m spare cells1 s1 with
                | Ok (cells, s) => Ok (cells, s, e) | Err e => Err e end
    | None => Ok (cells1, s1, "port:" +:+ Itoa (bia_RuntimeManagementPort a))
    end = Ok (cells2, s2, e2) →
    slice_good cells2 s2 ∧ ∀ t, slice_good cells1 t → slice_good cells2 t).
  { intros cells2 s2 e2. destruct (sr_GrpcDataEndpoint (dep_SRSpec m)).
    - destruct (addDomainSocketMount m spare cells1 s1) as [[c3 s3]|] eqn:E2; [|done].
      destruct (addDomainSocketMount_good _ _ _ _ Hb Hso L1 G1 E2) as (L2 & G2 & M2).
      by intros [= <- <- _].
    - by intros [= <- <- _]. }
  cbn zeta. set (wd := match sr_GrpcDataEndpoint _ with Some _ => _ | None => _ end) in *.
  destruct wd as [[[cells2 s2] e2]|]; [|done].
  destruct (Hd _ _ _ eq_refl) as [G2 M2].
  intros Hfin. assert (cells' = cells2 ∧ x.2 = s2) as [-> ->].
  { destruct (sr_GrpcMultiModelManagementEndpoint _); [destruct (matchPort _)|];
      by simplify_eq/=. }
  split; [done|]. intros t Ht. by apply M2, M1.
Qed.
End Cells.

(** ** The transformations keep mounts covered *)

(** Endpoints are of one of the two documented forms. *)
Definition endpoints_valid (rts : ServingRuntimeSpec) : Prop :=
  from_option endpoint_valid True (sr_GrpcDataEndpoint rts) ∧
  from_option endpoint_valid True (sr_GrpcMultiModelManagementEndpoint rts).

(** The containers of the runtime mount its own volumes or the models directory. *)
Definition user_mounts_ok (rts : ServingRuntimeSpec) : Prop :=
  covered_by (map v_Name (sr_Volumes rts) ++ [ModelsDirVolume]) (sr_Containers rts).

Lemma ParseEndpoint_unix e p pp :
  endpoint_valid e → ParseEndpoint e = UnixEndpoint p pp → HasPrefix e "unix:" = true.
Proof.
  intros Hv He. rewrite <- (findParentPath_unix e Hv). unfold findParentPath. by rewrite He.
Qed.

Lemma socketMount_volume m vm :
  endpoints_valid (dep_SRSpec m) → socketMount m = Ok (Some vm) →
  vm_Name vm = SocketVolume ∧ (unixDomainSockets (dep_SRSpec m)).1.1 = true.
Proof.
  intros [Hd Hm]. unfold socketMount. rewrite unixDomainSockets_iff.
  destruct (sr_GrpcDataEndpoint (dep_SRSpec m)) as [de|];
    destruct (sr_GrpcMultiModelManagementEndpoint (dep_SRSpec m)) as [me|];
    cbn [foldl from_option] in *.
  - destruct (ParseEndpoint de) eqn:Ed; [destruct (ParseEndpoint me) eqn:Em|].
    + done.
    + intros [= <-]. split; [done|]. exists me. split; [by right|]. by eapply ParseEndpoint_unix.
    + intros Hs. split; [|exists de; split; [by left|by eapply ParseEndpoint_unix]].
      destruct (ParseEndpoint me); [by simplify_eq|]. destruct (_ && _); by simplify_eq.
  - destruct (ParseEndpoint de) eqn:Ed; [done|]. intros [= <-]. split; [done|].
    exists de. split; [by left|]. by eapply ParseEndpoint_unix.
  - destruct (ParseEndpoint me) eqn:Em; [done|]. intros [= <-]. split; [done|].
    exists me. split; [by right|]. by eapply ParseEndpoint_unix.
  - done.
Qed.

Section Mounts.
Context `{!ProtocolNames}.
Variables (m : MMDeployment) (spare : nat).
Variables (Union : list (gmap string string) → gmap string string)
  (sortedList : gset string → list string) (tlsSecret : result error (gmap string string))
  (TrimSpace : string → string).
Hypothesis Hvalid : endpoints_valid (dep_SRSpec m).
Hypothesis Huser : user_mounts_ok (dep_SRSpec m).

(** The names of the volumes that the first transformation declares *)
Definition podVolumes : list string :=
  map v_Name (sr_Volumes (dep_SRSpec m)) ++ [ModelsDirVolume] ++
  (if (unixDomainSockets (dep_SRSpec m)).1.1 then [SocketVolume] else []) ++
  (if bool_decide (is_Some (sr_BuiltInAdapter (dep_SRSpec m))) ||
      useStorageHelper (dep_SRSpec m) then [ConfigStorageMount] else []) ++
  dep_PVCs m.

Definition Inv (d : DeploymentObj) : Prop := podVolumes ⊆ vnames d ∧ covered d.

Definition preserves (f : Transform) : Prop :=
  ∀ d d', Inv d → f d = Ret (Ok d') → Inv d'.

Lemma transform_preserves fs d d' :
  Forall preserves fs → Inv d → transform fs d = Ret (Ok d') → Inv d'.
Proof.
  intros Hfs. revert d. induction Hfs as [|f fs Hf Hfs IH]; intros d Hi; simpl.
  - by intros [= <-].
  - destruct (f d) as [[d1|e]|] eqn:E; simpl; [|done..]. apply IH. by eapply Hf.
Qed.

Lemma addVolumes_vnames d d' :
  addVolumesToDeployment m d = Ret (Ok d') →
  vnames d' = podVolumes ∧ containers d' = containers d.
Proof.
  intros [= <-]. split; [|done]. unfold vnames, podVolumes, volumes. simpl.
  rewrite !map_app. cbn [map app]. rewrite !map_app, map_map.
  cbn [v_Name]. rewrite map_id.
  by destruct (unixDomainSockets _) as [[[] ?] ?]; destruct (_ || _).
Qed.

Lemma models_in_pod : ModelsDirVolume ∈ podVolumes.
Proof. unfold podVolumes. set_solver. Qed.

Lemma pvcs_in_pod : dep_PVCs m ⊆ podVolumes.
Proof. unfold podVolumes. set_solver. Qed.

Lemma user_in_pod : covered_by podVolumes (sr_Containers (dep_SRSpec m)).
Proof. eapply covered_by_mono; [|exact Huser]. unfold podVolumes. set_solver. Qed.

Lemma socket_in_pod vm : socketMount m = Ok (Some vm) → vm_Name vm ∈ podVolumes.
Proof.
  intros [-> Hu]%socketMount_volume; [|done]. unfold podVolumes. rewrite Hu. set_solver.
Qed.

Lemma storage_in_pod :
  is_Some (sr_BuiltInAdapter (dep_SRSpec m)) ∨ useStorageHelper (dep_SRSpec m) = true →
  ConfigStorageMount ∈ podVolumes.
Proof.
  intros Hs. unfold podVolumes.
  assert (bool_decide (is_Some (sr_BuiltInAdapter (dep_SRSpec m))) ||
          useStorageHelper (dep_SRSpec m) = true) as ->; [|set_solver].
  apply orb_true_iff. rewrite bool_decide_eq_true. tauto.
Qed.

Lemma mountPoint_in_pod mp : mountPoint (dep_SRSpec m) = (true, mp) → SocketVolume ∈ podVolumes.
Proof.
  intros Hmp. assert ((unixDomainSockets (dep_SRSpec m)).1.1 = true) as Hu.
  { apply unixDomainSockets_iff. destruct Hvalid as [Hd Hm']. unfold mountPoint in Hmp.
    destruct (sr_GrpcDataEndpoint (dep_SRSpec m)) as [e|]; simpl in Hd.
    - exists e. split; [by left|]. rewrite <- findParentPath_unix by done. by rewrite Hmp.
    - destruct (sr_GrpcMultiModelManagementEndpoint (dep_SRSpec m)) as [e|]; [|done].
      exists e. split; [by right|]. rewrite <- findParentPath_unix by done. by rewrite Hmp. }
  unfold podVolumes. rewrite Hu. set_solver.
Qed.

(** A change of one container's mounts by volumes that are declared *)
Lemma Inv_update_container d i c :
  Inv d → mounts_in (vnames d) (c_VolumeMounts c) →
  Inv (set_Containers (<[i := c]> (containers d)) d).
Proof. intros [Hp Hc] Hm. split; [done|]. by apply covered_by_insert. Qed.

Lemma Inv_add_containers d cs :
  Inv d → covered_by (vnames d) cs → Inv (set_Containers (containers d ++ cs) d).
Proof. intros [Hp Hc] Hcs. split; [done|]. by apply covered_by_app. Qed.

Lemma Inv_env d d' vars : setMMEnv vars d = Ok d' → Inv d → Inv d'.
Proof.
  intros Hs [Hp Hc]. destruct (setMMEnv_covered _ _ _ _ Hs Hc) as [H1 H2].
  split; [by rewrite H2|]. unfold covered. by rewrite H2.
Qed.

(** More volumes keep what holds. *)
Lemma Inv_grow d d' :
  vnames d ⊆ vnames d' → covered_by (vnames d') (containers d') → Inv d → Inv d'.
Proof. intros Hv Hc [Hp _]. split; [by etrans|done]. Qed.

Lemma putVolume_names v vs :
  map v_Name vs ⊆ map v_Name (putVolume v vs) ∧ v_Name v ∈ map v_Name (putVolume v vs).
Proof.
  induction vs as [|x vs [IH1 IH2]]; simpl; [set_solver|].
  case_bool_decide as Hn; simpl; [rewrite Hn|]; set_solver.
Qed.

Lemma addMMDomainSocketMount_preserves : preserves (addMMDomainSocketMount m).
Proof.
  intros d d' Hi. unfold addMMDomainSocketMount, findContainer.
  destruct (find_name _ _) as [[i c]|] eqn:E; [|done].
  destruct (mountPoint (dep_SRSpec m)) as [[] mp] eqn:Emp; intros [= <-]; [|done].
  apply Inv_update_container; [done|]. simpl. apply Forall_app. split.
  - eapply covered_by_find; [apply Hi|done].
  - apply Forall_singleton. apply Hi. by eapply mountPoint_in_pod.
Qed.

Lemma addRuntimeToDeployment_preserves : preserves (addRuntimeToDeployment m spare).
Proof.
  intros d d' [Hp Hc]. unfold addRuntimeToDeployment.
  destruct (prepareContainers _ _ _ _) as [[cells prepared]|] eqn:Epr; [|done].
  set (good := λ vm, vm_Name vm ∈ podVolumes).
  assert (Hb : Forall good (baseMounts m))
    by (apply baseMounts_in; [apply models_in_pod|apply pvcs_in_pod]).
  assert (Hso : ∀ vm, socketMount m = Ok (Some vm) → good vm) by apply socket_in_pod.
  destruct (prepareContainers_good m spare good _ _ _ _ Hb Hso user_in_pod
              (length_replicate _ _) Epr) as (Hlen & Hgood & _).
  cbn zeta. set (names := foldl _ _ prepared).
  set (wa := match sr_BuiltInAdapter _ with Some _ => _ | None => _ end).
  assert (Hwa : ∀ cells' adapter, wa = Ok (cells', adapter) →
    Forall (λ cm, slice_good spare good cells' cm.2) adapter ∧
    ∀ t, slice_good spare good cells t → slice_good spare good cells' t).
  { subst wa. intros cells' adapter.
    destruct (sr_BuiltInAdapter (dep_SRSpec m)) as [a|] eqn:Ea.
    - destruct (adapterContainer m spare cells names a) as [[c1 x]|] eqn:Ead; [|done].
      intros [= <- <-].
      destruct (adapterContainer_good m spare good _ _ _ _ _ Hb Hso
                  (storage_in_pod (or_introl (mk_is_Some _ _ Ea))) Hlen Ead) as [G M].
      split; [|done]. by apply Forall_singleton.
    - intros [= <- <-]. done. }
  destruct wa as [[cells' adapter]|]; [|done].
  destruct (Hwa _ _ eq_refl) as [Hga Hmono]. intros [= <-].
  split; [done|]. apply covered_by_app.
  assert (Hres : ∀ cm : Container * mslice, slice_good spare good cells' cm.2 →
    mounts_in (vnames d) (c_VolumeMounts (set_Mounts (resolve_m m cells' cm.2) cm.1))).
  { intros cm Hcm. eapply mounts_in_mono; [exact Hp|]. simpl. by apply (resolve_good m spare). }
  split.
  - clear -Hc Hgood Hmono Hres. change (covered_by (vnames d) (containers d)) in Hc.
    revert Hc. generalize (containers d) as cs.
    induction Hgood as [|cm out Hg Hout IH]; intros cs Hcs; simpl; [done|].
    apply IH. apply covered_by_putContainer; [done|]. apply Hres. by apply Hmono.
  - apply Forall_map. eapply Forall_impl; [exact Hga|]. exact Hres.
Qed.

Lemma addModelTypeConstraints_preserves : preserves (addModelTypeConstraints m sortedList).
Proof.
  intros d d' Hi. unfold addModelTypeConstraints, findContainer.
  destruct (find_name _ _) as [[i c]|] eqn:E; [|done]. intros [= <-].
  assert (vnames d ⊆ vnames d ++ [InternalConfigMapName]) as Hsub by set_solver.
  apply (Inv_grow d); [| |done].
  - unfold vnames at 2, volumes. simpl. rewrite map_app. done.
  - unfold vnames, volumes. simpl. rewrite map_app. apply covered_by_insert.
    + eapply covered_by_mono; [exact Hsub|]. apply Hi.
    + simpl. apply Forall_app. split; [|apply Forall_singleton; simpl; set_solver].
      eapply mounts_in_mono; [exact Hsub|]. eapply covered_by_find; [apply Hi|done].
Qed.

Lemma configureEtcd_preserves : preserves (configureMMDeploymentForEtcdSecret m).
Proof.
  intros d d' [Hp Hc]. unfold configureMMDeploymentForEtcdSecret, findContainer. cbn zeta.
  set (d1 := match find_name _ _ with Some _ => _ | None => _ end).
  assert (Hv1 : volumes d1 = volumes d) by (subst d1; by destruct (find_name _ _) as [[]|]).
  assert (Hc1 : ∀ V, vnames d ⊆ V → EtcdVolume ∈ V → covered_by V (containers d1)).
  { intros V HV He. subst d1. destruct (find_name _ _) as [[i c]|] eqn:E; simpl.
    - apply covered_by_insert; [by eapply covered_by_mono|]. simpl.
      apply mounts_in_putMount; [|done]. eapply mounts_in_mono; [exact HV|].
      by eapply covered_by_find.
    - by eapply covered_by_mono. }
  clearbody d1. intros [= <-]. unfold Inv, covered, vnames in *. case_bool_decide as He.
  - rewrite Hv1 in *. split; [done|]. by apply Hc1.
  - unfold volumes. simpl. rewrite map_app. change (pod_Volumes (d_Spec d1)) with (volumes d1).
    rewrite Hv1. split; [set_solver|]. apply Hc1; set_solver.
Qed.

Lemma configureTLS_preserves : preserves (configureMMDeploymentForTLSSecret m tlsSecret TrimSpace).
Proof.
  intros d d' Hi. unfold configureMMDeploymentForTLSSecret.
  case_bool_decide; [by intros [= <-]|].
  destruct tlsSecret as [data|]; [|done]. intros [= <-].
  destruct (putVolume_names (mkVolume tlsSecretVolume (SecretSource (dep_TLSSecretName m)))
              (volumes d)) as [Hsub Hin].
  apply (Inv_grow d); [done| |done]. unfold containers at 1. simpl.
  apply Forall_map. destruct Hi as [_ Hc].
  assert (covered_by (vnames (set_Volumes (putVolume (mkVolume tlsSecretVolume
    (SecretSource (dep_TLSSecretName m))) (volumes d)) d)) (containers d)) as Hc'
    by (by eapply covered_by_mono).
  eapply Forall_impl; [exact Hc'|]. intros c Hm. simpl.
  destruct (_ || _); [|done]. simpl. by apply mounts_in_putFirstMount.
Qed.

Lemma ensureLast_preserves : preserves ensureMMContainerIsLast.
Proof.
  intros d d' Hi. unfold ensureMMContainerIsLast, findContainer.
  destruct (find_name _ _) as [[i c]|]; [|by intros [= <-]].
  case_bool_decide; intros [= <-]; [done|]. destruct Hi as [Hp Hc]. split; [done|].
  by apply covered_by_swap.
Qed.

Lemma addPullerSidecar_preserves :
  useStorageHelper (dep_SRSpec m) = true → preserves (addPullerSidecar m).
Proof.
  intros Hu d d' Hi. unfold addPullerSidecar.
  destruct (sr_GrpcMultiModelManagementEndpoint (dep_SRSpec m)) as [ep|] eqn:Eep; [|done].
  simpl. destruct (ValidateEndpoint ep) as [e|] eqn:Ev; [|done]. intros [= <-].
  assert (e = ep ∧ endpoint_valid ep) as [-> Hep].
  { unfold ValidateEndpoint in Ev. destruct (matchPort ep || HasPrefix ep "unix:") eqn:Eb;
      [|done]. split; [congruence|]. by apply orb_true_iff. }
  apply Inv_add_containers; [done|]. apply Forall_singleton. simpl.
  eapply mounts_in_mono; [apply Hi|].
  repeat (apply Forall_cons; split); [apply models_in_pod|apply storage_in_pod; by right|].
  apply Forall_app. split.
  - destruct (ParseEndpoint ep) eqn:Epe; [constructor|]. apply Forall_singleton. simpl.
    assert ((unixDomainSockets (dep_SRSpec m)).1.1 = true) as Hx.
    { apply unixDomainSockets_iff. exists ep. split; [by right|].
      by eapply ParseEndpoint_unix. }
    unfold podVolumes. rewrite Hx. set_solver.
  - apply Forall_map. apply Forall_forall. intros p Hin. by apply pvcs_in_pod.
Qed.

(** Transformations that change neither containers nor volumes *)
Lemma same_pod_preserves (f : Transform) :
  (∀ d d', f d = Ret (Ok d') → containers d' = containers d ∧ volumes d' = volumes d) →
  preserves f.
Proof.
  intros Hf d d' [Hp Hc] [H1 H2]%Hf. unfold Inv, covered, vnames in *. by rewrite H1, H2.
Qed.

Lemma env_preserves (f : Transform) :
  (∀ d d', f d = Ret (Ok d') → ∃ vars, setMMEnv vars d = Ok d') → preserves f.
Proof. intros Hf d d' Hi [vars Hv]%Hf. by eapply Inv_env. Qed.

Lemma syncGracePeriod_env d d' :
  syncGracePeriod d = Ret (Ok d') → ∃ vars, setMMEnv vars d = Ok d'.
Proof.
  unfold syncGracePeriod. destruct (pod_TerminationGracePeriodSeconds _) as [g|].
  - intros [= Hs]. exists [("SHUTDOWN_TIMEOUT_MS", Itoa (wrap64 (g * 1000)))]. simpl. by rewrite Hs.
  - intros [= <-]. by exists [].
Qed.

Lemma addMMEnvVars_env d d' :
  addMMEnvVars m d = Ret (Ok d') → ∃ vars, setMMEnv vars d = Ok d'.
Proof.
  intros (mg & _ & Hs)%addMMEnvVars_vars. by eexists.
Qed.

Lemma addRESTProxy_preserves : preserves (addRESTProxyToDeployment m).
Proof.
  intros d d' Hi. unfold addRESTProxyToDeployment.
  destruct (dep_RESTProxyEnabled m); intros [= <-]; [|done].
  apply Inv_add_containers; [done|]. apply Forall_singleton. constructor.
Qed.

Lemma addVolumes_establishes d d' :
  Forall (λ c, c_VolumeMounts c = []) (containers d) →
  addVolumesToDeployment m d = Ret (Ok d') → Inv d'.
Proof.
  intros Ht [H1 H2]%addVolumes_vnames. unfold Inv, covered. rewrite H1, H2. split; [done|].
  eapply Forall_impl; [exact Ht|]. intros c Hc. rewrite Hc. constructor.
Qed.

Lemma laterTransforms_preserve :
  Forall preserves (tail (deploymentTransforms m spare Union sortedList tlsSecret TrimSpace)).
Proof.
  unfold deploymentTransforms. cbn [tail]. split_forall.
  - apply addMMDomainSocketMount_preserves.
  - apply same_pod_preserves. by intros d d' [= <-].
  - apply addRuntimeToDeployment_preserves.
  - apply env_preserves, syncGracePeriod_env.
  - apply env_preserves, addMMEnvVars_env.
  - apply addModelTypeConstraints_preserves.
  - apply configureEtcd_preserves.
  - apply addRESTProxy_preserves.
  - apply configureTLS_preserves.
  - apply same_pod_preserves. by intros d d' [= <-].
  - apply same_pod_preserves. by intros d d' [= <-].
  - apply ensureLast_preserves.
  - apply same_pod_preserves. by intros d d' [= <-].
Qed.

(** C10: For a runtime whose endpoints have one of the two documented forms and whose
    containers mount only its own volumes or the models directory, and a template
    whose containers mount nothing, every volume that a container of the resulting
    deployment mounts is declared in the pod: runtime containers, adapter, puller,
    REST proxy and model mesh alike. *)
Theorem mounts_have_volumes template d :
  Forall (λ c, c_VolumeMounts c = []) (containers template) →
  ApplyDeployment m spare Union sortedList tlsSecret TrimSpace template = Ret (Ok d) →
  covered d.
Proof.
  intros Ht Ha. enough (Inv d) as [_ ?] by done. revert Ha. unfold ApplyDeployment.
  destruct (transform _ template) as [[d1|]|] eqn:Et; simpl; [|done..].
  assert (Inv d1) as H1.
  { unfold deploymentTransforms in Et. cbn [transform] in Et.
    unfold mbind at 1, exec_bind at 1 in Et.
    destruct (addVolumesToDeployment m template) as [[d0|]|] eqn:E0; [|done..].
    eapply transform_preserves; [apply laterTransforms_preserve| |exact Et].
    by eapply addVolumes_establishes. }
  destruct (useStorageHelper _) eqn:Eu; [|by intros [= <-]].
  destruct (addPullerSidecar m d1) as [[d2|]|] eqn:E2; simpl; [|done..].
  intros [= <-]. by eapply addPullerSidecar_preserves.
Qed.
End Mounts.

(** ** The order of the containers *)

Section Order.
Context `{!ProtocolNames}.
Variables (m : MMDeployment) (spare : nat).
Variables (Union : list (gmap string string) → gmap string string)
  (sortedList : gset string → list string) (tlsSecret : result error (gmap string string))
  (TrimSpace : string → string).

Lemma transform_app fs gs d :
  transform (fs ++ gs) d =
    r ← transform fs d;
    match r with Ok d' => transform gs d' | Err e => Ret (Err e) end.
Proof.
  revert d. induction fs as [|f fs IH]; intros d; simpl; [done|].
  destruct (f d) as [[d1|]|]; simpl; [apply IH|done..].
Qed.

Definition has_mm (d : DeploymentObj) : Prop :=
  ModelMeshContainerName ∈ map c_Name (containers d).

Lemma find_mm d : has_mm d ↔ is_Some (findContainer ModelMeshContainerName d).
Proof.
  unfold findContainer, has_mm. rewrite <- not_eq_None_Some, find_name_None.
  destruct (decide (ModelMeshContainerName ∈ map c_Name (containers d))); tauto.
Qed.

Lemma names_insert i c c' cs :
  cs !! i = Some c → c_Name c' = c_Name c → map c_Name (<[i := c']> cs) = map c_Name cs.
Proof.
  intros Hi Hn. change (c_Name <$> <[i := c']> cs = c_Name <$> cs).
  rewrite list_fmap_insert, Hn. apply list_insert_id. by rewrite list_lookup_fmap, Hi.
Qed.

(** Constraints need the model-mesh container, and keep it. *)
Lemma addModelTypeConstraints_mm d d' :
  addModelTypeConstraints m sortedList d = Ret (Ok d') → has_mm d'.
Proof.
  unfold addModelTypeConstraints, findContainer.
  destruct (find_name _ _) as [[i c]|] eqn:E; [|done]. intros [= <-].
  apply find_name_Some in E as [Hi Hn]. unfold has_mm. autorewrite with go.
  erewrite names_insert by (exact Hi || done).
  rewrite <- Hn. apply list_elem_of_In, in_map, list_elem_of_In.
  by eapply list_elem_of_lookup_2.
Qed.

Definition keeps_mm (f : Transform) : Prop :=
  ∀ d d', has_mm d → f d = Ret (Ok d') → has_mm d'.

Lemma transform_keeps fs d d' :
  Forall keeps_mm fs → has_mm d → transform fs d = Ret (Ok d') → has_mm d'.
Proof.
  intros Hfs. revert d. induction Hfs as [|f fs Hf Hfs IH]; intros d Hd; simpl.
  - by intros [= <-].
  - destruct (f d) as [[d1|e]|] eqn:E; simpl; [|done..]. apply IH. by eapply Hf.
Qed.

Lemma same_containers_keep (f : Transform) :
  (∀ d d', f d = Ret (Ok d') → containers d' = containers d) → keeps_mm f.
Proof. intros Hf d d' Hd Hs%Hf. unfold has_mm. by rewrite Hs. Qed.

Lemma middle_keeps :
  Forall keeps_mm
    [configureMMDeploymentForEtcdSecret m; addRESTProxyToDeployment m;
     configureMMDeploymentForTLSSecret m tlsSecret TrimSpace;
     configureRuntimePodSpecAnnotations m Union; configureRuntimePodSpecLabels m Union].
Proof.
  split_forall.
  - intros d d' Hd. unfold configureMMDeploymentForEtcdSecret, findContainer. cbn zeta.
    set (d1 := match find_name _ _ with Some _ => _ | None => _ end). intros [= <-].
    assert (map c_Name (containers d1) = map c_Name (containers d)) as Hn.
    { subst d1. destruct (find_name _ _) as [[i c]|] eqn:E; [|done].
      apply find_name_Some in E as [Hi _].
      autorewrite with go. by eapply names_insert. }
    unfold has_mm. case_bool_decide; autorewrite with go; by rewrite Hn.
  - intros d d' Hd. unfold addRESTProxyToDeployment.
    destruct (dep_RESTProxyEnabled m); intros [= <-]; [|done].
    unfold has_mm. autorewrite with go.
    rewrite map_app. apply elem_of_app. by left.
  - intros d d' Hd. unfold configureMMDeploymentForTLSSecret.
    case_bool_decide; [by intros [= <-]|]. destruct tlsSecret as [data|]; [|done].
    intros [= <-]. unfold has_mm. autorewrite with go. rewrite map_map.
    erewrite map_ext; [exact Hd|]. intros c. simpl. by destruct (_ || _).
  - apply same_containers_keep. by intros d d' [= <-].
  - apply same_containers_keep. by intros d d' [= <-].
Qed.

(** After the swap the last container is the model-mesh one. *)
Lemma ensureMMContainerIsLast_last d d' :
  has_mm d → ensureMMContainerIsLast d = Ret (Ok d') →
  ∃ c, last (containers d') = Some c ∧ c_Name c = ModelMeshContainerName ∧
       containers d' ≡ₚ containers d.
Proof.
  intros [[i c] Hf]%find_mm. unfold ensureMMContainerIsLast. rewrite Hf. intros [= <-].
  unfold findContainer in Hf. apply find_name_Some in Hf as [Hi Hn].
  assert (Hlt := lookup_lt_Some _ _ _ Hi). exists c. case_bool_decide as Hl.
  - rewrite last_lookup, <- Nat.sub_1_r, <- Hl. done.
  - autorewrite with go. rewrite last_lookup, length_swap, swap_lookup by lia.
    rewrite decide_True by lia. split_and!; [done|done|apply swap_Permutation].
Qed.

(** When the deployment is built, the model-mesh container is the last one, or the
    last but the puller when the runtime uses the storage helper: the puller is
    appended after the reordering. *)
Theorem mm_container_position template d :
  ApplyDeployment m spare Union sortedList tlsSecret TrimSpace template = Ret (Ok d) →
  ∃ cs mm rest, containers d = cs ++ mm :: rest ∧ c_Name mm = ModelMeshContainerName ∧
    map c_Name rest =
      if useStorageHelper (dep_SRSpec m) then [PullerContainerName] else [].
Proof.
  unfold ApplyDeployment, deploymentTransforms.
  set (pre := [addVolumesToDeployment m; addMMDomainSocketMount m;
    addPassThroughPodFieldsToDeployment m; addRuntimeToDeployment m spare; syncGracePeriod;
    addMMEnvVars m]).
  set (mid := [configureMMDeploymentForEtcdSecret m; addRESTProxyToDeployment m;
     configureMMDeploymentForTLSSecret m tlsSecret TrimSpace;
     configureRuntimePodSpecAnnotations m Union; configureRuntimePodSpecLabels m Union]).
  change (transform (addVolumesToDeployment m :: _) template) with
    (transform (pre ++ [addModelTypeConstraints m sortedList] ++ mid ++
       [ensureMMContainerIsLast; configureRuntimePodSpecImagePullSecrets m]) template).
  assert (Forall keeps_mm mid) as Hmid by apply middle_keeps. clearbody pre mid.
  rewrite transform_app.
  destruct (transform pre template) as [[d1|]|]; simpl; [|done..].
  destruct (addModelTypeConstraints m sortedList d1) as [[d2|]|] eqn:E2; simpl; [|done..].
  rewrite (transform_app mid).
  destruct (transform mid d2) as [[d3|]|] eqn:E3; [|done..].
  unfold mbind, exec_bind. cbn [transform].
  apply addModelTypeConstraints_mm in E2. apply transform_keeps in E3; [|done..].
  destruct (ensureMMContainerIsLast d3) as [[d4|]|] eqn:E4; unfold mbind, exec_bind; [|done..].
  destruct (ensureMMContainerIsLast_last _ _ E3 E4) as (mm & Hl & Hn & _).
  apply last_Some in Hl as [cs Hcs].
  destruct (useStorageHelper (dep_SRSpec m)).
  - unfold addPullerSidecar. destruct (sr_GrpcMultiModelManagementEndpoint _) as [ep|]; [|done].
    simpl. destruct (ValidateEndpoint ep); [|done]. simpl. intros [= <-].
    unfold containers in *. simpl. rewrite Hcs, <- app_assoc. by eexists _, _, [_].
  - intros [= <-]. exists cs, mm, []. done.
Qed.
End Order.

(** ** The variables of the model-mesh container *)

(** An endpoint is passed in one variable when it is a TCP port, in another when it is a
    socket. *)
Definition portOf (ep : string) : option string :=
  match ParseEndpoint ep with TCPEndpoint port => Some port | UnixEndpoint _ _ => None end.
Definition socketOf (ep : string) : option string :=
  match ParseEndpoint ep with TCPEndpoint _ => None | UnixEndpoint path _ => Some path end.

(** The value the controller itself gives a variable, if any *)
Definition ownValue (m : MMDeployment) (k : string) : option string :=
  let spec := dep_SRSpec m in
  if decide (k = "INTERNAL_SERVING_GRPC_PORT") then sr_GrpcDataEndpoint spec ≫= portOf
  else if decide (k = "INTERNAL_SERVING_GRPC_SOCKET_PATH") then sr_GrpcDataEndpoint spec ≫= socketOf
  else if decide (k = "INTERNAL_GRPC_PORT") then
    if useStorageHelper spec then Some "8086"
    else sr_GrpcMultiModelManagementEndpoint spec ≫= portOf
  else if decide (k = "INTERNAL_GRPC_SOCKET_PATH") then
    if useStorageHelper spec then None
    else sr_GrpcMultiModelManagementEndpoint spec ≫= socketOf
  else if decide (k = "MM_LOG_EACH_INVOKE") then
    if dep_EnableAccessLogging m then Some "true" else None
  else if decide (k = "MM_SVC_GRPC_MAX_MSG_SIZE") then
    if decide (0 < dep_GrpcMaxMessageSize m)%Z then Some (Itoa (dep_GrpcMaxMessageSize m)) else None
  else if decide (k = "MM_KVSTORE_PREFIX") then Some "mm"
  else if decide (k = "MM_DEFAULT_VMODEL_OWNER") then Some (dep_DefaultVModelOwner m)
  else if decide (k = "MM_PAYLOAD_PROCESSORS") then
    if decide (dep_PayloadProcessors m = "") then None else Some (dep_PayloadProcessors m)
  else None.

Lemma endpointVar_value p u ep k : p ≠ u →
  last_value k [endpointVar p u ep] =
    if decide (k = p) then portOf ep else if decide (k = u) then socketOf ep else None.
Proof.
  intros Hne. unfold endpointVar, portOf, socketOf, last_value.
  destruct (ParseEndpoint ep); simpl; repeat case_decide; case_bool_decide; congruence.
Qed.

Definition dataEnvVars (m : MMDeployment) : list (string * string) :=
  match sr_GrpcDataEndpoint (dep_SRSpec m) with
  | Some e => [endpointVar ServeGrpcPortEnvVar ServeGrpcUdsPathEnvVar e]
  | None => []
  end.

Lemma dataEnvVars_value m k :
  last_value k (dataEnvVars m) =
    if decide (k = ServeGrpcPortEnvVar) then sr_GrpcDataEndpoint (dep_SRSpec m) ≫= portOf
    else if decide (k = ServeGrpcUdsPathEnvVar) then sr_GrpcDataEndpoint (dep_SRSpec m) ≫= socketOf
    else None.
Proof.
  unfold dataEnvVars. destruct (sr_GrpcDataEndpoint _) as [e|];
    [by apply endpointVar_value|by repeat case_decide].
Qed.

Lemma managementEnvVar_value m mg k :
  managementEnvVar m = Ret mg →
  last_value k [mg] =
    if decide (k = GrpcPortEnvVar) then
      if useStorageHelper (dep_SRSpec m) then Some "8086"
      else sr_GrpcMultiModelManagementEndpoint (dep_SRSpec m) ≫= portOf
    else if decide (k = GrpcUdsPathEnvVar) then
      if useStorageHelper (dep_SRSpec m) then None
      else sr_GrpcMultiModelManagementEndpoint (dep_SRSpec m) ≫= socketOf
    else None.
Proof.
  unfold managementEnvVar. destruct (useStorageHelper _).
  - intros [= <-]. rewrite last_value_cons. simpl. by repeat case_decide.
  - destruct (sr_GrpcMultiModelManagementEndpoint _) as [e|]; simpl; [|done].
    intros [= <-]. by apply endpointVar_value.
Qed.

Lemma laterEnvVars_value m k :
  last_value k (laterEnvVars m) =
    if decide (k = "MM_LOG_EACH_INVOKE") then
      if dep_EnableAccessLogging m then Some "true" else None
    else if decide (k = "MM_SVC_GRPC_MAX_MSG_SIZE") then
      if decide (0 < dep_GrpcMaxMessageSize m)%Z then Some (Itoa (dep_GrpcMaxMessageSize m)) else None
    else if decide (k = "MM_KVSTORE_PREFIX") then Some "mm"
    else if decide (k = "MM_DEFAULT_VMODEL_OWNER") then Some (dep_DefaultVModelOwner m)
    else if decide (k = "MM_PAYLOAD_PROCESSORS") then
      if decide (dep_PayloadProcessors m = "") then None else Some (dep_PayloadProcessors m)
    else None.
Proof.
  unfold laterEnvVars.
  destruct (dep_EnableAccessLogging m), (decide (0 < dep_GrpcMaxMessageSize m)%Z) as [Hs|Hs],
    (decide (dep_PayloadProcessors m = "")) as [Hp|Hp];
    rewrite ?(bool_decide_true (_ > 0)%Z), ?(bool_decide_false (_ > 0)%Z),
      ?(bool_decide_true (_ ≠ "")), ?(bool_decide_false (_ ≠ "")) by (lia || tauto);
    simpl; rewrite ?last_value_cons; simpl; repeat case_decide; congruence.
Qed.

(** The assignments of the controller give every variable its own value. *)
Lemma ownVars_value m mg k :
  managementEnvVar m = Ret mg →
  last_value k (dataEnvVars m ++ mg :: laterEnvVars m) = ownValue m k.
Proof.
  intros Hmg. change (mg :: laterEnvVars m) with ([mg] ++ laterEnvVars m).
  rewrite !last_value_app, laterEnvVars_value, (managementEnvVar_value m mg k Hmg), dataEnvVars_value.
  unfold ownValue, ServeGrpcPortEnvVar, ServeGrpcUdsPathEnvVar, GrpcPortEnvVar, GrpcUdsPathEnvVar.
  repeat (case_decide; [subst k; cbn; by repeat case_match|]). done.
Qed.

(** C31: Additional variables from the configuration cannot override the controller's
    own: after addMMEnvVars each of the nine variables it sets in the model-mesh container
    (the ports or sockets of the data and of the management endpoint, access logging, the
    maximal message size, the key prefix, the default owner and the payload processors)
    has the controller's value, whatever the additional variables say; and a variable it
    does not set, or not for this runtime and configuration (also one the template or the
    grace period had set), has the last additional value given for it, or the value it
    had. *)
Theorem internal_env_wins m d d' :
  is_Some (mmEnv d) → addMMEnvVars m d = Ret (Ok d') →
  ∃ env env', mmEnv d = Some env ∧ mmEnv d' = Some env' ∧
    ∀ k, env_lookup k env' =
      match ownValue m k with
      | Some v => Some v
      | None =>
          match last_value k (map (λ e, (ev_Name e, ev_Value e)) (dep_AdditionalEnvVars m)) with
          | Some v => Some v
          | None => env_lookup k env
          end
      end.
Proof.
  intros Hd (mg & Hmg & Hs)%addMMEnvVars_vars.
  destruct (setMMEnv_last _ _ _ Hs Hd) as (env & env' & He & He' & Hk).
  exists env, env'. split_and!; [done..|]. intros k.
  unfold firstEnvVars in Hk. fold (dataEnvVars m) in Hk.
  rewrite Hk, <- app_assoc, last_value_app, (ownVars_value m mg k Hmg). by destruct (ownValue m k).
Qed.

(** ** Panics *)

Section NoPanic.
Context `{!ProtocolNames}.
Variables (m : MMDeployment) (spare : nat).
Variables (Union : list (gmap string string) → gmap string string)
  (sortedList : gset string → list string) (tlsSecret : result error (gmap string string))
  (TrimSpace : string → string).

Definition total (f : Transform) : Prop := ∀ d, f d ≠ Panic.

Lemma transform_total fs d : Forall total fs → transform fs d ≠ Panic.
Proof.
  intros Hfs. revert d. induction Hfs as [|f fs Hf Hfs IH]; intros d; simpl; [done|].
  destruct (f d) as [[d1|]|] eqn:E; simpl; [apply IH|done|by destruct (Hf d)].
Qed.

(** With a management endpoint, building the deployment never panics; without
    one it does as soon as the endpoint is needed (see [missing_endpoint_panics]). *)
Theorem deployment_no_panic template :
  is_Some (sr_GrpcMultiModelManagementEndpoint (dep_SRSpec m)) →
  ApplyDeployment m spare Union sortedList tlsSecret TrimSpace template ≠ Panic.
Proof.
  intros [ep Hep]. unfold ApplyDeployment.
  assert (Forall total (deploymentTransforms m spare Union sortedList tlsSecret TrimSpace))
    as Ht.
  { unfold deploymentTransforms. split_forall; intros d; try done.
    - unfold addMMDomainSocketMount. destruct (findContainer _ d) as [[]|]; [|done].
      by destruct (mountPoint _).
    - unfold addRuntimeToDeployment.
      destruct (prepareContainers _ _ _ _) as [[]|]; [|done]. by destruct (sr_BuiltInAdapter _); [destruct (adapterContainer _ _ _ _ _) as [[]|]|].
    - unfold syncGracePeriod. by case_match.
    - unfold addMMEnvVars, managementEnvVar. rewrite Hep.
      destruct (setMMEnv _ d); [|done]. by destruct (useStorageHelper _).
    - unfold addModelTypeConstraints. by destruct (findContainer _ d) as [[]|].
    - unfold configureMMDeploymentForTLSSecret. case_bool_decide; [done|]. by destruct tlsSecret. }
  destruct (transform _ template) as [[d1|]|] eqn:E; simpl;
    [|done|by destruct (transform_total _ template Ht)].
  destruct (useStorageHelper _); [|done]. unfold addPullerSidecar. rewrite Hep. simpl.
  by destruct (ValidateEndpoint ep).
Qed.
End NoPanic.

(** ** Shared capacity *)

Section Slices.
Variable m : MMDeployment.

(** When the slice of common mounts has no spare capacity, every runtime container
    gets the common mounts, its own, and the domain socket's. *)
Theorem runtime_mounts_exact cells cs cells' out :
  prepareContainers m 0 cells cs = Ok (cells', out) →
  Forall2 (λ c cm, cm.1 = runtimeContainer c ∧
    ∃ so, socketMount m = Ok so ∧
      resolve_m m cells' cm.2 = baseMounts m ++ c_VolumeMounts c ++ option_list so) cs out.
Proof.
  revert cells cells' out. induction cs as [|c cs IH]; intros cells cells' out;
    cbn [prepareContainers]; [intros [= <- <-]; constructor|].
  destruct (append_m m 0 cells (MShared 0) (c_VolumeMounts c)) as [cells1 s1] eqn:E1.
  destruct (addDomainSocketMount m 0 cells1 s1) as [[cells2 s2]|] eqn:E2; [|done].
  destruct (prepareContainers m 0 cells2 cs) as [[cells3 out3]|] eqn:E3; [|done].
  intros [= <- <-]. constructor; [|by eapply IH]. split; [done|].
  unfold addDomainSocketMount in E2. destruct (socketMount m) as [so|]; [|done].
  exists so. split; [done|]. cbn [snd].
  unfold append_m in *. cbn [Nat.add] in *.
  destruct (c_VolumeMounts c) as [|x l]; cbn [length] in E1; simpl in E1; simplify_eq/=.
  - destruct so as [vm|]; simplify_eq; simplify_eq/=; by rewrite ?app_nil_r.
  - destruct so as [vm|]; simplify_eq/=; rewrite ?app_nil_r; [by rewrite <- app_assoc|done].
Qed.
End Slices.

(** ** Concrete runs *)

Definition noResources : ResourceRequirements := mkResources ∅ ∅.
Definition exampleContainer (name : string) (mounts : list VolumeMount) : Container :=
  mkContainer name "img:1.0" [] [] [] noResources mounts None None None.

Definition exampleSpec (cs : list Container) (adapter : option BuiltInAdapter)
    (mgmt : option string) : ServingRuntimeSpec :=
  mkSRSpec [mkFormat "onnx" (Some "1") None] ["grpc-v2"] (Some true) None None cs
    [mkVolume "v1" (EmptyDirSource "" None); mkVolume "v2" (EmptyDirSource "" None)]
    adapter (Some "unix:/tmp/s/data.sock") mgmt None ∅ [] None ∅ ∅ [].

Definition exampleDep (pvcs : list string) (env : list EnvVar) (rts : ServingRuntimeSpec)
  : MMDeployment :=
  mkMMD "rt" "ns" 8033 ∅ rts "ksp" "" true true "proxy:1" noResources 8008 pvcs env "puller:1"
    ["/opt/puller"] noResources "tls" "" "etcd" 16777216 ∅ ∅ [] false "storage-config"
    "mm" false 0 "" "mm:1" noResources 8033 "modelmesh".

Definition exampleTemplate : DeploymentObj :=
  mkDeployment "mm-rt" "ns" (Some 2%Z) ∅ ∅
    (mkPodSpec [exampleContainer ModelMeshContainerName []] [] (Some 90%Z) ∅ [] None []).

Definition exampleApply (spare : nat) (m : MMDeployment) : exec (result error DeploymentObj) :=
  @ApplyDeployment protocolNamesImpl m spare (foldr union ∅) elements (Ok ∅) id exampleTemplate.

Definition pulledRuntime : MMDeployment :=
  exampleDep ["pvc"] [mkEnv "MM_KVSTORE_PREFIX" "other" None]
    (exampleSpec [exampleContainer "srv" [mkVM "v1" "/v1" false]] None
       (Some "unix:/tmp/s/mgmt.sock")).

Lemma mounts_have_volumes_witness :
  ∃ d, exampleApply 1 pulledRuntime = Ret (Ok d) ∧ covered d.
Proof.
  eexists. split; [vm_compute; reflexivity|].
  eapply (@mounts_have_volumes protocolNamesImpl pulledRuntime 1 (foldr union ∅) elements
            (Ok ∅) id) with (template := exampleTemplate);
    [| |by apply Forall_singleton|vm_compute; reflexivity].
  - split; right; reflexivity.
  - apply Forall_singleton, Forall_singleton. simpl. set_solver.
Defined.

Lemma mm_container_position_witness :
  ∃ d, exampleApply 1 pulledRuntime = Ret (Ok d) ∧
  ∃ cs mm rest, containers d = cs ++ mm :: rest ∧ c_Name mm = ModelMeshContainerName ∧
    map c_Name rest = [PullerContainerName].
Proof.
  eexists. split; [vm_compute; reflexivity|].
  eapply (@mm_container_position protocolNamesImpl pulledRuntime 1 (foldr union ∅) elements
            (Ok ∅) id exampleTemplate). vm_compute. reflexivity.
Defined.

Lemma internal_env_wins_witness :
  ∃ d', addMMEnvVars pulledRuntime exampleTemplate = Ret (Ok d') ∧
  ∃ env', mmEnv d' = Some env' ∧ env_lookup "MM_KVSTORE_PREFIX" env' = Some "mm" ∧
    env_lookup "INTERNAL_SERVING_GRPC_SOCKET_PATH" env' = Some "/tmp/s/data.sock".
Proof.
  eexists. split; [vm_compute; reflexivity|].
  edestruct (internal_env_wins pulledRuntime exampleTemplate)
    as (env & env' & _ & H1 & H2); [by eexists|vm_compute; reflexivity|].
  exists env'. split; [exact H1|]. rewrite !H2. split; vm_compute; reflexivity.
Defined.

Lemma deployment_no_panic_witness : exampleApply 1 pulledRuntime ≠ Panic.
Proof.
  unfold exampleApply.
  exact (@deployment_no_panic protocolNamesImpl pulledRuntime 1 (foldr union ∅) elements
           (Ok ∅) id exampleTemplate (ex_intro _ "unix:/tmp/s/mgmt.sock" eq_refl)).
Defined.

(** A runtime with a built-in adapter may leave the management endpoint out, as far as
    adapterContainer goes; addMMEnvVars then dereferences nil. *)
Theorem missing_endpoint_panics :
  ∃ rts, (∀ config, "triton" ∈ BuiltInServerTypes config →
            validateServingRuntimeSpec rts config = None) ∧
         exampleApply 0 (exampleDep [] [] rts) = Panic.
Proof.
  exists (exampleSpec [exampleContainer "triton" []]
            (Some (mkAdapter "triton" 8001 0 0 [])) None).
  split; [|vm_compute; reflexivity]. intros config Ht.
  apply first_error_None. intros f [->|[->|[->|[]%not_elem_of_nil]%elem_of_cons]%elem_of_cons]%elem_of_cons;
    [|done..].
  unfold validateBuiltInAdapterSpec. simpl.
  assert (existsb (λ b, bool_decide (b = "triton")) (BuiltInServerTypes config) = true) as ->;
    [|done].
  apply existsb_exists. exists "triton". by rewrite <- list_elem_of_In.
Qed.

Lemma runtime_mounts_exact_witness :
  ∃ cells' out, prepareContainers pulledRuntime 0 [] (sr_Containers (dep_SRSpec pulledRuntime))
    = Ok (cells', out) ∧
  Forall2 (λ c cm, cm.1 = runtimeContainer c ∧
    ∃ so, socketMount pulledRuntime = Ok so ∧
      resolve_m pulledRuntime cells' cm.2 =
        baseMounts pulledRuntime ++ c_VolumeMounts c ++ option_list so)
    (sr_Containers (dep_SRSpec pulledRuntime)) out.
Proof.
  eexists _, _. split; [vm_compute; reflexivity|].
  apply (runtime_mounts_exact pulledRuntime []). vm_compute. reflexivity.
Defined.

(** With two persistent volume claims the slice of common mounts has room for one
    more element. Two containers with one mount each then share that cell: the first
    container ends up with the mount of the second and without its own. *)
Theorem shared_capacity_overwrites :
  ∃ m c1 c2 cells out,
    socketMount m = Ok None ∧ c_VolumeMounts c1 ≠ c_VolumeMounts c2 ∧
    prepareContainers m 1 (freshCells 1) [c1; c2] = Ok (cells, out) ∧
    map (λ cm, resolve_m m cells cm.2) out =
      [baseMounts m ++ c_VolumeMounts c2; baseMounts m ++ c_VolumeMounts c2].
Proof.
  exists (exampleDep ["p1"; "p2"] [] (bareSpec [] [])),
    (exampleContainer "a" [mkVM "v1" "/v1" false]), (exampleContainer "b" [mkVM "v2" "/v2" false]).
  eexists _, _. split; [reflexivity|]. split; [done|].
  split; [vm_compute; reflexivity|]. reflexivity.
Qed.
