(* ===== verification/RuntimeController.v ===== *)
(** * The serving runtime controller (controllers/servingruntime_controller.go and
      controllers/modelmesh/cluster_config.go)

    Reconcile as a whole: the type constraints, the etcd secret of the namespace, the
    runtime, its claims, its autoscaler, its replicas and its deployment. What the
    API server answers is the argument [RuntimeEnv]; the writes are the trace. *)

From S2P Require Import Prelude GoStrings Types K8s ModelTypes Registry Config RangeWatcher Events.
From S2P Require Import Validator Endpoint Autoscaler RuntimeScaling RuntimePVCs RuntimeRequests.
From S2P Require Import Manifests Deployment PredictorController.

Open Scope go_scope.

(** The BinaryData of the internal config map *)
Inductive ConfigMapCall :=
| CreateConfigMap (namespace : string) (data : gmap string string)
| UpdateConfigMap (namespace : string) (data : gmap string string)
| DeleteConfigMap (namespace : string).

Inductive RuntimeCall :=
| OnConfigMap (c : ConfigMapCall)
| OnSecret (c : SecretCall)
| DeleteEtcdSecret (name : NamespacedName)
| OnHPA (c : HPACall)
| OnManifest (c : ManifestCall DeploymentObj).

(** The answers of the API server and of the libraries, and the clock *)
Record RuntimeEnv := mkRuntimeEnv {
  re_lists : RuntimeLists;
  re_GetRuntime : NamespacedName → result error ServingRuntime;
  re_GetClusterRuntime : string → result error ServingRuntime;
  re_GetConfigMap : string → result error (gmap string string);
  re_WriteConfigMap : ConfigMapCall → option error;
  re_GetSecret : NamespacedName → result error SecretData;
  re_WriteSecret : SecretCall → option error;
  re_DeleteSecret : NamespacedName → option error;
  (** the values of the storage secret, in iteration order *)
  re_StorageSecret : string → result error (list string);
  re_pvcExists : string → string → bool;
  re_registries : list PredictorRegistry;
  re_hpa : HPAClient;
  re_setOwner : HPAObj → option error;
  (** the replicas of a deployment *)
  re_GetDeployment : NamespacedName → result error (option Z);
  (** the product config map *)
  re_GetProductConfig : NamespacedName → option error;
  (** templates and manifests; the context is the deployment with its replicas, the
      owner the runtime *)
  re_manifests : TemplateLibs (MMDeployment * Z) ServingRuntime DeploymentObj;
  re_LookupEnv : string → option string;
  re_now : Z
}.

Notation ApplyManifest d := (OnManifest (ApplyResources [d])).

Section ClusterConfig.
Context `{!ProtocolNames, !KServeRuntime}.
Variable Marshal : gmap string (list string) → string.
(** the constant of that name *)
Variable dataPlaneApiJsonConfigBytes : string.

Definition MMTypeConstraintsKey : string := "type_constraints".
Definition MMDataPlaneConfigKey : string := "dataplane_api_config".

Definition addConstraints (srSpecs : gmap string ServingRuntimeSpec) (restProxyEnabled : bool)
    (data : gmap string string) : gmap string string :=
  <[MMDataPlaneConfigKey := dataPlaneApiJsonConfigBytes]>
    (<[MMTypeConstraintsKey := calculateConstraintData Marshal srSpecs restProxyEnabled]> data).

(** ClusterConfig.Reconcile *)
Definition ClusterConfigReconcile (get : result error (gmap string string))
    (write : ConfigMapCall → option error) (srSpecs : gmap string ServingRuntimeSpec)
    (namespace : string) (cfg : Config) : io ConfigMapCall (option error) :=
  let put c : io ConfigMapCall (option error) := _ ← call c; return (write c) in
  let restProxyEnabled := rp_Enabled (RESTProxy cfg) in
  match get with
  | Ok data =>
      if bool_decide (srSpecs = ∅) then put (DeleteConfigMap namespace)
      else put (UpdateConfigMap namespace (addConstraints srSpecs restProxyEnabled data))
  | Err e =>
      if IsNotFound e then
        if bool_decide (srSpecs = ∅) then return None
        else put (CreateConfigMap namespace (addConstraints srSpecs restProxyEnabled ∅))
      else return (Some e)
  end.
End ClusterConfig.

Section Reconcile.
Context `{!ProtocolNames, !KServeRuntime, !KServeConstants, !EtcdLibs, !JSONMap}.
Variable Marshal : gmap string (list string) → string.
Variable dataPlaneApiJsonConfigBytes : string.
Variables (sortedList : gset string → list string) (TrimSpace : string → string).
(** spare capacity of the slice of common mounts, see [Deployment] *)
Variable spare : nat.
Variables (settings : RuntimeSettings) (cfg : Config) (env : RuntimeEnv).

(** The outcome of a reconciliation, with the info map *)
Definition RuntimeOutcome : Type := RuntimeInfoMap * (CtrlResult * option error).

(** ** The specs of the namespace: its own override the cluster's *)
Definition buildSpecs (csrs runtimes : list ServingRuntime) : gmap string ServingRuntimeSpec :=
  let clusterSpecs := foldl (λ m crt, if IsMultiModelRuntime (rt_Spec crt)
                                      then <[rt_Name crt := rt_Spec crt]> m else m) ∅ csrs in
  foldl (λ m rt, <[rt_Name rt := rt_Spec rt]> m) clusterSpecs runtimes.

Definition listSpecs (namespace : string) (mmEnabled : bool)
  : result error (gmap string ServingRuntimeSpec) :=
  if mmEnabled then
    match rl_ServingRuntimes (re_lists env) namespace with
    | Err e => Err e
    | Ok runtimes =>
        match (if rs_EnableCSRWatch settings
               then rl_ClusterServingRuntimes (re_lists env) else Ok []) with
        | Err e => Err e
        | Ok csrs => Ok (buildSpecs csrs runtimes)
        end
    end
  else Ok ∅.

(** ** The etcd secret *)

Definition reconcileEtcdSecret (namespace : string) (srSpecs : gmap string ServingRuntimeSpec)
  : io RuntimeCall (option error) :=
  let etcdSecretName := GetEtcdSecretName (re_LookupEnv env) cfg in
  let controllerNamespace := rs_ControllerNamespace settings in
  if bool_decide (namespace = controllerNamespace) then return None
  else if bool_decide (srSpecs = ∅) then
    let name := mkNN namespace etcdSecretName in
    match re_GetSecret env name with
    | Ok _ => _ ← call (DeleteEtcdSecret name); return (re_DeleteSecret env name)
    | Err e => return (if IsNotFound e then None else Some e)
    end
  else
    match re_GetSecret env (mkNN controllerNamespace etcdSecretName) with
    | Err e => return (Some (ErrWrap "Could not get the controller etcd secret" e))
    | Ok s =>
        match UnmarshalEtcdConfig (default "" (s !! EtcdSecretKey)) with
        | Err e => return (Some (ErrWrap "failed to parse etcd config json" e))
        | Ok etcdConfig =>
            let es := mkEtcdSecret etcdSecretName namespace etcdConfig in
            err ← embed OnSecret (Events.Apply es (re_GetSecret env (mkNN namespace etcdSecretName))
                                    (re_WriteSecret env));
            return (ErrWrap "Could not apply the modelmesh etcd secret" <$> err)
        end
    end.

(** ** The runtime: whether it is a cluster runtime, and the object; [Ok None] when
    there is none *)
Definition findRuntime (req : NamespacedName) : result error (option (bool * ServingRuntime)) :=
  match re_GetRuntime env req with
  | Ok rt => Ok (Some (false, rt))
  | Err e =>
      if IsNotFound e then
        if negb (rs_EnableCSRWatch settings) then Ok None
        else match re_GetClusterRuntime env (Name req) with
             | Ok crt => Ok (Some (true, crt))
             | Err e' => if IsNotFound e' then Ok None
                         else Err (ErrWrap ("error retrieving ClusterServingRuntime " +:+
                                            Name req) e')
             end
      else Err (ErrWrap ("error retrieving ServingRuntime " +:+ Namespace req +:+ "/" +:+
                         Name req) e)
  end.

(** ** The deployment's parameters. The name of the storage secret is a global variable
    that is set at start-up. *)
Definition newMMDeployment (req : NamespacedName) (owner : ServingRuntime) (pvcs : list string)
  : exec MMDeployment :=
  modelMeshResources ← ToKubernetesType (ModelMeshResources cfg);
  restProxyResources ← ToKubernetesType (rp_Resources (RESTProxy cfg));
  pullerResources ← ToKubernetesType (StorageHelperResources cfg);
  Ret (mkMMD (Name req) (Namespace req) (InferenceServicePort cfg) (rt_Annotations owner)
         (rt_Spec owner) PredictorCRSourceId (Join (PayloadProcessors cfg) " ")
         (rp_Enabled (RESTProxy cfg)) (rp_SkipVerify (RESTProxy cfg))
         (TaggedImage (rp_Image (RESTProxy cfg))) restProxyResources (rp_Port (RESTProxy cfg))
         pvcs (ToKubernetesEnv (InternalModelMeshEnvVars cfg))
         (TaggedImage (StorageHelperImage cfg)) (im_Command (StorageHelperImage cfg))
         pullerResources (tls_SecretName (TLS cfg)) (tls_ClientAuth (TLS cfg))
         (GetEtcdSecretName (re_LookupEnv env) cfg) (GrpcMaxMessageSizeBytes cfg)
         (RuntimePodAnnotations cfg) (RuntimePodLabels cfg) (ImagePullSecrets cfg)
         (EnableAccessLogging cfg) (rs_StorageSecretName settings) (InferenceServiceName cfg)
         (pc_Enabled (Metrics cfg)) (pc_Port (Metrics cfg)) (pc_Scheme (Metrics cfg))
         (TaggedImage (ModelMeshImage cfg)) modelMeshResources (InferenceServicePort cfg)
         (ServiceAccountName cfg)).

Definition deploymentTemplate : string := "config/internal/base/deployment.yaml.tmpl".

(** Deployment.Delete; Replicas has its zero value *)
Definition deleteDeployment (m : MMDeployment) (owner : ServingRuntime)
  : io RuntimeCall (option error) :=
  embed OnManifest (Delete (re_manifests env) (Some owner) deploymentTemplate (m, 0%Z)
                      (dep_Namespace m) []).

(** Deployment.Apply: render, transform, apply *)
Definition applyDeployment (m : MMDeployment) (owner : ServingRuntime) (replicas : Z)
  : io RuntimeCall (option error) :=
  let L := re_manifests env in
  manifest ← lift (Manifest L deploymentTemplate (m, replicas));
  match manifest with
  | Err e => return (Some (ErrWrap "Error loading model mesh deployment yaml" e))
  | Ok manifest =>
      if bool_decide (length manifest ≠ 1)
      then return (Some (ErrMsg "Unexpected number of resources found in the deployment template"))
      else
        match setConfigMap m (re_GetProductConfig env) with
        | Some e => return (Some e)
        | None =>
            manifest ← lift (tl_Transform L
              [tl_InjectOwner L owner; tl_InjectNamespace L (dep_Namespace m);
               transform (deploymentTransforms m spare Autoscaler.Union sortedList
                 (re_GetSecret env (mkNN (dep_Namespace m) (dep_TLSSecretName m))) TrimSpace)]
              manifest);
            match manifest with
            | Err e => return (Some (ErrWrap "Error transforming" e))
            | Ok manifest =>
                manifest ← lift (if useStorageHelper (dep_SRSpec m)
                                 then tl_Transform L [addPullerSidecar m] manifest
                                 else Ret (Ok manifest));
                match manifest with
                | Err e => return (Some (ErrWrap "Error transforming" e))
                | Ok manifest =>
                    _ ← call (OnManifest (ApplyResources manifest)); return (tl_Apply L manifest)
                end
            end
        end
  end.

(** ** Replicas: with an autoscaler the deployment keeps the replicas it has, and
    starts from the HPA's minimum *)
Definition replicasAndHPA (a : option Autoscaler) (replicas : Z) (deployment : NamespacedName)
  : io RuntimeCall (result error Z) :=
  (* a is nil when its creation failed: the accesses below panic *)
  a ← lift (deref a);
  if bool_decide (replicas = 0%Z) || bool_decide (as_Class a = AutoscalerClassNone) then
    err ← embed OnHPA (AutoscalerReconcile (re_hpa env) a true);
    return (match err with
            | Some e => Err (ErrWrap "HPA reconcile error" e)
            | None => Ok replicas
            end)
  else
    match re_GetDeployment env deployment with
    | Err e => return (Err (ErrWrap "Could not get the deployment for the servingruntime " e))
    | Ok existingReplicas =>
        existing ← lift (deref existingReplicas);
        target ← lift (if bool_decide (existing = 0%Z)
                       then mn ← deref (hpa_MinReplicas (as_HPA a)); Ret (uint16 mn)
                       else Ret (uint16 existing));
        err ← embed OnHPA (AutoscalerReconcile (re_hpa env) a false);
        return (match err with
                | Some e => Err (ErrWrap "HPA reconcile error" e)
                | None => Ok target
                end)
    end.

(** The steps for a runtime that runs: autoscaler, replicas, deployment *)
Definition deployRuntime (req : NamespacedName) (cluster : bool) (rt : ServingRuntime)
    (m : MMDeployment) (info : RuntimeInfoMap) : io RuntimeCall RuntimeOutcome :=
  let mmDeploymentName := InferenceServiceName cfg +:+ "-" +:+ dep_Name m in
  (* a cluster runtime without name would pass the zero ServingRuntime *)
  let owner := if cluster && bool_decide (rt_Name rt = "")
               then mkRuntime "" "" ∅ ∅ (bareSpec [] []) else rt in
  let a := match createAutoscaler (re_setOwner env) owner mmDeploymentName (dep_Namespace m) with
           | Ok a => Some a
           | Err _ => None
           end in
  '(info, r) ← lift (determineReplicasAndRequeueDuration (re_now env) (re_registries env) cfg
                       (rt_Spec rt) req info);
  match r with
  | Err e => return (info, (RequeueResult, Some (ErrWrap "could not determine replicas" e)))
  | Ok (replicas, requeueDuration) =>
      r ← replicasAndHPA a replicas (mkNN (Namespace req) mmDeploymentName);
      match r with
      | Err e => return (info, (emptyResult, Some e))
      | Ok replicas =>
          err ← applyDeployment m rt replicas;
          return (info, match err with
                        | None => (requeueAfter requeueDuration, None)
                        | Some e =>
                            if IsConflict e then (RequeueResult, None)
                            else (emptyResult,
                                  Some (ErrWrap "could not apply the model mesh deployment" e))
                        end)
      end
  end.

(** Validation, claims and the decision whether the runtime runs here *)
Definition reconcileRuntime (req : NamespacedName) (mmEnabled cluster : bool)
    (rt : ServingRuntime) (info : RuntimeInfoMap) : io RuntimeCall RuntimeOutcome :=
  let spec := rt_Spec rt in
  match validateServingRuntimeSpec spec cfg with
  | Some e => return (info, (emptyResult, Some (ErrWrap "Invalid runtime Spec" e)))
  | None =>
      pvcs ← lift (getPVCs (re_StorageSecret env (Namespace req)) (re_registries env)
                     (re_pvcExists env (Namespace req)) req spec cfg);
      match pvcs with
      | Err e => return (info, (emptyResult, Some (ErrWrap "Could not get pvcs" e)))
      | Ok pvcs =>
          m ← lift (newMMDeployment req rt pvcs);
          if IsDisabled spec || negb (IsMultiModelRuntime spec) || negb mmEnabled then
            err ← deleteDeployment m rt;
            return (info, (emptyResult,
              ErrWrap "could not delete the model mesh deployment" <$> err))
          else deployRuntime req cluster rt m info
      end
  end.

Definition ReconcileRuntime (req : NamespacedName) (info : RuntimeInfoMap)
  : io RuntimeCall RuntimeOutcome :=
  let mmEnabled := nsEnabled settings (re_lists env) (Namespace req) in
  match listSpecs (Namespace req) mmEnabled with
  | Err e => return (info, (RequeueResult, Some e))
  | Ok srSpecs =>
      err ← embed OnConfigMap
              (ClusterConfigReconcile Marshal dataPlaneApiJsonConfigBytes
                 (re_GetConfigMap env (Namespace req)) (re_WriteConfigMap env) srSpecs
                 (Namespace req) cfg);
      match err with
      | Some e =>
          return (info, (RequeueResult,
            Some (ErrWrap "could not reconcile the modelmesh type-constraints configmap" e)))
      | None =>
          err ← reconcileEtcdSecret (Namespace req) srSpecs;
          match err with
          | Some e => return (info, (RequeueResult, Some e))
          | None =>
              match findRuntime req with
              | Err e => return (info, (emptyResult, Some e))
              | Ok None => return (removeRuntimeFromInfoMap req info, (emptyResult, None))
              | Ok (Some (cluster, rt)) => reconcileRuntime req mmEnabled cluster rt info
              end
          end
      end
  end.
End Reconcile.
