(* ===== verification/RuntimeControllerProps.v ===== *)
(** * Properties of the serving runtime controller

    What a reconciliation writes: the constraints and the etcd secret before the
    deployment, a deployment only for a runtime that should run, and its removal
    otherwise. *)

From S2P Require Import Prelude GoStrings Types K8s ModelTypes Registry Config RangeWatcher Events.
From S2P Require Import Validator Endpoint Autoscaler RuntimeScaling RuntimePVCs RuntimeRequests.
From S2P Require Import ConfigProps EventsProps Manifests Deployment DeploymentProps.
From S2P Require Import RuntimeController.

Section Steps.
Context `{!ProtocolNames, !KServeRuntime, !KServeConstants, !EtcdLibs, !JSONMap}.
Variable Marshal : gmap string (list string) → string.
Variable dataPlane : string.
Variables (sortedList : gset string → list string) (TrimSpace : string → string).
Variable spare : nat.
Variables (settings : RuntimeSettings) (cfg : Config) (env : RuntimeEnv).

(** The constraints a config map call writes *)
Definition written_constraints (c : ConfigMapCall) : option string :=
  match c with
  | CreateConfigMap _ data | UpdateConfigMap _ data => data !! MMTypeConstraintsKey
  | DeleteConfigMap _ => None
  end.

Lemma addConstraints_lookup srSpecs rest data :
  addConstraints Marshal dataPlane srSpecs rest data !! MMTypeConstraintsKey =
    Some (Marshal (constraintMap srSpecs rest)).
Proof.
  unfold addConstraints. rewrite lookup_insert_ne by done. apply lookup_insert_eq.
Qed.

(** The config map step: one call at most; when it succeeds for a namespace with
    runtimes, the constraints of those runtimes are what was written. *)
Lemma ClusterConfigReconcile_emits get write srSpecs namespace :
  emits (ClusterConfigReconcile Marshal dataPlane get write srSpecs namespace cfg)
    (λ cs err,
      (cs = [] ∧ (err = None → srSpecs = ∅)) ∨
      ∃ c, cs = [c] ∧ err = write c ∧
        (srSpecs ≠ ∅ → written_constraints c =
           Some (Marshal (constraintMap srSpecs (rp_Enabled (RESTProxy cfg)))))).
Proof.
  assert (Hput : ∀ c, (srSpecs ≠ ∅ → written_constraints c =
           Some (Marshal (constraintMap srSpecs (rp_Enabled (RESTProxy cfg))))) →
    emits (_ ← call c; mret (M := io _) (write c)) (λ cs err,
      (cs = [] ∧ (err = None → srSpecs = ∅)) ∨
      ∃ c, cs = [c] ∧ err = write c ∧
        (srSpecs ≠ ∅ → written_constraints c =
           Some (Marshal (constraintMap srSpecs (rp_Enabled (RESTProxy cfg))))))).
  { intros c Hc. eapply emits_bind; [apply (emits_call c (λ cs _, cs = [c])); done|].
    intros cs [] ->. apply emits_ret. right. by exists c. }
  unfold ClusterConfigReconcile. cbn zeta.
  destruct get as [data|e]; [|destruct (IsNotFound e)]; try case_bool_decide.
  - by apply Hput.
  - apply Hput. intros _. apply addConstraints_lookup.
  - apply emits_ret. by left.
  - apply Hput. intros _. apply addConstraints_lookup.
  - apply emits_ret. by left.
Qed.

Definition is_apply (c : RuntimeCall) : Prop :=
  match c with OnManifest (ApplyResources _) => True | _ => False end.

Definition no_apply (cs : list RuntimeCall) : Prop := Forall (λ c, ¬ is_apply c) cs.

Lemma no_apply_absurd d cs (Q : Prop) : no_apply cs → ApplyManifest d ∈ cs → Q.
Proof. intros Hf Hd. by destruct (proj1 (Forall_forall _ _) Hf _ Hd). Qed.

Lemma apply_last d d' cs : no_apply cs → ApplyManifest d ∈ cs ++ [ApplyManifest d'] → d' = d.
Proof.
  intros Hn [Hd|Hd]%elem_of_app; [by eapply no_apply_absurd|].
  apply list_elem_of_singleton in Hd. by injection Hd.
Qed.

Lemma no_apply_map {C} (f : C → RuntimeCall) cs :
  (∀ c, ¬ is_apply (f c)) → no_apply (map f cs).
Proof. intros Hf. apply Forall_map, Forall_true. intros c. apply Hf. Qed.

(** The calls of one kind only: of the secret step, of the autoscaler, on manifests *)
Definition is_secret (c : RuntimeCall) : Prop :=
  match c with OnSecret _ | DeleteEtcdSecret _ => True | _ => False end.

Definition is_hpa (c : RuntimeCall) : Prop := match c with OnHPA _ => True | _ => False end.

Lemma secrets_no_apply cs : Forall is_secret cs → no_apply cs.
Proof. intros Hs. eapply Forall_impl; [exact Hs|]. by intros [| | | |[]] [] []. Qed.

Lemma hpa_no_apply cs : Forall is_hpa cs → no_apply cs.
Proof. intros Hs. eapply Forall_impl; [exact Hs|]. by intros [| | | |[]] [] []. Qed.

(** What the secret step writes *)
Lemma reconcileEtcdSecret_secrets namespace srSpecs :
  emits (reconcileEtcdSecret settings cfg env namespace srSpecs) (λ cs _, Forall is_secret cs).
Proof.
  unfold reconcileEtcdSecret. cbn zeta. case_bool_decide; [by apply emits_ret; constructor|].
  case_bool_decide.
  - destruct (re_GetSecret env _); [|by apply emits_ret; constructor].
    eapply emits_bind; [by apply (emits_call _ (λ cs _, Forall is_secret cs)), Forall_singleton|].
    intros cs [] Hcs. apply emits_ret. by rewrite app_nil_r.
  - destruct (re_GetSecret env _) as [s|]; [|by apply emits_ret; constructor].
    destruct (UnmarshalEtcdConfig _) as [ec|]; [|by apply emits_ret; constructor].
    eapply emits_bind.
    + apply (emits_embed OnSecret _ (λ _ _, True)). intros tr tr' a Ha.
      unfold Events.Apply in Ha. revert Ha.
      destruct (re_GetSecret env _) as [data|e]; [|destruct (IsNotFound e)];
        try (destruct (addData _ _)); run_io; intros [= <- <-];
        first [by exists []; rewrite app_nil_r|by eexists].
    + intros cs a (cs0 & -> & _). apply emits_ret. rewrite app_nil_r.
      by apply Forall_map, Forall_true.
Qed.

Lemma reconcileEtcdSecret_emits namespace srSpecs :
  emits (reconcileEtcdSecret settings cfg env namespace srSpecs) (λ cs _, no_apply cs).
Proof. eapply emits_weaken; [apply reconcileEtcdSecret_secrets|]. by intros cs _ ?%secrets_no_apply. Qed.

Lemma replicasAndHPA_hpa a replicas dep :
  emits (replicasAndHPA env a replicas dep) (λ cs _, Forall is_hpa cs).
Proof.
  assert (Has : ∀ x z, emits (embed OnHPA (AutoscalerReconcile (re_hpa env) x z))
                  (λ cs _, Forall is_hpa cs)).
  { intros x z. eapply emits_weaken; [apply (emits_embed OnHPA _ (λ _ _, True))|].
    - intros tr tr' b. unfold AutoscalerReconcile, HPAReconcile.
      case_bool_decide; [|intros [= <- <-]; exists []; by rewrite app_nil_r].
      destruct (checkHPAExist _ _) as [[[[] o]|]|]; run_io; destruct z;
        try (destruct o); simpl; intros Hr; simplify_eq;
        first [by exists []; rewrite app_nil_r|by eexists].
    - intros cs b (cs0 & -> & _). by apply Forall_map, Forall_true. }
  unfold replicasAndHPA.
  apply emits_lift_bind. intros x _. cbn [app]. destruct (_ || _).
  - eapply emits_bind; [apply Has|]. intros cs err Hcs. apply emits_ret.
    by rewrite app_nil_r.
  - destruct (re_GetDeployment env dep) as [o|]; [|apply emits_ret; constructor].
    apply emits_lift_bind. intros ex _. cbn [app].
    apply emits_lift_bind. intros t _. cbn [app].
    eapply emits_bind; [apply Has|]. intros cs err Hcs. apply emits_ret.
    by rewrite app_nil_r.
Qed.

Lemma replicasAndHPA_emits a replicas dep :
  emits (replicasAndHPA env a replicas dep) (λ cs _, no_apply cs).
Proof. eapply emits_weaken; [apply replicasAndHPA_hpa|]. by intros cs _ ?%hpa_no_apply. Qed.

(** ** Manifests *)

Let L := re_manifests env.

(** The rendered template of the deployment, with its owner and namespace *)
Definition rendered (owner : ServingRuntime) (m : MMDeployment) (replicas : Z)
    (template : DeploymentObj) : Prop :=
  ∃ t0, Manifest L deploymentTemplate (m, replicas) = Ret (Ok [t0]) ∧
    in_turn [tl_InjectOwner L owner; tl_InjectNamespace L (dep_Namespace m)] t0
      = Ret (Ok template).

(** [d] is the rendered template, transformed. *)
Definition transformed (m : MMDeployment) (template d : DeploymentObj) : Prop :=
  ApplyDeployment m spare Autoscaler.Union sortedList
    (re_GetSecret env (mkNN (dep_Namespace m) (dep_TLSSecretName m))) TrimSpace template
    = Ret (Ok d).

(** The manifest [d] is the transformed template of the deployment [m]. *)
Definition manifest_of (owner : ServingRuntime) (m : MMDeployment) (d : DeploymentObj) : Prop :=
  ∃ template replicas, rendered owner m replicas template ∧ transformed m template d.

Context `{!TransformLaws L}.

(** The two transformations of the manifest, when both succeed *)
Lemma transforms_one owner m t0 rs rs' :
  let ts := transform (deploymentTransforms m spare Autoscaler.Union sortedList
              (re_GetSecret env (mkNN (dep_Namespace m) (dep_TLSSecretName m))) TrimSpace) in
  tl_Transform L [tl_InjectOwner L owner; tl_InjectNamespace L (dep_Namespace m); ts] [t0]
    = Ret (Ok rs) →
  (if useStorageHelper (dep_SRSpec m) then tl_Transform L [addPullerSidecar m] rs
   else Ret (Ok rs)) = Ret (Ok rs') →
  ∃ template d, rs' = [d] ∧ transformed m template d ∧
    in_turn [tl_InjectOwner L owner; tl_InjectNamespace L (dep_Namespace m)] t0
      = Ret (Ok template).
Proof.
  intros ts. rewrite (transform_one L). change [tl_InjectOwner L owner; _; ts] with
    ([tl_InjectOwner L owner; tl_InjectNamespace L (dep_Namespace m)] ++ [ts]).
  rewrite in_turn_app.
  destruct (in_turn [tl_InjectOwner L owner; _] t0) as [[template|]|]; cbn [mbind exec_bind];
    [|done..].
  cbn [in_turn]. destruct (ts template) as [[d1|]|] eqn:Et; cbn [mbind exec_bind]; [|done..].
  intros [= <-] Hp. exists template. unfold transformed, ApplyDeployment. fold ts. rewrite Et.
  cbn [mbind exec_bind]. revert Hp. destruct (useStorageHelper (dep_SRSpec m)).
  - rewrite (transform_one L). cbn [in_turn].
    destruct (addPullerSidecar m d1) as [[d|]|]; cbn [mbind exec_bind]; [|done..].
    intros [= <-]. by exists d.
  - intros [= <-]. by exists d1.
Qed.

(** The deployment step: at most one manifest is applied, the transformed template. *)
Lemma applyDeployment_emits m owner replicas :
  emits (applyDeployment sortedList TrimSpace spare env m owner replicas) (λ cs err,
    cs = [] ∧ is_Some err ∨
    ∃ template d, cs = [ApplyManifest d] ∧ err = tl_Apply L [d] ∧
      rendered owner m replicas template ∧ transformed m template d).
Proof.
  unfold applyDeployment. cbn zeta. fold L.
  assert (∀ e : error, [] = ([] : list RuntimeCall) ∧ is_Some (Some e)) as Hnil by eauto.
  apply emits_lift_bind. intros [ms|e] Hm; [|apply emits_ret; left; apply Hnil].
  case_bool_decide as Hlen; [apply emits_ret; left; apply Hnil|].
  destruct ms as [|t0 [|]]; [done| |done].
  destruct (setConfigMap m _); [apply emits_ret; left; apply Hnil|].
  apply emits_lift_bind. intros [rs|e] Hrs; [|apply emits_ret; left; apply Hnil].
  apply emits_lift_bind. intros [rs'|e] Hrs'; [|apply emits_ret; left; apply Hnil].
  destruct (transforms_one _ _ _ _ _ Hrs Hrs') as (template & d & -> & Hd & Ht).
  apply emits_call_bind, emits_ret. right. exists template, d. split_and!; try done. by exists t0.
Qed.

(** The deletion: at most one call, of the resources of the template *)
Lemma deleteDeployment_emits m owner :
  emits (deleteDeployment env m owner) (λ cs err,
    cs = [] ∧ is_Some err ∨
    ∃ rs, cs = [OnManifest (DeleteResources rs)] ∧ err = tl_Delete L rs ∧
      ∃ ms, Manifest L deploymentTemplate (m, 0%Z) = Ret (Ok ms) ∧
        tl_Transform L [tl_InjectOwner L owner; tl_InjectNamespace L (dep_Namespace m)] ms
          = Ret (Ok rs)).
Proof.
  eapply emits_weaken; [apply emits_embed, Delete_emits|].
  intros cs err (cs0 & -> & [[-> He]|(rs & -> & He & ms & Hm)]); [by left|].
  right. exists rs. eauto.
Qed.

(** Nothing is applied, or one manifest as the last call. *)
Definition applies_last (ok : DeploymentObj → Prop) (cs : list RuntimeCall) : Prop :=
  no_apply cs ∨ ∃ pre d, cs = pre ++ [ApplyManifest d] ∧ no_apply pre ∧ ok d.

Lemma applies_last_app ok pre cs :
  no_apply pre → applies_last ok cs → applies_last ok (pre ++ cs).
Proof.
  intros Hp [Hn|(pre' & d & -> & Hn & Hd)]; [left; by apply Forall_app|].
  right. exists (pre ++ pre'), d. rewrite app_assoc. split_and!; [done|by apply Forall_app|done].
Qed.

Lemma deployRuntime_emits req cluster rt m info :
  emits (deployRuntime sortedList TrimSpace spare cfg env req cluster rt m info)
    (λ cs _, applies_last (manifest_of rt m) cs).
Proof.
  unfold deployRuntime. cbn zeta.
  apply emits_lift_bind. intros [info' r] _. cbn [app]. destruct r as [[replicas rq]|];
    [|apply emits_ret; left; constructor].
  eapply emits_bind; [apply replicasAndHPA_emits|]. intros cs r Hcs.
  destruct r as [n|]; [|apply emits_ret; left; by rewrite app_nil_r].
  eapply emits_bind; [apply applyDeployment_emits|]. intros cs' err Hcs'.
  apply emits_ret. rewrite app_nil_r. apply applies_last_app; [done|].
  destruct Hcs' as [[-> _]|(template & d & -> & _ & Ht & Hd)]; [left; constructor|].
  right. exists [], d. split_and!; [done|constructor|]. by exists template, n.
Qed.

(** The runtime should run in the namespace, and its manifest was built from its spec. *)
Definition should_run (req : NamespacedName) (mmEnabled : bool) (rt : ServingRuntime)
    (d : DeploymentObj) : Prop :=
  mmEnabled = true ∧ IsDisabled (rt_Spec rt) = false ∧ IsMultiModelRuntime (rt_Spec rt) = true ∧
  validateServingRuntimeSpec (rt_Spec rt) cfg = None ∧
  ∃ m, dep_SRSpec m = rt_Spec rt ∧ dep_Name m = Name req ∧ dep_Namespace m = Namespace req ∧
       manifest_of rt m d.

Lemma newMMDeployment_fields req rt pvcs m :
  newMMDeployment settings cfg env req rt pvcs = Ret m →
  dep_SRSpec m = rt_Spec rt ∧ dep_Name m = Name req ∧ dep_Namespace m = Namespace req ∧
  dep_ServiceName m = InferenceServiceName cfg.
Proof.
  unfold newMMDeployment. destruct (ToKubernetesType (ModelMeshResources cfg)); [|done].
  destruct (ToKubernetesType (rp_Resources (RESTProxy cfg))); [|done].
  destruct (ToKubernetesType (StorageHelperResources cfg)); [|done]. by intros [= <-].
Qed.

Lemma reconcileRuntime_emits req mmEnabled cluster rt info :
  emits (reconcileRuntime sortedList TrimSpace spare settings cfg env req mmEnabled cluster rt info)
    (λ cs _, applies_last (should_run req mmEnabled rt) cs).
Proof.
  unfold reconcileRuntime. cbn zeta.
  destruct (validateServingRuntimeSpec _ _) eqn:Ev; [apply emits_ret; left; constructor|].
  apply emits_lift_bind. intros [pvcs|] _; cbn [app]; [|apply emits_ret; left; constructor].
  apply emits_lift_bind. intros m Hm. cbn [app]. apply newMMDeployment_fields in Hm as (M1 & M2 & M3 & _).
  destruct (IsDisabled _ || _ || _) eqn:Eb.
  - eapply emits_bind; [apply deleteDeployment_emits|].
    intros cs err Hcs. apply emits_ret. left. rewrite app_nil_r.
    destruct Hcs as [[-> _]|(rs & -> & _)]; [constructor|apply Forall_singleton; by intros []].
  - eapply emits_weaken; [apply deployRuntime_emits|].
    apply orb_false_iff in Eb as [[Ed Em]%orb_false_iff Ee].
    intros cs _ [Hn|(pre & d & -> & Hn & Hd)]; [by left|]. right. exists pre, d.
    split_and!; [done..|]. apply negb_false_iff in Em, Ee.
    split_and!; [done..|]. by exists m.
Qed.

(** C13: A reconciliation applies at most one deployment, as its last write, and only for
    a runtime that exists, is valid, is not disabled, serves multiple models, and
    whose namespace is enabled; and in a namespace with runtimes the constraints of
    exactly those runtimes have been written to the shared config map before. *)
Theorem deployment_after_constraints req info tr out d :
  run (ReconcileRuntime Marshal dataPlane sortedList TrimSpace spare settings cfg env req info)
    = Ret (tr, out) →
  ApplyManifest d ∈ tr →
  ∃ cluster rt srSpecs pre,
    tr = pre ++ [ApplyManifest d] ∧ no_apply pre ∧
    findRuntime settings env req = Ok (Some (cluster, rt)) ∧
    should_run req (nsEnabled settings (re_lists env) (Namespace req)) rt d ∧
    listSpecs settings env (Namespace req) true = Ok srSpecs ∧
    (srSpecs ≠ ∅ → ∃ c rest, pre = OnConfigMap c :: rest ∧ re_WriteConfigMap env c = None ∧
       written_constraints c =
         Some (Marshal (constraintMap srSpecs (rp_Enabled (RESTProxy cfg))))).
Proof.
  intros Hrun Hd. set (P := λ (cs : list RuntimeCall) (_ : RuntimeOutcome), ApplyManifest d ∈ cs →
    ∃ cluster rt srSpecs pre,
    cs = pre ++ [ApplyManifest d] ∧ no_apply pre ∧
    findRuntime settings env req = Ok (Some (cluster, rt)) ∧
    should_run req (nsEnabled settings (re_lists env) (Namespace req)) rt d ∧
    listSpecs settings env (Namespace req) true = Ok srSpecs ∧
    (srSpecs ≠ ∅ → ∃ c rest, pre = OnConfigMap c :: rest ∧ re_WriteConfigMap env c = None ∧
       written_constraints c =
         Some (Marshal (constraintMap srSpecs (rp_Enabled (RESTProxy cfg)))))).
  enough (emits (ReconcileRuntime Marshal dataPlane sortedList TrimSpace spare settings cfg env
                   req info) P) as He by exact (emits_run _ _ _ _ He Hrun Hd).
  clear Hrun Hd. unfold ReconcileRuntime. cbn zeta.
  set (en := nsEnabled settings (re_lists env) (Namespace req)) in *.
  destruct (listSpecs _ _ _ en) as [srSpecs|] eqn:Els;
    [|apply emits_ret; intros Hx; by apply not_elem_of_nil in Hx].
  eapply emits_bind; [apply emits_embed, ClusterConfigReconcile_emits|].
  intros cs1 err1 (cms & -> & Hcm).
  assert (Hn1 : no_apply (map OnConfigMap cms)) by (apply no_apply_map; by intros c []).
  destruct err1 as [e|];
    [apply emits_ret; rewrite app_nil_r; exact (no_apply_absurd _ _ _ Hn1)|].
  eapply emits_bind; [apply reconcileEtcdSecret_emits|]. intros cs2 err2 Hn2.
  assert (Hn12 : no_apply (map OnConfigMap cms ++ cs2)) by (by apply Forall_app).
  destruct err2 as [e|]; [apply emits_ret; rewrite app_nil_r; exact (no_apply_absurd _ _ _ Hn12)|].
  destruct (findRuntime settings env req) as [[[cluster rt]|]|] eqn:Ef.
  - eapply emits_weaken; [apply reconcileRuntime_emits|]. intros cs3 out' Hcs3 Hx.
    rewrite app_assoc in Hx. destruct Hcs3 as [Hn3|(pre & d' & -> & Hn3 & Hd')].
    { revert Hx. eapply no_apply_absurd. by apply Forall_app. }
    rewrite app_assoc in Hx. apply apply_last in Hx as ->; [|by apply Forall_app].
    destruct Hd' as (Hen & Hd').
    exists cluster, rt, srSpecs, ((map OnConfigMap cms ++ cs2) ++ pre).
    split_and!; [by rewrite !app_assoc|by apply Forall_app|done|done|by rewrite <- Hen|].
    intros Hne. destruct Hcm as [[-> Hcm]|(c & -> & Hw & Hc)]; [by destruct Hne; apply Hcm|].
    exists c, (cs2 ++ pre). split; [by rewrite <- app_assoc|]. split; [done|by apply Hc].
  - apply emits_ret. rewrite app_nil_r. exact (no_apply_absurd _ _ _ Hn12).
  - apply emits_ret. rewrite app_nil_r. exact (no_apply_absurd _ _ _ Hn12).
Qed.

(** A reconciliation that finds its runtime: without error it has written the
    constraints and the secret and then reconciled the runtime. *)
Lemma ReconcileRuntime_found req info cluster rt
    (Q : list RuntimeCall → RuntimeOutcome → Prop) :
  findRuntime settings env req = Ok (Some (cluster, rt)) →
  (∀ pre, no_apply pre →
     emits (reconcileRuntime sortedList TrimSpace spare settings cfg env req
              (nsEnabled settings (re_lists env) (Namespace req)) cluster rt info)
       (λ cs out, out.2.2 = None → Q (pre ++ cs) out)) →
  emits (ReconcileRuntime Marshal dataPlane sortedList TrimSpace spare settings cfg env req info)
    (λ cs out, out.2.2 = None → Q cs out).
Proof.
  intros Hf HQ. unfold ReconcileRuntime. cbn zeta.
  destruct (listSpecs _ _ _ _) as [srSpecs|]; [|by apply emits_ret].
  eapply emits_bind; [apply emits_embed, ClusterConfigReconcile_emits|].
  intros cs1 err1 (cms & -> & _). destruct err1; [by apply emits_ret|].
  eapply emits_bind; [apply reconcileEtcdSecret_emits|]. intros cs2 err2 Hn2.
  destruct err2; [by apply emits_ret|]. rewrite Hf.
  eapply emits_weaken; [apply (HQ (map OnConfigMap cms ++ cs2))|].
  - apply Forall_app. split; [apply no_apply_map; by intros c []|done].
  - intros cs out Hout He. rewrite app_assoc. by apply Hout.
Qed.

(** What config/internal/base/deployment.yaml.tmpl is: one Deployment, named after the
    service and the runtime; and what the injections leave alone *)
Class DeploymentTemplate := {
  template_one m n ms : Manifest L deploymentTemplate (m, n) = Ret (Ok ms) →
    ∃ d, ms = [d] ∧ d_Name d = dep_ServiceName m +:+ "-" +:+ dep_Name m;
  owner_keeps_name o d d' : tl_InjectOwner L o d = Ret (Ok d') → d_Name d' = d_Name d;
  namespace_injected ns d d' : tl_InjectNamespace L ns d = Ret (Ok d') →
    d_Name d' = d_Name d ∧ d_Namespace d' = ns
}.

Lemma deleted_resource `{!DeploymentTemplate} m owner ms rs :
  Manifest L deploymentTemplate (m, 0%Z) = Ret (Ok ms) →
  tl_Transform L [tl_InjectOwner L owner; tl_InjectNamespace L (dep_Namespace m)] ms
    = Ret (Ok rs) →
  ∃ d, rs = [d] ∧ d_Name d = dep_ServiceName m +:+ "-" +:+ dep_Name m ∧
       d_Namespace d = dep_Namespace m.
Proof.
  intros Hm Ht. destruct (template_one _ _ _ Hm) as (d0 & -> & Hn). revert Ht.
  rewrite (transform_one L). cbn [in_turn].
  destruct (tl_InjectOwner L owner d0) as [[d1|]|] eqn:E1; cbn [mbind exec_bind]; [|done..].
  destruct (tl_InjectNamespace L _ d1) as [[d2|]|] eqn:E2; cbn [mbind exec_bind]; [|done..].
  intros [= <-]. exists d2. destruct (namespace_injected _ _ _ E2) as [I1 I2].
  split_and!; [done| |done]. by rewrite I1, (owner_keeps_name _ _ _ E1).
Qed.

(** C14: A runtime that should not run here, because it is disabled, does not serve
    multiple models, or its namespace is not enabled, has its deployment deleted: a
    reconciliation that ends without error has done so, successfully, as its last write,
    for the deployment of the runtime's name in its namespace, and has applied
    nothing. *)
Theorem stopped_runtime_removed `{!DeploymentTemplate} req info tr info' res cluster rt :
  run (ReconcileRuntime Marshal dataPlane sortedList TrimSpace spare settings cfg env req info)
    = Ret (tr, (info', (res, None))) →
  findRuntime settings env req = Ok (Some (cluster, rt)) →
  IsDisabled (rt_Spec rt) = true ∨ IsMultiModelRuntime (rt_Spec rt) = false ∨
    nsEnabled settings (re_lists env) (Namespace req) = false →
  no_apply tr ∧ res = emptyResult ∧
  ∃ d, last tr = Some (OnManifest (DeleteResources [d])) ∧ tl_Delete L [d] = None ∧
    d_Namespace d = Namespace req ∧
    d_Name d = InferenceServiceName cfg +:+ "-" +:+ Name req.
Proof.
  intros Hrun Hf Hstop.
  refine (emits_run _ _ _ _ (ReconcileRuntime_found req info cluster rt
    (λ cs out, no_apply cs ∧ out.2.1 = emptyResult ∧
      ∃ d, last cs = Some (OnManifest (DeleteResources [d])) ∧ tl_Delete L [d] = None ∧
        d_Namespace d = Namespace req ∧
        d_Name d = InferenceServiceName cfg +:+ "-" +:+ Name req) Hf _) Hrun eq_refl).
  intros pre Hpre. set (en := nsEnabled settings (re_lists env) (Namespace req)) in *.
  unfold reconcileRuntime. cbn zeta.
  destruct (validateServingRuntimeSpec _ _); [by apply emits_ret|].
  apply emits_lift_bind. intros [pvcs|] _; [|by apply emits_ret].
  apply emits_lift_bind. intros m Hm. apply newMMDeployment_fields in Hm as (_ & M2 & M3 & M4).
  assert (IsDisabled (rt_Spec rt) || negb (IsMultiModelRuntime (rt_Spec rt)) || negb en = true)
    as ->.
  { rewrite !orb_true_iff, !negb_true_iff. tauto. }
  eapply emits_bind; [apply deleteDeployment_emits|].
  intros cs err Hcs. apply emits_ret. cbn [app snd fst]. intros He.
  destruct Hcs as [[-> [e ->]]|(rs & -> & -> & ms & Hms & Hrs)]; [done|].
  destruct (deleted_resource _ _ _ _ Hms Hrs) as (d & -> & D1 & D2).
  rewrite app_nil_r, last_snoc. split_and!; [|done|].
  - apply Forall_app. split; [done|apply Forall_singleton; by intros []].
  - exists d. rewrite D1, D2, M2, M3, M4. split_and!; try done.
    by destruct (tl_Delete L [d]).
Qed.

(** The error of the autoscaler's creation is only logged: the controller then
    dereferences the nil result. *)
Theorem autoscaler_error_panics req rt m info info' e replicas rq :
  createAutoscaler (re_setOwner env) rt (InferenceServiceName cfg +:+ "-" +:+ dep_Name m)
    (dep_Namespace m) = Err e →
  determineReplicasAndRequeueDuration (re_now env) (re_registries env) cfg (rt_Spec rt) req info
    = Ret (info', Ok (replicas, rq)) →
  run (deployRuntime sortedList TrimSpace spare cfg env req false rt m info) = Panic.
Proof.
  intros Ha Hr. unfold deployRuntime, run. cbn zeta. cbn [andb]. rewrite Ha.
  unfold mbind, io_bind, lift. rewrite Hr. done.
Qed.

(** With an HPA, the deployment must already exist: otherwise the reconciliation fails
    before it creates it. *)
Theorem hpa_needs_existing_deployment a replicas dep e :
  as_Class a ≠ AutoscalerClassNone → replicas ≠ 0%Z → re_GetDeployment env dep = Err e →
  run (replicasAndHPA env (Some a) replicas dep) =
    Ret ([], Err (ErrWrap "Could not get the deployment for the servingruntime " e)).
Proof.
  intros Ha Hr Hd. unfold replicasAndHPA, run, mbind, io_bind, lift. simpl.
  rewrite !bool_decide_false by done. simpl. by rewrite Hd.
Qed.
End Steps.

(** ** Concrete runs *)

Definition runtimeLists (rt : ServingRuntime) : RuntimeLists :=
  mkRuntimeLists (λ _, Ok [rt]) (Ok []) (Ok [])
    (λ ns, Ok (mkNamespace ns {["modelmesh-enabled" := "true"]} false)).

(** Libraries that render a template of one deployment *)
Definition exampleLibs : TemplateLibs (MMDeployment * Z) ServingRuntime DeploymentObj :=
  mkTemplateLibs (MMDeployment * Z) ServingRuntime DeploymentObj (λ _, Ok (Ok "template"))
    (λ _, Ok (λ '(m, _), Ok (dep_ServiceName m +:+ "-" +:+ dep_Name m)))
    (λ name, Ok [mkDeployment name "" (d_Replicas exampleTemplate) (d_Labels exampleTemplate)
                   (d_Annotations exampleTemplate) (d_Spec exampleTemplate)])
    (λ _ d, Ret (Ok d))
    (λ ns d, Ret (Ok (mkDeployment (d_Name d) ns (d_Replicas d) (d_Labels d) (d_Annotations d)
                        (d_Spec d))))
    rt_Namespace
    (λ fns, fix go rs := match rs with
                         | [] => Ret (Ok [])
                         | r :: rest =>
                             x ← in_turn fns r;
                             match x with
                             | Err e => Ret (Err e)
                             | Ok r' =>
                                 y ← go rest;
                                 Ret match y with Err e => Err e | Ok rs' => Ok (r' :: rs') end
                             end
                         end)
    (λ _, None) (λ _, None) "".

#[export] Instance exampleLibs_laws : TransformLaws exampleLibs.
Proof. by split. Qed.

Definition runtimeEnv (rt : ServingRuntime) : RuntimeEnv :=
  mkRuntimeEnv (runtimeLists rt) (λ _, Ok rt) (λ _, Err ErrNotFound) (λ _, Err ErrNotFound)
    (λ _, None) (λ _, Ok ∅) (λ _, None) (λ _, None) (λ _, Err ErrNotFound) (λ _ _, true) []
    (mkHPAClient (λ _, Err ErrNotFound) (λ _, None) (λ _, None) (λ _, None)) (λ _, None)
    (λ _, Err ErrNotFound) (λ _, None) exampleLibs (λ _, None) 0.

#[export] Instance exampleTemplate_named rt : DeploymentTemplate (runtimeEnv rt).
Proof.
  split.
  - intros m n ms [= <-]. by eexists.
  - by intros o d d' [= <-].
  - by intros ns d d' [= <-].
Qed.

Definition runtimeOf (disabled : bool) : ServingRuntime :=
  mkRuntime "ns" "rt" ∅ ∅
    (let s := exampleSpec [exampleContainer "srv" []] None (Some "port:8085") in
     mkSRSpec (sr_SupportedModelFormats s) (sr_ProtocolVersions s) (Some true) (Some disabled)
       None (sr_Containers s) (sr_Volumes s) None (Some "port:8001") (Some "port:8085") None
       ∅ [] None ∅ ∅ []).

#[local] Existing Instances protocolNamesImpl kserveImpl kserveConstantsImpl etcdLibsImpl jsonMapImpl.

Definition runRuntime (disabled : bool) : exec (list RuntimeCall * RuntimeOutcome) :=
  run (ReconcileRuntime (λ _, "constraints") "dataplane" elements id 0
         (mkSettings "controller" true false false "storage-config") exMerged
         (runtimeEnv (runtimeOf disabled)) (mkNN "ns" "rt") ∅).

Lemma deployment_after_constraints_witness :
  ∃ tr out d, runRuntime false = Ret (tr, out) ∧ ApplyManifest d ∈ tr ∧
    ∃ pre, tr = pre ++ [ApplyManifest d] ∧ no_apply pre.
Proof.
  assert (Hv : match runRuntime false with
               | Ret (tr, _) => match last tr with Some (ApplyManifest _) => true | _ => false end
               | Panic => false end = true) by (vm_compute; reflexivity).
  destruct (runRuntime false) as [[tr out]|] eqn:E; [|discriminate Hv].
  assert (∃ d, last tr = Some (ApplyManifest d)) as [d Hd].
  { destruct (last tr) as [[| | | |[[|d []]|]]|]; try discriminate Hv. exists d. reflexivity. }
  exists tr, out, d. split; [reflexivity|]. apply last_Some in Hd as [pre Hpre].
  assert (ApplyManifest d ∈ tr) as Hin by (rewrite Hpre; apply elem_of_app; right; left).
  split; [exact Hin|].
  destruct (deployment_after_constraints _ _ _ _ _ _ _ _ _ _ _ _ d E Hin)
    as (_ & _ & _ & pre' & H1 & H2 & _).
  exact (ex_intro _ pre' (conj H1 H2)).
Defined.

Lemma stopped_runtime_removed_witness :
  ∃ tr out d, runRuntime true = Ret (tr, out) ∧ no_apply tr ∧
    last tr = Some (OnManifest (DeleteResources [d])) ∧ d_Name d = "modelmesh-serving-rt".
Proof.
  assert (Hv : match runRuntime true with Ret (_, (_, (_, None))) => true | _ => false end
               = true) by (vm_compute; reflexivity).
  destruct (runRuntime true) as [[tr [info' [res [|]]]]|] eqn:E; [discriminate Hv| |discriminate Hv].
  destruct (stopped_runtime_removed _ _ _ _ _ _ _ _ _ _ _ _ _ false (runtimeOf true) E)
    as (H & _ & d & H1 & _ & _ & H2); [reflexivity|by left|].
  exists tr, (info', (res, None)), d. split; [reflexivity|]. split; [exact H|].
  split; [exact H1|exact H2].
Defined.
