(* ===== verification/ServiceController.v ===== *)
(** * The service controller (controllers/service_controller.go)

    Per served namespace: the Service in front of the model-mesh pods, the connection
    to it, the watches on its registry, and the ServiceMonitor. Its state is the map of
    model-mesh services and the event stream. *)

From S2P Require Import Prelude GoStrings Types K8s Config RangeWatcher Events MMService.
From S2P Require Import RuntimeScaling.

Open Scope go_scope.

Definition commonLabelValue : string := "modelmesh-controller".
Definition serviceMonitorName : string := "modelmesh-metrics-monitor".

(** ** Data *)

Record ServiceObj := mkService {
  so_Name : string;
  so_Namespace : string;
  so_Labels : gmap string string;
  so_Spec : ServiceSpec
}.

Record MonitorEndpoint := mkMonitorEndpoint {
  me_Interval : string;
  me_Port : string;
  me_Scheme : string;
  me_InsecureSkipVerify : bool
}.

(** The ServiceMonitor fields the controller compares *)
Record ServiceMonitor := mkMonitor {
  sm_Namespace : string;
  sm_OwnerReferences : list string;
  sm_Labels : gmap string string;
  sm_Selector : gmap string string;
  sm_NamespaceSelector : list string;
  sm_Endpoints : list MonitorEndpoint
}.

#[export] Instance MonitorEndpoint_eq_dec : EqDecision MonitorEndpoint.
Proof. solve_decision. Defined.
#[export] Instance ServiceMonitor_eq_dec : EqDecision ServiceMonitor.
Proof. solve_decision. Defined.

Inductive ServiceCall :=
| CreateService (s : ServiceObj)
| UpdateService (s : ServiceObj)
| DeleteService (s : ServiceObj)
| CreateMonitor (m : ServiceMonitor)
| UpdateMonitor (m : ServiceMonitor)
| DeleteMonitor (m : ServiceMonitor).

(** MMServiceMap and the event stream *)
Record ServiceState := mkServiceState {
  MMServices : gmap string MMService;
  ModelEventStream : ModelMeshEventStream
}.

(** The answers of the API server during a reconciliation *)
Record ServiceEnv := mkServiceEnv {
  (** the namespace, as read first and as read again by reconcileService *)
  sv_GetNamespace : string → result error NamespaceObj;
  sv_GetNamespaceAgain : string → result error NamespaceObj;
  sv_GetControllerDeployment : option error;
  sv_ListServices : string → result error (list ServiceObj);
  sv_Write : ServiceCall → option error;
  (** SetControllerReference, with an owner or with the nil owner, for which it may panic *)
  sv_SetOwner : bool → exec (option error);
  sv_connect : ConnectEnv;
  sv_EtcdSecret : string → result error SecretData;
  sv_GetMonitor : string → result error ServiceMonitor;
  sv_SetMonitorOwner : ServiceObj → ServiceMonitor → result error (list string);
  sv_LookupEnv : string → option string
}.

Record ServiceSettings := mkServiceSettings {
  ss_ControllerDeployment : NamespacedName;
  ss_ClusterScope : bool;
  ss_ServiceMonitorCRDExists : bool
}.

(** ** Client TLS *)

Section TLS.
Context `{!EtcdLibs}.
(** whether certificates could be appended to the pool *)
Variable AppendCertsFromPEM : string → bool.

(** [None] is a nil configuration. Errors are reformatted, not wrapped. *)
Definition tlsConfigFromSecret (get : string → result error SecretData) (secretName : string)
  : result error (option string) :=
  if bool_decide (secretName = "") then Ok None
  else
    match get secretName with
    | Err _ => Err (ErrMsg ("unable to access TLS secret '" +:+ secretName +:+ "'"))
    | Ok data =>
        match data !! "tls.crt", data !! "tls.key" with
        | Some cert, Some key =>
            match X509KeyPair cert key with
            | Err _ => Err (ErrMsg "could not load client key pair")
            | Ok certificate =>
                if AppendCertsFromPEM cert then Ok (Some certificate)
                else Err (ErrMsg "failed to append ca certs")
            end
        | _, _ => Err (ErrMsg ("TLS secret '" +:+ secretName +:+
                               "' missing tls.crt and/or tls.key"))
        end
    end.
End TLS.

Section Service.
Context `{!EtcdLibs}.
Variables (r : ServiceSettings) (env : ServiceEnv).

(** ** The map of model-mesh services *)

(** getMMService: whether the configuration changed the service *)
Definition getMMService (namespace : string) (cfg : Config) (newConfig : bool)
    (st : ServiceState) : MMService * bool * ServiceState :=
  let '(mms, newSvc) := match MMServices st !! namespace with
                        | Some mms => (mms, false)
                        | None => (NewMMService namespace, true)
                        end in
  let '(changed, mms) := if newSvc || newConfig then UpdateConfig cfg mms else (false, mms) in
  (mms, changed, mkServiceState (<[namespace := mms]> (MMServices st)) (ModelEventStream st)).

(** ** The Service *)

(** Delete the labelled services of other names; the one of this name, if any *)
Fixpoint cleanServices (serviceName : string) (items : list ServiceObj)
    (found : option ServiceObj) (stream : ModelMeshEventStream)
  : io ServiceCall (result error (option ServiceObj) * ModelMeshEventStream) :=
  match items with
  | [] => return (Ok found, stream)
  | ss :: rest =>
      if bool_decide (so_Name ss = serviceName)
      then cleanServices serviceName rest (Some ss) stream
      else
        _ ← call (DeleteService ss);
        match sv_Write env (DeleteService ss) with
        | Some e => return (Err e, stream)
        | None => cleanServices serviceName rest found
                    (RemoveWatchedService (so_Name ss) (so_Namespace ss) stream)
        end
  end.

Definition serviceLabels (serviceName : string) : gmap string string :=
  <["modelmesh-service" := serviceName]>
  (<["app.kubernetes.io/instance" := commonLabelValue]>
   (<["app.kubernetes.io/managed-by" := commonLabelValue]>
    {["app.kubernetes.io/name" := commonLabelValue]})).

Definition set_ClusterIP (ip : string) (s : ServiceSpec) : ServiceSpec :=
  mkServiceSpec (svs_Selector s) (svs_Ports s) ip.

(** The service, the error and the requeue flag *)
Definition ServiceResult : Type := option ServiceObj * option error * bool.

(** The steps for a service that exists. The comparison of the spec, a struct, with
    the target, a pointer, never finds them equal. *)
Definition updateService (mms : MMService) (s : ServiceObj) (serviceName : string)
    (target : ServiceSpec) : io ServiceCall (ServiceResult * MMService) :=
  let origClusterIp := svs_ClusterIP (so_Spec s) in
  let clusterIp := if bool_decide (origClusterIp ≠ "None") then "" else origClusterIp in
  if bool_decide (clusterIp ≠ svs_ClusterIP target) then
    let s := mkService (so_Name s) (so_Namespace s) (so_Labels s)
               (set_ClusterIP clusterIp (so_Spec s)) in
    _ ← call (DeleteService s);
    return (None, sv_Write env (DeleteService s), true, mms)
  else
    let s := mkService (so_Name s) (so_Namespace s) (serviceLabels serviceName)
               (set_ClusterIP origClusterIp target) in
    _ ← call (UpdateService s);
    let err := sv_Write env (UpdateService s) in
    let '(err2, mms) := ConnectIfNeeded (sv_connect env) mms in
    return (Some s, match err, err2 with
                    | None, Some e => Some (ErrWrap "error establishing model-mesh gRPC conn" e)
                    | _, _ => err
                    end, false, mms).

Definition createService (mms : MMService) (serviceName namespace : string)
    (target : ServiceSpec) (owner : bool) : io ServiceCall (ServiceResult * MMService) :=
  let mms := Disconnect (ce_closeErr (sv_connect env)) mms in
  let s := mkService serviceName namespace (serviceLabels serviceName) target in
  err ← lift (sv_SetOwner env owner);
  match err with
  | Some e => return (None, Some (ErrWrap "could not set Service owner reference" e), false, mms)
  | None =>
      _ ← call (CreateService s);
      return (match sv_Write env (CreateService s) with
              | Some e => (None, Some (ErrWrap "could not create service" e), false)
              | None => (Some s, None, false)
              end, mms)
  end.

Definition reconcileService (mms : MMService) (namespace : string) (owner : bool)
    (stream : ModelMeshEventStream)
  : io ServiceCall (ServiceResult * MMService * ModelMeshEventStream) :=
  match GetNameAndSpec mms with
  | (EmptyString, _) | (_, None) =>
      return (None, Some (ErrMsg "unexpected state - MMService uninitialized"), false, mms, stream)
  | (serviceName, Some target) =>
      match (if ss_ClusterScope r
             then match sv_GetNamespaceAgain env namespace with
                  | Err e => Err e
                  | Ok n => Ok (modelMeshEnabled n (Namespace (ss_ControllerDeployment r)))
                  end
             else Ok true) with
      | Err e => return (None, Some e, false, mms, stream)
      | Ok false =>
          return (None, None, false, mms, RemoveWatchedService serviceName namespace stream)
      | Ok true =>
          match sv_ListServices env namespace with
          | Err e => return (None, Some e, false, mms, stream)
          | Ok items =>
              '(found, stream) ← cleanServices serviceName items None stream;
              match found with
              | Err e => return (None, Some e, false, mms, stream)
              | Ok None =>
                  '(res, mms) ← createService mms serviceName namespace target owner;
                  return (res, mms, stream)
              | Ok (Some s) =>
                  '(res, mms) ← updateService mms s serviceName target;
                  return (res, mms, stream)
              end
          end
      end
  end.

(** ** The ServiceMonitor *)

(** The wanted monitor and whether it counts as changed: the comparison of the owner
    references is inverted in the source. *)
Definition targetMonitor (metrics : PrometheusConfig) (owner : ServiceObj)
    (sm : ServiceMonitor) (ownerRefs : list string) : bool * ServiceMonitor :=
  let selector := {["modelmesh-service" := so_Name owner]} in
  let namespaceSelector := [sm_Namespace sm] in
  let endpoints := [mkMonitorEndpoint "30s" "prometheus" (pc_Scheme metrics) true] in
  (bool_decide (sm_OwnerReferences sm = ownerRefs) ||
   bool_decide (sm_Labels sm ≠ so_Labels owner) ||
   bool_decide (sm_Selector sm ≠ selector) ||
   bool_decide (sm_NamespaceSelector sm ≠ namespaceSelector) ||
   bool_decide (sm_Endpoints sm ≠ endpoints),
   mkMonitor (sm_Namespace sm) ownerRefs (so_Labels owner) selector namespaceSelector endpoints).

(** The error and the requeue flag *)
Definition reconcileServiceMonitor (metrics : PrometheusConfig) (owner : ServiceObj)
  : io ServiceCall (option error * bool) :=
  let namespace := so_Namespace owner in
  match (match sv_GetMonitor env namespace with
         | Ok sm => Ok (sm, true)
         | Err e => if IsNotFound e then Ok (mkMonitor namespace [] ∅ ∅ [] [], false) else Err e
         end) with
  | Err e => return (Some (ErrWrap ("unable to get service monitor " +:+ serviceMonitorName) e),
                     false)
  | Ok (sm, exists_) =>
      if pc_DisablePrometheusOperatorSupport metrics || negb (pc_Enabled metrics) then
        if exists_ : bool then
          _ ← call (DeleteMonitor sm);
          return (ErrWrap ("unable to delete service monitor " +:+ serviceMonitorName) <$>
                    sv_Write env (DeleteMonitor sm), false)
        else return (None, false)
      else
        match sv_SetMonitorOwner env owner sm with
        | Err e => return (Some (ErrWrap "could not set ServiceMonitor owner reference" e), false)
        | Ok ownerRefs =>
            let '(changed, sm) := targetMonitor metrics owner sm ownerRefs in
            if changed : bool then
              let c := if exists_ : bool then UpdateMonitor sm else CreateMonitor sm in
              _ ← call c;
              return (match sv_Write env c with
                      | None => (None, false)
                      | Some e => if IsConflict e then (None, true)
                                  else (Some (ErrWrap "could not create (or) update service monitor "
                                                e), false)
                      end)
            else return (None, false)
        end
  end.

(** ** Reconcile *)

(** Services of a namespace that is no longer served are deleted in order. *)
Fixpoint deleteServices (items : list ServiceObj) : io ServiceCall (option error) :=
  match items with
  | [] => return None
  | s :: rest =>
      _ ← call (DeleteService s);
      match sv_Write env (DeleteService s) with
      | Some e => return (Some e)
      | None => deleteServices rest
      end
  end.

Definition ServiceOutcome : Type := ServiceState * (CtrlResult * option error).

Definition disableNamespace (namespace : string) (st : ServiceState)
  : io ServiceCall ServiceOutcome :=
  match sv_ListServices env namespace with
  | Err e => return (st, (emptyResult, Some e))
  | Ok items =>
      err ← deleteServices items;
      match err with
      | Some e => return (st, (emptyResult, Some e))
      | None =>
          match MMServices st !! namespace with
          | None => return (st, (emptyResult, None))
          | Some mms =>
              let mms := Disconnect (ce_closeErr (sv_connect env)) mms in
              '((res, _), stream) ← reconcileService mms namespace false (ModelEventStream st);
              let st := mkServiceState (delete namespace (MMServices st)) stream in
              return (st, (emptyResult, res.1.2))
          end
      end
  end.

(** The steps for a served namespace *)
Definition serveNamespace (namespace : string) (cfg : Config) (st : ServiceState)
  : io ServiceCall ServiceOutcome :=
  let '(mms, _, st) := getMMService namespace cfg false st in
  '((res, mms), stream) ← reconcileService mms namespace true (ModelEventStream st);
  let '(s, err, requeue) := res in
  let services := <[namespace := mms]> (MMServices st) in
  if bool_decide (is_Some err) || requeue
  then return (mkServiceState services stream, (RequeueResult, err))
  else
    let etcdSecretName := GetEtcdSecretName (sv_LookupEnv env) cfg in
    let '(err, stream) := UpdateWatchedService (sv_EtcdSecret env etcdSecretName) etcdSecretName
                            (InferenceServiceName cfg) namespace stream in
    let st := mkServiceState services stream in
    match err with
    | Some e => return (st, (RequeueResult, Some e))
    | None =>
        match s with
        | Some s =>
            if ss_ServiceMonitorCRDExists r then
              '(err, requeue) ← reconcileServiceMonitor (Metrics cfg) s;
              return (st, if bool_decide (is_Some err) || requeue
                          then (RequeueResult, err) else (emptyResult, None))
            else return (st, (emptyResult, None))
        | None => return (st, (emptyResult, None))
        end
    end.

Definition ReconcileServices (req : NamespacedName) (cfg : Config) (st : ServiceState)
  : io ServiceCall ServiceOutcome :=
  if ss_ClusterScope r then
    let namespace := Name req in
    match sv_GetNamespace env namespace with
    | Err e => return (st, (emptyResult, if IsNotFound e then None else Some e))
    | Ok n =>
        if modelMeshEnabled n (Namespace (ss_ControllerDeployment r))
        then serveNamespace namespace cfg st
        else disableNamespace namespace st
    end
  else
    let namespace := Namespace req in
    match sv_GetControllerDeployment env with
    | None => serveNamespace namespace cfg st
    | Some e =>
        if IsNotFound e then
          return (mkServiceState
                    (alter (Disconnect (ce_closeErr (sv_connect env))) namespace (MMServices st))
                    (ModelEventStream st), (emptyResult, None))
        else return (st, (RequeueResult,
                          Some (ErrWrap "could not get the controller deployment" e)))
    end.

(** ** The watch on the configuration *)

(** Cluster scope: every served namespace whose service the new configuration changes *)
Fixpoint configChangeRequests (namespaces : list NamespaceObj) (cfg : Config)
    (st : ServiceState) : list string * ServiceState :=
  match namespaces with
  | [] => ([], st)
  | n :: rest =>
      if modelMeshEnabled n (Namespace (ss_ControllerDeployment r)) then
        let '(_, changed, st) := getMMService (ns_Name n) cfg true st in
        let '(reqs, st) := configChangeRequests rest cfg st in
        (if changed : bool then ns_Name n :: reqs else reqs, st)
      else configChangeRequests rest cfg st
  end.

(** Namespace scope: the one service, in the namespace of the controller *)
Definition configChangeRequest (cfg : Config) (st : ServiceState)
  : list NamespacedName * ServiceState :=
  let '(_, changed, st) :=
    getMMService (Namespace (ss_ControllerDeployment r)) cfg true st in
  (if changed : bool then [ss_ControllerDeployment r] else [], st).

(** Namespace scope: the events of deployments the controller reacts to *)
Definition deploymentFilter (name : NamespacedName) : bool :=
  bool_decide (Name name = Name (ss_ControllerDeployment r)) &&
  bool_decide (Namespace name = Namespace (ss_ControllerDeployment r)).

(** The watch on ServiceMonitors, in both scopes *)
Definition monitorRequests (o : NamespacedName) : list NamespacedName :=
  if ss_ClusterScope r then
    if bool_decide (Name o = serviceMonitorName) then [mkNN "" (Namespace o)] else []
  else if bool_decide (Name o = serviceMonitorName) &&
          bool_decide (Namespace o = Namespace (ss_ControllerDeployment r))
       then [ss_ControllerDeployment r] else [].
End Service.
