(* ===== verification/ServiceControllerProps.v ===== *)
(** * Properties of the service controller *)

From S2P Require Import Prelude GoStrings Types K8s Config ConfigProps RangeWatcher Events MMService.
From S2P Require Import RuntimeScaling ServiceController.

Section ServiceProps.
Context `{!EtcdLibs}.
Variables (r : ServiceSettings) (env : ServiceEnv).

(** ** Services *)

(** Cleaning deletes the services of other names, in order, and finds the one of the
    wanted name. *)
Lemma cleanServices_emits name items found stream :
  emits (cleanServices env name items found stream) (λ cs out,
    ∀ s, out.1 = Ok s →
      cs = DeleteService <$> filter (λ ss, so_Name ss ≠ name) items ∧
      (∀ x, s = Some x → found = Some x ∨ x ∈ items ∧ so_Name x = name) ∧
      (s = None → found = None ∧ Forall (λ ss, so_Name ss ≠ name) items)).
Proof.
  revert found stream. induction items as [|ss rest IH]; intros found stream;
    cbn [cleanServices].
  { apply emits_ret. intros s [= <-]. split_and!; [done|by left|done]. }
  case_bool_decide as Hn.
  - eapply emits_weaken; [apply IH|]. intros cs out Hc s Hs.
    destruct (Hc s Hs) as (-> & H1 & H2). rewrite filter_cons_False by (by intros []).
    split_and!; [done| |].
    + intros x Hx. destruct (H1 x Hx) as [[= <-]|[? ?]]; right; [by split; [left|]|].
      by split; [right|].
    + intros Hx. by destruct (H2 Hx).
  - eapply emits_bind; [apply emits_call with (P := λ cs _, cs = [DeleteService ss]); done|].
    intros cs [] ->. destruct (sv_Write env (DeleteService ss)); [by apply emits_ret|].
    eapply emits_weaken; [apply IH|]. intros cs out Hc s Hs.
    destruct (Hc s Hs) as (-> & H1 & H2). rewrite filter_cons_True by done.
    split_and!; [done| |].
    + intros x Hx. destruct (H1 x Hx) as [?|[? ?]]; [by left|right]. by split; [right|].
    + intros Hx. destruct (H2 Hx) as [? ?]. split; [done|]. by apply Forall_cons.
Qed.

Lemma createService_emits mms name ns target owner :
  emits (createService env mms name ns target owner) (λ cs out,
    ∀ s rq, out.1 = (Some s, None, rq) →
      cs = [CreateService s] ∧ rq = false ∧ sv_Write env (CreateService s) = None ∧
      s = mkService name ns (serviceLabels name) target).
Proof.
  unfold createService. cbn zeta.
  apply emits_lift_bind. intros [e|] _; [by apply emits_ret|].
  eapply emits_bind; [apply emits_call with (P := λ cs _, cs =
    [CreateService (mkService name ns (serviceLabels name) target)]); done|].
  intros cs [] ->. apply emits_ret. intros s rq. cbn [fst].
  destruct (sv_Write env _) eqn:E; [done|]. by intros [= <- <-].
Qed.

Lemma updateService_emits mms s0 name target :
  emits (updateService env mms s0 name target) (λ cs out,
    ∀ s rq, out.1 = (Some s, None, rq) →
      cs = [UpdateService s] ∧ rq = false ∧ sv_Write env (UpdateService s) = None ∧
      s = mkService (so_Name s0) (so_Namespace s0) (serviceLabels name)
            (set_ClusterIP (svs_ClusterIP (so_Spec s0)) target)).
Proof.
  unfold updateService. cbn zeta. case_bool_decide.
  - eapply emits_bind; [apply emits_call with (P := λ _ _, True); done|].
    intros cs [] _. by apply emits_ret.
  - eapply emits_bind; [apply emits_call with (P := λ cs _, cs =
      [UpdateService (mkService (so_Name s0) (so_Namespace s0) (serviceLabels name)
            (set_ClusterIP (svs_ClusterIP (so_Spec s0)) target))]); done|].
    intros cs [] ->. destruct (ConnectIfNeeded _ _) as [err2 mms']. apply emits_ret.
    intros s rq. cbn [fst]. intros [= <- Herr <-]. split_and!; [done..| |done].
    destruct (sv_Write env _) eqn:E; [|done]. by destruct err2.
Qed.

(** reconcileService for an initialised service *)
Lemma reconcileService_ready mms ns owner stream target :
  mms_name mms ≠ "" → mms_serviceSpec mms = Some target →
  reconcileService r env mms ns owner stream =
      match (if ss_ClusterScope r
             then match sv_GetNamespaceAgain env ns with
                  | Err e => Err e
                  | Ok n => Ok (modelMeshEnabled n (Namespace (ss_ControllerDeployment r)))
                  end
             else Ok true) with
      | Err e => mret (None, Some e, false, mms, stream)
      | Ok false =>
          mret (None, None, false, mms, RemoveWatchedService (mms_name mms) ns stream)
      | Ok true =>
          match sv_ListServices env ns with
          | Err e => mret (None, Some e, false, mms, stream)
          | Ok items =>
              '(found, stream) ← cleanServices env (mms_name mms) items None stream;
              match found with
              | Err e => mret (None, Some e, false, mms, stream)
              | Ok None =>
                  '(res, mms) ← createService env mms (mms_name mms) ns target owner;
                  mret (res, mms, stream)
              | Ok (Some s) =>
                  '(res, mms) ← updateService env mms s (mms_name mms) target;
                  mret (res, mms, stream)
              end
          end
      end.
Proof.
  intros Hn Ht. unfold reconcileService, GetNameAndSpec. rewrite Ht.
  by destruct (mms_name mms).
Qed.

(** An uninitialised service is an error. *)
Lemma reconcileService_unready mms ns owner stream :
  mms_name mms = "" ∨ mms_serviceSpec mms = None →
  reconcileService r env mms ns owner stream =
    mret (None, Some (ErrMsg "unexpected state - MMService uninitialized"), false, mms, stream).
Proof.
  unfold reconcileService, GetNameAndSpec. intros [-> | ->]; [done|]. by destruct (mms_name mms).
Qed.

(** C26: When the service of a namespace is reconciled, the namespace is left with one
    labelled Service: the writes are the deletion of every labelled service of
    another name, in order, and then the creation or update of the one wanted, with
    the selector and ports of the current configuration. *)
Theorem one_service_per_namespace mms ns owner stream items target tr res mms' stream' s rq :
  mms_serviceSpec mms = Some target → sv_ListServices env ns = Ok items →
  run (reconcileService r env mms ns owner stream) = Ret (tr, (res, mms', stream')) →
  res = (Some s, None, rq) →
  so_Name s = mms_name mms ∧ so_Labels s = serviceLabels (mms_name mms) ∧
  svs_Selector (so_Spec s) = svs_Selector target ∧ svs_Ports (so_Spec s) = svs_Ports target ∧
  rq = false ∧
  ∃ write, tr = (DeleteService <$> filter (λ ss, so_Name ss ≠ mms_name mms) items) ++ [write s] ∧
    (write = CreateService ∧ Forall (λ ss, so_Name ss ≠ mms_name mms) items ∨
     write = UpdateService ∧ ∃ s0, s0 ∈ items ∧ so_Name s0 = mms_name mms) ∧
    sv_Write env (write s) = None.
Proof.
  intros Ht Hl Hrun ->.
  set (P := λ (cs : list ServiceCall) (out : ServiceResult * MMService * ModelMeshEventStream),
    out.1.1 = (Some s, None, rq) →
    so_Name s = mms_name mms ∧ so_Labels s = serviceLabels (mms_name mms) ∧
    svs_Selector (so_Spec s) = svs_Selector target ∧ svs_Ports (so_Spec s) = svs_Ports target ∧
    rq = false ∧
    ∃ write, cs = (DeleteService <$> filter (λ ss, so_Name ss ≠ mms_name mms) items) ++ [write s] ∧
      (write = CreateService ∧ Forall (λ ss, so_Name ss ≠ mms_name mms) items ∨
       write = UpdateService ∧ ∃ s0, s0 ∈ items ∧ so_Name s0 = mms_name mms) ∧
      sv_Write env (write s) = None).
  enough (emits (reconcileService r env mms ns owner stream) P) as He
    by exact (emits_run _ _ _ _ He Hrun eq_refl).
  clear Hrun. destruct (decide (mms_name mms = "")) as [En|En].
  { rewrite reconcileService_unready by (by left). by apply emits_ret. }
  rewrite (reconcileService_ready _ _ _ _ _ En Ht), Hl.
  destruct (if ss_ClusterScope r then _ else _) as [[]|]; [|by apply emits_ret..].
  eapply emits_bind; [apply cleanServices_emits|]. intros cs [found stream1] Hc.
  cbn [fst] in Hc. destruct found as [[s0|]|]; [| |by apply emits_ret].
  - destruct (Hc _ eq_refl) as (-> & H1 & _). destruct (H1 s0 eq_refl) as [?|[Hin Hs0]]; [done|].
    eapply emits_bind; [apply updateService_emits|]. intros cs' [res mms1] Hu. cbn [fst] in Hu.
    apply emits_ret. subst P. cbn [fst]. intros ->.
    destruct (Hu _ _ eq_refl) as (-> & -> & Hw & ->). cbn [so_Name so_Labels so_Spec].
    rewrite app_nil_r. split_and!; [done..|]. exists UpdateService. split_and!; [done| |done].
    right. split; [done|]. by exists s0.
  - destruct (Hc _ eq_refl) as (-> & _ & H2). destruct (H2 eq_refl) as [_ Hf].
    eapply emits_bind; [apply createService_emits|]. intros cs' [res mms1] Hu. cbn [fst] in Hu.
    apply emits_ret. subst P. cbn [fst]. intros ->.
    destruct (Hu _ _ eq_refl) as (-> & -> & Hw & ->). cbn [so_Name so_Labels so_Spec].
    rewrite app_nil_r. split_and!; [done..|]. exists CreateService. split_and!; [done| |done].
    by left.
Qed.

(** The comparison of specs never succeeds: a service that is as wanted is written
    again at every reconciliation. *)
Theorem service_always_updated mms s0 name target :
  so_Spec s0 = target → so_Labels s0 = serviceLabels name →
  svs_ClusterIP target = "None" ∨ svs_ClusterIP target = "" →
  ∃ out, run (updateService env mms s0 name target) =
    Ret ([UpdateService (mkService (so_Name s0) (so_Namespace s0) (serviceLabels name)
                           (set_ClusterIP (svs_ClusterIP target) target))], out).
Proof.
  intros Hs _ Hip. unfold updateService. cbn zeta. rewrite Hs.
  assert ((if bool_decide (svs_ClusterIP target ≠ "None") then "" else svs_ClusterIP target)
          = svs_ClusterIP target) as ->.
  { destruct Hip as [-> | ->]; done. }
  rewrite bool_decide_false by (intros Hx; by apply Hx). run_io.
  destruct (ConnectIfNeeded _ _) as [err2 mms']. by eexists.
Qed.

(** ** Namespaces that are no longer served *)

Lemma deleteServices_emits items :
  emits (deleteServices env items) (λ cs err, err = None → cs = DeleteService <$> items).
Proof.
  induction items as [|s rest IH]; cbn [deleteServices]; [by apply emits_ret|].
  eapply emits_bind; [apply emits_call with (P := λ cs _, cs = [DeleteService s]); done|].
  intros cs [] ->. destruct (sv_Write env (DeleteService s)); [by apply emits_ret|].
  eapply emits_weaken; [apply IH|]. intros cs err Hc ->. by rewrite Hc.
Qed.

(** When a namespace stops being served and the reconciliation succeeds, every
    labelled Service has been deleted, the connection is forgotten, and a watch on
    the service of that name has been cancelled. *)
Theorem disabled_namespace_cleaned ns st items n tr st' res :
  ss_ClusterScope r = true → sv_ListServices env ns = Ok items →
  sv_GetNamespaceAgain env ns = Ok n →
  modelMeshEnabled n (Namespace (ss_ControllerDeployment r)) = false →
  run (disableNamespace r env ns st) = Ret (tr, (st', (res, None))) →
  tr = DeleteService <$> items ∧ MMServices st' !! ns = None ∧
  (∀ mms, MMServices st !! ns = Some mms →
     ModelEventStream st' = RemoveWatchedService (mms_name mms) ns (ModelEventStream st)).
Proof.
  intros Hsc Hl Hn Hdis Hrun.
  enough (emits (disableNamespace r env ns st) (λ cs out, out.2.2 = None →
    cs = DeleteService <$> items ∧ MMServices out.1 !! ns = None ∧
    (∀ mms, MMServices st !! ns = Some mms →
     ModelEventStream out.1 = RemoveWatchedService (mms_name mms) ns (ModelEventStream st))))
    as He by exact (emits_run _ _ _ _ He Hrun eq_refl).
  clear Hrun. unfold disableNamespace. rewrite Hl.
  eapply emits_bind; [apply deleteServices_emits|]. intros cs err Hcs.
  destruct err as [e|]; [by apply emits_ret|]. specialize (Hcs eq_refl). subst cs.
  destruct (MMServices st !! ns) as [mms|] eqn:Em;
    [|apply emits_ret; intros _; rewrite app_nil_r; done].
  assert (GetNameAndSpec (Disconnect (ce_closeErr (sv_connect env)) mms) = GetNameAndSpec mms)
    as Hg by (unfold Disconnect; by destruct (mms_client mms), (ce_closeErr (sv_connect env))).
  set (mms' := Disconnect _ mms) in *. unfold GetNameAndSpec in Hg. injection Hg as Hg1 Hg2.
  destruct (decide (mms_name mms' = "" ∨ mms_serviceSpec mms' = None)) as [Hu|Hu].
  - rewrite reconcileService_unready by done.
    eapply emits_bind; [apply emits_ret with (P := λ cs out, cs = [] ∧ is_Some out.1.1.1.2);
      by eauto|].
    intros cs [[[[? e] ?] ?] ?] [-> [e' He]]. apply emits_ret. simpl in *. by rewrite He.
  - destruct (mms_serviceSpec mms') as [target|] eqn:Et; [|by destruct Hu; right].
    rewrite (reconcileService_ready _ _ _ _ target) by (done || (intros ?; apply Hu; by left)).
    rewrite Hsc, Hn, Hdis.
    eapply emits_bind; [apply emits_ret with (P := λ cs out, cs = [] ∧
      out.2 = RemoveWatchedService (mms_name mms') ns (ModelEventStream st)); done|].
    intros cs [[? ?] ?] [-> Hs]. simpl in Hs. subst. apply emits_ret. intros _.
    rewrite app_nil_r. cbn [fst MMServices ModelEventStream]. split_and!; [done| |].
    + apply lookup_delete_eq.
    + intros mms0 [= <-]. by rewrite Hg1.
Qed.

(** ** Configuration changes *)

(** The service has the name, ports and headlessness of the configuration. *)
Definition follows (cfg : Config) (mms : MMService) : Prop := UpdateConfig cfg mms = (false, mms).

Lemma getMMService_follows ns cfg st :
  let '(mms, changed, st') := getMMService ns cfg true st in
  MMServices st' !! ns = Some mms ∧ follows cfg mms ∧
  (∀ ns', ns' ≠ ns → MMServices st' !! ns' = MMServices st !! ns') ∧
  (changed = false → ∀ mms0, MMServices st !! ns = Some mms0 → mms_serviceSpec mms = mms_serviceSpec mms0 ∧
     mms_reconnect mms = mms_reconnect mms0).
Proof.
  unfold getMMService.
  set (m0 := match MMServices st !! ns with Some _ => _ | None => _ end).
  destruct m0 as [mms0 new] eqn:Em. rewrite orb_true_r.
  destruct (UpdateConfig cfg mms0) as [changed mms] eqn:Eu.
  cbn [MMServices]. split_and!.
  - apply lookup_insert_eq.
  - unfold follows. pose proof (UpdateConfig_idempotent cfg mms0) as Hi. cbn zeta in Hi.
    by rewrite Eu in Hi.
  - intros ns' Hne. by apply lookup_insert_ne.
  - intros -> mms1 H1. subst m0. rewrite H1 in Em. injection Em as <- <-.
    unfold UpdateConfig in Eu. cbn zeta in Eu. injection Eu as Hch <-.
    apply orb_false_iff in Hch as [-> ->]. done.
Qed.

(** After a change of the configuration every served namespace's model-mesh
    service follows it, and a namespace that is not reconciled had nothing to change
    in its Service and needs no reconnection on that account. *)
Theorem config_change_applied namespaces cfg st reqs st' n :
  NoDup (ns_Name <$> namespaces) →
  configChangeRequests r namespaces cfg st = (reqs, st') →
  n ∈ namespaces → modelMeshEnabled n (Namespace (ss_ControllerDeployment r)) = true →
  ∃ mms, MMServices st' !! ns_Name n = Some mms ∧ follows cfg mms ∧
    (ns_Name n ∉ reqs → ∀ mms0, MMServices st !! ns_Name n = Some mms0 →
       mms_serviceSpec mms = mms_serviceSpec mms0 ∧ mms_reconnect mms = mms_reconnect mms0).
Proof.
  revert st reqs. induction namespaces as [|x rest IH]; intros st reqs Hnd Hr Hin Hen;
    [by apply not_elem_of_nil in Hin|].
  cbn [fmap list_fmap] in Hnd. apply NoDup_cons in Hnd as [Hx Hnd]. cbn [configChangeRequests] in Hr.
  assert (Hkeep : ∀ l st reqs st' ns, configChangeRequests r l cfg st = (reqs, st') →
    ns ∉ ns_Name <$> l → MMServices st' !! ns = MMServices st !! ns).
  { clear. induction l as [|y l IH]; intros st reqs st' ns; cbn [configChangeRequests];
      [by intros [= <- <-]|]. cbn [fmap list_fmap]. rewrite not_elem_of_cons.
    destruct (modelMeshEnabled y _); [|intros Hr [_ Hn]; by eapply IH].
    pose proof (getMMService_follows (ns_Name y) cfg st) as Hg.
    destruct (getMMService (ns_Name y) cfg true st) as [[mms ch] st1].
    destruct (configChangeRequests r l cfg st1) as [rq st2] eqn:E2.
    intros [= <- <-] [Hne Hn]. rewrite (IH _ _ _ _ E2 Hn). by apply Hg. }
  apply elem_of_cons in Hin as [->|Hin].
  - rewrite Hen in Hr. pose proof (getMMService_follows (ns_Name x) cfg st) as Hg.
    destruct (getMMService (ns_Name x) cfg true st) as [[mms ch] st1].
    destruct (configChangeRequests r rest cfg st1) as [rq st2] eqn:E2.
    injection Hr as <- <-. destruct Hg as (H1 & H2 & _ & H4). exists mms.
    rewrite (Hkeep _ _ _ _ _ E2 Hx). split_and!; [done|done|].
    intros Hnin. apply H4. destruct ch; [|done]. destruct Hnin. left.
  - assert (ns_Name n ≠ ns_Name x) as Hne.
    { intros Heq. apply Hx. rewrite <- Heq. by apply list_elem_of_fmap_2. }
    destruct (modelMeshEnabled x _).
    + pose proof (getMMService_follows (ns_Name x) cfg st) as Hg.
      destruct (getMMService (ns_Name x) cfg true st) as [[mms ch] st1].
      destruct (configChangeRequests r rest cfg st1) as [rq st2] eqn:E2.
      injection Hr as <- <-. destruct Hg as (_ & _ & H3 & _).
      destruct (IH _ _ Hnd E2 Hin Hen) as (mms1 & M1 & M2 & M3). exists mms1.
      split_and!; [done|done|]. intros Hnin. rewrite <- (H3 _ Hne). apply M3.
      destruct ch; [|done]. by apply not_elem_of_cons in Hnin as [_ ?].
    + by eapply IH.
Qed.

(** ** The monitor *)

(** A monitor that is as wanted is written again every time, because an unchanged list
    of owner references counts as a change ... *)
Theorem monitor_always_updated metrics owner sm :
  (targetMonitor metrics owner sm (sm_OwnerReferences sm)).1 = true.
Proof. unfold targetMonitor. simpl. by rewrite bool_decide_true. Qed.

(** ... and one whose owner references alone changed is not. *)
Theorem monitor_owner_change_lost metrics owner sm refs :
  refs ≠ sm_OwnerReferences sm →
  sm = mkMonitor (sm_Namespace sm) (sm_OwnerReferences sm) (so_Labels owner)
         {["modelmesh-service" := so_Name owner]} [sm_Namespace sm]
         [mkMonitorEndpoint "30s" "prometheus" (pc_Scheme metrics) true] →
  (targetMonitor metrics owner sm refs).1 = false.
Proof.
  intros Hr Hsm. rewrite Hsm. unfold targetMonitor. simpl.
  rewrite bool_decide_false by congruence.
  rewrite !(bool_decide_false (_ ≠ _)) by (intros Hx; by apply Hx). done.
Qed.
End ServiceProps.

(** ** Concrete runs *)

Definition exService (name : string) : ServiceObj :=
  mkService name "ns" (serviceLabels name) (targetSpec name 8033 0 true 0).

Definition svcEnv (label : string) (items : list ServiceObj) : ServiceEnv :=
  mkServiceEnv
    (λ ns, Ok (mkNamespace ns {["modelmesh-enabled" := label]} false))
    (λ ns, Ok (mkNamespace ns {["modelmesh-enabled" := label]} false))
    None (λ _, Ok items) (λ _, None) (λ _, Ret None) (mkConnectEnv (λ _, Ok "") (λ _ _ _, Ok 1) None)
    (λ _, Err ErrNotFound) (λ _, Err ErrNotFound) (λ _ _, Ok []) (λ _, None).

Definition svcSettings : ServiceSettings :=
  mkServiceSettings (mkNN "controller" "modelmesh-controller") true false.

Definition exMMService : MMService := (UpdateConfig exMerged (NewMMService "ns")).2.

Definition svcState : ServiceState :=
  mkServiceState {["ns" := exMMService]}
    (mkStream "controller" "etcd" None "" {["ns" := mkNW "modelmesh-serving" (Some 0)]}
       {[0 := mkRW "ns" None "/mm"]} 1).

Lemma one_service_per_namespace_witness :
  ∃ tr res mms' stream' s, run (reconcileService svcSettings
      (svcEnv "true" [exService "old"; exService "modelmesh-serving"]) exMMService "ns" true
      (ModelEventStream svcState)) = Ret (tr, (res, mms', stream')) ∧
    res = (Some s, None, false) ∧ so_Name s = "modelmesh-serving" ∧
    svs_Ports (so_Spec s) = svs_Ports (targetSpec "modelmesh-serving" 8033 8008 true 0).
Proof.
  eexists _, _, _, _, _. split; [vm_compute; reflexivity|]. split; [reflexivity|].
  edestruct (one_service_per_namespace svcSettings
    (svcEnv "true" [exService "old"; exService "modelmesh-serving"]) exMMService "ns" true
    (ModelEventStream svcState) [exService "old"; exService "modelmesh-serving"]
    (targetSpec "modelmesh-serving" 8033 8008 true 0)) as (H1 & _ & _ & H4 & _);
    [vm_compute; reflexivity|reflexivity|vm_compute; reflexivity|reflexivity|].
  split; [exact H1|exact H4].
Defined.

Lemma disabled_namespace_cleaned_witness :
  ∃ tr st' res, run (disableNamespace svcSettings (svcEnv "false" [exService "a"]) "ns" svcState)
    = Ret (tr, (st', (res, None))) ∧ MMServices st' !! "ns" = None.
Proof.
  eexists _, _, _. split; [vm_compute; reflexivity|].
  edestruct (disabled_namespace_cleaned svcSettings (svcEnv "false" [exService "a"]) "ns" svcState
    [exService "a"]) as (_ & H & _);
    [reflexivity|reflexivity|reflexivity|vm_compute; reflexivity|vm_compute; reflexivity|exact H].
Defined.

Lemma config_change_applied_witness :
  ∃ reqs st' mms, configChangeRequests svcSettings
      [mkNamespace "ns" {["modelmesh-enabled" := "true"]} false] exMerged
      (mkServiceState ∅ (ModelEventStream svcState)) = (reqs, st') ∧
    MMServices st' !! "ns" = Some mms ∧ follows exMerged mms.
Proof.
  edestruct (config_change_applied svcSettings
    [mkNamespace "ns" {["modelmesh-enabled" := "true"]} false] exMerged
    (mkServiceState ∅ (ModelEventStream svcState)))
    with (n := mkNamespace "ns" {["modelmesh-enabled" := "true"]} false)
    as (mms & H1 & H2 & _);
    [apply NoDup_singleton|vm_compute; reflexivity|left|reflexivity|].
  eexists _, _, mms. split; [vm_compute; reflexivity|]. split; [exact H1|exact H2].
Defined.

(** When the name of the service was changed in the configuration and the namespace stops
    being served before it was reconciled, the watch on the old name is not removed. *)
Theorem renamed_service_watch_leaks :
  ∃ st tr st' res, MMServices st !! "ns" = Some exMMService ∧
    run (disableNamespace svcSettings (svcEnv "false" []) "ns" st) =
      Ret (tr, (st', (res, None))) ∧
    MMServices st' !! "ns" = None ∧
    es_watchedServices (ModelEventStream st') !! "ns" = Some (mkNW "old-name" (Some 0)).
Proof.
  exists (mkServiceState {["ns" := exMMService]}
    (mkStream "controller" "etcd" None "" {["ns" := mkNW "old-name" (Some 0)]}
       {[0 := mkRW "ns" None "/mm"]} 1)).
  eexists _, _, _. split; [reflexivity|]. split; [vm_compute; reflexivity|].
  split; vm_compute; reflexivity.
Qed.
