(* ===== verification/CachedSource.v ===== *)
(** * The caching predictor source
      (pkg/predictor_source/heap.go, cached_predictor_source.go)

    A source keeps the Predictors it has seen in a map guarded by a lock, orders
    updates by resource version, and remembers deleted Predictors for a while in
    a heap ordered by deletion time. Predictors are shared through pointers: the
    cache, the deletion heap and the callers hold the same objects, and pruning
    compares pointers. The model therefore has a memory [mem] of objects, and the
    cache and the heap hold addresses.

    The clock is an argument ([now]) of every operation that reads it. *)

From S2P Require Import Prelude GoStrings GoHeap Types.

Definition loc := nat.

(** ** Events *)

Inductive EventType := EVENT_UPDATE | EVENT_DELETE.

#[export] Instance EventType_eq_dec : EqDecision EventType.
Proof. solve_decision. Defined.

Record PredictorStreamEvent := mkStreamEvent {
  pse_EventType : EventType;
  pse_Predictor : option loc
}.

(** PredictorEvent is a NamespacedName. *)
Abbreviation PredictorEvent := NamespacedName.

(** ** Utility functions *)

Definition nn (p : Predictor) : NamespacedName :=
  mkNN (om_Namespace (p_Meta p)) (om_Name (p_Meta p)).

Definition deletedPredictor (name : NamespacedName) (resourceVersion : string) : Predictor :=
  mkPredictor
    (mkMeta (Name name) (Namespace name) resourceVersion (Some zeroTime) ∅ ∅)
    emptySpec zeroStatus.

Definition isDeleted (now : Z) (p : Predictor) : bool :=
  match om_DeletionTimestamp (p_Meta p) with
  | Some t => bool_decide (t < now)%Z
  | None => false
  end.

Definition secondsAgo (now secs : Z) : option Z := Some (now - secs * Second)%Z.

(** true when the new Predictor's version is newer than the existing one's *)
Definition compareResourceVersion (existing : option Predictor) (new : Predictor)
  : result error bool :=
  match ParseInt (om_ResourceVersion (p_Meta new)) 64 with
  | None => Err (ErrMsg "unexpected resource version encountered")
  | Some newRV =>
      match existing with
      | None => Ok true
      | Some e =>
          match ParseInt (om_ResourceVersion (p_Meta e)) 64 with
          | None => Err (ErrMsg "unexpected resource version encountered")
          | Some existRV => Ok (bool_decide (existRV < newRV)%Z)
          end
      end
  end.

(** ** State *)

Record cachedPredictorSource := mkSource {
  sourceId : string;
  sourceName : string;
  started : bool;
  mem : gmap loc Predictor;
  cache : gmap NamespacedName loc;
  lockHeld : bool;
  deletionQueue : list loc;
  (* the events sent on the output channel so far *)
  sent : list PredictorEvent
}.

Definition newCachedPredictorSource (id name : string) : cachedPredictorSource :=
  mkSource id name false ∅ ∅ false [] [].

Definition set_mem m s := mkSource (sourceId s) (sourceName s) (started s) m (cache s)
  (lockHeld s) (deletionQueue s) (sent s).
Definition set_cache c s := mkSource (sourceId s) (sourceName s) (started s) (mem s) c
  (lockHeld s) (deletionQueue s) (sent s).
Definition set_lockHeld b s := mkSource (sourceId s) (sourceName s) (started s) (mem s)
  (cache s) b (deletionQueue s) (sent s).
Definition set_queue q s := mkSource (sourceId s) (sourceName s) (started s) (mem s)
  (cache s) (lockHeld s) q (sent s).
Definition set_sent e s := mkSource (sourceId s) (sourceName s) (started s) (mem s)
  (cache s) (lockHeld s) (deletionQueue s) e.
Definition set_started b s := mkSource (sourceId s) (sourceName s) b (mem s)
  (cache s) (lockHeld s) (deletionQueue s) (sent s).

(** Allocation of an object that the source did not know yet. *)
Definition alloc (p : Predictor) (s : cachedPredictorSource) : loc * cachedPredictorSource :=
  let l := fresh (dom (mem s)) in (l, set_mem (<[l := p]> (mem s)) s).

(** The object the cache holds for a name. *)
Definition cached (s : cachedPredictorSource) (name : NamespacedName) : option Predictor :=
  l ← cache s !! name; mem s !! l.

(** What a channel receive can observe. *)
Inductive recv (A : Type) := Received (a : A) | ChanEmpty | ChanClosed.
Arguments Received {A} _.
Arguments ChanEmpty {A}.
Arguments ChanClosed {A}.

(** ** The deletion heap (heap.go) *)

Section Source.
Context `{MetaTime}.

Definition deletionTime (m : gmap loc Predictor) (l : loc) : option Z :=
  p ← m !! l; om_DeletionTimestamp (p_Meta p).

Definition Less (m : gmap loc Predictor) (a b : loc) : bool :=
  Before (deletionTime m a) (deletionTime m b).

(** heap.Push(&queue, p): the queue's own Push ignores an object without a
    deletion timestamp, then the library restores the heap order. *)
Definition Push (m : gmap loc Predictor) (q : list loc) (p : loc) : list loc :=
  let q' := match deletionTime m p with Some _ => q ++ [p] | None => q end in
  heap_fix_last (Less m) q'.

Definition Peek (q : list loc) : option loc := head q.

(** The expired head of the queue, if any, and the rest. *)
Definition PopExpired (m : gmap loc Predictor) (q : list loc) (cutoff : Z)
  : exec (option (loc * list loc)) :=
  match q with
  | [] => Ret None
  | h :: _ =>
      t ← deref (deletionTime m h);
      Ret (if bool_decide (t < cutoff)%Z then heap_pop (Less m) q else None)
  end.

(** ** Registry functions *)

Definition get (s : cachedPredictorSource) (name : NamespacedName) : option loc :=
  cache s !! name.

Definition Get (now : Z) (s : cachedPredictorSource) (name : NamespacedName)
  : option Predictor :=
  match cached s name with
  | Some p => if isDeleted now p then None else Some p
  | None => None
  end.

Definition Find (now : Z) (s : cachedPredictorSource) (namespace : string)
    (predicate : Predictor → bool) : bool :=
  existsb (λ kv, match mem s !! kv.2 with
                 | Some p => negb (isDeleted now p) &&
                             bool_decide (om_Namespace (p_Meta p) = namespace) &&
                             predicate p
                 | None => false
                 end) (map_to_list (cache s)).

(** must be called with the write lock *)
Definition offerToCache (now : Z) (s : cachedPredictorSource) (name : NamespacedName)
    (p : loc) : exec (bool * cachedPredictorSource) :=
  po ← deref (mem s !! p);
  let current := cache s !! name in
  match compareResourceVersion (current ≫= λ c, mem s !! c) po with
  | Err _ => Ret (false, s)
  | Ok false => Ret (false, s)
  | Ok true =>
      match om_DeletionTimestamp (p_Meta po) with
      | None => Ret (true, set_cache (<[name := p]> (cache s)) s)
      | Some t =>
          let twoSecsAgo := secondsAgo now 2 in
          let s1 := if Before (Some t) twoSecsAgo
                    then set_mem (<[p := set_DeletionTimestamp twoSecsAgo po]> (mem s)) s
                    else s in
          (* current.DeletionTimestamp: current may be a nil pointer *)
          c ← deref current;
          co ← deref (mem s1 !! c);
          let s2 := match om_DeletionTimestamp (p_Meta co) with
                    | None => set_queue (Push (mem s1) (deletionQueue s1) p) s1
                    | Some _ => s1
                    end in
          Ret (true, set_cache (<[name := p]> (cache s2)) s2)
      end
  end.

(** The remote conditional update: the latest Predictor (nil when it is not
    found), the resource version of the observation, and success. *)
Definition StatusUpdater := Predictor → result error (option Predictor * string * bool).

Definition UpdateStatus (updater : StatusUpdater) (now : Z) (s : cachedPredictorSource)
    (predictor : option loc) : exec (result error bool * cachedPredictorSource) :=
  match predictor with
  | None => Ret (Err (ErrMsg "can't update with nil predictor"), s)
  | Some pl =>
      p ← deref (mem s !! pl);
      let name := nn p in
      match cached s name with
      | None => Ret (Ok false, s)
      | Some existing =>
          if bool_decide (om_ResourceVersion (p_Meta p) ≠ om_ResourceVersion (p_Meta existing))
          then Ret (Ok false, s)
          else
            match updater p with
            | Err e => Ret (Err e, s)
            | Ok (newPredictor, rv, ok) =>
                let ok' := match newPredictor with None => false | Some _ => ok end in
                let np := match newPredictor with
                          | None => deletedPredictor name rv
                          | Some q => q
                          end in
                let '(l, s1) := alloc np s in
                r ← offerToCache now s1 name l;
                Ret (Ok ok', r.2)
            end
      end
  end.

Definition start (s : cachedPredictorSource) : result error cachedPredictorSource :=
  if started s then Err (ErrMsg "already started") else Ok (set_started true s).

(** ** The event-processing goroutine *)

Definition unlock (s : cachedPredictorSource) : cachedPredictorSource :=
  set_lockHeld false s.

(** The prune loop: at most one iteration per queued object and a last one that
    finds nothing, so [S (length queue)] iterations are enough. *)
Fixpoint prune_loop (fuel : nat) (cutoff : Z) (s : cachedPredictorSource)
  : exec cachedPredictorSource :=
  match fuel with
  | O => Ret s
  | S fuel' =>
      r ← PopExpired (mem s) (deletionQueue s) cutoff;
      match r with
      | None => Ret s
      | Some (p, q') =>
          let s1 := set_queue q' s in
          po ← deref (mem s1 !! p);
          let name := nn po in
          let s2 := if bool_decide (cache s1 !! name = Some p)
                    then set_cache (delete name (cache s1)) s1 else s1 in
          prune_loop fuel' cutoff s2
      end
  end.

Definition pruneDeletions (now : Z) (s : cachedPredictorSource) : exec cachedPredictorSource :=
  match deletionQueue s with
  | [] => Ret s
  | _ => prune_loop (S (length (deletionQueue s))) (now + 20 * Second) s
  end.

Definition processEvent (now : Z) (s : cachedPredictorSource) (p : option loc)
    (et : EventType) : exec (option PredictorEvent * cachedPredictorSource) :=
  match p with
  | None => Ret (None, s)
  | Some l =>
      po ← deref (mem s !! l);
      let name := nn po in
      let s1 := match et, om_DeletionTimestamp (p_Meta po) with
                | EVENT_DELETE, Some _ =>
                    set_mem (<[l := set_DeletionTimestamp (Some zeroTime) po]> (mem s)) s
                | _, _ => s
                end in
      let s2 := set_lockHeld true s1 in
      r ← offerToCache now s2 name l;
      Ret (if r.1 : bool then Some name else None, r.2)
  end.

(** [poll] is what a non-blocking receive sees, [wait] what the blocking one that
    follows returns (a blocking receive never sees an empty channel). *)
Definition readEvent (now : Z) (s : cachedPredictorSource)
    (poll wait : recv PredictorStreamEvent)
  : exec (option PredictorStreamEvent * cachedPredictorSource) :=
  let blocking s' := Ret (match wait with Received e => Some e | _ => None end, s') in
  if lockHeld s then
    match poll with
    | Received e => Ret (Some e, s)
    | _ => s' ← pruneDeletions now s; blocking (unlock s')
    end
  else blocking s.

(** [room] says whether the output channel had room for a non-blocking send.
    The blocking send that follows otherwise completes in the end. *)
Definition writeEvent (s : cachedPredictorSource) (pe : PredictorEvent) (room : bool)
  : cachedPredictorSource :=
  let s1 := if lockHeld s then (if room then s else unlock s) else s in
  set_sent (sent s1 ++ [pe]) s1.

(** How every caller of processEvent goes on: an event that changed the cache is
    forwarded. The event brings an object of its own. *)
Definition processAndWrite (now : Z) (room : bool) (o : Predictor) (et : EventType)
    (s : cachedPredictorSource) : exec cachedPredictorSource :=
  let '(l, s1) := alloc o s in
  r ← processEvent now s1 (Some l) et;
  Ret (match r.1 with Some pe => writeEvent r.2 pe room | None => r.2 end).
End Source.
