(* ===== verification/CachedSourceInv.v ===== *)
(** * Invariants of the caching predictor source

    The well-formedness of a source, the specification of each operation, and
    the steps by which the event goroutine and the status updates interleave. *)

From S2P Require Import Prelude GoStrings GoHeap Types CachedSource.

Section Inv.
Context `{MetaTime}.

(** ** Definitions *)

(** The key of the deletion heap. *)
Definition dkey (m : gmap loc Predictor) (l : loc) : Z := default 0%Z (deletionTime m l).

Definition queued (m : gmap loc Predictor) (l : loc) : Prop := is_Some (deletionTime m l).

(** The version of the object cached for a name. *)
Definition version (s : cachedPredictorSource) (n : NamespacedName) : option Z :=
  p ← cached s n; ParseInt (om_ResourceVersion (p_Meta p)) 64.

Record wf (s : cachedPredictorSource) : Prop := {
  wf_cache : ∀ n l, cache s !! n = Some l → ∃ p, mem s !! l = Some p ∧ nn p = n;
  wf_queue : Forall (queued (mem s)) (deletionQueue s);
  wf_heap : heap_ok (dkey (mem s)) (deletionQueue s);
  wf_nodup : NoDup (deletionQueue s)
}.

(** A queued object whose deletion time lies before the cutoff. *)
Definition expired (m : gmap loc Predictor) (cutoff : Z) (l : loc) : Prop :=
  (dkey m l < cutoff)%Z.

#[export] Instance expired_dec m cutoff l : Decision (expired m cutoff l) :=
  Z_lt_dec _ _.
#[export] Typeclasses Opaque expired.

(** A reader writes the status of an object it got, which is the cached object. *)
Definition set_status (l : loc) (st : PredictorStatus) (p : Predictor)
    (s : cachedPredictorSource) : cachedPredictorSource :=
  set_mem (<[l := set_Status st p]> (mem s)) s.

(** Steps. An event carries an object of its own; the two halves of a status
    update (the read and, after the remote call, the write under the lock) are
    separate, so anything may happen in between; and at any time a reader may write
    the status of an object it got. *)
Inductive step : cachedPredictorSource → cachedPredictorSource → Prop :=
| step_event now s o et l s1 r s2 room :
    alloc o s = (l, s1) →
    processEvent now s1 (Some l) et = Ret (r, s2) →
    step s (match r with Some pe => writeEvent s2 pe room | None => s2 end)
| step_idle now s e s' :
    readEvent now s ChanEmpty e = Ret s' → step s s'.2
| step_update now s name np l s1 b s2 :
    lockHeld s = false → nn np = name →
    alloc np s = (l, s1) →
    offerToCache now s1 name l = Ret (b, s2) →
    step s s2
| step_status s l p st :
    mem s !! l = Some p →
    step s (set_status l st p s).

(** The cache never goes back to an older version of a Predictor. *)
Definition versions_le (s s' : cachedPredictorSource) : Prop :=
  ∀ n v v', version s n = Some v → version s' n = Some v' → (v ≤ v')%Z.

(** ** Memory *)

Lemma alloc_spec o s l s1 :
  alloc o s = (l, s1) →
  mem s !! l = None ∧ s1 = set_mem (<[l := o]> (mem s)) s.
Proof.
  unfold alloc. intros Ha. simplify_eq. split; [|done].
  apply not_elem_of_dom, is_fresh.
Qed.

Lemma Less_key m a b :
  queued m a → queued m b → Less m a b = bool_decide (dkey m a < dkey m b)%Z.
Proof.
  unfold queued, Less, dkey. intros [ta ->] [tb ->]. by rewrite Before_some.
Qed.

Lemma queued_mem m l : queued m l → is_Some (m !! l).
Proof. unfold queued, deletionTime. destruct (m !! l); naive_solver. Qed.

Lemma queued_insert_ne m l p x : x ≠ l → queued m x → queued (<[l := p]> m) x.
Proof. unfold queued, deletionTime. intros. by rewrite lookup_insert_ne. Qed.

Lemma dkey_insert_ne m l p x : x ≠ l → dkey (<[l := p]> m) x = dkey m x.
Proof. unfold dkey, deletionTime. intros. by rewrite lookup_insert_ne. Qed.

(** Heap order only depends on the keys of the elements. *)
Lemma heap_ok_ext (f g : loc → Z) q :
  (∀ x, x ∈ q → f x = g x) → heap_ok f q → heap_ok g q.
Proof.
  intros Hfg Hok i Hi. specialize (Hok i Hi). pose proof (parent_lt i).
  unfold kat in *.
  destruct (lookup_lt_is_Some_2 q i) as [x Hx]; [lia|].
  destruct (lookup_lt_is_Some_2 q (parent i)) as [y Hy]; [lia|].
  rewrite Hx, Hy in *. rewrite <- !Hfg by (eapply list_elem_of_lookup_2; eauto). done.
Qed.

(** A queue over some memory stays a heap when an object outside it changes. *)
Lemma heap_insert_fresh m q l p :
  l ∉ q → Forall (queued m) q → heap_ok (dkey m) q →
  Forall (queued (<[l := p]> m)) q ∧ heap_ok (dkey (<[l := p]> m)) q.
Proof.
  intros Hl HF Hok. split.
  - apply Forall_forall. intros x Hx. apply queued_insert_ne; [set_solver|].
    by eapply Forall_forall in HF.
  - eapply heap_ok_ext; [|done]. intros x Hx. rewrite dkey_insert_ne; set_solver.
Qed.

Lemma unallocated_not_queued m q l :
  Forall (queued m) q → m !! l = None → l ∉ q.
Proof.
  intros HF Hl Hin. eapply Forall_forall in HF; [|done].
  destruct (queued_mem _ _ HF). congruence.
Qed.

(** ** The deletion heap *)

Lemma Push_spec m q p :
  Forall (queued m) q → heap_ok (dkey m) q → queued m p →
  Push m q p ≡ₚ p :: q ∧ heap_ok (dkey m) (Push m q p).
Proof.
  intros HF Hok Hp. unfold Push. destruct Hp as [t Ht]. rewrite Ht. split.
  - unfold heap_fix_last. by rewrite up_Permutation, Permutation_app_comm.
  - apply heap_fix_last_ok with (V := queued m); [apply Less_key| |done].
    apply Forall_app; split; [done|]. constructor; [by exists t|done].
Qed.

(** What the prune loop does with a heap: it returns nothing exactly when no
    queued object has expired, and otherwise the one deleted first. *)
Lemma PopExpired_spec m q cutoff :
  Forall (queued m) q → heap_ok (dkey m) q →
  ∃ r, PopExpired m q cutoff = Ret r ∧
    match r with
    | None => Forall (λ l, ¬ expired m cutoff l) q
    | Some (p, q') =>
        expired m cutoff p ∧ q ≡ₚ p :: q' ∧ heap_ok (dkey m) q' ∧
        Forall (λ l, (dkey m p ≤ dkey m l)%Z) q
    end.
Proof.
  intros HF Hok. destruct q as [|h q]; simpl.
  { exists None. by split. }
  inversion HF as [|?? [t Ht] HF']; subst. rewrite Ht. simpl.
  destruct (heap_pop_spec (Less m) (dkey m) (queued m) (Less_key m) (h :: q) h)
    as (q' & Hpop & Hok' & Hperm & Hmin); [done..|].
  assert (Hkey : dkey m h = t) by (unfold dkey; by rewrite Ht).
  case_bool_decide as Hc.
  - rewrite Hpop. exists (Some (h, q')). split; [done|].
    unfold expired. rewrite Hkey. repeat split; try done.
    by rewrite <- Hkey.
  - exists None. split; [done|]. eapply Forall_impl; [exact Hmin|].
    intros l Hl. unfold expired. simpl in Hl. lia.
Qed.

(** ** Pruning *)

(** The cache without the entries that point to an expired queued object. *)
Definition prune_entry (m : gmap loc Predictor) (q : list loc) (cutoff : Z)
    (o : option loc) : option loc :=
  match o with
  | Some l => if decide (l ∈ q ∧ expired m cutoff l) then None else Some l
  | None => None
  end.

Definition pruned (cutoff : Z) (s s' : cachedPredictorSource) : Prop :=
  mem s' = mem s ∧ lockHeld s' = lockHeld s ∧ sent s' = sent s ∧
  deletionQueue s' ≡ₚ filter (λ l, ¬ expired (mem s) cutoff l) (deletionQueue s) ∧
  (∀ n, cache s' !! n = prune_entry (mem s) (deletionQueue s) cutoff (cache s !! n)).

Lemma filter_id {A} (P : A → Prop) `{!∀ x, Decision (P x)} (l : list A) :
  Forall P l → filter P l = l.
Proof. induction 1; [done|]. rewrite filter_cons_True by done. by f_equal. Qed.

(** One turn of the loop: the object [p] leaves the queue, and the cache loses the entry
    that holds it. *)
Definition popped (p : loc) (q' : list loc) (s s2 : cachedPredictorSource) : Prop :=
  mem s2 = mem s ∧ deletionQueue s2 = q' ∧ lockHeld s2 = lockHeld s ∧ sent s2 = sent s ∧
  ∀ n, cache s2 !! n = if decide (cache s !! n = Some p) then None else cache s !! n.

Lemma prune_turn s p po q' :
  wf s → mem s !! p = Some po →
  popped p q' s (if bool_decide (cache (set_queue q' s) !! nn po = Some p)
                 then set_cache (delete (nn po) (cache (set_queue q' s))) (set_queue q' s)
                 else set_queue q' s).
Proof.
  intros [Hc _ _ _] Hpo. unfold popped. simpl.
  case_bool_decide as Hb; simpl; do 4 (split; [done|]); intros n.
  - rewrite lookup_delete. case_decide as Hn; case_decide as Hd; try done.
    + congruence.
    + destruct (Hc _ _ Hd) as (po' & ? & <-). congruence.
  - case_decide as Hd; [|done]. destruct (Hc _ _ Hd) as (po' & ? & <-). congruence.
Qed.

Lemma popped_wf s s2 p q' :
  wf s → deletionQueue s ≡ₚ p :: q' → heap_ok (dkey (mem s)) q' → popped p q' s s2 → wf s2.
Proof.
  intros [Hc Hq Hh Hnd] Hperm Hh' (Hm & Hq2 & _ & _ & Hc2).
  rewrite Hperm in Hq, Hnd. apply Forall_cons in Hq as [_ Hq]. apply NoDup_cons in Hnd as [_ Hnd].
  split; rewrite ?Hm, ?Hq2; try done.
  intros n l. rewrite Hc2. case_decide; [done|]. apply Hc.
Qed.

Lemma popped_pruned cutoff s s2 s' p q' :
  expired (mem s) cutoff p → deletionQueue s ≡ₚ p :: q' →
  popped p q' s s2 → pruned cutoff s2 s' → pruned cutoff s s'.
Proof.
  intros Hexp Hperm (Hm2 & Hq2 & Hl2 & Hs2 & Hc2) (Hm & Hlk & Hsn & Hqs & Hcs).
  rewrite Hm2, Hq2 in *. split; [done|]. do 2 (split; [congruence|]). split.
  { rewrite Hqs, Hperm. by rewrite filter_cons_False by (by intros ?). }
  intros n. rewrite Hcs, Hc2. unfold prune_entry. case_decide as Hd.
  { rewrite Hd, decide_True; [done|]. split; [|done]. rewrite Hperm. left. }
  destruct (cache s !! n) as [l|] eqn:E; [|done].
  assert (l ≠ p) by congruence.
  erewrite decide_ext; [reflexivity|]. rewrite Hperm, elem_of_cons. naive_solver.
Qed.

Lemma pruned_nothing cutoff s :
  Forall (λ l, ¬ expired (mem s) cutoff l) (deletionQueue s) → pruned cutoff s s.
Proof.
  intros Hr. do 3 (split; [done|]). split; [by rewrite filter_id|].
  intros n. unfold prune_entry. destruct (cache s !! n) as [l|] eqn:E; [|done].
  destruct (decide _) as [[Hin Hex]|]; [|done]. eapply Forall_forall in Hr; done.
Qed.

Lemma prune_loop_spec fuel cutoff s :
  length (deletionQueue s) < fuel → wf s →
  ∃ s', prune_loop fuel cutoff s = Ret s' ∧ wf s' ∧ pruned cutoff s s'.
Proof.
  revert s. induction fuel as [|fuel IH]; intros s Hlen Hwf; [lia|].
  pose proof Hwf as [_ Hq Hh _]. simpl.
  destruct (PopExpired_spec _ _ cutoff Hq Hh) as (r & -> & Hr). simpl.
  destruct r as [[p q']|].
  2: { exists s. split; [done|]. split; [done|]. by apply pruned_nothing. }
  destruct Hr as (Hexp & Hperm & Hh' & _).
  assert (Hqp : queued (mem s) p) by (rewrite Hperm in Hq; by inversion Hq).
  destruct (queued_mem _ _ Hqp) as [po Hpo]. rewrite Hpo. simpl.
  pose proof (prune_turn s p po q' Hwf Hpo) as Hturn. simpl in Hturn.
  set (s2 := if bool_decide _ then _ else _) in *. clearbody s2.
  destruct (IH s2) as (s' & Hrun & Hwf' & Hpr).
  { destruct Hturn as (_ & -> & _). apply Permutation_length in Hperm. simpl in Hperm. lia. }
  { by eapply popped_wf. }
  exists s'. split; [exact Hrun|]. split; [done|]. by eapply popped_pruned.
Qed.

Lemma pruneDeletions_ok now s :
  wf s → ∃ s', pruneDeletions now s = Ret s' ∧ wf s' ∧ pruned (now + 20 * Second) s s'.
Proof.
  intros Hwf. unfold pruneDeletions. destruct (deletionQueue s) as [|l q] eqn:E.
  - exists s. split; [done|]. split; [done|]. unfold pruned. rewrite E.
    do 4 (split; [done|]). intros n. unfold prune_entry.
    destruct (cache s !! n); [|done]. rewrite decide_False; [done|]. set_solver.
  - rewrite <- E. apply prune_loop_spec; [lia|done].
Qed.

(** ** Offering an object to the cache *)

(** What an accepted offer changes: the entry of the name, and nothing about the
    versions of other names. *)
Definition offered (name : NamespacedName) (p : loc) (po : Predictor)
    (s s' : cachedPredictorSource) : Prop :=
  cache s' = <[name := p]> (cache s) ∧
  lockHeld s' = lockHeld s ∧ sent s' = sent s ∧
  (∀ l, l ≠ p → mem s' !! l = mem s !! l) ∧
  ∃ po', mem s' !! p = Some po' ∧ nn po' = nn po ∧
         om_ResourceVersion (p_Meta po') = om_ResourceVersion (p_Meta po).

(** The object is adjusted in place when its deletion time is older than the two
    seconds the cache allows: only its timestamp changes, and the heap, which does not
    hold it, is unaffected. *)
Definition adjusted (p : loc) (po po' : Predictor) (s s1 : cachedPredictorSource) : Prop :=
  cache s1 = cache s ∧ deletionQueue s1 = deletionQueue s ∧ lockHeld s1 = lockHeld s ∧
  sent s1 = sent s ∧ (∀ l, l ≠ p → mem s1 !! l = mem s !! l) ∧
  mem s1 !! p = Some po' ∧ nn po' = nn po ∧
  om_ResourceVersion (p_Meta po') = om_ResourceVersion (p_Meta po) ∧
  is_Some (om_DeletionTimestamp (p_Meta po')).

Lemma offer_adjusts now s p po t :
  mem s !! p = Some po → om_DeletionTimestamp (p_Meta po) = Some t →
  ∃ po', adjusted p po po' s
    (if Before (Some t) (secondsAgo now 2)
     then set_mem (<[p := set_DeletionTimestamp (secondsAgo now 2) po]> (mem s)) s else s).
Proof.
  intros Hp Hdt. destruct (Before _ _).
  - eexists. do 4 (split; [done|]). split; [intros l Hl; simpl; by rewrite lookup_insert_ne|].
    simpl. rewrite lookup_insert_eq. done.
  - exists po. do 4 (split; [done|]). rewrite Hdt. eauto.
Qed.

Lemma adjusted_wf s s1 p po po' :
  wf s → mem s !! p = Some po → p ∉ deletionQueue s → adjusted p po po' s s1 → wf s1.
Proof.
  intros [Hc Hq Hh Hnd] Hp Hpq (Ec & Eq & _ & _ & Hne & Hp1 & Hnn & _ & _).
  assert (Hm : mem s1 = <[p := po']> (mem s)).
  { apply map_eq. intros l. rewrite lookup_insert. case_decide; [by subst|by apply Hne]. }
  destruct (heap_insert_fresh (mem s) (deletionQueue s) p po') as [Hq' Hh']; [done..|].
  split; rewrite ?Ec, ?Eq, ?Hm; try done.
  intros n l Hl. destruct (Hc _ _ Hl) as (q & Hq1 & Hq2).
  rewrite lookup_insert. case_decide; [subst l|eauto]. exists po'. split; congruence.
Qed.

(** Storing the object under its name keeps the invariant, and so does queueing an
    object that was not queued. *)
Lemma wf_cache_insert s p po :
  wf s → mem s !! p = Some po → wf (set_cache (<[nn po := p]> (cache s)) s).
Proof.
  intros [Hc Hq Hh Hnd] Hp. split; simpl; try done. intros n l.
  rewrite lookup_insert. case_decide; [|apply Hc]. intros; simplify_eq. eauto.
Qed.

Lemma wf_push s p :
  wf s → queued (mem s) p → p ∉ deletionQueue s →
  wf (set_queue (Push (mem s) (deletionQueue s) p) s).
Proof.
  intros [Hc Hq Hh Hnd] Hqp Hpq.
  destruct (Push_spec (mem s) (deletionQueue s) p) as [HPp HPh]; [done..|].
  split; simpl; try done; rewrite HPp; [by constructor|by apply NoDup_cons].
Qed.

Lemma offerToCache_accept now s name p po s' :
  wf s → mem s !! p = Some po → nn po = name → p ∉ deletionQueue s →
  offerToCache now s name p = Ret (true, s') →
  wf s' ∧ offered name p po s s' ∧
  compareResourceVersion (cached s name) po = Ok true.
Proof.
  intros Hwf Hp Hnn Hpq Ho. unfold offerToCache in Ho.
  rewrite Hp in Ho. simpl in Ho. unfold cached.
  change (cache s !! name ≫= λ l, mem s !! l)
    with (cache s !! name ≫= λ c, mem s !! c).
  destruct (compareResourceVersion (cache s !! name ≫= λ c, mem s !! c) po)
    as [[]|] eqn:Ecmp; [|done|done].
  destruct (om_DeletionTimestamp (p_Meta po)) as [t|] eqn:Edt.
  2: { injection Ho as <-. rewrite <- Hnn. split; [by apply wf_cache_insert|].
       split; [|done]. repeat split; try done. by exists po. }
  destruct (offer_adjusts now s p po t Hp Edt) as (po' & Hadj).
  destruct (cache s !! name) as [c|] eqn:Ec; [|done]. simpl in Ho.
  set (s1 := if Before (Some t) (secondsAgo now 2) then set_mem _ s else s) in *.
  clearbody s1. pose proof (adjusted_wf _ _ _ _ _ Hwf Hp Hpq Hadj) as Hwf1.
  destruct Hadj as (Hcs & Hqs & Hls & Hss & Hne & Hpo' & Hnn' & Hrv' & Hdt').
  destruct (mem s1 !! c) as [co|] eqn:Eco; [|done]. simpl in Ho.
  assert (Hoff : ∀ q, offered name p po s (set_cache (<[name := p]> (cache s1)) (set_queue q s1))).
  { intros q. split; simpl; [by rewrite Hcs|]. rewrite Hls, Hss.
    do 3 (split; [done|]). by exists po'. }
  assert (Hins : wf (set_cache (<[name := p]> (cache s1)) s1)).
  { rewrite <- Hnn, <- Hnn'. by apply wf_cache_insert. }
  destruct (om_DeletionTimestamp (p_Meta co)); injection Ho as <-.
  - split; [exact Hins|]. split; [exact (Hoff (deletionQueue s1))|done].
  - split; [|split; [exact (Hoff (Push (mem s1) (deletionQueue s1) p))|done]].
    apply (wf_push _ p) in Hins; [exact Hins|unfold queued, deletionTime; simpl; by rewrite Hpo'|].
    simpl. by rewrite Hqs.
Qed.

Lemma offerToCache_reject now s name p s' :
  offerToCache now s name p = Ret (false, s') → s' = s.
Proof.
  unfold offerToCache. destruct (mem s !! p) as [po|]; [|done]. simpl.
  destruct (compareResourceVersion _ _) as [[]|]; [|congruence|congruence].
  destruct (om_DeletionTimestamp (p_Meta po)); [|congruence].
  destruct (cache s !! name) as [c|]; [|done]. simpl.
  destruct (deref _) as [co|]; [|done]. simpl.
  destruct (om_DeletionTimestamp (p_Meta co)); congruence.
Qed.

Lemma version_offered name p po s s' n :
  wf s → mem s !! p = Some po → nn po = name → offered name p po s s' →
  version s' n = if decide (n = name) then ParseInt (om_ResourceVersion (p_Meta po)) 64
                 else version s n.
Proof.
  intros Hwf Hp Hnn (Hc & _ & _ & Hm & po' & Hpo' & Hnn' & Hrv).
  unfold version, cached. rewrite Hc, lookup_insert.
  destruct (decide (name = n)) as [->|Hne]; case_decide; try congruence; simpl.
  - by rewrite Hpo'; simpl; rewrite Hrv.
  - destruct (cache s !! n) as [l|] eqn:El; [|done]. simpl.
    destruct (decide (l = p)) as [->|Hlp]; [|by rewrite Hm].
    destruct (wf_cache _ Hwf _ _ El) as (q & Hq & Hqn). congruence.
Qed.

Lemma compare_newer s name po :
  compareResourceVersion (cached s name) po = Ok true →
  ∃ v', ParseInt (om_ResourceVersion (p_Meta po)) 64 = Some v' ∧
        ∀ v, version s name = Some v → (v < v')%Z.
Proof.
  unfold compareResourceVersion, version.
  destruct (ParseInt (om_ResourceVersion (p_Meta po)) 64) as [v'|]; [|done].
  intros Hc. exists v'. split; [done|]. intros v.
  destruct (cached s name) as [e|]; simpl; [|done].
  destruct (ParseInt (om_ResourceVersion (p_Meta e)) 64); [|done].
  intros [= ->]. injection Hc as Hc. by apply bool_decide_eq_true in Hc.
Qed.

(** An offer never replaces a version by an older one. *)
Lemma offerToCache_monotone now s name p po b s' n v :
  wf s → mem s !! p = Some po → nn po = name → p ∉ deletionQueue s →
  offerToCache now s name p = Ret (b, s') → version s n = Some v →
  ∃ v', version s' n = Some v' ∧ (v ≤ v')%Z.
Proof.
  intros Hwf Hp Hnn Hpq Ho Hv. destruct b.
  - destruct (offerToCache_accept now s name p po s') as (_ & Hoff & Hcmp); [done..|].
    rewrite (version_offered name p po s s') by done.
    case_decide as Hn; [subst n|by exists v].
    apply compare_newer in Hcmp as (v' & -> & Hlt). exists v'. split; [done|].
    specialize (Hlt _ Hv). lia.
  - apply offerToCache_reject in Ho as ->. by exists v.
Qed.

(** A nil dereference happens exactly when the first thing seen of a Predictor,
    with a version that parses, is that it is being deleted. *)
Lemma offerToCache_panics now s name p po :
  wf s → mem s !! p = Some po →
  offerToCache now s name p = Panic ↔
  cache s !! name = None ∧ is_Some (om_DeletionTimestamp (p_Meta po)) ∧
  is_Some (ParseInt (om_ResourceVersion (p_Meta po)) 64).
Proof.
  intros Hwf Hp. unfold offerToCache. rewrite Hp. simpl.
  destruct (cache s !! name) as [c|] eqn:Ec; simpl.
  - split; [|naive_solver].
    destruct (wf_cache _ Hwf _ _ Ec) as (co & Hco & _). rewrite Hco.
    destruct (compareResourceVersion _ _) as [[]|]; [|done|done].
    destruct (om_DeletionTimestamp (p_Meta po)) as [t|]; [|done].
    destruct (Before _ _); simpl.
    + destruct (decide (c = p)) as [->|].
      * rewrite lookup_insert_eq. simpl. done.
      * rewrite lookup_insert_ne, Hco by done. simpl. by case_match.
    + rewrite Hco. simpl. by case_match.
  - unfold compareResourceVersion.
    destruct (ParseInt _ _); [|naive_solver].
    destruct (om_DeletionTimestamp (p_Meta po)); naive_solver.
Qed.

(** Accepting a deleted object: its deletion time is moved up to two seconds ago
    when it lies further back. *)
Lemma offerToCache_deleted now s name p po c co t :
  cache s !! name = Some c → mem s !! c = Some co → mem s !! p = Some po →
  om_DeletionTimestamp (p_Meta po) = Some t →
  compareResourceVersion (Some co) po = Ok true →
  ∃ s', offerToCache now s name p = Ret (true, s') ∧ cache s' !! name = Some p ∧
    mem s' !! p = Some (set_DeletionTimestamp (Some (Z.max t (now - 2 * Second))) po).
Proof.
  intros Hc Hco Hp Ht Hcmp. unfold offerToCache. rewrite Hp. simpl.
  rewrite Hc. simpl. rewrite Hco, Hcmp, Ht. unfold secondsAgo. rewrite Before_some.
  case_bool_decide as Hb; simpl.
  - rewrite Z.max_r by lia. destruct (decide (c = p)) as [->|Hcp].
    + rewrite lookup_insert_eq. simpl. eexists. split; [done|]. simpl.
      by rewrite !lookup_insert_eq.
    + rewrite lookup_insert_ne, Hco by done. simpl. eexists. split; [done|].
      case_match; simpl; by rewrite !lookup_insert_eq.
  - rewrite Z.max_l by lia. rewrite Hco. simpl. eexists. split; [done|].
    assert (set_DeletionTimestamp (Some t) po = po) as ->.
    { unfold set_DeletionTimestamp. rewrite <- Ht. by destruct po as [[]]. }
    case_match; simpl; by rewrite !lookup_insert_eq.
Qed.

(** ** Steps keep a source well formed *)

Lemma alloc_wf o s l s1 :
  wf s → alloc o s = (l, s1) →
  wf s1 ∧ mem s1 !! l = Some o ∧ l ∉ deletionQueue s1 ∧
  cache s1 = cache s ∧ lockHeld s1 = lockHeld s ∧ sent s1 = sent s ∧
  (∀ n, cached s1 n = cached s n).
Proof.
  intros [Hc Hq Hh Hnd] [Hl ->]%alloc_spec.
  pose proof (unallocated_not_queued _ _ _ Hq Hl) as Hlq.
  destruct (heap_insert_fresh _ _ l o Hlq Hq Hh) as [Hq' Hh'].
  assert (Hne : ∀ n l', cache s !! n = Some l' → l' ≠ l).
  { intros n l' Hn ->. destruct (Hc _ _ Hn) as (? & ? & _). congruence. }
  split; [|simpl; rewrite lookup_insert_eq; do 5 (split; [done|])].
  - split; simpl; try done. intros n l' Hn. rewrite lookup_insert_ne; eauto.
    intros ->. eapply Hne; eauto.
  - intros n. unfold cached. simpl. destruct (cache s !! n) as [l'|] eqn:En; [|done].
    simpl. rewrite lookup_insert_ne; [done|]. intros ->. eapply Hne; eauto.
Qed.

Lemma wf_ext s s' :
  mem s' = mem s → cache s' = cache s → deletionQueue s' = deletionQueue s →
  wf s → wf s'.
Proof. intros Hm Hc Hq [???]. split; by rewrite ?Hm, ?Hc, ?Hq. Qed.

Lemma version_ext s s' n : mem s' = mem s → cache s' = cache s → version s' n = version s n.
Proof. unfold version, cached. by intros -> ->. Qed.

Lemma writeEvent_fields s pe room :
  mem (writeEvent s pe room) = mem s ∧ cache (writeEvent s pe room) = cache s ∧
  deletionQueue (writeEvent s pe room) = deletionQueue s ∧
  sent (writeEvent s pe room) = sent s ++ [pe].
Proof. unfold writeEvent. by destruct (lockHeld s), room. Qed.

(** The object an event is processed with: its timestamp may have been reset. *)
Definition event_object (et : EventType) (o : Predictor) : Predictor :=
  match et, om_DeletionTimestamp (p_Meta o) with
  | EVENT_DELETE, Some _ => set_DeletionTimestamp (Some zeroTime) o
  | _, _ => o
  end.

Lemma event_object_fields et o :
  nn (event_object et o) = nn o ∧
  om_ResourceVersion (p_Meta (event_object et o)) = om_ResourceVersion (p_Meta o).
Proof. unfold event_object. by repeat case_match. Qed.

(** Processing an event is an offer of its object, made with the lock held. *)
Lemma processEvent_offer now s l o et r s' :
  wf s → mem s !! l = Some o → l ∉ deletionQueue s →
  processEvent now s (Some l) et = Ret (r, s') →
  ∃ s1, wf s1 ∧ mem s1 !! l = Some (event_object et o) ∧ l ∉ deletionQueue s1 ∧
        cache s1 = cache s ∧ sent s1 = sent s ∧ lockHeld s1 = true ∧
        (∀ x, x ≠ l → mem s1 !! x = mem s !! x) ∧
        (∀ n, version s1 n = version s n) ∧
        offerToCache now s1 (nn o) l = Ret (bool_decide (r = Some (nn o)), s') ∧
        (r = None ∨ r = Some (nn o)).
Proof.
  intros [Hc Hq Hh Hnd] Hl Hlq. unfold processEvent. rewrite Hl. simpl.
  set (m1 := <[l := event_object et o]> (mem s)).
  set (s1 := set_lockHeld true (set_mem m1 s)).
  assert (Hs1 : set_lockHeld true
                  (match et, om_DeletionTimestamp (p_Meta o) with
                   | EVENT_DELETE, Some _ =>
                       set_mem (<[l := set_DeletionTimestamp (Some zeroTime) o]> (mem s)) s
                   | _, _ => s
                   end) = s1).
  { unfold s1, m1, event_object. destruct s as [id nm st m c lh q sn]; simpl in *.
    repeat case_match; try done; by rewrite insert_id. }
  rewrite Hs1. intros Hrun.
  destruct (heap_insert_fresh _ _ l (event_object et o) Hlq Hq Hh) as [Hq' Hh'].
  destruct (event_object_fields et o) as [Hn Hr].
  assert (Hcm : ∀ n x, cache s !! n = Some x → ∃ q0 q1, mem s !! x = Some q0 ∧
      m1 !! x = Some q1 ∧ nn q1 = n ∧
      om_ResourceVersion (p_Meta q1) = om_ResourceVersion (p_Meta q0)).
  { intros n x Hx. destruct (Hc _ _ Hx) as (q & Hq1 & Hq2). unfold m1.
    destruct (decide (x = l)) as [->|Hxl].
    - exists o, (event_object et o). rewrite lookup_insert_eq.
      assert (q = o) as -> by congruence. do 2 (split; [done|]). split; congruence.
    - exists q, q. by rewrite lookup_insert_ne. }
  exists s1. split.
  { split; simpl; try done. intros n x Hx.
    destruct (Hcm _ _ Hx) as (_ & q1 & _ & ? & ? & _). eauto. }
  split; [unfold s1, m1; simpl; by rewrite lookup_insert_eq|].
  do 4 (split; [done|]).
  split; [intros x Hx; unfold s1, m1; simpl; by rewrite lookup_insert_ne|].
  split.
  { intros n. unfold version, cached, s1; simpl.
    destruct (cache s !! n) as [x|] eqn:Ex; [|done]. simpl.
    destruct (Hcm _ _ Ex) as (q0 & q1 & -> & -> & _ & Hrv). simpl. by rewrite Hrv. }
  destruct (offerToCache now s1 (nn o) l) as [[b s2]|]; [|done]. simpl in Hrun.
  destruct b; simplify_eq; (split; [|auto]); by rewrite ?bool_decide_true by done.
Qed.

Lemma readEvent_idle now s e r :
  wf s → readEvent now s ChanEmpty e = Ret r →
  wf r.2 ∧ sent r.2 = sent s ∧
  ∀ n v v', version s n = Some v → version r.2 n = Some v' → v' = v.
Proof.
  intros Hwf. unfold readEvent. destruct (lockHeld s).
  - destruct (pruneDeletions_ok now s Hwf) as (s' & -> & Hwf' & Hm & _ & Hsn & _ & Hc).
    simpl. intros; simplify_eq; simpl. split; [by eapply wf_ext; [..|done]|].
    split; [done|].
    intros n v v'. unfold version, cached. simpl. rewrite Hm, Hc. unfold prune_entry.
    destruct (cache s !! n) as [l|]; [|done]. case_decide; [done|]. simpl. congruence.
  - intros; simplify_eq; simpl. split; [done|]. split; [done|]. naive_solver.
Qed.

(** Writing a status changes no name, version or deletion time. *)
Lemma set_status_fields l st p s :
  mem s !! l = Some p →
  (∀ n, cached (set_status l st p s) n =
        (if bool_decide (cache s !! n = Some l) then Some (set_Status st p) else cached s n)) ∧
  (∀ x, deletionTime (mem (set_status l st p s)) x = deletionTime (mem s) x).
Proof.
  intros Hl. split.
  - intros n. unfold cached. simpl. destruct (cache s !! n) as [x|]; simpl; [|done].
    rewrite lookup_insert. case_decide; case_bool_decide; naive_solver.
  - intros x. unfold deletionTime. simpl. rewrite lookup_insert.
    case_decide as Hx; [|done]. subst x. by rewrite Hl.
Qed.

Lemma set_status_wf l st p s : mem s !! l = Some p → wf s → wf (set_status l st p s).
Proof.
  intros Hl Hwf. destruct (set_status_fields l st p s Hl) as [_ Hd].
  destruct Hwf as [Hc Hq Hh Hnd]. split; simpl; [| | |done].
  - intros n x Hx. destruct (Hc n x Hx) as (q & Hm & Hn). rewrite lookup_insert.
    case_decide as Hxl; [|by exists q]. exists (set_Status st p). split; [done|].
    rewrite <- Hxl in Hm. rewrite Hl in Hm. injection Hm as <-. exact Hn.
  - eapply Forall_impl; [exact Hq|]. intros x. unfold queued. simpl in Hd. by rewrite Hd.
  - eapply heap_ok_ext; [|exact Hh]. intros x _. unfold dkey. simpl in Hd. by rewrite Hd.
Qed.

Lemma set_status_version l st p s n :
  mem s !! l = Some p → version (set_status l st p s) n = version s n.
Proof.
  intros Hl. unfold version. rewrite (proj1 (set_status_fields l st p s Hl)).
  case_bool_decide as Hc; [|done]. unfold cached. rewrite Hc. simpl. by rewrite Hl.
Qed.

Lemma step_wf s s' : wf s → step s s' → wf s'.
Proof.
  intros Hwf Hstep.
  destruct Hstep as [now s o et l s1 r s2 room Ha Hp|now s e s' Hr
                    |now s name np l s1 b s2 _ Hnn Ha Ho|s l p st Hl].
  - destruct (alloc_wf _ _ _ _ Hwf Ha) as (Hwf1 & Hm & Hlq & _).
    destruct (processEvent_offer _ _ _ _ _ _ _ Hwf1 Hm Hlq Hp)
      as (s1' & Hw & Hm' & Hlq' & _ & _ & _ & _ & _ & Ho & Hcase).
    assert (wf s2).
    { destruct (event_object_fields et o) as [Hn _].
      destruct Hcase as [-> | ->].
      - rewrite bool_decide_false in Ho by done.
        by apply offerToCache_reject in Ho as ->.
      - rewrite bool_decide_true in Ho by done.
        by eapply offerToCache_accept in Ho as [? _]. }
    destruct r as [pe|]; [|done].
    destruct (writeEvent_fields s2 pe room) as (? & ? & ? & _). by eapply wf_ext.
  - by eapply readEvent_idle in Hr as [? _].
  - destruct (alloc_wf _ _ _ _ Hwf Ha) as (Hwf1 & Hm & Hlq & _).
    destruct b.
    + by eapply offerToCache_accept in Ho as [? _].
    + by apply offerToCache_reject in Ho as ->.
  - by apply set_status_wf.
Qed.

Lemma wf_new id name : wf (newCachedPredictorSource id name).
Proof.
  split; simpl; try constructor.
  - intros n l Hl. by rewrite lookup_empty in Hl.
  - intros i Hi. simpl in Hi. lia.
Qed.

Lemma step_version s s' n v v' :
  wf s → step s s' → version s n = Some v → version s' n = Some v' → (v ≤ v')%Z.
Proof.
  intros Hwf Hstep Hv.
  destruct Hstep as [now s o et l s1 r s2 room Ha Hp|now s e s' Hr
                    |now s name np l s1 b s2 _ Hnn Ha Ho|s l p st Hl].
  - destruct (alloc_wf _ _ _ _ Hwf Ha) as (Hwf1 & Hm & Hlq & _ & _ & _ & Hcd).
    destruct (processEvent_offer _ _ _ _ _ _ _ Hwf1 Hm Hlq Hp)
      as (s1' & Hw & Hm' & Hlq' & _ & _ & _ & _ & Hvs & Ho & _).
    destruct (event_object_fields et o) as [Hn _].
    assert (Hv1 : version s1' n = Some v) by (rewrite Hvs; unfold version in *; by rewrite Hcd).
    destruct (offerToCache_monotone _ _ _ _ _ _ _ n v Hw Hm' Hn Hlq' Ho Hv1)
      as (v2 & Hv2 & Hle).
    assert (Hx : version (match r with Some pe => writeEvent s2 pe room | None => s2 end) n
                 = version s2 n).
    { destruct r as [pe|]; [|done]. destruct (writeEvent_fields s2 pe room) as (? & ? & _).
      by apply version_ext. }
    rewrite Hx. intros; simplify_eq. lia.
  - intros Hv'. eapply readEvent_idle in Hr as (_ & _ & Hsame); [|done].
    rewrite (Hsame n v v'); [lia|done..].
  - destruct (alloc_wf _ _ _ _ Hwf Ha) as (Hwf1 & Hm & Hlq & _ & _ & _ & Hcd).
    assert (Hv1 : version s1 n = Some v) by (unfold version in *; by rewrite Hcd).
    destruct (offerToCache_monotone _ _ _ _ _ _ _ n v Hwf1 Hm Hnn Hlq Ho Hv1)
      as (v2 & Hv2 & Hle). intros; simplify_eq. lia.
  - rewrite set_status_version by done. intros; simplify_eq. lia.
Qed.

(** ** The source as a versioned store

    Abstractly the source is a map from names to Predictors, and an event or a
    status update replaces the entry of its name when its version is newer. *)

(** The object stored for an accepted event. *)
Definition accepted_object (now : Z) (et : EventType) (o : Predictor) : Predictor :=
  let o1 := event_object et o in
  match om_DeletionTimestamp (p_Meta o1) with
  | None => o1
  | Some t => set_DeletionTimestamp (Some (Z.max t (now - 2 * Second))) o1
  end.

Definition store_offer (now : Z) (et : EventType) (o : Predictor)
    (st : NamespacedName → option Predictor) : NamespacedName → option Predictor :=
  λ n, if decide (n = nn o ∧ compareResourceVersion (st n) o = Ok true)
       then Some (accepted_object now et o) else st n.

(** The first thing the source learns of a Predictor, at a version that parses, is that it is
    being deleted. *)
Definition unseen_deletion (o : Predictor) (s : cachedPredictorSource) : Prop :=
  cache s !! nn o = None ∧ is_Some (om_DeletionTimestamp (p_Meta o)) ∧
  is_Some (ParseInt (om_ResourceVersion (p_Meta o)) 64).

#[export] Instance unseen_deletion_dec o s : Decision (unseen_deletion o s).
Proof. unfold unseen_deletion. apply _. Defined.

Lemma event_object_dt et o :
  om_DeletionTimestamp (p_Meta (event_object et o)) = None ↔
  om_DeletionTimestamp (p_Meta o) = None.
Proof. unfold event_object. by repeat case_match. Qed.

Lemma compare_event_object e et o :
  compareResourceVersion e (event_object et o) = compareResourceVersion e o.
Proof.
  unfold compareResourceVersion. by destruct (event_object_fields et o) as [_ ->].
Qed.

Lemma cached_offered name p po s s' n :
  wf s → mem s !! p = Some po → nn po = name → offered name p po s s' → n ≠ name →
  cached s' n = cached s n.
Proof.
  intros Hwf Hp Hnn (Hc & _ & _ & Hm & _) Hn. unfold cached.
  rewrite Hc, lookup_insert_ne by done.
  destruct (cache s !! n) as [l|] eqn:El; [|done]. simpl.
  destruct (decide (l = p)) as [->|]; [|by rewrite Hm].
  destruct (wf_cache _ Hwf _ _ El) as (q & ? & ?). congruence.
Qed.

(** Offering an object of its own that cannot panic. *)
Lemma offerToCache_store now s p po :
  wf s → mem s !! p = Some po → p ∉ deletionQueue s →
  (∀ n, cache s !! n ≠ Some p) →
  ¬ unseen_deletion po s →
  ∃ b s', offerToCache now s (nn po) p = Ret (b, s') ∧ wf s' ∧
    sent s' = sent s ∧
    b = bool_decide (compareResourceVersion (cached s (nn po)) po = Ok true) ∧
    (∀ n, is_Some (cache s !! n) → is_Some (cache s' !! n)) ∧
    ∀ n, cached s' n =
      if decide (n = nn po ∧ compareResourceVersion (cached s n) po = Ok true)
      then Some (match om_DeletionTimestamp (p_Meta po) with
                 | None => po
                 | Some t => set_DeletionTimestamp (Some (Z.max t (now - 2 * Second))) po
                 end)
      else cached s n.
Proof.
  intros Hwf Hp Hpq Hpc Hsafe.
  destruct (offerToCache now s (nn po) p) as [[b s']|] eqn:Ho.
  2: { by apply (offerToCache_panics now s (nn po) p po Hwf Hp) in Ho. }
  exists b, s'. split; [done|].
  destruct b.
  - destruct (offerToCache_accept now s (nn po) p po s') as (Hwf' & Hoff & Hcmp);
      [done..|].
    split; [done|]. split; [apply Hoff|]. split; [by rewrite bool_decide_true|].
    split.
    { intros n Hn. destruct Hoff as (-> & _). rewrite lookup_insert. by case_decide. }
    intros n. destruct (decide (n = nn po)) as [->|Hne].
    2: { rewrite decide_False by naive_solver. by eapply cached_offered. }
    rewrite decide_True by done.
    destruct (om_DeletionTimestamp (p_Meta po)) as [t|] eqn:Ht.
    + assert (is_Some (cache s !! nn po)) as [c Hc].
      { apply not_eq_None_Some. intros Hn. apply Hsafe. split_and!; [done|by rewrite Ht|].
        unfold compareResourceVersion in Hcmp. destruct (ParseInt _ 64); [done|discriminate]. }
      destruct (wf_cache _ Hwf _ _ Hc) as (co & Hco & _).
      destruct (offerToCache_deleted now s (nn po) p po c co t) as (s2 & Ho2 & Hc2 & Hm2);
        try done.
      { unfold cached in Hcmp. rewrite Hc in Hcmp. simpl in Hcmp. by rewrite Hco in Hcmp. }
      assert (s2 = s') as -> by congruence. unfold cached. rewrite Hc2. simpl. done.
    + unfold offerToCache in Ho. rewrite Hp in Ho. simpl in Ho.
      change (cache s !! nn po ≫= λ c, mem s !! c) with (cached s (nn po)) in Ho.
      rewrite Hcmp, Ht in Ho. injection Ho as <-. unfold cached. simpl.
      rewrite lookup_insert_eq. simpl. done.
  - assert (Hcmp : compareResourceVersion (cached s (nn po)) po ≠ Ok true).
    { intros Hcmp. unfold offerToCache in Ho. rewrite Hp in Ho. simpl in Ho.
      change (cache s !! nn po ≫= λ c, mem s !! c) with (cached s (nn po)) in Ho.
      rewrite Hcmp in Ho. destruct (om_DeletionTimestamp (p_Meta po)); [|done].
      destruct (deref (cache s !! nn po)); [|done]. simpl in Ho.
      destruct (deref _); [|done]. simpl in Ho. by case_match. }
    apply offerToCache_reject in Ho as ->. split; [done|]. split; [done|].
    split; [by rewrite bool_decide_false|]. split; [done|].
    intros n. rewrite decide_False; [done|]. by intros [-> ?].
Qed.

(** Processing an event offers an object of its own. *)
Lemma processAndWrite_offer now room o et s :
  wf s → ∃ l s2,
    processAndWrite now room o et s =
      (r ← offerToCache now s2 (nn o) l;
       Ret (if r.1 : bool then writeEvent r.2 (nn o) room else r.2)) ∧
    wf s2 ∧ mem s2 !! l = Some (event_object et o) ∧ l ∉ deletionQueue s2 ∧
    (∀ n, cache s2 !! n ≠ Some l) ∧ cache s2 = cache s ∧ sent s2 = sent s ∧
    ∀ n, cached s2 n = cached s n.
Proof.
  intros Hwf. unfold processAndWrite. destruct (alloc o s) as [l s1] eqn:Ha.
  pose proof (alloc_spec _ _ _ _ Ha) as [Hfresh Hs1].
  destruct (alloc_wf _ _ _ _ Hwf Ha) as (Hwf1 & Hm & Hlq & Hc1 & _ & Hsn & Hcd).
  assert (Hlc : ∀ n, cache s1 !! n ≠ Some l).
  { intros n Hn. rewrite Hc1 in Hn. destruct (wf_cache _ Hwf _ _ Hn) as (? & ? & _).
    congruence. }
  set (m2 := <[l := event_object et o]> (mem s1)).
  set (s2 := set_lockHeld true (set_mem m2 s1)). exists l, s2.
  assert (Hpe : processEvent now s1 (Some l) et =
                (r ← offerToCache now s2 (nn o) l;
                 Ret (if r.1 : bool then Some (nn o) else None, r.2))).
  { unfold processEvent. rewrite Hm. simpl. unfold s2, m2, event_object.
    destruct s1 as [id nm st m c lh q sn]; simpl in *.
    repeat case_match; try done; by rewrite insert_id. }
  split_and!; try done.
  - rewrite Hpe. cbn [mbind exec_bind]. destruct (offerToCache now s2 (nn o) l) as [[[] s3]|]; done.
  - destruct Hwf1 as [Hc Hq Hh Hnd]. destruct (heap_insert_fresh _ _ l (event_object et o)
      Hlq Hq Hh) as [Hq' Hh']. split; simpl; try done.
    intros n x Hx. unfold m2. rewrite lookup_insert_ne; eauto. intros ->. by eapply Hlc.
  - unfold s2, m2; simpl. by rewrite lookup_insert_eq.
  - intros n. rewrite <- Hcd. unfold cached, s2, m2; simpl.
    destruct (cache s1 !! n) as [x|] eqn:Ex; [|done]. simpl.
    rewrite lookup_insert_ne; [done|]. intros ->. by eapply Hlc.
Qed.

Lemma unseen_event_object et o s s2 :
  cache s2 = cache s → unseen_deletion (event_object et o) s2 ↔ unseen_deletion o s.
Proof.
  intros Hc. unfold unseen_deletion. destruct (event_object_fields et o) as [-> ->].
  rewrite Hc, <- !not_eq_None_Some, event_object_dt. done.
Qed.

(** Processing an event refines the abstract store. *)
Lemma processAndWrite_refines now room o et s :
  wf s → ¬ unseen_deletion o s →
  ∃ s', processAndWrite now room o et s = Ret s' ∧ wf s' ∧
    (∀ n, cached s' n = store_offer now et o (cached s) n) ∧
    (∀ n, is_Some (cache s !! n) → is_Some (cache s' !! n)) ∧
    sent s' = sent s ++
      (if bool_decide (compareResourceVersion (cached s (nn o)) o = Ok true)
       then [nn o] else []).
Proof.
  intros Hwf Hsafe.
  destruct (processAndWrite_offer now room o et s Hwf)
    as (l & s2 & -> & Hwf2 & Hm2 & Hlq2 & Hlc & Hc2 & Hsn & Hcd2).
  destruct (event_object_fields et o) as [Hnn Hrv].
  destruct (offerToCache_store now s2 l (event_object et o))
    as (b & s3 & Ho & Hwf3 & Hsent & Hb & Hdom & Hst); try done.
  { by rewrite (unseen_event_object et o s s2). }
  rewrite Hnn in *. rewrite Ho. cbn [mbind exec_bind fst snd]. eexists. split; [reflexivity|].
  assert (Hst' : ∀ n, cached s3 n = store_offer now et o (cached s) n).
  { intros n. rewrite Hst. unfold store_offer, accepted_object. rewrite Hcd2.
    by rewrite compare_event_object. }
  rewrite Hcd2, compare_event_object in Hb. rewrite <- Hb.
  assert (Hdom' : ∀ n, is_Some (cache s !! n) → is_Some (cache s3 !! n)).
  { intros n Hn. apply Hdom. by rewrite Hc2. }
  destruct b.
  - destruct (writeEvent_fields s3 (nn o) room) as (Hm' & Hc' & Hq' & Hs').
    split; [by eapply wf_ext|]. split.
    { intros n. rewrite <- Hst'. unfold cached. by rewrite Hm', Hc'. }
    split; [intros n Hn; rewrite Hc'; auto|]. by rewrite Hs', Hsent, Hsn.
  - split; [done|]. split; [done|]. split; [done|]. by rewrite Hsent, app_nil_r.
Qed.

(** It panics exactly on an unseen deletion. *)
Lemma processAndWrite_panics now room o et s :
  wf s → processAndWrite now room o et s = Panic ↔ unseen_deletion o s.
Proof.
  intros Hwf. split; intros Hp.
  - destruct (decide (unseen_deletion o s)) as [|Hn]; [done|].
    destruct (processAndWrite_refines now room o et s Hwf Hn) as (s' & Hr & _). congruence.
  - destruct (processAndWrite_offer now room o et s Hwf)
      as (l & s2 & -> & Hwf2 & Hm2 & _ & _ & Hc2 & _).
    apply (unseen_event_object et o s s2 Hc2) in Hp.
    destruct (event_object_fields et o) as [Hnn _]. unfold unseen_deletion in Hp.
    rewrite Hnn in Hp. by rewrite (proj2 (offerToCache_panics now s2 (nn o) l _ Hwf2 Hm2) Hp).
Qed.
End Inv.
