(* ===== verification/CachedSourceProps.v ===== *)
(** * Properties of the caching predictor source *)

From S2P Require Import Prelude GoStrings GoHeap Types CachedSource CachedSourceInv.

(** ** Runs on concrete inputs *)

Section Run.
Context `{MetaTime}.

(** One iteration of the event goroutine, with room in the output channel. *)
Definition deliver (now : Z) (o : Predictor) (et : EventType) (s : cachedPredictorSource)
  : exec cachedPredictorSource := processAndWrite now true o et s.

(** The goroutine finds its input empty: it prunes and releases the lock. *)
Definition idle (now : Z) (s : cachedPredictorSource) : exec cachedPredictorSource :=
  r ← readEvent now s ChanEmpty ChanEmpty; Ret r.2.

Lemma deliver_step now o et s s' : deliver now o et s = Ret s' → step s s'.
Proof.
  unfold deliver, processAndWrite. destruct (alloc o s) as [l s1] eqn:Ha.
  destruct (processEvent now s1 (Some l) et) as [[r s2]|] eqn:Hp; [|done].
  intros [= <-]. by eapply step_event.
Qed.

Lemma idle_step now s s' : idle now s = Ret s' → step s s'.
Proof.
  unfold idle. destruct (readEvent now s ChanEmpty ChanEmpty) as [r|] eqn:Hr; [|done].
  intros [= <-]. by eapply step_idle.
Qed.

(** A status update whose updater answers about the same Predictor is a step (or
    leaves the source alone). *)
Lemma UpdateStatus_step updater now s pl r s' :
  lockHeld s = false →
  (∀ p q rv ok, updater p = Ok (Some q, rv, ok) → nn q = nn p) →
  UpdateStatus updater now s pl = Ret (r, s') → s' = s ∨ step s s'.
Proof.
  intros Hlock Hupd. unfold UpdateStatus.
  destruct pl as [pl|]; [|intros [= <- <-]; by left].
  destruct (mem s !! pl) as [p|]; [|done]. simpl.
  destruct (cached s (nn p)) as [e|]; [|intros [= <- <-]; by left].
  case_bool_decide; [intros [= <- <-]; by left|].
  destruct (updater p) as [[[np rv] ok]|] eqn:Eu; [|intros [= <- <-]; by left].
  set (o := match np with None => _ | Some q => q end).
  change (alloc o s) with (fresh (dom (mem s)), set_mem (<[fresh (dom (mem s)) := o]> (mem s)) s).
  destruct (offerToCache _ _ (nn p) _) as [[b s2]|] eqn:Ho; [|done].
  intros [= <- <-]. right.
  eapply (step_update now s (nn p) o); [done| |reflexivity|exact Ho].
  unfold o. destruct np as [q|]; [by eapply Hupd|reflexivity].
Qed.
End Run.

(** Objects and instants of the examples. *)
Definition exName : NamespacedName := mkNN "ns" "foo".
Definition exPredictor (name rv : string) (dt : option Z) : Predictor :=
  mkPredictor (mkMeta name "ns" rv dt ∅ ∅) emptySpec defaultStatus.
Definition exNow : Z := 1000 * Second.
Definition exSource : cachedPredictorSource := newCachedPredictorSource "src" "Source".
#[local] Existing Instance metaTimeImpl.

(** One Predictor cached at version 5 and then deleted at version 9. *)
Definition exDeleted : exec cachedPredictorSource :=
  s ← deliver exNow (exPredictor "foo" "5" None) EVENT_UPDATE exSource;
  deliver exNow (exPredictor "foo" "9" (Some exNow)) EVENT_DELETE s.

(** The state an evaluation reaches. *)
Definition run_state (e : exec cachedPredictorSource) : cachedPredictorSource :=
  match e with Ret s => s | Panic => exSource end.

Lemma exDeleted_reachable : rtc step exSource (run_state exDeleted).
Proof.
  eapply rtc_l; [eapply (deliver_step exNow (exPredictor "foo" "5" None) EVENT_UPDATE);
                 vm_compute; reflexivity|].
  eapply rtc_l; [eapply (deliver_step exNow (exPredictor "foo" "9" (Some exNow))
                           EVENT_DELETE); vm_compute; reflexivity|].
  apply rtc_refl.
Qed.

Lemma reachable_wf `{MetaTime} id name s :
  rtc step (newCachedPredictorSource id name) s → wf s.
Proof.
  intros Hr. eapply rtc_invariant; [|exact Hr|apply wf_new].
  intros a b Ha Hab. by eapply step_wf.
Qed.

(** ** Claims *)

(** C28: in every state that the event goroutine and concurrent status updates can
    reach, the source is well formed: each cached object carries the name it is
    cached under, every queued object is allocated and has a deletion timestamp,
    no object is queued twice, and the queue is a heap by deletion time. *)
Theorem source_wf_reachable `{MetaTime} id name s :
  rtc step (newCachedPredictorSource id name) s → wf s.
Proof. apply reachable_wf. Qed.

Lemma source_wf_reachable_witness : wf (run_state exDeleted).
Proof. apply (source_wf_reachable "src" "Source"). exact exDeleted_reachable. Defined.

(** C27: as long as a Predictor stays cached, whatever the interleaving of events
    and status updates, its cached version never decreases. *)
Theorem cache_versions_monotone `{MetaTime} n s s' v :
  wf s → rtc (λ a b, step a b ∧ is_Some (version b n)) s s' → version s n = Some v →
  ∃ v', version s' n = Some v' ∧ (v ≤ v')%Z.
Proof.
  intros Hwf Hr. revert v Hwf. induction Hr as [|a b c [Hab [vb Hb]] _ IH]; intros v Hwf Hv.
  - by exists v.
  - pose proof (step_version _ _ _ _ _ Hwf Hab Hv Hb).
    destruct (IH vb) as (v' & Hv' & ?); [by eapply step_wf|done|].
    exists v'. split; [done|lia].
Qed.

Lemma cache_versions_monotone_witness :
  ∃ v', version (run_state (deliver exNow (exPredictor "foo" "9" None) EVENT_UPDATE
     (run_state (deliver exNow (exPredictor "foo" "5" None) EVENT_UPDATE exSource)))) exName
     = Some v' ∧ (5 ≤ v')%Z.
Proof.
  eapply (cache_versions_monotone exName
            (run_state (deliver exNow (exPredictor "foo" "5" None) EVENT_UPDATE exSource))).
  - eapply (reachable_wf "src" "Source"). eapply rtc_once.
    eapply (deliver_step exNow (exPredictor "foo" "5" None) EVENT_UPDATE).
    vm_compute; reflexivity.
  - apply rtc_once. split.
    + eapply (deliver_step exNow (exPredictor "foo" "9" None) EVENT_UPDATE).
      vm_compute; reflexivity.
    + vm_compute; eauto.
  - vm_compute; reflexivity.
Defined.

(** Pruning a well-formed source terminates without panic (one iteration per
    queued object and a final one suffice), keeps exactly the queued objects that
    have not expired, drops exactly the cache entries that point to an expired
    queued object, and changes nothing else. *)
Theorem pruneDeletions_spec `{MetaTime} now s :
  wf s →
  ∃ s', pruneDeletions now s = Ret s' ∧ wf s' ∧
    mem s' = mem s ∧
    deletionQueue s' ≡ₚ
      filter (λ l, ¬ expired (mem s) (now + 20 * Second) l) (deletionQueue s) ∧
    ∀ n, cache s' !! n =
      match cache s !! n with
      | Some l => if decide (l ∈ deletionQueue s ∧ expired (mem s) (now + 20 * Second) l)
                  then None else Some l
      | None => None
      end.
Proof.
  intros Hwf. destruct (pruneDeletions_ok now s Hwf) as (s' & Hr & Hwf' & Hp).
  destruct Hp as (Hm & _ & _ & Hq & Hc). by exists s'.
Qed.

Lemma pruneDeletions_spec_witness :
  ∃ s', pruneDeletions exNow (run_state exDeleted) = Ret s' ∧ cache s' !! exName = None.
Proof.
  destruct (pruneDeletions_spec exNow (run_state exDeleted)) as (s' & Hr & _ & _ & _ & Hc).
  - eapply (reachable_wf "src" "Source"). exact exDeleted_reachable.
  - exists s'. split; [exact Hr|]. rewrite Hc. vm_compute. reflexivity.
Defined.

(** The deletion queue is a priority queue. On a heap of queued objects, Push
    adds exactly the new one and restores the heap; PopExpired does not panic and
    returns nothing exactly when no queued object has expired, and otherwise an
    expired object deleted no later than any other, leaving a heap of the rest. *)
Theorem deletion_queue_spec `{MetaTime} m q p cutoff :
  Forall (queued m) q → heap_ok (dkey m) q → queued m p →
  (Push m q p ≡ₚ p :: q ∧ heap_ok (dkey m) (Push m q p)) ∧
  ∃ r, PopExpired m q cutoff = Ret r ∧
    match r with
    | None => Forall (λ l, ¬ expired m cutoff l) q
    | Some (h, q') => expired m cutoff h ∧ q ≡ₚ h :: q' ∧ heap_ok (dkey m) q' ∧
                      Forall (λ l, (dkey m h ≤ dkey m l)%Z) q
    end.
Proof. intros. split; [by apply Push_spec|by apply PopExpired_spec]. Qed.

Lemma deletion_queue_spec_witness :
  let m := <[0 := exPredictor "a" "1" (Some 30%Z)]>
             (<[1 := exPredictor "b" "2" (Some 10%Z)]> ∅) : gmap loc Predictor in
  ∃ r, PopExpired m (Push m [0] 1) 20%Z = Ret r ∧ fst <$> r = Some 1.
Proof.
  intros m.
  destruct (deletion_queue_spec m [0] 1 20%Z) as [[Hp Hh] _].
  - repeat constructor. by eexists.
  - intros i Hi. simpl in Hi. lia.
  - by eexists.
  - eexists. split; [vm_compute; reflexivity|reflexivity].
Defined.

(** A Predictor whose DELETE event carries a deletion timestamp, and which is
    cached at an older version, is announced and is invisible to Get from then on. *)
Theorem delete_event_hides `{MetaTime} now now' s l o co c t :
  mem s !! l = Some o → om_DeletionTimestamp (p_Meta o) = Some t →
  cache s !! nn o = Some c → c ≠ l → mem s !! c = Some co →
  compareResourceVersion (Some co) o = Ok true →
  (0 < now ≤ now')%Z →
  ∃ s', processEvent now s (Some l) EVENT_DELETE = Ret (Some (nn o), s') ∧
        Get now' s' (nn o) = None.
Proof.
  intros Hl Ht Hc Hcl Hco Hcmp Hnow.
  unfold processEvent. rewrite Hl. simpl. rewrite Ht.
  set (o' := set_DeletionTimestamp (Some zeroTime) o).
  set (s1 := set_lockHeld true (set_mem (<[l := o']> (mem s)) s)).
  destruct (offerToCache_deleted now s1 (nn o) l o' c co zeroTime)
    as (s2 & Ho & Hcs & Hms); try done.
  - unfold s1; simpl. by rewrite lookup_insert_ne.
  - unfold s1; simpl. by rewrite lookup_insert_eq.
  - exists s2. split; [by rewrite Ho|].
    unfold Get, cached. rewrite Hcs. simpl. rewrite Hms. unfold isDeleted. simpl.
    rewrite bool_decide_true; [done|]. unfold Second, zeroTime in *. lia.
Qed.

Lemma delete_event_hides_witness :
  let s := run_state (deliver exNow (exPredictor "foo" "5" None) EVENT_UPDATE exSource) in
  let o := exPredictor "foo" "9" (Some exNow) in
  let s1 := (alloc o s).2 in
  ∃ s', processEvent exNow s1 (Some (alloc o s).1) EVENT_DELETE = Ret (Some exName, s') ∧
        Get exNow s' exName = None.
Proof.
  intros s o s1.
  apply (delete_event_hides exNow exNow s1 (alloc o s).1 o
           (exPredictor "foo" "5" None) 0 exNow); try (vm_compute; reflexivity).
  - vm_compute. discriminate.
  - unfold exNow, Second. lia.
Defined.

(** The cache panics with a nil dereference exactly when the first thing it
    learns of a Predictor, at a version that parses, is that it is being deleted. *)
Theorem offerToCache_panic_iff `{MetaTime} now s name p po :
  wf s → mem s !! p = Some po →
  offerToCache now s name p = Panic ↔
  cache s !! name = None ∧ is_Some (om_DeletionTimestamp (p_Meta po)) ∧
  is_Some (ParseInt (om_ResourceVersion (p_Meta po)) 64).
Proof. apply offerToCache_panics. Qed.

Lemma offerToCache_panic_iff_witness :
  let s := (alloc (exPredictor "foo" "5" (Some exNow)) exSource).2 in
  offerToCache exNow s exName (alloc (exPredictor "foo" "5" (Some exNow)) exSource).1 = Panic.
Proof.
  intros s. apply (offerToCache_panic_iff exNow s exName _ (exPredictor "foo" "5" (Some exNow))).
  - eapply alloc_wf; [apply (wf_new "src" "Source")|reflexivity].
  - vm_compute. reflexivity.
  - split; [vm_compute; reflexivity|]. split; vm_compute; eauto.
Defined.

(** A DELETE event whose Predictor carries no deletion timestamp, when newer
    than what is cached, is stored like an update: the deleted Predictor stays
    visible to Get. *)
Theorem delete_event_without_timestamp_ignored `{MetaTime} now now' s l o :
  mem s !! l = Some o → om_DeletionTimestamp (p_Meta o) = None →
  compareResourceVersion (cached s (nn o)) o = Ok true →
  ∃ s', processEvent now s (Some l) EVENT_DELETE = Ret (Some (nn o), s') ∧
        Get now' s' (nn o) = Some o.
Proof.
  intros Hl Ht Hcmp. unfold processEvent. rewrite Hl. simpl. rewrite Ht.
  unfold offerToCache. simpl. rewrite Hl. simpl.
  change (cache s !! nn o ≫= λ c, mem s !! c) with (cached s (nn o)).
  rewrite Hcmp, Ht. simpl. eexists. split; [reflexivity|].
  unfold Get, cached. simpl. rewrite lookup_insert_eq. simpl. rewrite Hl.
  unfold isDeleted. by rewrite Ht.
Qed.

Lemma delete_event_without_timestamp_ignored_witness :
  let s := run_state (deliver exNow (exPredictor "foo" "5" None) EVENT_UPDATE exSource) in
  let o := exPredictor "foo" "9" None in
  ∃ s', processEvent exNow (alloc o s).2 (Some (alloc o s).1) EVENT_DELETE
          = Ret (Some exName, s') ∧
        Get exNow s' exName = Some o.
Proof.
  intros s o.
  apply (delete_event_without_timestamp_ignored exNow exNow (alloc o s).2 (alloc o s).1 o);
    vm_compute; reflexivity.
Defined.

(** Deleted Predictors are not remembered for 20 seconds. There is a run in
    which a status update observes at version 9 that a Predictor is gone, the
    source records the deletion, and within the same instant an unrelated event
    makes the goroutine prune it and a late event at version 7 brings the
    Predictor back. *)
Theorem deletion_forgotten_immediately :
  ∃ s1 s2 p,
    rtc step exSource s1 ∧ version s1 exName = Some 9%Z ∧ Get exNow s1 exName = None ∧
    rtc step s1 s2 ∧ Get exNow s2 exName = Some p ∧ om_ResourceVersion (p_Meta p) = "7".
Proof.
  set (a := run_state (deliver exNow (exPredictor "foo" "5" None) EVENT_UPDATE exSource)).
  set (b := run_state (idle exNow a)).
  set (np := deletedPredictor exName "9").
  set (c := run_state (r ← offerToCache exNow (alloc np b).2 exName (alloc np b).1; Ret r.2)).
  set (d := run_state (deliver exNow (exPredictor "bar" "10" None) EVENT_UPDATE c)).
  set (e := run_state (idle exNow d)).
  set (f := run_state (deliver exNow (exPredictor "foo" "7" None) EVENT_UPDATE e)).
  exists c, f, (exPredictor "foo" "7" None).
  split.
  { apply (rtc_l _ _ a); [apply (deliver_step exNow (exPredictor "foo" "5" None)
                                   EVENT_UPDATE); vm_compute; reflexivity|].
    apply (rtc_l _ _ b); [apply (idle_step exNow); vm_compute; reflexivity|].
    apply rtc_once.
    apply (step_update exNow b exName np (alloc np b).1 (alloc np b).2 true);
      vm_compute; reflexivity. }
  do 2 (split; [vm_compute; reflexivity|]). split; [|vm_compute; split; reflexivity].
  apply (rtc_l _ _ d); [apply (deliver_step exNow (exPredictor "bar" "10" None)
                                 EVENT_UPDATE); vm_compute; reflexivity|].
  apply (rtc_l _ _ e); [apply (idle_step exNow); vm_compute; reflexivity|].
  apply rtc_once. apply (deliver_step exNow (exPredictor "foo" "7" None) EVENT_UPDATE).
  vm_compute; reflexivity.
Qed.

(** Find agrees with Get: in a well-formed source it returns true exactly when
    some Predictor of the namespace is visible to Get and satisfies the predicate. *)
Theorem Find_iff_Get `{MetaTime} now s namespace predicate :
  wf s →
  Find now s namespace predicate = true ↔
  ∃ name p, Get now s (mkNN namespace name) = Some p ∧ predicate p = true.
Proof.
  intros Hwf. unfold Find. rewrite existsb_exists. split.
  - intros ([n l] & Hin & Hp). apply list_elem_of_In, elem_of_map_to_list in Hin.
    destruct (wf_cache _ Hwf _ _ Hin) as (p & Hm & Hn). simpl in Hp. rewrite Hm in Hp.
    apply andb_true_iff in Hp as [[Hd Hns]%andb_true_iff Hpred].
    apply bool_decide_eq_true in Hns. apply negb_true_iff in Hd.
    exists (om_Name (p_Meta p)), p. split; [|done].
    unfold Get, cached. subst n namespace. unfold nn in Hin. rewrite Hin. simpl.
    by rewrite Hm, Hd.
  - intros (name & p & Hg & Hpred). unfold Get, cached in Hg.
    destruct (cache s !! mkNN namespace name) as [l|] eqn:El; [|done]. simpl in Hg.
    destruct (mem s !! l) as [q|] eqn:Em; [|done].
    destruct (isDeleted now q) eqn:Ed; [done|]. injection Hg as ->.
    exists (mkNN namespace name, l). split.
    + by apply list_elem_of_In, elem_of_map_to_list.
    + simpl. rewrite Em, Ed, Hpred. destruct (wf_cache _ Hwf _ _ El) as (p' & Hp' & Hn).
      assert (p' = p) as -> by congruence. injection Hn as Hn _.
      by rewrite bool_decide_true.
Qed.

Lemma Find_iff_Get_witness :
  Find exNow (run_state (deliver exNow (exPredictor "foo" "5" None) EVENT_UPDATE exSource))
    "ns" (λ _, true) = true.
Proof.
  apply Find_iff_Get.
  - eapply (reachable_wf "src" "Source"). eapply rtc_once.
    eapply (deliver_step exNow (exPredictor "foo" "5" None) EVENT_UPDATE).
    vm_compute; reflexivity.
  - exists "foo", (exPredictor "foo" "5" None). split; vm_compute; reflexivity.
Defined.
