(* ===== verification/WatchSource.v ===== *)
(** * Predictor sources built on the cache
      (pkg/predictor_source/watchrefresh_predictor_source.go,
       stream_predictor_source.go)

    The refresh-and-watch source fills the cache from a list, then follows a watch
    and falls back to a refresh when the watch's version is too old. The stream
    source fills the cache from an event stream until it is quiet.

    Every event that Go reads the clock for takes its own instant ([clock]), every
    send says whether the channel had room ([room]), and the order in which Go
    ranges over a map is an argument ([ord]), a permutation chosen by the
    environment. *)

From S2P Require Import Prelude GoStrings GoHeap Types CachedSource CachedSourceInv.

(** api.PredictorList *)
Record PredictorList := mkPredictorList {
  pl_ResourceVersion : string;
  pl_Items : list Predictor
}.

(** The capacity of the output channel. *)
Definition chanCap : nat := 128.

(** ** Initial events

    The output channel while StartWatch runs (nobody receives yet) and the slice
    that takes over once it is full. *)
Record initial := mkInitial {
  in_chan : list PredictorEvent;
  in_overflow : option (list PredictorEvent)
}.

Definition zeroEvent : PredictorEvent := mkNN "" "".

(** [make([]PredictorEvent, cap(outChan))] has the capacity as its length. *)
Definition offerInitial (i : initial) (pe : PredictorEvent) : initial :=
  match in_overflow i with
  | None =>
      if bool_decide (length (in_chan i) < chanCap)
      then mkInitial (in_chan i ++ [pe]) None
      else mkInitial (in_chan i) (Some (replicate chanCap zeroEvent ++ [pe]))
  | Some l => mkInitial (in_chan i) (Some (l ++ [pe]))
  end.

(** Everything that will have been sent once the goroutine has emptied the slice. *)
Definition initial_events (i : initial) : list PredictorEvent :=
  in_chan i ++ default [] (in_overflow i).

(** ** The watch source *)

Section Watch.
Context `{MetaTime}.

(** Initial cache population: the items of the list are stored unconditionally. *)
Fixpoint populate (items : list Predictor) (s : cachedPredictorSource) (i : initial)
  : cachedPredictorSource * initial :=
  match items with
  | [] => (s, i)
  | o :: items' =>
      let '(l, s1) := alloc o s in
      let s2 := set_cache (<[nn o := l]> (cache s1)) s1 in
      populate items' s2 (offerInitial i (nn o))
  end.

(** StartWatch up to the start of its goroutine, and the goroutine's first loop:
    the source, and the resource version to watch from. *)
Definition StartWatch (refresh : result error PredictorList) (s : cachedPredictorSource)
  : result error string * cachedPredictorSource :=
  match start s with
  | Err e => (Err e, s)
  | Ok s1 =>
      match refresh with
      | Err e => (Err e, set_started false s1)
      | Ok list =>
          let '(s2, i) := populate (pl_Items list) s1 (mkInitial [] None) in
          (Ok (pl_ResourceVersion list), set_sent (sent s2 ++ initial_events i) s2)
      end
  end.

(** for i := range list.Items: process and forward as an update *)
Fixpoint refresh_items (clock : nat → Z) (room : nat → bool) (k : nat)
    (items : list Predictor) (s : cachedPredictorSource) : exec cachedPredictorSource :=
  match items with
  | [] => Ret s
  | o :: items' =>
      s' ← processAndWrite (clock k) (room k) o EVENT_UPDATE s;
      refresh_items clock room (S k) items' s'
  end.

(** for i := range toDelete: process and forward a deletion *)
Fixpoint refresh_deletes (clock : nat → Z) (room : nat → bool) (k : nat) (rv : string)
    (names : list NamespacedName) (s : cachedPredictorSource) : exec cachedPredictorSource :=
  match names with
  | [] => Ret s
  | n :: names' =>
      s' ← processAndWrite (clock k) (room k) (deletedPredictor n rv) EVENT_DELETE s;
      refresh_deletes clock room (S k) rv names' s'
  end.

(** Names in the cache that the list does not have. *)
Definition toDelete (ord : list NamespacedName → list NamespacedName)
    (items : list Predictor) (s : cachedPredictorSource) : list NamespacedName :=
  ord (filter (λ n, n ∉ nn <$> items) (map_to_list (cache s)).*1).

(** refreshCache once a Refresh has succeeded: the new resource version. *)
Definition refreshCache (clock : nat → Z) (room : nat → bool)
    (ord : list NamespacedName → list NamespacedName)
    (list : PredictorList) (s : cachedPredictorSource) : exec (string * cachedPredictorSource) :=
  s1 ← refresh_items clock room 0 (pl_Items list) s;
  s2 ← refresh_deletes clock room (length (pl_Items list)) (pl_ResourceVersion list)
         (toDelete ord (pl_Items list) s1) s1;
  Ret (pl_ResourceVersion list, s2).

(** One iteration of the inner watch loop: [None] when the channel is closed. The
    resource version follows the accepted events. *)
Definition watch_iter (now : Z) (room : bool) (poll wait : recv PredictorStreamEvent)
    (rv : string) (s : cachedPredictorSource)
  : exec (option string * cachedPredictorSource) :=
  r ← readEvent now s poll wait;
  match r.1 with
  | None => Ret (None, r.2)
  | Some pse =>
      r2 ← processEvent now r.2 (pse_Predictor pse) (pse_EventType pse);
      match r2.1 with
      | None => Ret (Some rv, r2.2)
      | Some pe =>
          let s' := writeEvent r2.2 pe room in
          l ← deref (pse_Predictor pse);
          o ← deref (mem s' !! l);
          Ret (Some (om_ResourceVersion (p_Meta o)), s')
      end
  end.

(** ** The stream source *)

Inductive stream_obs := SEvent (o : option Predictor) (et : EventType) | SClosed | SCtxDone | SQuiet.

(** The loop of StartWatch: it ends when nothing arrives for 500ms ([SQuiet]; an
    exhausted list of observations means no more arrived). *)
Fixpoint stream_loop (clock : nat → Z) (k : nat) (obs : list stream_obs)
    (s : cachedPredictorSource) (i : initial)
  : exec (result error unit * cachedPredictorSource * initial) :=
  match obs with
  | [] => Ret (Ok tt, s, i)
  | SQuiet :: _ => Ret (Ok tt, s, i)
  | SClosed :: _ => Ret (Err (ErrMsg "event channel closed"), s, i)
  | SCtxDone :: _ => Ret (Err (ErrMsg "context done"), s, i)
  | SEvent None _ :: obs' => stream_loop clock (S k) obs' s i
  | SEvent (Some o) et :: obs' =>
      let '(l, s1) := alloc o s in
      r ← processEvent (clock k) s1 (Some l) et;
      stream_loop clock (S k) obs' r.2
        (match r.1 with Some pe => offerInitial i pe | None => i end)
  end.

Definition StreamStartWatch (clock : nat → Z) (obs : list stream_obs)
    (s : cachedPredictorSource) : exec (result error unit * cachedPredictorSource) :=
  match start s with
  | Err e => Ret (Err e, s)
  | Ok s1 =>
      r ← stream_loop clock 0 obs s1 (mkInitial [] None);
      let '(res, s2, i) := r in
      match res with
      | Err e => Ret (Err e, s2)
      | Ok _ => Ret (Ok tt, set_sent (sent s2 ++ initial_events i) s2)
      end
  end.
End Watch.

(** ** Lemmas *)

Lemma offerInitial_fold l :
  foldl offerInitial (mkInitial [] None) l =
    if bool_decide (length l ≤ chanCap) then mkInitial l None
    else mkInitial (take chanCap l) (Some (replicate chanCap zeroEvent ++ drop chanCap l)).
Proof.
  induction l as [|l x IH] using rev_ind; [done|].
  rewrite foldl_app, IH. cbn [foldl]. rewrite length_app; cbn [length].
  case_bool_decide as H1; unfold offerInitial; cbn [in_overflow in_chan].
  - case_bool_decide as H2; case_bool_decide as H3; try lia; [done|].
    rewrite take_app_length', drop_app_length' by lia. done.
  - rewrite bool_decide_false by lia.
    rewrite take_app_le, drop_app_le by lia. by rewrite <- app_assoc.
Qed.

Section WatchLemmas.
Context `{MetaTime}.

Lemma populate_events items s i :
  (populate items s i).2 = foldl offerInitial i (nn <$> items).
Proof. revert s i. induction items as [|o items IH]; intros s i; [done|]. apply IH. Qed.

Lemma populate_wf items s i : wf s → wf (populate items s i).1.
Proof.
  revert s i. induction items as [|o items IH]; intros s i Hwf; [done|].
  cbn [populate]. destruct (alloc o s) as [l s1] eqn:Ha.
  destruct (alloc_wf _ _ _ _ Hwf Ha) as ([Hc Hq Hh Hnd] & Hm & Hlq & _).
  apply IH. split; simpl; try done. intros n x.
  rewrite lookup_insert. case_decide; [|apply Hc]. intros [= <-]. eauto.
Qed.

Lemma populate_sent items s i : sent (populate items s i).1 = sent s.
Proof.
  revert s i. induction items as [|o items IH]; intros s i; [done|].
  etrans; [apply IH|done].
Qed.

(** Every cached object has a version that parses. *)
Definition versioned (s : cachedPredictorSource) : Prop :=
  ∀ n, is_Some (cached s n) → is_Some (version s n).

Definition parses (o : Predictor) : Prop :=
  is_Some (ParseInt (om_ResourceVersion (p_Meta o)) 64).

Lemma accepted_object_fields now et o :
  nn (accepted_object now et o) = nn o ∧
  om_ResourceVersion (p_Meta (accepted_object now et o)) = om_ResourceVersion (p_Meta o).
Proof.
  unfold accepted_object. destruct (event_object_fields et o).
  by destruct (om_DeletionTimestamp _).
Qed.

Lemma is_Some_cache_cached s n : wf s → is_Some (cache s !! n) ↔ is_Some (cached s n).
Proof.
  intros Hwf. unfold cached. destruct (cache s !! n) as [l|] eqn:E; simpl.
  - destruct (wf_cache _ Hwf _ _ E) as (p & -> & _). split; eauto.
  - split; by intros [].
Qed.

(** One event, seen from the versions: the version of its name becomes at least
    its own, no other entry changes. *)
Lemma processAndWrite_versions now room o et s :
  wf s → versioned s → parses o → ¬ unseen_deletion o s →
  ∃ s', processAndWrite now room o et s = Ret s' ∧ wf s' ∧ versioned s' ∧
    (∀ n, n ≠ nn o → cached s' n = cached s n) ∧
    (∃ v v', ParseInt (om_ResourceVersion (p_Meta o)) 64 = Some v ∧
             version s' (nn o) = Some v' ∧ (v ≤ v')%Z ∧
             (∀ v0, version s (nn o) = Some v0 → (v0 ≤ v')%Z) ∧
             (∀ v0, version s (nn o) = Some v0 → (v0 < v)%Z →
                cached s' (nn o) = Some (accepted_object now et o))) ∧
    (∀ n, is_Some (cached s n) → is_Some (cached s' n)).
Proof.
  intros Hwf Hver [v Hv] Hsafe.
  destruct (processAndWrite_refines now room o et s Hwf Hsafe)
    as (s' & Hr & Hwf' & Hst & Hdom & _).
  exists s'. split; [done|]. split; [done|].
  destruct (accepted_object_fields now et o) as [Han Har].
  assert (Hother : ∀ n, n ≠ nn o → cached s' n = cached s n).
  { intros n Hn. rewrite Hst. unfold store_offer. by rewrite decide_False by naive_solver. }
  assert (Hsame : cached s' (nn o) =
            if decide (compareResourceVersion (cached s (nn o)) o = Ok true)
            then Some (accepted_object now et o) else cached s (nn o)).
  { rewrite Hst. unfold store_offer. by repeat case_decide; naive_solver. }
  assert (Hv' : ∃ v', version s' (nn o) = Some v' ∧ (v ≤ v')%Z ∧
             (∀ v0, version s (nn o) = Some v0 → (v0 ≤ v')%Z) ∧
             (∀ v0, version s (nn o) = Some v0 → (v0 < v)%Z →
                cached s' (nn o) = Some (accepted_object now et o))).
  { unfold version. rewrite Hsame. case_decide as Hcmp; simpl.
    - rewrite Har, Hv. exists v. split; [done|]. split; [lia|].
      apply compare_newer in Hcmp as (v1 & Hv1 & Hlt). simplify_eq.
      split; [|done]. intros v0 Hv0. specialize (Hlt v0 Hv0). lia.
    - destruct (cached s (nn o)) as [e|] eqn:Ee.
      + destruct (Hver (nn o)) as [v0 Hv0]; [by rewrite Ee|].
        unfold version in Hv0. rewrite Ee in Hv0. simpl in *. rewrite Hv0.
        exists v0. unfold compareResourceVersion in Hcmp. rewrite Hv, Hv0 in Hcmp.
        case_bool_decide as Hb; [done|]. split; [done|]. split; [lia|].
        split; intros; simplify_eq; lia.
      + exfalso. apply Hcmp. unfold compareResourceVersion. by rewrite Hv. }
  split.
  { intros n Hn. destruct (decide (n = nn o)) as [->|Hne].
    - destruct Hv' as (v' & -> & _). eauto.
    - unfold version. rewrite Hother in * by done.
      apply Hver in Hn. by unfold version in Hn. }
  split; [done|]. split.
  { destruct Hv' as (v' & ? & ? & ? & ?). exists v, v'. auto. }
  intros n Hn. apply is_Some_cache_cached; [done|].
  apply Hdom. by apply is_Some_cache_cached.
Qed.
End WatchLemmas.
