(* ===== verification/WatchSourceProps.v ===== *)
(** * Properties of the refresh-and-watch source *)

From S2P Require Import Prelude GoStrings GoHeap Types CachedSource CachedSourceInv.
From S2P Require Import WatchSource.

Section Refresh.
Context `{MetaTime} (clock : nat → Z) (room : nat → bool).

Lemma version_cached s s' n : cached s' n = cached s n → version s' n = version s n.
Proof. unfold version. by intros ->. Qed.

(** A listed item that is being deleted is cached already. *)
Definition deletion_seen (s : cachedPredictorSource) (o : Predictor) : Prop :=
  om_DeletionTimestamp (p_Meta o) = None ∨ is_Some (cached s (nn o)).

Lemma deletion_seen_safe s o : wf s → deletion_seen s o → ¬ unseen_deletion o s.
Proof.
  intros Hwf [Hd|Hd] (Hc & [t Ht] & _); [congruence|].
  apply is_Some_cache_cached in Hd as [l Hl]; [|done]. congruence.
Qed.

Lemma refresh_items_spec k items s :
  wf s → versioned s → Forall parses items → Forall (deletion_seen s) items →
  ∃ s', refresh_items clock room k items s = Ret s' ∧ wf s' ∧ versioned s' ∧
    (∀ n, n ∉ nn <$> items → cached s' n = cached s n) ∧
    (∀ n v, version s n = Some v → ∃ v', version s' n = Some v' ∧ (v ≤ v')%Z) ∧
    (∀ o, o ∈ items → ∃ v v', ParseInt (om_ResourceVersion (p_Meta o)) 64 = Some v ∧
                              version s' (nn o) = Some v' ∧ (v ≤ v')%Z).
Proof.
  revert k s. induction items as [|o items IH]; intros k s Hwf Hver Hp Hd; simpl.
  { exists s. split; [done|]. split; [done|]. split; [done|]. split; [done|].
    split; [intros n v ->; by exists v|set_solver]. }
  inversion Hp as [|?? Hpo Hp']; inversion Hd as [|?? Hdo Hd']; subst.
  destruct (processAndWrite_versions (clock k) (room k) o EVENT_UPDATE s)
    as (s1 & -> & Hwf1 & Hver1 & Hoth & (v & v1 & Hv & Hv1 & Hle & Hmono & _) & Hdom);
    [done..|by apply deletion_seen_safe|]. simpl.
  destruct (IH (S k) s1) as (s' & -> & Hwf' & Hver' & Hoth' & Hmono' & Hitems); [done..| |].
  { eapply Forall_impl; [exact Hd'|]. intros x [|Hx]; [by left|right; auto]. }
  exists s'. split; [done|]. split; [done|]. split; [done|].
  assert (Hm : ∀ n v0, version s n = Some v0 → ∃ v2, version s1 n = Some v2 ∧ (v0 ≤ v2)%Z).
  { intros n v0 Hv0. destruct (decide (n = nn o)) as [->|Hne].
    - exists v1. split; [done|]. by apply Hmono.
    - exists v0. split; [|lia]. by rewrite (version_cached s s1) by (by apply Hoth). }
  split; [|split].
  - intros n Hn. rewrite Hoth' by set_solver. apply Hoth. set_solver.
  - intros n v0 Hv0. destruct (Hm n v0 Hv0) as (v2 & Hv2 & ?).
    destruct (Hmono' n v2 Hv2) as (v3 & ? & ?). exists v3. split; [done|lia].
  - intros o' [->|Ho']%elem_of_cons; [|by apply Hitems].
    destruct (Hmono' _ _ Hv1) as (v3 & ? & ?). exists v, v3. split; [done|]. split; [done|lia].
Qed.

(** Items of different names: one that is being deleted and not cached makes it panic. *)
Lemma refresh_items_panics k items s o :
  wf s → versioned s → Forall parses items → NoDup (nn <$> items) →
  o ∈ items → ¬ deletion_seen s o → refresh_items clock room k items s = Panic.
Proof.
  revert k s. induction items as [|x items IH]; intros k s Hwf Hver Hp Hnd Ho Hno; [set_solver|].
  inversion Hp as [|?? Hpx Hp']; subst. rewrite fmap_cons in Hnd. apply NoDup_cons in Hnd as [Hx Hnd].
  simpl. destruct (decide (unseen_deletion x s)) as [Hu|Hu].
  { by rewrite (proj2 (processAndWrite_panics (clock k) (room k) x EVENT_UPDATE s Hwf) Hu). }
  destruct (processAndWrite_versions (clock k) (room k) x EVENT_UPDATE s)
    as (s1 & -> & Hwf1 & Hver1 & Hoth & _); [done..|]. simpl.
  apply elem_of_cons in Ho as [->|Ho].
  - exfalso. apply Hno. destruct (cached s (nn x)) as [c|] eqn:Ec; [right; by rewrite Ec|left].
    destruct (om_DeletionTimestamp (p_Meta x)) as [t|] eqn:Et; [|done]. exfalso. apply Hu.
    split_and!; [|by rewrite Et|done]. apply eq_None_not_Some.
    intros Hs%is_Some_cache_cached; [|done]. rewrite Ec in Hs. by destruct Hs.
  - apply IH; try done. unfold deletion_seen. rewrite Hoth; [done|].
    intros E. apply Hx. rewrite <- E. apply list_elem_of_fmap. eauto.
Qed.

Lemma refresh_deletes_spec k rv r names s :
  wf s → versioned s → NoDup names → ParseInt rv 64 = Some r →
  (∀ n, n ∈ names → is_Some (cached s n)) →
  ∃ s', refresh_deletes clock room k rv names s = Ret s' ∧ wf s' ∧ versioned s' ∧
    (∀ n, n ∉ names → cached s' n = cached s n) ∧
    (∀ n v, n ∈ names → version s n = Some v → (v < r)%Z →
       ∃ j, cached s' n = Some (accepted_object (clock j) EVENT_DELETE
                                   (deletedPredictor n rv))).
Proof.
  intros Hwf Hver Hnd Hr. revert k s Hwf Hver Hnd.
  induction names as [|n names IH]; intros k s Hwf Hver Hnd Hin; simpl.
  { exists s. split; [done|]. split; [done|]. split; [done|]. split; [done|set_solver]. }
  apply NoDup_cons in Hnd as [Hn Hnd].
  set (o := deletedPredictor n rv). assert (Hnn : nn o = n) by (by destruct n).
  destruct (processAndWrite_versions (clock k) (room k) o EVENT_DELETE s)
    as (s1 & -> & Hwf1 & Hver1 & Hoth & (v1 & v2 & Hv1 & Hv2 & _ & _ & Hacc) & Hdom).
  { done. } { done. } { by exists r. }
  { apply deletion_seen_safe; [done|]. right. rewrite Hnn. apply Hin. set_solver. }
  rewrite Hnn in *. simpl.
  destruct (IH (S k) s1) as (s' & -> & Hwf' & Hver' & Hoth' & Hdel); [done..| |].
  { intros n' Hn'. rewrite Hoth by set_solver. apply Hin. set_solver. }
  exists s'. split; [done|]. split; [done|]. split; [done|]. split.
  - intros n' Hn'. rewrite Hoth' by set_solver. apply Hoth. set_solver.
  - intros n' v Hn' Hv Hlt. apply elem_of_cons in Hn' as [Hn'|Hn'].
    + subst n'. exists k. rewrite Hoth' by done. eapply Hacc; [done|].
      assert (v1 = r) as -> by (unfold o in Hv1; simpl in Hv1; congruence). done.
    + eapply Hdel; [done| |done]. rewrite (version_cached s s1); [done|].
      apply Hoth. intros ->. done.
Qed.
End Refresh.

#[export] Instance deletion_seen_dec s o : Decision (deletion_seen s o).
Proof. unfold deletion_seen. apply _. Defined.

Lemma not_deletion_seen s o :
  ¬ deletion_seen s o ↔ is_Some (om_DeletionTimestamp (p_Meta o)) ∧ cached s (nn o) = None.
Proof.
  unfold deletion_seen, is_Some.
  destruct (om_DeletionTimestamp (p_Meta o)), (cached s (nn o)); naive_solver.
Qed.

Lemma Get_deleted now now' n rv s :
  cached s n = Some (accepted_object now EVENT_DELETE (deletedPredictor n rv)) →
  (0 < now ≤ now')%Z → Get now' s n = None.
Proof.
  intros Hc Hnow. unfold Get. rewrite Hc. unfold isDeleted, accepted_object. simpl.
  rewrite bool_decide_true; [done|]. unfold zeroTime, Second. lia.
Qed.

Lemma elem_of_toDelete ord items s n :
  (∀ l, ord l ≡ₚ l) →
  n ∈ toDelete ord items s ↔ n ∉ nn <$> items ∧ is_Some (cache s !! n).
Proof.
  intros Hord. unfold toDelete. rewrite (Hord _), list_elem_of_filter.
  rewrite (list_elem_of_fmap fst). split.
  - intros [Hn ([n' l] & -> & Hin)]. split; [done|].
    apply elem_of_map_to_list in Hin. eauto.
  - intros [Hn [l Hl]]. split; [done|]. exists (n, l). split; [done|].
    by apply elem_of_map_to_list.
Qed.

Lemma NoDup_toDelete ord items s : (∀ l, ord l ≡ₚ l) → NoDup (toDelete ord items s).
Proof.
  intros Hord. unfold toDelete. rewrite (Hord _). apply NoDup_filter, NoDup_fst_map_to_list.
Qed.

Lemma refreshed `{MetaTime} clock room ord list s r :
  wf s → versioned s → (∀ l, ord l ≡ₚ l) → (∀ k, 0 < clock k)%Z →
  ParseInt (pl_ResourceVersion list) 64 = Some r →
  Forall parses (pl_Items list) → Forall (deletion_seen s) (pl_Items list) →
  ∃ s', refreshCache clock room ord list s = Ret (pl_ResourceVersion list, s') ∧ wf s' ∧
    (∀ o, o ∈ pl_Items list →
       ∃ v v', ParseInt (om_ResourceVersion (p_Meta o)) 64 = Some v ∧
               version s' (nn o) = Some v' ∧ (v ≤ v')%Z) ∧
    (∀ n v now, n ∉ nn <$> pl_Items list → version s n = Some v → (v < r)%Z →
       (∀ k, clock k ≤ now)%Z → Get now s' n = None) ∧
    (∀ n, n ∉ nn <$> pl_Items list → cached s n = None → cached s' n = None).
Proof.
  intros Hwf Hver Hord Hclk Hr Hp Hd. unfold refreshCache.
  destruct (refresh_items_spec clock room 0 (pl_Items list) s)
    as (s1 & -> & Hwf1 & Hver1 & Hoth & _ & Hitems); [done..|]. simpl.
  pose proof (λ n, elem_of_toDelete ord (pl_Items list) s1 n Hord) as Htd.
  destruct (refresh_deletes_spec clock room (length (pl_Items list))
      (pl_ResourceVersion list) r (toDelete ord (pl_Items list) s1) s1)
    as (s2 & -> & Hwf2 & _ & Hoth2 & Hdel); [done..|by apply NoDup_toDelete|done| |].
  { intros n [_ Hn]%Htd. by apply is_Some_cache_cached. }
  simpl. exists s2. split; [done|]. split; [done|]. split; [|split].
  - intros o Ho. destruct (Hitems o Ho) as (v & v' & Hv & Hv' & Hle).
    exists v, v'. split; [done|]. split; [|done].
    rewrite (version_cached s1 s2); [done|]. apply Hoth2. intros [Hn _]%Htd.
    apply Hn, list_elem_of_fmap. eauto.
  - intros n v now Hn Hv Hlt Hnow.
    assert (Hv1 : version s1 n = Some v) by (by rewrite (version_cached s s1); [|apply Hoth]).
    assert (Hin : n ∈ toDelete ord (pl_Items list) s1).
    { apply Htd. split; [done|]. apply is_Some_cache_cached; [done|].
      unfold version in Hv1. destruct (cached s1 n); [eauto|done]. }
    destruct (Hdel n v Hin Hv1 Hlt) as [j Hj]. eapply Get_deleted; [exact Hj|].
    specialize (Hclk j). specialize (Hnow j). lia.
  - intros n Hn Hc. rewrite Hoth2; [by rewrite Hoth|].
    intros [_ Hs]%Htd. apply is_Some_cache_cached in Hs; [|done].
    rewrite Hoth, Hc in Hs by done. by destruct Hs.
Qed.

(** ** Claims *)

(** C2: processing an event refines an abstract versioned store: the object of
    the event replaces the entry of its name exactly when its version is newer
    (a deletion time further back than two seconds is moved up), no other entry
    changes, exactly the accepted events are announced and the source stays well
    formed. The one exception: it panics, and it does so exactly when the object
    carries a deletion timestamp, its version parses and no entry of its name is
    cached. *)
Theorem processEvent_refines_store `{MetaTime} now room o et s :
  wf s →
  (processAndWrite now room o et s = Panic ↔
     cached s (nn o) = None ∧ is_Some (om_DeletionTimestamp (p_Meta o)) ∧
     is_Some (ParseInt (om_ResourceVersion (p_Meta o)) 64)) ∧
  (processAndWrite now room o et s ≠ Panic →
   ∃ s', processAndWrite now room o et s = Ret s' ∧ wf s' ∧
    (∀ n, cached s' n = store_offer now et o (cached s) n) ∧
    sent s' = sent s ++
      (if bool_decide (compareResourceVersion (cached s (nn o)) o = Ok true)
       then [nn o] else [])).
Proof.
  intros Hwf. split.
  - rewrite (processAndWrite_panics now room o et s Hwf). unfold unseen_deletion.
    by rewrite !(eq_None_not_Some (_ !! _)), is_Some_cache_cached, <- eq_None_not_Some.
  - rewrite (processAndWrite_panics now room o et s Hwf). intros Hs.
    destruct (processAndWrite_refines now room o et s Hwf Hs) as (s' & ? & ? & ? & _ & ?).
    by exists s'.
Qed.

Definition exItem (name rv : string) : Predictor :=
  mkPredictor (mkMeta name "ns" rv None ∅ ∅) emptySpec defaultStatus.
Definition exEmpty : cachedPredictorSource := newCachedPredictorSource "src" "Source".
#[local] Existing Instance metaTimeImpl.

Lemma processEvent_refines_store_witness :
  (∃ s', processAndWrite 5%Z true (exItem "foo" "7") EVENT_UPDATE exEmpty = Ret s' ∧
         cached s' (mkNN "ns" "foo") = Some (exItem "foo" "7")) ∧
  processAndWrite 5%Z true (set_DeletionTimestamp (Some 4%Z) (exItem "foo" "7")) EVENT_UPDATE
    exEmpty = Panic.
Proof.
  split.
  - destruct (proj2 (processEvent_refines_store 5%Z true (exItem "foo" "7") EVENT_UPDATE exEmpty
      (wf_new _ _))) as (s' & Hr & _ & Hst & _); [vm_compute; discriminate|].
    exists s'. split; [exact Hr|]. rewrite Hst. vm_compute. reflexivity.
  - apply processEvent_refines_store; [apply wf_new|].
    split_and!; [reflexivity|by eexists|vm_compute; by eexists].
Defined.

(** C30: a refresh of a well-formed source synchronises the registry with the list, when
    the versions of the list, of its items and of the cached objects parse and no two
    items have the same name. refreshCache
    panics exactly when the list has an item that is being deleted and that is not
    cached. Otherwise it returns the list's version; afterwards every listed Predictor
    is cached at its listed version or a newer one, every cached Predictor that the
    list lacks and that is older than the list is invisible to Get, and no Predictor
    that was neither listed nor cached appears. *)
Theorem refreshCache_spec `{MetaTime} clock room ord list s r :
  wf s → versioned s → (∀ l, ord l ≡ₚ l) → (∀ k, 0 < clock k)%Z →
  ParseInt (pl_ResourceVersion list) 64 = Some r →
  Forall parses (pl_Items list) → NoDup (nn <$> pl_Items list) →
  (refreshCache clock room ord list s = Panic ↔
     ∃ o, o ∈ pl_Items list ∧ is_Some (om_DeletionTimestamp (p_Meta o)) ∧
          cached s (nn o) = None) ∧
  (refreshCache clock room ord list s ≠ Panic →
  ∃ s', refreshCache clock room ord list s = Ret (pl_ResourceVersion list, s') ∧ wf s' ∧
    (∀ o, o ∈ pl_Items list →
       ∃ v v', ParseInt (om_ResourceVersion (p_Meta o)) 64 = Some v ∧
               version s' (nn o) = Some v' ∧ (v ≤ v')%Z) ∧
    (∀ n v now, n ∉ nn <$> pl_Items list → version s n = Some v → (v < r)%Z →
       (∀ k, clock k ≤ now)%Z → Get now s' n = None) ∧
    (∀ n, n ∉ nn <$> pl_Items list → cached s n = None → cached s' n = None)).
Proof.
  intros Hwf Hver Hord Hclk Hr Hp Hnd.
  pose proof (refreshed clock room ord list s r Hwf Hver Hord Hclk Hr Hp) as Hok.
  assert (refreshCache clock room ord list s = Panic →
    ¬ Forall (deletion_seen s) (pl_Items list)) as Hpan.
  { intros E Hs. destruct (Hok Hs) as (s' & E' & _). congruence. }
  assert (¬ Forall (deletion_seen s) (pl_Items list) →
    ∃ o, o ∈ pl_Items list ∧ is_Some (om_DeletionTimestamp (p_Meta o)) ∧ cached s (nn o) = None) as Hex.
  { intros (o & Ho & Hno)%not_Forall_Exists%Exists_exists; [|apply _]. exists o. split; [done|].
    apply not_deletion_seen in Hno. done. }
  split; [split; [auto|]|].
  - intros (o & Ho & Hd & Hc). unfold refreshCache.
    rewrite (refresh_items_panics clock room 0 (pl_Items list) s o); try done.
    by apply not_deletion_seen.
  - intros Hne. apply Hok. apply dec_stable. intros (o & Ho & Hd & Hc)%Hex. apply Hne.
    unfold refreshCache. rewrite (refresh_items_panics clock room 0 (pl_Items list) s o); try done.
    by apply not_deletion_seen.
Qed.
(** A source that has "foo" at version 5, refreshed with a list at version 9 that
    only has "bar". *)
Definition exRefreshed : cachedPredictorSource :=
  (populate [exItem "foo" "5"] exEmpty (mkInitial [] None)).1.

Lemma refreshCache_spec_witness :
  ∃ s', refreshCache (λ _, 1000%Z) (λ _, true) id (mkPredictorList "9" [exItem "bar" "8"])
          exRefreshed = Ret ("9", s') ∧
        Get 1000%Z s' (mkNN "ns" "foo") = None.
Proof.
  destruct (refreshCache_spec (λ _, 1000%Z) (λ _, true) id
              (mkPredictorList "9" [exItem "bar" "8"]) exRefreshed 9%Z)
    as [_ Hret].
  - apply populate_wf, wf_new.
  - intros n [p Hp]. unfold version. rewrite Hp. simpl.
    unfold cached, exRefreshed in Hp. simpl in Hp.
    destruct (decide (n = mkNN "ns" "foo")) as [->|Hn].
    + vm_compute in Hp. injection Hp as <-. vm_compute. eauto.
    + rewrite lookup_insert_ne in Hp by (intros <-; apply Hn; reflexivity).
      rewrite lookup_empty in Hp. discriminate Hp.
  - intros l. reflexivity.
  - intros k. lia.
  - reflexivity.
  - repeat constructor. vm_compute. eauto.
  - apply NoDup_singleton.
  - destruct Hret as (s' & Hr & _ & _ & Hgone & _); [vm_compute; discriminate|].
    exists s'. split; [exact Hr|].
    apply (Hgone (mkNN "ns" "foo") 5%Z 1000%Z).
    + vm_compute. intros Hin. inversion Hin as [|??? Hin']; subst. inversion Hin'.
    + vm_compute. reflexivity.
    + lia.
    + intros k. lia.
Defined.

(** What StartWatch announces. Up to 128 listed Predictors, one event each in
    list order; beyond that, the events of the first 128, then 128 events with an
    empty name and namespace, then the events of the rest. *)
Theorem StartWatch_announces list s :
  started s = false → sent s = [] →
  ∃ s', StartWatch (Ok list) s = (Ok (pl_ResourceVersion list), s') ∧
    sent s' =
      if bool_decide (length (pl_Items list) ≤ chanCap) then nn <$> pl_Items list
      else take chanCap (nn <$> pl_Items list) ++ replicate chanCap zeroEvent ++
           drop chanCap (nn <$> pl_Items list).
Proof.
  intros Hst Hsent. unfold StartWatch, start. rewrite Hst.
  destruct (populate (pl_Items list) (set_started true s) (mkInitial [] None))
    as [s2 i] eqn:Ep.
  pose proof (populate_events (pl_Items list) (set_started true s) (mkInitial [] None)) as He.
  pose proof (populate_sent (pl_Items list) (set_started true s) (mkInitial [] None)) as Hs.
  rewrite Ep in He, Hs. simpl in He, Hs. subst i.
  eexists. split; [reflexivity|]. simpl. rewrite Hs, Hsent. simpl.
  rewrite offerInitial_fold, length_fmap.
  case_bool_decide; unfold initial_events; simpl; [by rewrite app_nil_r|done].
Qed.

Lemma StartWatch_announces_witness :
  ∃ s', StartWatch (Ok (mkPredictorList "9" (replicate 129 (exItem "a" "1")))) exEmpty
          = (Ok "9", s') ∧
        sent s' !! 128 = Some zeroEvent.
Proof.
  destruct (StartWatch_announces (mkPredictorList "9" (replicate 129 (exItem "a" "1"))) exEmpty)
    as (s' & Hr & Hs).
  - reflexivity.
  - reflexivity.
  - exists s'. split; [exact Hr|]. rewrite Hs. vm_compute. reflexivity.
Defined.
