(* ===== verification/Startup.v ===== *)
(** * Start-up of the controller (main.go)

    The settings of the controllers as main derives them from the environment, the
    command line, the configuration and what the API server lets it read; the order in
    which the parts are brought up; the registration of predictor source plugins and
    the request an event of a plugin is turned into. [os.Exit(1)] is an error result.

    Log messages and the creation of the API client, whose failure only ends the process,
    are not part of the model. *)

From S2P Require Import Prelude GoStrings Types K8s ModelTypes Registry ISVCRegistry Config.
From S2P Require Import RangeWatcher Events MMService RuntimeScaling RuntimeRequests.
From S2P Require Import PredictorController ServiceController.
From Stdlib Require Import Ascii.

Open Scope go_scope.

(** ** Constants *)

Definition ControllerNamespaceEnvVar : string := "NAMESPACE".
Definition DefaultControllerNamespace : string := "model-serving".
Definition ControllerPodNameEnvVar : string := "POD_NAME".
Definition ControllerDeploymentNameEnvVar : string := "CONTROLLER_DEPLOYMENT".
Definition DefaultControllerName : string := "modelmesh-controller".
Definition UserConfigMapName : string := "model-serving-config".
Definition LeaderLockName : string := "modelmesh-controller-leader-lock".
Definition LeaderForLifeLockName : string := "modelmesh-controller-leader-for-life-lock".
Definition EnableInferenceServiceEnvVar : string := "ENABLE_ISVC_WATCH".
Definition EnableClusterServingRuntimeEnvVar : string := "ENABLE_CSR_WATCH".
Definition EnableSecretEnvVar : string := "ENABLE_SECRET_WATCH".
Definition NamespaceScopeEnvVar : string := "NAMESPACE_SCOPE".
Definition TrueString : string := "true".
Definition FalseString : string := "false".

(** ** Data *)

(** The command-line flags that matter after parsing; durations in nanoseconds *)
Record Flags := mkFlags {
  enableLeaderElection : bool;
  leaderElectionType : string;
  leaseDuration : Z;
  leaseRenewDeadline : Z;
  leaseRetryPeriod : Z
}.

(** The values without arguments *)
Definition defaultFlags : Flags :=
  mkFlags false "lease" (15 * Second) (10 * Second) (2 * Second).

(** ctrl.Options: the namespaces of the cache ([None] for all) and the leader election,
    with its namespace, lock name and three durations *)
Record ManagerOptions := mkOptions {
  mo_DefaultNamespaces : option (list string);
  mo_LeaderElection : option (string * string * (Z * Z * Z))
}.

(** A predictor source plugin: its id and what StartWatch returns, with the channel as
    the list of the events that will arrive on it *)
Record SourcePlugin := mkPlugin {
  sp_id : string;
  sp_StartWatch : result error (PredictorRegistry * list NamespacedName)
}.

(** What the process finds outside *)
Record StartEnv := mkStartEnv {
  se_LookupEnv : string → option string;
  se_NamespaceFile : result error string;
  se_GetConfigMap : NamespacedName → result error ConfigMapObj;
  (** the probes: the error of reading an object of that kind, if any *)
  se_ProbeNamespace : option error;
  se_ProbeServiceMonitor : option error;
  se_ProbeInferenceService : option error;
  se_ProbeClusterServingRuntime : option error;
  se_ProbeSecret : option error;
  se_IsNoMatchError : error → bool;
  se_flags : Flags;
  (** the registries over the manager's client *)
  se_PredictorRegistry : PredictorRegistry;
  se_InferenceServiceRegistry : PredictorRegistry
}.

(** What the three controllers are set up with *)
Record PredictorSetup := mkPredictorSetup {
  pst_Registries : gmap string PredictorRegistry;
  pst_watchInferenceServices : bool;
  pst_sourcePluginEvents : bool
}.

Record RuntimeSetup := mkRuntimeSetup {
  rst_settings : RuntimeSettings;
  rst_ConfigMapName : NamespacedName;
  rst_ControllerName : string;
  rst_EnableSecretWatch : bool;
  rst_Registries : gmap string PredictorRegistry;
  rst_watchInferenceServices : bool;
  rst_sourcePluginEvents : bool
}.

(** The steps that have an effect outside, in the order they are made *)
Inductive StartCall :=
| BecomeLeader (lock : string)
| NewManager (o : ManagerOptions)
| RegisterWebhook (path : string)
| InitGrpcResolver (defaultNamespace : string)
| CreateEventStream (namespace : string)
| SetupService (s : ServiceSettings) (configMap : NamespacedName)
| StartSource (sid : string)
| SetupPredictor (s : PredictorSetup)
| SetupRuntime (s : RuntimeSetup)
| AddHealthzCheck (name : string)
| AddReadyzCheck (name : string)
| StartManager.

(** A step of main that can end the process *)
Notation boot A := (io StartCall (result error A)).

Notation "x ⇐ m ; k" :=
  (m ≫= λ r, match r with Err e => mret (Err e) | Ok x => k end)
  (at level 100, m at next level, right associativity) : go_scope.

(** ** The environment *)

Section Startup.
Variable env : StartEnv.

(** os.Getenv *)
Definition Getenv (k : string) : string := default "" (se_LookupEnv env k).

Definition controllerNamespaceOf : string :=
  let ns := Getenv ControllerNamespaceEnvVar in
  if bool_decide (ns = "") then
    match se_NamespaceFile env with
    | Err _ => DefaultControllerNamespace
    | Ok bytes => bytes
    end
  else ns.

(** The submatch of the regular expression in a line. The expression is three greedy
    runs of any characters with dashes between them and the first run as its group: the
    submatch is what precedes the last dash but one. *)
Definition matchLine (line : string) : option string :=
  j ← LastIndex line "-";
  i ← LastIndex (str_take j line) "-";
  Some (str_take i line).

(** The expression does not match across lines: the first line that matches counts. *)
Definition FindDeployment (podName : string) : option string :=
  head (omap matchLine (Split podName "010"%char)).

Definition controllerDeploymentNameOf : string :=
  let name := Getenv ControllerDeploymentNameEnvVar in
  if bool_decide (name = "") then
    let podName := Getenv ControllerPodNameEnvVar in
    let name := if bool_decide (podName ≠ "")
                then default "" (FindDeployment podName) else "" in
    if bool_decide (name = "") then DefaultControllerName else name
  else name.

(** err == nil || errors.IsNotFound(err) *)
Definition accessible (err : option error) : bool :=
  match err with None => true | Some e => IsNotFound e end.

Definition clusterScopeModeOf : bool := bool_decide (Getenv NamespaceScopeEnvVar ≠ TrueString).

Definition checkScope : result error bool :=
  if clusterScopeModeOf && negb (accessible (se_ProbeNamespace env))
  then Err (ErrMsg "In cluster scope mode but controller does not have cluster scope permissions, exiting")
  else Ok clusterScopeModeOf.

Definition serviceMonitorCRDExistsOf : bool :=
  match se_ProbeServiceMonitor env with
  | None => true
  | Some e => if se_IsNoMatchError env e then false else IsNotFound e
  end.

(** checkEnvVar, checkCSRVar and checkSecretVar: the variable is "false", or the
    resource is accessible, or it is not and the variable does not insist *)
Definition checkWatch (envVar message : string) (probe : option error)
  : result error bool :=
  let envVarVal := default "" (se_LookupEnv env envVar) in
  if bool_decide (envVarVal ≠ FalseString) then
    if accessible probe then Ok true
    else if bool_decide (envVarVal = TrueString)
         then Err (ErrMsg message)
         else Ok false
  else Ok false.

(** ** Leader election *)

Definition managerOptions (controllerNamespace : string) (clusterScopeMode : bool)
    (election : option (string * string * (Z * Z * Z))) : ManagerOptions :=
  mkOptions (if clusterScopeMode then None else Some [controllerNamespace]) election.

(** [err] is what each step returns. *)
Variable err : StartCall → option error.

Definition step (c : StartCall) : boot unit :=
  _ ← call c;
  return (match err c with Some e => Err e | None => Ok tt end).

(** A step that cannot fail *)
Definition effect (c : StartCall) : boot unit := _ ← call c; return (Ok tt).

(** The options of the election; leader for life is acquired here. *)
Definition electLeader (controllerNamespace : string)
  : boot (option (string * string * (Z * Z * Z))) :=
  let f := se_flags env in
  if enableLeaderElection f then
    if bool_decide (leaderElectionType f = "lease") then
      return (Ok (Some (controllerNamespace, LeaderLockName,
                        (leaseDuration f, leaseRenewDeadline f, leaseRetryPeriod f))))
    else if bool_decide (leaderElectionType f = "life") then
      _ ⇐ step (BecomeLeader LeaderForLifeLockName); return (Ok None)
    else return (Err (ErrMsg ("Invalid value for leader-elect-type: '" +:+ leaderElectionType f
                              +:+ "'. Use 'lease' or 'life'")))
  else return (Ok None).

(** ** Source plugins *)

(** The object name of the event that a dispatcher sends to both controllers *)
Definition dispatchedEvent (sid : string) (pe : NamespacedName) : NamespacedName :=
  mkNN (sid +:+ "_" +:+ Namespace pe) (Name pe).

Fixpoint registerSources (sources : list SourcePlugin)
    (registryMap : gmap string PredictorRegistry)
  : boot (gmap string PredictorRegistry) :=
  match sources with
  | [] => return (Ok registryMap)
  | s :: rest =>
      let sid := sp_id s in
      if bool_decide (sid = "") || bool_decide (sid = PredictorCRSourceId) ||
         bool_decide (sid = InferenceServiceCRSourceId)
      then return (Err (ErrMsg "Invalid predictor source plugin id"))
      else if bool_decide (is_Some (registryMap !! sid))
      then return (Err (ErrMsg "More than one predictor source plugin is registered with the same id"))
      else
        _ ← call (StartSource sid);
        match sp_StartWatch s with
        | Err e => return (Err e)
        | Ok (r, _) => registerSources rest (<[sid := r]> registryMap)
        end
  end.

(** ** main *)

(** Everything after the configuration was loaded. *)
Definition bringUp (controllerNamespace controllerDeploymentName : string) (conf : Config)
    (sources : list SourcePlugin) : boot unit :=
  match checkScope with
  | Err e => return (Err e)
  | Ok clusterScopeMode =>
      election ⇐ electLeader controllerNamespace;
      _ ⇐ step (NewManager (managerOptions controllerNamespace clusterScopeMode election));
      _ ⇐ effect (RegisterWebhook "/validate-serving-modelmesh-io-v1alpha1-servingruntime");
      _ ⇐ step (InitGrpcResolver controllerNamespace);
      _ ⇐ step (CreateEventStream controllerNamespace);
      let configMapName := mkNN controllerNamespace UserConfigMapName in
      _ ⇐ step (SetupService
            (mkServiceSettings (mkNN controllerNamespace controllerDeploymentName)
               clusterScopeMode serviceMonitorCRDExistsOf) configMapName);
      match checkWatch EnableInferenceServiceEnvVar "Unable to access InferenceService Custom Resource"
              (se_ProbeInferenceService env),
            checkWatch EnableClusterServingRuntimeEnvVar
              "Unable to access ClusterServingRuntime Custom Resource"
              (se_ProbeClusterServingRuntime env),
            checkWatch EnableSecretEnvVar "Unable to access Secret resource" (se_ProbeSecret env) with
      | Err e, _, _ | _, Err e, _ | _, _, Err e => return (Err e)
      | Ok enableIsvcWatch, Ok enableCSRWatch, Ok enableSecretWatch =>
          let registryMap := {[ PredictorCRSourceId := se_PredictorRegistry env ]} in
          let registryMap :=
            if enableIsvcWatch : bool
            then <[InferenceServiceCRSourceId := se_InferenceServiceRegistry env]> registryMap
            else registryMap in
          registryMap ⇐ registerSources sources registryMap;
          let plugins := bool_decide (sources ≠ []) in
          _ ⇐ step (SetupPredictor (mkPredictorSetup registryMap enableIsvcWatch plugins));
          _ ⇐ step (SetupRuntime (mkRuntimeSetup
                (mkSettings controllerNamespace clusterScopeMode enableCSRWatch
                   (rp_Enabled (RESTProxy conf)) (StorageSecretName conf))
                configMapName controllerDeploymentName enableSecretWatch registryMap
                enableIsvcWatch plugins));
          _ ⇐ step (AddHealthzCheck "healthz");
          _ ⇐ step (AddReadyzCheck "readyz");
          step StartManager
      end
  end.
End Startup.

(** main; its list of plugins is empty as yet, so that [sources] is an argument only to
    cover the code that handles them. *)
Definition startup `{!Quantities, !Viper} (env : StartEnv) (err : StartCall → option error)
    (sources : list SourcePlugin) : boot unit :=
  let controllerNamespace := controllerNamespaceOf env in
  match NewConfigProvider (se_GetConfigMap env (mkNN controllerNamespace UserConfigMapName)) with
  | Err e | Ok (_, Some e) => return (Err e)
  | Ok (cp, None) =>
      bringUp env err controllerNamespace (controllerDeploymentNameOf env) (GetConfig cp) sources
  end.

Definition main `{!Quantities, !Viper} (env : StartEnv) (err : StartCall → option error)
  : boot unit := startup env err [].
