(* ===== verification/StartupProps.v ===== *)
(** * Properties of the start-up

    The controllers are set up with one namespace, scope and registry map; leadership
    comes first; plugins do not shadow each other or the built-in registries, and their
    events find them again; the deployment name is recovered from a pod name. *)

From S2P Require Import Prelude GoStrings Types K8s ModelTypes Registry ISVCRegistry Config.
From S2P Require Import ConfigProps RangeWatcher Events MMService RuntimeScaling RuntimeRequests.
From S2P Require Import PredictorController ServiceController Startup.
From Stdlib Require Import Ascii.

(** ** The deployment name *)

Lemma matchLine_pod d rs id :
  has_char "-"%char rs = false → has_char "-"%char id = false →
  matchLine (d +:+ "-" +:+ rs +:+ "-" +:+ id) = Some d.
Proof.
  intros Hrs Hid. unfold matchLine.
  replace (d +:+ "-" +:+ rs +:+ "-" +:+ id) with ((d +:+ "-" +:+ rs) +:+ String "-" id)
    by (rewrite <- !str_app_assoc; done).
  rewrite LastIndex_char_app by done. cbn [mbind option_bind].
  rewrite str_take_app. change ("-" +:+ rs) with (String "-" rs).
  rewrite LastIndex_char_app by done. cbn [mbind option_bind].
  rewrite <- str_app_assoc. by rewrite str_take_app.
Qed.

(** Kubernetes names the pods of a deployment by its name, the hash of the replica set
    and a suffix, both free of dashes: the name of the deployment is recovered from
    such a pod name, dashes in it included. *)
Theorem deployment_name_from_pod env d rs id :
  se_LookupEnv env ControllerDeploymentNameEnvVar = None →
  se_LookupEnv env ControllerPodNameEnvVar = Some (d +:+ "-" +:+ rs +:+ "-" +:+ id) →
  d ≠ "" → has_char "010"%char (d +:+ rs +:+ id) = false →
  has_char "-"%char rs = false → has_char "-"%char id = false →
  controllerDeploymentNameOf env = d.
Proof.
  intros Hd Hp Hne Hnl Hrs Hid. unfold controllerDeploymentNameOf, Getenv.
  rewrite Hd, Hp. cbn [from_option]. unfold Datatypes.id. rewrite bool_decide_true by done.
  set (pod := d +:+ "-" +:+ rs +:+ "-" +:+ id).
  assert (FindDeployment pod = Some d) as ->.
  { unfold FindDeployment. rewrite Split_no_sep.
    - cbn [omap list_omap]. subst pod. by rewrite (matchLine_pod d rs id).
    - revert Hnl. subst pod. rewrite !has_char_app. simpl.
      rewrite !orb_false_iff. tauto. }
  assert (bool_decide (pod ≠ "") = true) as ->.
  { apply bool_decide_eq_true_2. subst pod. by destruct d. }
  cbn [from_option]. unfold Datatypes.id. by rewrite bool_decide_false.
Qed.

(** ** Steps that can end the process

    [boots m P]: if [m] does not end the process, what it did and returned satisfies
    [P]. *)

Definition boots {A} (m : boot A) (P : list StartCall → A → Prop) : Prop :=
  emits m (λ cs r, ∀ a, r = Ok a → P cs a).

Lemma boots_ok {A} (a : A) (P : list StartCall → A → Prop) :
  P [] a → boots (mret (Ok a)) P.
Proof. intros HP. apply emits_ret. by intros ? [= <-]. Qed.

Lemma boots_err {A} e (P : list StartCall → A → Prop) : boots (mret (Err e)) P.
Proof. by apply emits_ret. Qed.

Lemma boots_bind {A B} (m : boot A) (k : A → boot B) P Q :
  boots m P → (∀ cs a, P cs a → boots (k a) (λ cs', Q (cs ++ cs'))) →
  boots (m ≫= λ r, match r with Err e => mret (Err e) | Ok a => k a end) Q.
Proof.
  intros Hm Hk. eapply emits_bind; [exact Hm|]. intros cs [a|e] HP; [|by apply emits_ret].
  apply Hk. by apply HP.
Qed.

Lemma boots_weaken {A} (m : boot A) (P Q : list StartCall → A → Prop) :
  boots m P → (∀ cs a, P cs a → Q cs a) → boots m Q.
Proof. intros Hm HPQ. eapply emits_weaken; [exact Hm|]. naive_solver. Qed.

Lemma boots_step err c : boots (step err c) (λ cs _, cs = [c] ∧ err c = None).
Proof.
  unfold step. eapply emits_bind; [by apply (emits_call c (λ cs _, cs = [c]))|].
  intros cs [] ->. apply emits_ret. intros []. by destruct (err c).
Qed.

Lemma boots_effect c : boots (effect c) (λ cs _, cs = [c]).
Proof.
  unfold effect. eapply emits_bind; [by apply (emits_call c (λ cs _, cs = [c]))|].
  intros cs [] ->. by apply emits_ret.
Qed.

Section Order.
Variables (env : StartEnv) (err : StartCall → option error).

(** Leader for life is taken before anything else; with a lease the manager takes it. *)
Definition leader_calls (election : option (string * string * (Z * Z * Z)))
    (ns : string) (cs : list StartCall) : Prop :=
  if enableLeaderElection (se_flags env) then
    cs = [] ∧ (∃ ds, election = Some (ns, LeaderLockName, ds)) ∨
    cs = [BecomeLeader LeaderForLifeLockName] ∧ err (BecomeLeader LeaderForLifeLockName) = None
  else cs = [] ∧ election = None.

Lemma electLeader_boots ns :
  boots (electLeader env err ns) (λ cs election, leader_calls election ns cs).
Proof.
  unfold electLeader, leader_calls. destruct (enableLeaderElection _); [|by apply boots_ok].
  case_bool_decide; [apply boots_ok; naive_solver|].
  case_bool_decide; [|apply boots_err].
  eapply boots_bind; [apply boots_step|]. intros cs [] [-> He]. apply boots_ok.
  rewrite app_nil_r. by right.
Qed.

(** The registries after the plugins were registered: those of before and one for each
    plugin, under ids that were free *)
Definition plugin_registered (regs : gmap string PredictorRegistry) (s : SourcePlugin) : Prop :=
  ∃ r evs, sp_StartWatch s = Ok (r, evs) ∧ regs !! sp_id s = Some r.

Lemma registerSources_boots sources m :
  boots (registerSources sources m) (λ cs m',
    cs = map (λ s, StartSource (sp_id s)) sources ∧
    Forall (plugin_registered m') sources ∧
    (∀ k r, m !! k = Some r → m' !! k = Some r) ∧
    (∀ k, is_Some (m' !! k) → is_Some (m !! k) ∨ k ∈ sp_id <$> sources) ∧
    Forall (λ s, (sp_id s ≠ "" ∧ sp_id s ≠ InferenceServiceCRSourceId) ∧ m !! sp_id s = None)
      sources ∧
    NoDup (sp_id <$> sources)).
Proof.
  revert m. induction sources as [|s rest IH]; intros m; simpl.
  { apply boots_ok. split_and!; try done; [by left|constructor]. }
  destruct (bool_decide (sp_id s = "") || _ || _) eqn:E1; [apply boots_err|].
  rewrite !orb_false_iff, !bool_decide_eq_false in E1. destruct E1 as [[E1 _] E1'].
  destruct (bool_decide (is_Some _)) eqn:E2; [apply boots_err|].
  apply bool_decide_eq_false in E2. apply eq_None_not_Some in E2.
  eapply emits_bind; [by apply (emits_call _ (λ cs _, cs = [StartSource (sp_id s)]))|].
  intros cs [] ->. destruct (sp_StartWatch s) as [[r evs]|] eqn:E3; [|apply boots_err].
  eapply emits_weaken; [apply IH|]. intros cs out HP m' ->.
  destruct (HP m' eq_refl) as (-> & H1 & H2 & H3 & H4 & H5). split_and!.
  - done.
  - constructor; [|done]. exists r, evs. split; [done|]. apply H2. apply lookup_insert_eq.
  - intros k r' Hk. apply H2. by rewrite lookup_insert_ne by congruence.
  - intros k Hk. destruct (H3 k Hk) as [Hs|?]; [|right; by right].
    destruct (decide (sp_id s = k)) as [<-|?]; [right; by left|].
    rewrite lookup_insert_ne in Hs by done. by left.
  - constructor; [done|]. eapply Forall_impl; [exact H4|].
    intros q [? Hq]. split; [done|]. by apply lookup_insert_None in Hq as [? _].
  - constructor; [|done]. intros Hin. apply list_elem_of_fmap in Hin as (q & Hid & Hq).
    rewrite Forall_forall in H4. destruct (H4 _ Hq) as [_ Hn].
    rewrite <- Hid, lookup_insert_eq in Hn. done.
Qed.

(** What the steps of a successful start were made with *)
Definition consistent (ns name : string) (sources : list SourcePlugin)
    (opts : ManagerOptions) (s : ServiceSettings) (p : PredictorSetup) (r : RuntimeSetup)
  : Prop :=
  (* one scope: the cache, the service controller and the runtime controller *)
  mo_DefaultNamespaces opts = (if ss_ClusterScope s then None else Some [ns]) ∧
  rs_ClusterScope (rst_settings r) = ss_ClusterScope s ∧
  (ss_ClusterScope s = true → accessible (se_ProbeNamespace env) = true) ∧
  (* one namespace and deployment *)
  ss_ControllerDeployment s = mkNN ns name ∧
  rs_ControllerNamespace (rst_settings r) = ns ∧ rst_ControllerName r = name ∧
  rst_ConfigMapName r = mkNN ns UserConfigMapName ∧
  (* one registry map, with the built-in registries and one per plugin *)
  rst_Registries r = pst_Registries p ∧
  rst_watchInferenceServices r = pst_watchInferenceServices p ∧
  pst_Registries p !! PredictorCRSourceId = Some (se_PredictorRegistry env) ∧
  pst_Registries p !! InferenceServiceCRSourceId =
    (if pst_watchInferenceServices p then Some (se_InferenceServiceRegistry env) else None) ∧
  Forall (plugin_registered (pst_Registries p)) sources ∧ NoDup (sp_id <$> sources).

Definition bring_up_calls (leader : list StartCall) (ns : string) (sources : list SourcePlugin)
    (opts : ManagerOptions) (s : ServiceSettings) (p : PredictorSetup) (r : RuntimeSetup)
  : list StartCall :=
  leader ++
  [NewManager opts;
   RegisterWebhook "/validate-serving-modelmesh-io-v1alpha1-servingruntime";
   InitGrpcResolver ns; CreateEventStream ns; SetupService s (mkNN ns UserConfigMapName)] ++
  map (λ s, StartSource (sp_id s)) sources ++
  [SetupPredictor p; SetupRuntime r; AddHealthzCheck "healthz"; AddReadyzCheck "readyz"; StartManager].

Lemma checkScope_ok scope :
  checkScope env = Ok scope →
  scope = true → accessible (se_ProbeNamespace env) = true.
Proof.
  unfold checkScope. destruct (clusterScopeModeOf env), (accessible _); naive_solver.
Qed.

Lemma bringUp_boots ns name conf sources :
  boots (bringUp env err ns name conf sources) (λ cs _,
    ∃ leader opts s p r, cs = bring_up_calls leader ns sources opts s p r ∧
      leader_calls (mo_LeaderElection opts) ns leader ∧
      consistent ns name sources opts s p r).
Proof.
  unfold bringUp. destruct (checkScope env) as [scope|] eqn:Es; [|apply boots_err].
  pose proof (checkScope_ok _ Es) as Hscope.
  eapply boots_bind; [apply electLeader_boots|]. intros leader election Hl.
  eapply boots_bind; [apply boots_step|]; intros ? [] [-> _].
  eapply boots_bind; [apply boots_effect|]; intros ? [] ->.
  do 3 (eapply boots_bind; [apply boots_step|]; intros ? [] [-> _]).
  destruct (checkWatch env EnableInferenceServiceEnvVar _ _) as [isvc|]; [|apply boots_err].
  destruct (checkWatch _ _ _ _) as [csr|]; [|apply boots_err].
  destruct (checkWatch _ _ _ _) as [secret|]; [|apply boots_err].
  set (m0 := if isvc then _ else _).
  eapply boots_bind; [apply registerSources_boots|].
  intros ? m (-> & H1 & H2 & H3 & H4 & H5).
  do 4 (eapply boots_bind; [apply boots_step|]; intros ? [] [-> _]).
  eapply boots_weaken; [apply boots_step|]. intros ? [] [-> _].
  exists leader. eexists _, _, _, _. split; [|split].
  - unfold bring_up_calls. rewrite <- ?app_assoc. simpl. reflexivity.
  - exact Hl.
  - unfold consistent. cbn [mo_DefaultNamespaces managerOptions]. split_and!; try done.
    + cbn [pst_Registries]. apply H2. subst m0. by destruct isvc.
    + cbn [pst_Registries pst_watchInferenceServices]. destruct isvc; [by apply H2|].
      apply eq_None_not_Some. intros Hs. destruct (H3 _ Hs) as [[? ?]|Hin]; [done|].
      apply list_elem_of_fmap in Hin as (q & Hid & Hq). rewrite Forall_forall in H4.
      destruct (H4 _ Hq) as [[_ ?] _]. congruence.
Qed.
End Order.

(** C19: When main gets as far as running, it has brought the parts up in one order: the
    leadership for life if that was asked for, the manager with the election, the
    webhook, the resolver, the event stream, the service controller, the plugins, then the
    other two controllers, and the health checks. They all work on the same namespace, scope and registries: cluster
    scope only if namespaces can be read, the cache restricted to the own namespace
    otherwise; the built-in registries and every plugin under its own id. *)
Theorem startup_consistent `{!Quantities, !Viper} env err sources tr :
  run (startup env err sources) = Ret (tr, Ok tt) →
  let ns := controllerNamespaceOf env in
  ∃ leader opts s p r,
    tr = bring_up_calls leader ns sources opts s p r ∧
    leader_calls env err (mo_LeaderElection opts) ns leader ∧
    consistent env ns (controllerDeploymentNameOf env) sources opts s p r.
Proof.
  unfold startup. destruct (NewConfigProvider _) as [[cp [e|]]|e]; [done| |done].
  intros Hrun. by apply (emits_run _ _ _ _ (bringUp_boots env err _ _ _ _) Hrun tt).
Qed.

(** ** Concrete runs *)

#[local] Existing Instance quantitiesImpl.
#[local] Existing Instance viperImpl.

Definition emptyRegistry (name : string) : PredictorRegistry :=
  mkRegistry (λ _, Ret (Err ErrNotFound)) (λ _ _ _ s, Ret (s, Ok false)) (λ _, Ok true) name.

(** A pod of a deployment with dashes in its name, and leadership for life *)
Definition exStartEnv : StartEnv :=
  mkStartEnv (λ k, if decide (k = ControllerPodNameEnvVar)
                   then Some "my-controller-7c9f-x2k" else None)
    (Ok "model-ns") (λ _, Err ErrNotFound) None (Some (ErrMsg "no match")) None
    (Some (ErrMsg "forbidden")) None (λ _, false)
    (mkFlags true "life" 0 0 0) (emptyRegistry "Predictor") (emptyRegistry "InferenceService").

Definition exPlugin : SourcePlugin :=
  mkPlugin "my_src" (Ok (emptyRegistry "Plugin", [mkNN "ns" "p"])).

Lemma deployment_name_from_pod_witness :
  controllerDeploymentNameOf exStartEnv = "my-controller".
Proof.
  apply (deployment_name_from_pod exStartEnv "my-controller" "7c9f" "x2k");
    [reflexivity..|done|reflexivity|reflexivity|reflexivity].
Defined.

Lemma startup_consistent_witness :
  ∃ tr, run (startup exStartEnv (λ _, None) [exPlugin]) = Ret (tr, Ok tt) ∧
  ∃ leader opts s p r, tr = bring_up_calls leader "model-ns" [exPlugin] opts s p r ∧
    consistent exStartEnv "model-ns" "my-controller" [exPlugin] opts s p r.
Proof.
  eexists. split; [vm_compute; reflexivity|].
  edestruct (startup_consistent exStartEnv (λ _, None) [exPlugin])
    as (leader & opts & s & p & r & Htr & _ & Hc); [vm_compute; reflexivity|].
  exists leader, opts, s, p, r. split; [exact Htr|exact Hc].
Defined.
