(* ===== verification/Watches.v ===== *)
(** * The watches of the controllers

    SetupWithManager of the predictor controller and of the runtime controller: for each
    kind of object that is watched, which requests an event of it becomes. The queue
    itself, which merges equal requests, belongs to the controller runtime. *)

From S2P Require Import Prelude GoStrings Types K8s ModelTypes Registry ISVCRegistry Config.
From S2P Require Import RangeWatcher Events MMService RuntimeScaling RuntimeRequests.
From S2P Require Import PredictorController ServiceController Startup.
From S2P Require Import ConfigProps PredictorControllerProps.
From Stdlib Require Import Ascii.

Section Watches.
Context `{!ProtocolNames, !KServeRuntime, !Knative, !NetURL, !ISVCNames}.

(** An event, with the object it is about as far as the handlers look at it. The owner of
    a deployment is the name of the ServingRuntime that controls it, if any. *)
Inductive WatchedEvent :=
| EvPredictor (p : Predictor)
| EvInferenceService (isvc : InferenceService)
| EvModelMesh (o : NamespacedName)
| EvPlugin (o : NamespacedName)
| EvServingRuntime (o : NamespacedName)
| EvDeployment (o : NamespacedName) (owner : option string)
| EvConfigMap (o : NamespacedName)
| EvNamespace (name : string)
| EvClusterServingRuntime (csr : ServingRuntime)
| EvSecret (o : NamespacedName).

(** ** The predictor controller *)

(** [None]: the kind is not watched. EnqueueRequestForObject asks for the object. *)
Definition predictorWatches (st : PredictorSetup) (e : WatchedEvent)
  : option (list NamespacedName) :=
  match e with
  | EvPredictor p => Some [mkNN (om_Namespace (p_Meta p)) (om_Name (p_Meta p))]
  | EvModelMesh o => Some [o]
  | EvPlugin o => if pst_sourcePluginEvents st then Some [o] else None
  | EvInferenceService isvc =>
      if pst_watchInferenceServices st
      then Some (prefixName InferenceServiceCRSourceId (isvc_Meta isvc)) else None
  | _ => None
  end.

(** ** The runtime controller *)

Variables (st : RuntimeSetup) (cl : RuntimeLists).

(** The settings under the current configuration *)
Definition settingsAt (cfg : Config) : RuntimeSettings :=
  let r := rst_settings st in
  mkSettings (rs_ControllerNamespace r) (rs_ClusterScope r) (rs_EnableCSRWatch r)
    (rp_Enabled (RESTProxy cfg)) (rs_StorageSecretName r).

(** The handler of InferenceService events: an error of the translation is dropped. *)
Definition inferenceServiceRequests (cfg : Config) (isvc : InferenceService)
  : exec (list NamespacedName) :=
  match BuildBasePredictorFromInferenceService isvc with
  | Ok (Some p) => runtimeRequestsForPredictor (settingsAt cfg) cl p
  | _ => Ret []
  end.

(** The handler of plugin events *)
Definition pluginRequests (cfg : Config) (o : NamespacedName) : exec (list NamespacedName) :=
  '(nn, src) ← ResolveSource o PredictorCRSourceId;
  match rst_Registries st !! src with
  | Some registry =>
      p ← reg_Get registry nn;
      match p with
      | Ok (Some p) => runtimeRequestsForPredictor (settingsAt cfg) cl p
      | _ => Ret []
      end
  | None => Ret []
  end.

(** [None]: the kind is not watched. A ConfigMap event reloads the configuration. *)
Definition runtimeWatches `{!Quantities, !Viper} (get : result error ConfigMapObj)
    (cp : ConfigProvider) (e : WatchedEvent)
  : option (exec (list NamespacedName)) * ConfigProvider :=
  let cfg := GetConfig cp in
  let r := settingsAt cfg in
  match e with
  | EvServingRuntime o => (Some (Ret [o]), cp)
  | EvDeployment o owner =>
      (Some (Ret match owner with Some n => [mkNN (Namespace o) n] | None => [] end), cp)
  | EvConfigMap o =>
      let '(reqs, cp) := ConfigWatchHandler (rst_ConfigMapName st)
                           (λ cp, configRequests (settingsAt (GetConfig cp)) cl) get o cp in
      (Some (Ret reqs), cp)
  | EvPredictor p => (Some (runtimeRequestsForPredictor r cl p), cp)
  | EvNamespace name =>
      (if rs_ClusterScope r then Some (Ret (namespaceRequests r cl name)) else None, cp)
  | EvInferenceService isvc =>
      (if rst_watchInferenceServices st then Some (inferenceServiceRequests cfg isvc) else None,
       cp)
  | EvClusterServingRuntime csr =>
      (if rs_EnableCSRWatch r then Some (Ret (clusterServingRuntimeRequests r cl csr)) else None,
       cp)
  | EvSecret o =>
      (if rst_EnableSecretWatch st then Some (Ret (storageSecretRequests r cl o)) else None, cp)
  | EvPlugin o =>
      (if rst_sourcePluginEvents st then Some (pluginRequests cfg o) else None, cp)
  | EvModelMesh _ => (None, cp)
  end.

(** ** The same Predictor through each source *)

(** The requests depend on the type label, the name and the namespace only. *)
Lemma supportingNames_label r p q rts srnns :
  GetPredictorTypeLabel p = GetPredictorTypeLabel q →
  supportingNames r p rts srnns = supportingNames r q rts srnns.
Proof.
  intros HL. revert srnns. induction rts as [|rt rest IH]; intros srnns; [done|].
  cbn [supportingNames]. destruct (IsMultiModelRuntime _); [|apply IH].
  unfold runtimeSupportsPredictor. rewrite HL. destruct (GetPredictorTypeLabel q); [|done].
  cbn [mbind exec_bind]. apply IH.
Qed.

Lemma runtimeRequests_label r p q :
  GetPredictorTypeLabel p = GetPredictorTypeLabel q →
  om_Namespace (p_Meta p) = om_Namespace (p_Meta q) →
  runtimeRequestsForPredictor r cl p = runtimeRequestsForPredictor r cl q.
Proof.
  intros HL Hns. unfold runtimeRequestsForPredictor, getRuntimesSupportingPredictor.
  rewrite Hns. destruct (rl_ServingRuntimes _ _) as [rts|]; [|done].
  destruct (if rs_EnableCSRWatch r then _ else _) as [csrs|]; [|done].
  rewrite (supportingNames_label r p q csrs) by done.
  destruct (supportingNames r q csrs ∅); [|done]. cbn [mbind exec_bind].
  by rewrite (supportingNames_label r p q).
Qed.

(** What the source of a Predictor sends when the Predictor changes: the event of the
    object for the two built-in sources, the dispatched event for a plugin; with the
    id and the registry of the source. *)
Inductive source_event (regs : gmap string PredictorRegistry) (n : NamespacedName)
  : string → PredictorRegistry → WatchedEvent → Prop :=
| from_cr Client p :
    regs !! PredictorCRSourceId = Some (PredictorCRRegistry Client) →
    cl_Get Client n = Ok p → predictor_nn p = n →
    source_event regs n PredictorCRSourceId (PredictorCRRegistry Client) (EvPredictor p)
| from_isvc Client isvc :
    regs !! InferenceServiceCRSourceId = Some (InferenceServiceRegistry Client) →
    cl_Get Client n = Ok isvc → isvc_nn isvc = n →
    source_event regs n InferenceServiceCRSourceId (InferenceServiceRegistry Client)
      (EvInferenceService isvc)
| from_plugin sid r :
    sid ≠ "" → regs !! sid = Some r →
    source_event regs n sid r (EvPlugin (dispatchedEvent sid n)).

(** Both controllers watch the kind of the event. *)
Definition watched (pst : PredictorSetup) (e : WatchedEvent) : Prop :=
  match e with
  | EvInferenceService _ => pst_watchInferenceServices pst = true ∧
                            rst_watchInferenceServices st = true
  | EvPlugin _ => pst_sourcePluginEvents pst = true ∧ rst_sourcePluginEvents st = true
  | _ => True
  end.

Lemma withStorage_label p r :
  GetPredictorTypeLabel (withStorage p r) = GetPredictorTypeLabel p.
Proof. by destruct r as [[[] ?] ?]. Qed.

Lemma Reconcile_source `{!PredictorLibs} env req n sid regs reg :
  ResolveSource req PredictorCRSourceId = Ret (n, sid) → regs !! sid = Some reg →
  run (PredictorController.Reconcile env req regs) = run (ReconcilePredictor env n sid reg).
Proof. intros Hr Hg. unfold PredictorController.Reconcile. rewrite Hr. run_io. by rewrite Hg. Qed.

(** The request of the predictor controller resolves to the source's registry. *)
Lemma source_event_resolved regs n sid reg e pst :
  source_event regs n sid reg e → has_char "_"%char (Namespace n) = false →
  watched pst e →
  ∃ req, predictorWatches pst e = Some [req] ∧
    ResolveSource req PredictorCRSourceId = Ret (n, sid) ∧ regs !! sid = Some reg.
Proof.
  destruct n as [ns nm]. intros Hs Hns Hw. destruct Hs as [Client p Hr _ Hn|Client isvc Hr _ Hn|sid r Hsid Hr].
  - exists (mkNN ns nm). simpl. unfold predictor_nn in Hn. rewrite Hn. split; [done|].
    by rewrite ResolveSource_plain.
  - destruct Hw as [Hw _]. simpl. rewrite Hw. unfold prefixName. eexists. split; [done|].
    unfold isvc_nn in Hn. injection Hn as -> ->.
    by rewrite ResolveSource_prefixed.
  - destruct Hw as [Hw _]. simpl. rewrite Hw. eexists. split; [done|].
    unfold dispatchedEvent. simpl. by rewrite ResolveSource_prefixed.
Qed.

(** C18: Whatever source a Predictor comes from, the Predictor custom resource, an
    InferenceService or a plugin, an event of it reaches both controllers as what it
    is: the predictor controller reconciles it under its own name, with the id and the
    registry of its source, and the runtime controller reconciles the runtimes that
    support the Predictor which that registry has. *)
Theorem source_event_reaches_controllers `{!PredictorLibs, !Quantities, !Viper}
    n sid reg e pst p get cp env :
  pst_Registries pst = rst_Registries st →
  source_event (pst_Registries pst) n sid reg e →
  has_char "_"%char (Namespace n) = false → watched pst e →
  reg_Get reg n = Ret (Ok (Some p)) →
  (∃ req, predictorWatches pst e = Some [req] ∧
     run (PredictorController.Reconcile env req (pst_Registries pst)) =
     run (ReconcilePredictor env n sid reg)) ∧
  (runtimeWatches get cp e).1 =
    Some (runtimeRequestsForPredictor (settingsAt (GetConfig cp)) cl p).
Proof.
  intros Hregs Hs Hns Hw Hget. split.
  { destruct (source_event_resolved _ _ _ _ _ _ Hs Hns Hw) as (req & Hw1 & Hw2 & Hw3).
    exists req. split; [done|]. by apply Reconcile_source. }
  destruct Hs as [Client q Hr Hc _|Client isvc Hr Hc _|sid r Hsid Hr].
  - simpl in Hget. unfold PredictorCRRegistry_Get in Hget. rewrite Hc in Hget.
    by injection Hget as <-.
  - destruct Hw as [_ Hw]. simpl. rewrite Hw. unfold inferenceServiceRequests.
    destruct (ISVC_Get_inv _ _ _ Hget) as (isvc' & p0 & r & Hc' & Hb & _ & ->).
    rewrite Hc in Hc'. injection Hc' as <-. rewrite Hb. f_equal.
    apply runtimeRequests_label; [by rewrite withStorage_label|].
    by destruct r as [[[] ?] ?].
  - destruct Hw as [_ Hw]. simpl. rewrite Hw. unfold pluginRequests, dispatchedEvent. simpl.
    destruct n as [ns nm]. rewrite ResolveSource_prefixed by done. cbn [mbind exec_bind].
    cbn [Namespace Name]. by rewrite <- Hregs, Hr, Hget.
Qed.
End Watches.

(** ** A concrete run *)

#[local] Existing Instance quantitiesImpl.
#[local] Existing Instance viperImpl.
#[local] Existing Instance predictorLibsImpl.
#[local] Existing Instance protocolNamesImpl.
#[local] Existing Instance kserveImpl.
#[local] Existing Instance knativeImpl.
#[local] Existing Instance netUrlImpl.
#[local] Existing Instance isvcNamesImpl.

Definition exPluginRegistry : PredictorRegistry :=
  exRegistry (Ok (Some (exPredictor1 None defaultStatus))).

Definition exPredictorSetup : PredictorSetup :=
  mkPredictorSetup {["my_src" := exPluginRegistry]} false true.

Definition exRuntimeSetup : RuntimeSetup :=
  mkRuntimeSetup exSettings (mkNN "controller" UserConfigMapName) "modelmesh-controller" true
    {["my_src" := exPluginRegistry]} false true.

Lemma source_event_reaches_controllers_witness :
  (runtimeWatches exRuntimeSetup exLists (Err ErrNotFound) exProvider
     (EvPlugin (mkNN "my_src_ns" "p"))).1 =
    Some (runtimeRequestsForPredictor (settingsAt exRuntimeSetup exMerged) exLists
            (exPredictor1 None defaultStatus)).
Proof.
  apply (source_event_reaches_controllers exRuntimeSetup exLists (mkNN "ns" "p") "my_src"
           exPluginRegistry _ exPredictorSetup) with (env := exEnv).
  - reflexivity.
  - apply (from_plugin _ (mkNN "ns" "p")); [done|reflexivity].
  - reflexivity.
  - done.
  - reflexivity.
Defined.
