(* ===== verification/CachedRegistry.v ===== *)
(** * A caching source as the registry of the controllers

    The PredictorRegistry functions of cachedPredictorSource, bundled as the interface
    the controllers use, and a reconciliation against it. Get returns the cached object
    itself, not a copy: the controller writes the new status into the cache before it
    asks to update it. [ReconcileCached] keeps that sharing. *)

From S2P Require Import Prelude GoStrings GoHeap Types Registry ModelTypes.
From S2P Require Import CachedSource CachedSourceInv CachedSourceProps PredictorController.
From S2P Require Import PredictorControllerProps.

Section CachedRegistry.
Context `{!MetaTime}.
Variables (updater : StatusUpdater) (now : Z).

(** The range over the cache in Find, for a predicate with state *)
Definition cached_visit (s : cachedPredictorSource) (namespace : string) {St : Type}
    (predicate : St → Predictor → exec (St * bool)) (st : St) (kv : NamespacedName * loc)
  : exec (St * bool) :=
  p ← deref (mem s !! kv.2);
  if negb (isDeleted now p) && bool_decide (om_Namespace (p_Meta p) = namespace)
  then predicate st p else Ret (st, false).

Definition cached_Find (s : cachedPredictorSource) {St : Type} (namespace : string)
    (predicate : St → Predictor → exec (St * bool)) (st : St)
  : exec (St * result error bool) :=
  r ← find_loop (cached_visit s namespace predicate) st (map_to_list (cache s));
  Ret (r.1, Ok r.2).

(** What UpdateStatus answers, its effect on the cache left out *)
Definition cached_UpdateStatus (s : cachedPredictorSource) (p : Predictor)
  : result error bool :=
  match cached s (nn p) with
  | None => Ok false
  | Some existing =>
      if bool_decide (om_ResourceVersion (p_Meta p) ≠ om_ResourceVersion (p_Meta existing))
      then Ok false
      else match updater p with
           | Err e => Err e
           | Ok (None, _, _) => Ok false
           | Ok (Some _, _, ok) => Ok ok
           end
  end.

Definition cachedRegistry (s : cachedPredictorSource) : PredictorRegistry :=
  mkRegistry (λ n, Ret (Ok (Get now s n))) (@cached_Find s) (cached_UpdateStatus s)
    (sourceName s).

(** ** The interface is implemented *)

Lemma Get_Some s n p :
  Get now s n = Some p ↔
  ∃ l, cache s !! n = Some l ∧ mem s !! l = Some p ∧ isDeleted now p = false.
Proof.
  unfold Get, cached. destruct (cache s !! n) as [l|]; simpl; [|naive_solver].
  destruct (mem s !! l) as [q|] eqn:E; [|naive_solver].
  destruct (isDeleted now q) eqn:Ed; split; [naive_solver|naive_solver congruence|
    intros [= <-]; eauto|intros (? & [= <-] & ? & ?); congruence].
Qed.

(** C29: In every state that the events and status updates of a caching source can
    reach, the source keeps the promises of the registry interface: Get answers with
    the Predictor it was asked for, and Find does not overlook a Predictor Get
    returns. Everything proved of the controllers against the interface therefore
    holds for Predictors of such a source. *)
Theorem cached_registry_lawful id name s :
  rtc CachedSourceInv.step (newCachedPredictorSource id name) s →
  RegistryLaws (cachedRegistry s).
Proof.
  intros Hs. assert (wf s) as Hwf by by apply (reachable_wf id name).
  split; simpl.
  - intros n p [= (l & Hl & Hm & _)%Get_Some].
    destruct (wf_cache _ Hwf _ _ Hl) as (p' & Hp' & Hn). by simplify_eq.
  - intros n p f [= (l & Hl & Hm & Hd)%Get_Some] _ Hf. unfold cached_Find.
    pose proof (find_loop_complete (cached_visit s (Namespace n) f) (map_to_list (cache s))
                  (n, l)) as Hc.
    destruct (find_loop _ tt _) as [[[] b]|]; simpl; [|done]. apply Hc.
    + by apply elem_of_map_to_list.
    + unfold cached_visit. simpl. rewrite Hm. simpl. rewrite Hd.
      destruct (wf_cache _ Hwf _ _ Hl) as (p' & Hp' & Hn). assert (p' = p) as -> by congruence.
      rewrite bool_decide_true by (by rewrite <- Hn). done.
Qed.

(** ** A reconciliation against the cache *)

Context `{!PredictorLibs, !ProtocolNames}.

(** ReconcilePredictor of a Predictor of the source, with the object in the cache
    written as the code writes it *)
Definition ReconcileCached (env : Env) (n : NamespacedName) (s : cachedPredictorSource)
  : exec ((list PredictorCall * (CtrlResult * option error)) * cachedPredictorSource) :=
  match Get now s n with
  | None => r ← run (handlePredictorNotFound env n (sourceId s)); Ret (r, s)
  | Some p =>
      l ← deref (get s n);
      '(calls, (updateStatus, status, haveClient, finalErr)) ←
        run (reconcileModel env p (sourceId s) (sourceName s));
      let s1 := set_status l status p s in
      if updateStatus : bool then
        '(ok, s2) ← UpdateStatus updater now s1 (Some l);
        '(calls', out) ← run (afterUpdate (sourceName s) (set_Status status p)
                                (WaitingForRuntime (p_Status p)) haveClient finalErr ok);
        Ret ((calls ++ CallUpdateStatus (set_Status status p) :: calls', out), s2)
      else
        '(calls', out) ← run (finish haveClient status finalErr);
        Ret ((calls ++ calls', out), s1)
  end.

(** UpdateStatus on the object the status was written to answers as the registry. *)
Lemma UpdateStatus_answer s l p n st r s2 :
  wf s → cache s !! n = Some l → mem s !! l = Some p →
  UpdateStatus updater now (set_status l st p s) (Some l) = Ret (r, s2) →
  r = cached_UpdateStatus s (set_Status st p).
Proof.
  intros Hwf Hc Hm. destruct (wf_cache _ Hwf _ _ Hc) as (p' & Hp' & Hn).
  assert (p' = p) as -> by congruence.
  unfold UpdateStatus, cached_UpdateStatus. simpl. rewrite lookup_insert_eq. simpl.
  rewrite (proj1 (set_status_fields l st p s Hm)).
  change (nn (set_Status st p)) with (nn p). rewrite Hn, Hc.
  rewrite bool_decide_true by done. unfold cached. rewrite Hc. simpl. rewrite Hm.
  rewrite !bool_decide_false by (intros Hx; by apply Hx).
  destruct (updater (set_Status st p)) as [[[[q|] rv] ok]|e]; [| |by intros [= <- _]].
  all: match goal with |- context [offerToCache ?a ?b ?c ?d] =>
         destruct (offerToCache a b c d); [simpl|done] end.
  all: by intros [= <- _].
Qed.

(** [finish] and [afterUpdate] make no call. *)
Lemma finish_quiet h st e tr : finish h st e tr = (r ← run (finish h st e); Ret (tr, r.2)).
Proof. by destruct e. Qed.

Lemma afterUpdate_quiet ty p w h e r tr :
  afterUpdate ty p w h e r tr = (x ← run (afterUpdate ty p w h e r); Ret (tr, x.2)).
Proof.
  unfold afterUpdate. destruct r as [[]|]; [|done|apply finish_quiet].
  unfold mbind at 1 3, io_bind, run, lift.
  match goal with |- context [match ?x with Ret _ => _ | Panic => _ end] =>
    destruct x; [|done] end.
  rewrite finish_quiet. by destruct e.
Qed.

Lemma afterUpdate_no_calls ty p w h e r cs out :
  run (afterUpdate ty p w h e r) = Ret (cs, out) → cs = [].
Proof.
  intros Ha. pose proof (afterUpdate_quiet ty p w h e r []) as Hq. unfold run in Ha, Hq.
  rewrite Ha in Hq. by injection Hq.
Qed.

(** The run of a reconciliation in terms of its parts *)
Lemma ReconcilePredictor_found env n sid reg p :
  reg_Get reg n = Ret (Ok (Some p)) →
  run (ReconcilePredictor env n sid reg) =
    ('(calls, (upd, st, have, fe)) ← run (reconcileModel env p sid (reg_GetSourceName reg));
     let p' := set_Status st p in
     if upd : bool then
       r ← run (afterUpdate (reg_GetSourceName reg) p' (WaitingForRuntime (p_Status p)) have fe
                  (reg_UpdateStatus reg p'));
       Ret (calls ++ [CallUpdateStatus p'], r.2)
     else r ← run (finish have st fe); Ret (calls, r.2)).
Proof.
  intros Hg. unfold ReconcilePredictor. cbn zeta. rewrite Hg, run_lift_bind, run_bind. unfold Progress.
  destruct (run (A := bool * PredictorStatus * bool * option error)
              (reconcileModel env p sid (reg_GetSourceName reg)))
    as [[calls [[[upd st] have] fe]]|]; [|done].
  cbn beta iota zeta. destruct upd; [|apply finish_quiet]. apply afterUpdate_quiet.
Qed.

(** C15: Reconciling against the shared cache makes the same calls and has the same
    outcome as reconciling against the registry interface, although the objects are not
    copied; and all it does to the source are steps the source allows for: writing a
    status in place, and the update under the lock. *)
Theorem cached_reconcile_refines env n s r s' :
  wf s → lockHeld s = false →
  (∀ p q rv ok, updater p = Ok (Some q, rv, ok) → nn q = nn p) →
  ReconcileCached env n s = Ret (r, s') →
  run (ReconcilePredictor env n (sourceId s) (cachedRegistry s)) = Ret r ∧
  rtc CachedSourceInv.step s s'.
Proof.
  intros Hwf Hlock Hupd. unfold ReconcileCached. destruct (Get now s n) as [p|] eqn:Hg.
  2: { destruct (run (handlePredictorNotFound _ _ _)) as [x|] eqn:E; [|done].
       intros [= <- <-]. split; [|done].
       unfold ReconcilePredictor. simpl. rewrite Hg. run_io. exact E. }
  rewrite (ReconcilePredictor_found env n _ (cachedRegistry s) p) by (simpl; by rewrite Hg).
  apply Get_Some in Hg as (l & Hc & Hm & _). unfold get. rewrite Hc.
  cbn [deref mbind exec_bind reg_GetSourceName reg_UpdateStatus cachedRegistry].
  unfold Progress.
  destruct (run (A := bool * PredictorStatus * bool * option error)
              (reconcileModel env p (sourceId s) (sourceName s)))
    as [[calls [[[upd st] have] fe]]|]; [|done].
  assert (Hst : CachedSourceInv.step s (set_status l st p s)) by by apply step_status.
  cbn [mbind exec_bind]. destruct upd.
  - destruct (UpdateStatus _ _ _ _) as [[ok s2]|] eqn:Eu; [|done]. cbn [mbind exec_bind].
    apply (UpdateStatus_step updater now) in Eu as Hs2; [|done..].
    apply (UpdateStatus_answer s l p n) in Eu as ->; [|done..].
    destruct (run (afterUpdate _ _ _ _ _ _)) as [[cs out]|] eqn:Ea; [|done].
    apply afterUpdate_no_calls in Ea as ->. intros [= <- <-]. split; [done|].
    eapply rtc_l; [exact Hst|]. destruct Hs2 as [->|?]; [done|by apply rtc_once].
  - intros Hr. destruct fe; injection Hr as <- <-; (split; [|by apply rtc_once]);
      simpl; by rewrite app_nil_r.
Qed.
End CachedRegistry.

(** ** Concrete runs *)

#[local] Existing Instance metaTimeImpl.
#[local] Existing Instance predictorLibsImpl.
#[local] Existing Instance protocolNamesImpl.

(** A source with one Predictor, as after its first event *)
Definition exCached : cachedPredictorSource :=
  mkSource "src" "Source" true {[0 := exPredictor1 None defaultStatus]}
    {[mkNN "ns" "p" := 0]} false [] [mkNN "ns" "p"].

Definition failingUpdater : StatusUpdater := λ _, Err (ErrMsg "unavailable").
Definition workingUpdater : StatusUpdater := λ p, Ok (Some p, "2", true).

Lemma cached_registry_lawful_witness :
  RegistryLaws (cachedRegistry workingUpdater exNow
    (run_state (deliver exNow (exPredictor "foo" "5" None) EVENT_UPDATE exSource))).
Proof.
  apply (cached_registry_lawful workingUpdater exNow "src" "Source"). eapply rtc_once.
  eapply (deliver_step exNow (exPredictor "foo" "5" None) EVENT_UPDATE).
  vm_compute; reflexivity.
Defined.

Lemma exCached_wf : wf exCached.
Proof.
  split; simpl; [|constructor|intros i ?; simpl in *; lia|constructor].
  intros n l [<- <-]%lookup_singleton_Some. eexists. split; [apply lookup_singleton_eq|done].
Qed.

Lemma cached_reconcile_refines_witness :
  ∃ r s', ReconcileCached failingUpdater exNow exEnv (mkNN "ns" "p") exCached = Ret (r, s') ∧
    run (ReconcilePredictor exEnv (mkNN "ns" "p") "src"
           (cachedRegistry failingUpdater exNow exCached)) = Ret r.
Proof.
  eexists _, _. split; [vm_compute; reflexivity|].
  eapply (cached_reconcile_refines failingUpdater exNow exEnv (mkNN "ns" "p") exCached).
  - exact exCached_wf.
  - reflexivity.
  - discriminate.
  - vm_compute; reflexivity.
Defined.

Definition is_update (c : PredictorCall) : bool :=
  match c with CallUpdateStatus _ => true | _ => false end.

(** Because the status is written into the shared object first, an update that fails is
    not repeated: the first reconciliation computes a new status, fails to write it and
    returns the error; the retry finds the status in the cache, sees no difference, and
    ends without a write although writing would now succeed. *)
Theorem failed_update_forgotten :
  ∃ calls res e s' calls' res' s'',
    ReconcileCached failingUpdater exNow exEnv (mkNN "ns" "p") exCached =
      Ret ((calls, (res, Some e)), s') ∧
    existsb is_update calls = true ∧
    ReconcileCached workingUpdater exNow exEnv (mkNN "ns" "p") s' =
      Ret ((calls', (res', None)), s'') ∧
    existsb is_update calls' = false.
Proof.
  eexists _, _, _, _, _, _, _. split; [vm_compute; reflexivity|].
  split; [reflexivity|]. split; [vm_compute; reflexivity|reflexivity].
Qed.
