(* ===== verification/WatchLoop.v ===== *)
(** * The goroutine of the refresh-and-watch source
      (pkg/predictor_source/watchrefresh_predictor_source.go)

    The outer loop of StartWatch's goroutine as a step relation: attempts to watch, the
    refresh when the version is too old, the events of an established watch, and its
    end; status updates of the controllers happen in between. The remote store is a
    history of events in the order of their versions; watching from a version delivers
    the later ones in order. *)

From S2P Require Import Prelude GoStrings GoHeap Types CachedSource CachedSourceInv WatchSource.
From S2P Require Import WatchSourceProps.
From Stdlib Require Import Sorted.

(** One event of the store's history *)
Record StoreEvent := mkStoreEvent {
  ev_object : Predictor;
  ev_type : EventType
}.

Definition ev_version (e : StoreEvent) : Z :=
  default 0%Z (ParseInt (om_ResourceVersion (p_Meta (ev_object e))) 64).

(** The events a watch from version [v] delivers *)
Definition after (v : Z) (log : list StoreEvent) : list StoreEvent :=
  filter (λ e, v < ev_version e)%Z log.

(** Between two watches, or reading one with the events it has yet to deliver *)
Inductive wphase := WConnect | WReading (pending : list StoreEvent).

(** The goroutine: its phase, the version it will watch from, and the source. The events
    it has read and the version of the last list it was given are kept for the
    specification. *)
Record wstate := mkW {
  ws_phase : wphase;
  ws_resourceVersion : string;
  ws_source : cachedPredictorSource;
  ws_read : list StoreEvent;
  ws_listed : Z
}.

Section WatchLoop.
Context `{MetaTime}.
Variable log : list StoreEvent.

(** A write of another goroutine *)
Definition other_step (s s' : cachedPredictorSource) : Prop :=
  lockHeld s' = lockHeld s ∧ CachedSourceInv.step s s'.

Inductive watch_step : wstate → wstate → Prop :=
| w_connected rv s d b v :
    ParseInt rv 64 = Some v →
    watch_step (mkW WConnect rv s d b) (mkW (WReading (after v log)) rv s d b)
| w_too_old clock room ord list rv s d b r v s' :
    refreshCache clock room ord list s = Ret (r, s') → ParseInt r 64 = Some v →
    watch_step (mkW WConnect rv s d b) (mkW WConnect r s' d v)
| w_event now room poll e pending rv s d b l s1 rv' s' :
    let pse := mkStreamEvent (ev_type e) (Some l) in
    alloc (ev_object e) s = (l, s1) →
    poll = Received pse ∨ poll = ChanEmpty →
    watch_iter now room poll (Received pse) rv s1 = Ret (Some rv', s') →
    watch_step (mkW (WReading (e :: pending)) rv s d b)
               (mkW (WReading pending) rv' s' (d ++ [e]) b)
| w_closed now room poll pending rv s d b s' :
    poll = ChanClosed ∨ poll = ChanEmpty →
    watch_iter now room poll ChanClosed rv s = Ret (None, s') →
    watch_step (mkW (WReading pending) rv s d b)
               (mkW WConnect rv (if lockHeld s' then unlock s' else s') d b)
| w_other ph rv s d b s' :
    other_step s s' → watch_step (mkW ph rv s d b) (mkW ph rv s' d b).

(** ** Refreshing *)

Lemma processAndWrite_step now room o et s s' :
  processAndWrite now room o et s = Ret s' → CachedSourceInv.step s s'.
Proof.
  unfold processAndWrite. destruct (alloc o s) as [l s1] eqn:Ha.
  destruct (processEvent now s1 (Some l) et) as [[r s2]|] eqn:Ep; [|done].
  intros [= <-]. by eapply step_event.
Qed.

Lemma refresh_items_steps clock room k items s s' :
  refresh_items clock room k items s = Ret s' → rtc CachedSourceInv.step s s'.
Proof.
  revert k s. induction items as [|o items IH]; intros k s; cbn [refresh_items].
  { by intros [= <-]. }
  destruct (processAndWrite _ _ _ _ _) as [s1|] eqn:E; [|done]. cbn [mbind exec_bind].
  intros Hr%IH. eapply rtc_l; [by eapply processAndWrite_step|done].
Qed.

Lemma refresh_deletes_steps clock room k rv names s s' :
  refresh_deletes clock room k rv names s = Ret s' → rtc CachedSourceInv.step s s'.
Proof.
  revert k s. induction names as [|n names IH]; intros k s; cbn [refresh_deletes].
  { by intros [= <-]. }
  destruct (processAndWrite _ _ _ _ _) as [s1|] eqn:E; [|done]. cbn [mbind exec_bind].
  intros Hr%IH. eapply rtc_l; [by eapply processAndWrite_step|done].
Qed.

(** A refresh consists of steps of the source, and returns the version of the list. *)
Lemma refreshCache_steps clock room ord list s r s' :
  refreshCache clock room ord list s = Ret (r, s') →
  rtc CachedSourceInv.step s s' ∧ r = pl_ResourceVersion list.
Proof.
  unfold refreshCache. destruct (refresh_items _ _ _ _ _) as [s1|] eqn:E1; [|done].
  cbn [mbind exec_bind].
  destruct (refresh_deletes _ _ _ _ _ _) as [s2|] eqn:E2; [|done]. intros [= <- <-].
  split; [|done]. etrans; [by eapply refresh_items_steps|by eapply refresh_deletes_steps].
Qed.

(** ** Reading *)

(** Reading, whatever the poll saw, keeps objects and invariants. *)
Lemma readEvent_spec now s poll wait r :
  wf s → (∀ e, poll = Received e → wait = Received e) →
  readEvent now s poll wait = Ret r →
  r.1 = match wait with Received e => Some e | _ => None end ∧
  wf r.2 ∧ mem r.2 = mem s ∧ (∀ l, l ∉ deletionQueue s → l ∉ deletionQueue r.2).
Proof.
  intros Hwf Hp. unfold readEvent. destruct (lockHeld s); [|intros [= <-]; by split_and!].
  assert (Hidle : ∀ r, (s' ← pruneDeletions now s;
     Ret (match wait with Received e => Some e | _ => None end, unlock s')) = Ret r →
    r.1 = match wait with Received e => Some e | _ => None end ∧
    wf r.2 ∧ mem r.2 = mem s ∧ (∀ l, l ∉ deletionQueue s → l ∉ deletionQueue r.2)).
  { intros r'. destruct (pruneDeletions_ok now s Hwf) as (s' & -> & Hwf' & Hm & _ & _ & Hq & _).
    intros [= <-]. simpl. split_and!; [done|by eapply wf_ext; [..|done]|done|].
    intros l Hl. rewrite Hq. rewrite list_elem_of_filter. tauto. }
  destruct poll as [e| |]; [|apply Hidle|apply Hidle].
  intros [= <-]. simpl. rewrite (Hp e eq_refl). by split_and!.
Qed.

(** One iteration: the version stays or becomes the event's. *)
Lemma watch_iter_event now room poll e rv s l s1 rv' s' :
  let pse := mkStreamEvent (ev_type e) (Some l) in
  wf s → alloc (ev_object e) s = (l, s1) → poll = Received pse ∨ poll = ChanEmpty →
  watch_iter now room poll (Received pse) rv s1 = Ret (Some rv', s') →
  wf s' ∧ (rv' = rv ∨ rv' = om_ResourceVersion (p_Meta (ev_object e))).
Proof.
  intros pse Hwf Ha Hpoll. destruct (alloc_wf _ _ _ _ Hwf Ha) as (Hwf1 & Hm & Hlq & _).
  unfold watch_iter. destruct (readEvent now s1 poll (Received pse)) as [r|] eqn:Er; [|done].
  apply readEvent_spec in Er as (Hr1 & Hwf2 & Hm2 & Hlq2); [|done|naive_solver].
  cbn [mbind exec_bind]. rewrite Hr1. cbn [pse_Predictor pse_EventType pse].
  destruct (processEvent now r.2 (Some l) (ev_type e)) as [[pe s2]|] eqn:Ep; [|done].
  cbn [mbind exec_bind fst snd].
  rewrite <- Hm2 in Hm. destruct (processEvent_offer _ _ _ _ _ _ _ Hwf2 Hm (Hlq2 _ Hlq) Ep)
    as (s1' & Hw & Hm' & Hlq' & _ & _ & _ & _ & _ & Ho & Hcase).
  destruct (event_object_fields (ev_type e) (ev_object e)) as (Hn & Hrv).
  destruct Hcase as [-> | ->].
  { rewrite bool_decide_false in Ho by done. apply offerToCache_reject in Ho as ->.
    intros [= <- <-]. split; [done|by left]. }
  rewrite bool_decide_true in Ho by done.
  eapply offerToCache_accept in Ho as (Hw2 & (_ & _ & _ & _ & po & Hpo & _ & Hrvo) & _);
    [|done..].
  destruct (writeEvent_fields s2 (nn (ev_object e)) room) as (Hwm & Hwc & Hwq & _).
  cbn [deref mbind exec_bind]. rewrite Hwm, Hpo. intros [= <- <-]. split.
  - by eapply wf_ext.
  - right. by rewrite Hrvo, Hrv.
Qed.

Lemma watch_iter_closed now room poll rv s s' :
  wf s → poll = ChanClosed ∨ poll = ChanEmpty →
  watch_iter now room poll ChanClosed rv s = Ret (None, s') → wf s'.
Proof.
  intros Hwf Hpoll. unfold watch_iter.
  destruct (readEvent now s poll ChanClosed) as [r|] eqn:Er; [|done].
  apply readEvent_spec in Er as (Hr1 & Hwf2 & _); [|done|naive_solver].
  cbn [mbind exec_bind]. rewrite Hr1. by intros [= <-].
Qed.

(** ** No gaps *)

(** The history is in the order of its versions, which parse. *)
Definition history_ok : Prop :=
  StronglySorted (λ e e', ev_version e < ev_version e')%Z log ∧
  Forall (λ e, parses (ev_object e)) log.

(** Every event up to version [v] was read, or is older than a list that was given. *)
Definition covered (v : Z) (read : list StoreEvent) (listed : Z) : Prop :=
  ∀ e, e ∈ log → (ev_version e ≤ v)%Z → e ∈ read ∨ (ev_version e ≤ listed)%Z.

(** In a watch, what is pending are the events of the history after some version up to
    which everything is covered. *)
Definition winv (w : wstate) : Prop :=
  wf (ws_source w) ∧
  ∃ v, ParseInt (ws_resourceVersion w) 64 = Some v ∧
    covered v (ws_read w) (ws_listed w) ∧
    match ws_phase w with
    | WConnect => True
    | WReading pending =>
        ∃ from, (v ≤ from)%Z ∧ pending = after from log ∧
          covered from (ws_read w) (ws_listed w)
    end.

Lemma after_cons from e pending :
  history_ok → e :: pending = after from log →
  (from < ev_version e)%Z ∧ e ∈ log ∧ pending = after (ev_version e) log ∧
  ∀ e', e' ∈ log → (from < ev_version e' ≤ ev_version e)%Z → e' = e.
Proof.
  intros [Hs _]. unfold after. induction Hs as [|x l Hs IH Hx]; [done|].
  rewrite filter_cons. case_decide as Hlt.
  - intros [= <- ->]. split; [done|]. split; [left|]. split.
    + rewrite filter_cons_False by lia. rewrite !filter_id; [done|done|].
      eapply Forall_impl; [exact Hx|]. intros y; simpl; lia.
    + intros e' [->|Hin]%elem_of_cons; [done|]. rewrite Forall_forall in Hx.
      specialize (Hx _ Hin). simpl in Hx. lia.
  - intros He. destruct (IH He) as (H1 & H2 & H3 & H4). split; [done|]. split; [by right|].
    split; [by rewrite filter_cons_False by lia|].
    intros e' [->|Hin]%elem_of_cons; [lia|by apply H4].
Qed.

Lemma covered_read v read listed e :
  covered v read listed → covered v (read ++ [e]) listed.
Proof.
  intros Hc e' Hin Hle. destruct (Hc e' Hin Hle); [left; apply elem_of_app; by left|by right].
Qed.

Lemma watch_step_inv w w' : history_ok → winv w → watch_step w w' → winv w'.
Proof.
  intros Hok (Hwf & v & Hv & Hc & Hph) Hstep. destruct Hstep as
    [rv s d b v' Hp|clock room ord list rv s d b r v' s' Hr Hp
    |now room poll e pending rv s d b l s1 rv' s' pse Ha Hpoll Hi
    |now room poll pending rv s d b s' Hpoll Hi|ph rv s d b s' [_ Ho]]; simpl in *.
  - split; [done|]. exists v. split; [done|]. split; [done|]. exists v.
    assert (v' = v) as -> by congruence. split; [lia|done].
  - destruct (refreshCache_steps _ _ _ _ _ _ _ Hr) as [Hst _].
    split; [eapply rtc_invariant; [|exact Hst|done]; intros; by eapply step_wf|].
    exists v'. split; [done|]. split; [|done]. intros e _ Hle. by right.
  - destruct Hph as (from & Hle & Hpend & Hcf).
    destruct (after_cons _ _ _ Hok Hpend) as (Hlt & Hin & -> & Huniq).
    destruct (watch_iter_event _ _ _ _ _ _ _ _ _ _ Hwf Ha Hpoll Hi) as [Hwf' Hrv].
    assert (Hce : covered (ev_version e) (d ++ [e]) b).
    { intros e' Hin' Hle'. destruct (decide (ev_version e' ≤ from)%Z) as [Hf|Hf].
      - by apply (covered_read _ _ _ e Hcf).
      - left. rewrite (Huniq e' Hin') by lia. apply elem_of_app. right. by left. }
    split; [done|]. destruct Hrv as [->| ->].
    + exists v. split; [done|]. split; [by apply covered_read|].
      exists (ev_version e). split; [lia|done].
    + destruct Hok as [_ Hpar]. rewrite Forall_forall in Hpar. destruct (Hpar e Hin) as [ve Hve].
      assert (ev_version e = ve) as <- by (unfold ev_version; by rewrite Hve).
      exists (ev_version e). split; [done|]. split; [done|].
      exists (ev_version e). split; [lia|done].
  - split; [|by exists v].
    assert (wf s') by by eapply watch_iter_closed. destruct (lockHeld s'); [|done].
    by eapply wf_ext; [..|done].
  - split; [by eapply step_wf|]. by exists v.
Qed.

(** C16: The source misses nothing when it reconnects. Whatever watches end, are refused
    as too old or deliver in between, every event of the store up to the version the
    source would watch from next has been read, or is older than a list the source was
    given; and the cache is well formed throughout. *)
Theorem watch_reconnects_without_gap list s0 rv0 s v0 w :
  history_ok → wf s0 → StartWatch (Ok list) s0 = (Ok rv0, s) → ParseInt rv0 64 = Some v0 →
  rtc watch_step (mkW WConnect rv0 s [] v0) w →
  wf (ws_source w) ∧ ∃ v, ParseInt (ws_resourceVersion w) 64 = Some v ∧
    ∀ e, e ∈ log → (ev_version e ≤ v)%Z →
      e ∈ ws_read w ∨ (ev_version e ≤ ws_listed w)%Z.
Proof.
  intros Hok Hwf Hs Hv0 Hsteps.
  assert (winv w) as (Hwfw & v & Hv & Hc & _); [|by split; [|exists v]].
  eapply rtc_invariant; [|exact Hsteps|].
  - intros a b Ha Hab. by eapply watch_step_inv.
  - split.
    + unfold StartWatch, start in Hs. destruct (started s0); [done|].
      destruct (populate _ _ _) as [s2 i] eqn:Ep. injection Hs as _ <-.
      pose proof (populate_wf (pl_Items list) (set_started true s0) (mkInitial [] None)) as Hpw.
      rewrite Ep in Hpw. eapply wf_ext; [..|apply Hpw]; [done..|]. eapply wf_ext; [..|exact Hwf]; done.
    + exists v0. split; [done|]. split; [|done]. intros e _ Hle. by right.
Qed.

(** ** The lock during a refresh

    processEvent takes the write lock and, while the channel has room, writeEvent keeps
    it: refreshCache returns with the lock held, and the goroutine goes on to call
    Watch, and to sleep for five seconds if that fails, without giving it back. *)

Lemma offerToCache_lock now s name p b s' :
  offerToCache now s name p = Ret (b, s') → lockHeld s' = lockHeld s.
Proof.
  unfold offerToCache. destruct (mem s !! p) as [q|]; [|done]. cbn [deref mbind exec_bind].
  destruct (compareResourceVersion _ _) as [[]|]; [|by intros [= _ <-]..].
  destruct (om_DeletionTimestamp (p_Meta q)) as [t|]; [|by intros [= _ <-]].
  destruct (cache s !! name) as [c|]; [|done]. cbn [deref mbind exec_bind].
  destruct (Before _ _); (destruct (mem _ !! c) as [co|]; [|done]);
    cbn [deref mbind exec_bind]; intros [= _ <-]; by destruct (om_DeletionTimestamp (p_Meta co)).
Qed.

Lemma processAndWrite_lock now o et s s' :
  processAndWrite now true o et s = Ret s' → lockHeld s' = true.
Proof.
  unfold processAndWrite. destruct (alloc o s) as [l s1].
  unfold processEvent. destruct (mem s1 !! l) as [po|]; [|done]. cbn [mbind exec_bind deref].
  set (s2 := set_lockHeld true _).
  destruct (offerToCache now s2 (nn po) l) as [[b s3]|] eqn:Eo; [|done].
  pose proof (offerToCache_lock _ _ _ _ _ _ Eo : lockHeld s3 = true) as Hl.
  intros [= <-]. simpl. destruct b; [|done]. unfold writeEvent. by rewrite Hl.
Qed.

Theorem refresh_keeps_lock clock ord list s r s' :
  pl_Items list ≠ [] → refreshCache clock (λ _, true) ord list s = Ret (r, s') →
  lockHeld s' = true.
Proof.
  assert (Hd : ∀ names k rv s s', lockHeld s = true →
    refresh_deletes clock (λ _, true) k rv names s = Ret s' → lockHeld s' = true).
  { intros names. induction names as [|n names IH]; intros k rv a b Ha; cbn [refresh_deletes].
    { by intros [= <-]. }
    destruct (processAndWrite _ _ _ _ _) eqn:E; [|done]. apply IH.
    by eapply processAndWrite_lock. }
  assert (Hi : ∀ items k s s', (items ≠ [] ∨ lockHeld s = true) →
    refresh_items clock (λ _, true) k items s = Ret s' → lockHeld s' = true).
  { intros items. induction items as [|o items IH]; intros k a b Ha; cbn [refresh_items].
    { intros [= <-]. by destruct Ha. }
    destruct (processAndWrite _ _ _ _ _) eqn:E; [|done]. apply IH. right.
    by eapply processAndWrite_lock. }
  intros Hne. unfold refreshCache.
  destruct (refresh_items _ _ _ _ _) as [s1|] eqn:E1; [|done]. cbn [mbind exec_bind].
  destruct (refresh_deletes _ _ _ _ _ _) as [s2|] eqn:E2; [|done]. intros [= _ <-].
  eapply Hd; [|exact E2]. eapply Hi; [|exact E1]. by left.
Qed.
End WatchLoop.

(** ** A concrete run: one event of a watch, then its end *)

#[local] Existing Instance metaTimeImpl.

Definition exLog : list StoreEvent :=
  [mkStoreEvent (exItem "bar" "8") EVENT_UPDATE; mkStoreEvent (exItem "foo" "10") EVENT_UPDATE].

Definition exList : PredictorList := mkPredictorList "9" [exItem "bar" "8"].

Definition exStarted : cachedPredictorSource := (StartWatch (Ok exList) exEmpty).2.

Lemma exLog_run :
  ∃ w, rtc (watch_step exLog) (mkW WConnect "9" exStarted [] 9) w ∧
       ws_resourceVersion w = "10" ∧ ws_listed w = 9%Z.
Proof.
  eexists. split; [|split].
  { eapply rtc_l; [apply w_connected with (v := 9%Z); reflexivity|].
    eapply rtc_l; [eapply (w_event exLog 5 true ChanEmpty); [reflexivity|by right|]|].
    { vm_compute. reflexivity. }
    apply rtc_refl. }
  all: reflexivity.
Qed.

Lemma watch_reconnects_without_gap_witness :
  ∃ w, ws_resourceVersion w = "10" ∧
    mkStoreEvent (exItem "foo" "10") EVENT_UPDATE ∈ ws_read w.
Proof.
  destruct exLog_run as (w & Hr & Hv & Hl). exists w. split; [exact Hv|].
  destruct (watch_reconnects_without_gap exLog exList exEmpty "9" exStarted 9%Z w)
    as (_ & v & Hp & Hc); [| | | |exact Hr|].
  - split; [|repeat constructor; by eexists]. repeat constructor; vm_compute; reflexivity.
  - apply wf_new.
  - vm_compute. reflexivity.
  - reflexivity.
  - rewrite Hv in Hp. injection Hp as <-.
    destruct (Hc (mkStoreEvent (exItem "foo" "10") EVENT_UPDATE)) as [?|Hle];
      [right; left|vm_compute; discriminate|done|].
    rewrite Hl in Hle. exfalso. vm_compute in Hle. by apply Hle.
Defined.
