(* ===== verification/System.v ===== *)
(** * From a Predictor to a deployment that serves it

    The watches of the runtime controller (controllers/servingruntime_controller.go,
    SetupWithManager) and its reconciliation, composed with the registries and the
    scaling decision: what becomes of a Predictor that needs a runtime. *)

From S2P Require Import Prelude GoStrings Types K8s ModelTypes Registry Config RangeWatcher Events.
From S2P Require Import Validator Endpoint Autoscaler AutoscalerProps RuntimeScaling RuntimePVCs.
From S2P Require Import RuntimeRequests ConfigProps EventsProps Manifests Deployment.
From S2P Require Import DeploymentProps.
From S2P Require Import RuntimeController RuntimeControllerProps.

Section WakeUp.
Context `{!ProtocolNames, !KServeRuntime, !KServeConstants, !EtcdLibs, !JSONMap}.
Variable Marshal : gmap string (list string) → string.
Variable dataPlane : string.
Variables (sortedList : gset string → list string) (TrimSpace : string → string).
Variable spare : nat.
Variables (settings : RuntimeSettings) (cfg : Config) (env : RuntimeEnv).
Context `{!TransformLaws (re_manifests env)}.

(** The runtime whose annotations the autoscaler reads: the zero value for a cluster runtime
    without name *)
Definition autoscaled (cluster : bool) (rt : ServingRuntime) : ServingRuntime :=
  if cluster && bool_decide (rt_Name rt = "") then mkRuntime "" "" ∅ ∅ (bareSpec [] []) else rt.

(** The minimum of the HPA of a runtime *)
Definition minScale (rt : ServingRuntime) : Z :=
  int32Annotation (rt_Annotations rt) MinScaleAnnotationKey DefaultMinReplicas.

(** The number of replicas a deployment is rendered with: the decision of the scaling
    logic, unless the runtime's annotations ask for an HPA and it should run; then the
    replicas the deployment has, or the minimum of the HPA when it has none. *)
Definition rendered_replicas (rt : ServingRuntime) (decided : Z) (deployment : NamespacedName)
    (n : Z) : Prop :=
  let class := getAutoscalerClass (rt_Annotations rt) in
  if bool_decide (decided = 0%Z) || bool_decide (class = AutoscalerClassNone)
  then n = decided
  else class = AutoscalerClassHPA ∧
       ∃ existing, re_GetDeployment env deployment = Ok (Some existing) ∧
         n = uint16 (if bool_decide (existing = 0%Z) then minScale rt else existing).

Lemma createAutoscaler_class owner name ns a :
  createAutoscaler (re_setOwner env) owner name ns = Ok a →
  as_Class a = getAutoscalerClass (rt_Annotations owner) ∧
  (as_Class a = AutoscalerClassHPA ∨ as_Class a = AutoscalerClassNone) ∧
  hpa_MinReplicas (as_HPA a) = Some (minScale owner).
Proof.
  unfold createAutoscaler. cbn zeta. case_bool_decide as E.
  - destruct (re_setOwner env _); [done|]. intros [= <-]. cbn. auto.
  - case_bool_decide as E'; [|done]. intros [= <-]. cbn. auto.
Qed.

Lemma replicasAndHPA_value owner name ns replicas dep :
  let a := match createAutoscaler (re_setOwner env) owner name ns with
           | Ok a => Some a | Err _ => None end in
  emits (replicasAndHPA env a replicas dep) (λ cs r, no_apply cs ∧
    ∀ n, r = Ok n → rendered_replicas owner replicas dep n).
Proof.
  intros a tr tr' r Hr. destruct (replicasAndHPA_emits env a replicas dep _ _ _ Hr) as (cs & -> & Hcs).
  exists cs. split; [done|]. split; [done|]. intros n ->.
  unfold replicasAndHPA, rendered_replicas in *. destruct a as [x|] eqn:Ea; [|done].
  assert (createAutoscaler (re_setOwner env) owner name ns = Ok x) as Hx
    by (subst a; destruct (createAutoscaler _ _ _ _); [by injection Ea as ->|done]).
  destruct (createAutoscaler_class _ _ _ _ Hx) as (Hclass & Hone & Hmin).
  revert Hr. run_io. cbn [deref]. rewrite Hclass in *. destruct (_ || _) eqn:Eb.
  - destruct (embed OnHPA _ _) as [[? [|]]|]; by intros [= _ <-] || done.
  - apply orb_false_iff in Eb as [_ Hno%bool_decide_eq_false].
    destruct (re_GetDeployment env dep) as [[existing|]|]; [|done..]. cbn [deref].
    intros Hr. split; [tauto|]. exists existing. split; [done|]. revert Hr.
    case_bool_decide; [rewrite Hmin; cbn [deref]|];
      (destruct (embed OnHPA _ _) as [[? [|]]|]; by intros [= _ <-] || done).
Qed.

(** The replica numbers of an autoscaled runtime fit their type. *)
Definition hpa_in_range (rt : ServingRuntime) (deployment : NamespacedName) : Prop :=
  getAutoscalerClass (rt_Annotations rt) = AutoscalerClassHPA →
  (1 ≤ minScale rt < 65536)%Z ∧
  ∀ existing, re_GetDeployment env deployment = Ok (Some existing) → (0 ≤ existing < 65536)%Z.

Lemma rendered_positive rt decided dep n :
  rendered_replicas rt decided dep n → (0 < decided)%Z → hpa_in_range rt dep → (0 < n)%Z.
Proof.
  unfold rendered_replicas, uint16. cbn zeta. intros Hn Hd Hr. destruct (_ || _); [lia|].
  destruct Hn as (Hc & existing & He & ->). destruct (Hr Hc) as [Hm Hex]. specialize (Hex _ He).
  case_bool_decide; rewrite Z.mod_small; lia.
Qed.

(** The runtime is deployed: the last call applies, successfully, the manifest rendered
    for it with the decided number of replicas, which is not zero unless the decision is. *)
Definition deployed (req : NamespacedName) (cluster : bool) (rt : ServingRuntime) (decided : Z)
    (cs : list RuntimeCall) : Prop :=
  let deployment := mkNN (Namespace req) (InferenceServiceName cfg +:+ "-" +:+ Name req) in
  ∃ m n template d, last cs = Some (ApplyManifest d) ∧ tl_Apply (re_manifests env) [d] = None ∧
    dep_SRSpec m = rt_Spec rt ∧ dep_Name m = Name req ∧ dep_Namespace m = Namespace req ∧
    rendered_replicas (autoscaled cluster rt) decided deployment n ∧
    ((0 < decided)%Z → hpa_in_range (autoscaled cluster rt) deployment → (0 < n)%Z) ∧
    rendered env rt m n template ∧ transformed sortedList TrimSpace spare env m template d.

(** The steps for a runtime that runs, when the decision is known *)
Lemma deployRuntime_deploys req cluster rt m info decided requeue pre :
  (∀ info' r, determineReplicasAndRequeueDuration (re_now env) (re_registries env) cfg
     (rt_Spec rt) req info = Ret (info', Ok r) → r = (decided, requeue)) →
  dep_SRSpec m = rt_Spec rt → dep_Name m = Name req → dep_Namespace m = Namespace req →
  emits (deployRuntime sortedList TrimSpace spare cfg env req cluster rt m info) (λ cs out,
    out.2.2 = None → out.2.1 = RequeueResult ∨
      out.2.1 = requeueAfter requeue ∧ deployed req cluster rt decided (pre ++ cs)).
Proof.
  intros Hdec M1 M2 M3. unfold deployRuntime. cbn zeta.
  apply emits_lift_bind. intros [info' [r|]] Hx; [|by apply emits_ret].
  rewrite (Hdec _ _ Hx). eapply emits_bind; [apply replicasAndHPA_value|].
  intros cs1 r1 [_ Hv]. destruct r1 as [n|]; [|by apply emits_ret].
  specialize (Hv n eq_refl).
  eapply emits_bind; [by apply applyDeployment_emits|]. intros cs2 err Ha.
  apply emits_ret. cbn [snd fst]. destruct err as [e|].
  - destruct (IsConflict e); [by left|done].
  - intros _. right. split; [done|].
    destruct Ha as [[_ [? ?]]|(t & d & -> & Hap & Ht & Hd)]; [done|]. rewrite M2 in Hv.
    exists m, n, t, d. split_and!; try done.
    + by rewrite app_nil_r, app_assoc, last_snoc.
    + by apply rendered_positive.
Qed.

(** The reconciliation of a runtime that should run, when the decision is known *)
Lemma ReconcileRuntime_deploys req info cluster rt decided requeue tr info' res :
  findRuntime settings env req = Ok (Some (cluster, rt)) →
  IsDisabled (rt_Spec rt) = false → IsMultiModelRuntime (rt_Spec rt) = true →
  nsEnabled settings (re_lists env) (Namespace req) = true →
  (∀ info' r, determineReplicasAndRequeueDuration (re_now env) (re_registries env) cfg
     (rt_Spec rt) req info = Ret (info', Ok r) → r = (decided, requeue)) →
  run (ReconcileRuntime Marshal dataPlane sortedList TrimSpace spare settings cfg env req info)
    = Ret (tr, (info', (res, None))) →
  res = RequeueResult ∨ res = requeueAfter requeue ∧ deployed req cluster rt decided tr.
Proof.
  intros Hf Hd Hm He Hdec Hrun.
  refine (emits_run _ _ _ _ (ReconcileRuntime_found Marshal dataPlane sortedList TrimSpace spare
    settings cfg env req info cluster rt (λ cs out, out.2.1 = RequeueResult ∨
      out.2.1 = requeueAfter requeue ∧ deployed req cluster rt decided cs) Hf _) Hrun eq_refl).
  intros pre _. rewrite He. unfold reconcileRuntime. cbn zeta.
  destruct (validateServingRuntimeSpec _ _); [by apply emits_ret|].
  apply emits_lift_bind. intros [pvcs|] _; [|by apply emits_ret].
  apply emits_lift_bind. intros m Hm'.
  apply newMMDeployment_fields in Hm' as (M1 & M2 & M3 & _).
  rewrite Hd, Hm. cbn [orb negb app].
  by apply deployRuntime_deploys.
Qed.

(** C4: A Predictor wakes the runtimes that can serve it. When a registry knows a
    Predictor that a runtime of its namespace (or of the cluster) supports, an event of
    the Predictor asks for a reconciliation of the runtime, and a reconciliation that
    ends without error, whatever the recorded times say, either asks to be run again
    after a conflict or has, as its last write, successfully applied the deployment of
    that runtime and asks for no further one. The deployment is rendered with the
    runtime's configured number of replicas; when its annotations ask for an HPA, with
    the replicas the deployment has, and with the minimum that its annotations give the
    HPA when it has none. So it runs: the number is not zero, unless a configured number
    is or does not fit 16 bits. *)
Theorem predictor_wakes_runtime pr p n cluster rt runtimes csrs reqs info tr info' res :
  let req := mkNN (om_Namespace (p_Meta p)) (rt_Name rt) in
  pr ∈ re_registries env → RegistryLaws pr →
  reg_Get pr n = Ret (Ok (Some p)) → Namespace n = om_Namespace (p_Meta p) →
  rl_ServingRuntimes (re_lists env) (om_Namespace (p_Meta p)) = Ok runtimes →
  (if rs_EnableCSRWatch settings then rl_ClusterServingRuntimes (re_lists env) else Ok [])
    = Ok csrs →
  rt ∈ csrs ++ runtimes → findRuntime settings env req = Ok (Some (cluster, rt)) →
  IsDisabled (rt_Spec rt) = false → IsMultiModelRuntime (rt_Spec rt) = true →
  nsEnabled settings (re_lists env) (om_Namespace (p_Meta p)) = true →
  rs_restProxyEnabled settings = rp_Enabled (RESTProxy cfg) →
  runtimeSupportsPredictor (rt_Spec rt) p (rp_Enabled (RESTProxy cfg)) (rt_Name rt) = Ret true →
  runtimeRequestsForPredictor settings (re_lists env) p = Ret reqs →
  run (ReconcileRuntime Marshal dataPlane sortedList TrimSpace spare settings cfg env req info)
    = Ret (tr, (info', (res, None))) →
  req ∈ reqs ∧
  (res = RequeueResult ∨
   res = emptyResult ∧ deployed req cluster rt (determineReplicas cfg (rt_Spec rt)) tr).
Proof.
  intros req Hpr Hlaws Hget Hn Hr Hc Hin Hf Hd Hm He Hrest Hsup Hreqs Hrun. split.
  - revert Hreqs. unfold runtimeRequestsForPredictor, getRuntimesSupportingPredictor.
    rewrite Hr, Hc. destruct (supportingNames settings p csrs ∅) as [s1|] eqn:E1; [|done].
    destruct (supportingNames settings p runtimes s1) as [s2|] eqn:E2; cbn [mbind exec_bind];
      rewrite E2; [|done].
    intros [= <-]. subst req. apply list_elem_of_In, in_map, list_elem_of_In, elem_of_elements.
    rewrite <- Hrest in Hsup. apply elem_of_app in Hin as [Hin|Hin];
      apply (supportingNames_spec _ _ _ _ _ _ E2); [left|right; by exists rt].
    apply (supportingNames_spec _ _ _ _ _ _ E1). right. by exists rt.
  - eapply (ReconcileRuntime_deploys req info cluster rt _ 0); try done.
    intros info1 r. unfold determineReplicasAndRequeueDuration.
    destruct (negb _); [by intros [= _ <-]|].
    destruct (runtimeHasPredictors _ _ _ _) as [[b|]|] eqn:E; cbn [mbind exec_bind]; [|done..].
    assert (b = true) as ->.
    { eapply (runtimeHasPredictors_found _ pr cfg _ req p); try done. by exists n. }
    by intros [= _ <-].
Qed.

End WakeUp.

(** ** Concrete runs *)

#[local] Existing Instances protocolNamesImpl kserveImpl kserveConstantsImpl etcdLibsImpl jsonMapImpl.

(** The runtime of the concrete runs, which supports the format of the Predictor *)
Definition wakeRuntime : ServingRuntime :=
  mkRuntime "ns" "rt" ∅ ∅
    (let s := rt_Spec (runtimeOf false) in
     mkSRSpec (sr_SupportedModelFormats exSpec) (sr_ProtocolVersions exSpec) (Some true)
       (Some false) None (sr_Containers s) (sr_Volumes s) None (Some "port:8001")
       (Some "port:8085") None ∅ [] None ∅ ∅ []).

Definition wakeEnv : RuntimeEnv :=
  let e := runtimeEnv wakeRuntime in
  mkRuntimeEnv (re_lists e) (re_GetRuntime e) (re_GetClusterRuntime e) (re_GetConfigMap e)
    (re_WriteConfigMap e) (re_GetSecret e) (re_WriteSecret e) (re_DeleteSecret e)
    (re_StorageSecret e) (re_pvcExists e) [PredictorCRRegistry exClient] (re_hpa e)
    (re_setOwner e) (re_GetDeployment e) (re_GetProductConfig e) (re_manifests e)
    (re_LookupEnv e) (re_now e).

Definition wakeSettings : RuntimeSettings :=
  mkSettings "controller" true false (rp_Enabled (RESTProxy exMerged)) "storage-config".

Definition runWake : exec (list RuntimeCall * RuntimeOutcome) :=
  run (ReconcileRuntime (λ _, "constraints") "dataplane" elements id 0 wakeSettings exMerged
         wakeEnv (mkNN "ns" "rt") ∅).

Lemma predictor_wakes_runtime_witness :
  ∃ tr info', runWake = Ret (tr, (info', (emptyResult, None))) ∧
    deployed elements id 0 exMerged wakeEnv (mkNN "ns" "rt") false wakeRuntime
      (determineReplicas exMerged (rt_Spec wakeRuntime)) tr.
Proof.
  assert (Hv : match runWake with
               | Ret (_, (_, (res, None))) => bool_decide (RequeueAfter res = 0%Z)
               | _ => false end = true) by (vm_compute; reflexivity).
  destruct runWake as [[tr [info' [res err]]]|] eqn:E; [|discriminate Hv].
  destruct err; [discriminate Hv|].
  assert (∃ reqs, runtimeRequestsForPredictor wakeSettings (re_lists wakeEnv) exPredictor
                    = Ret reqs) as [reqs Hq] by (eexists; vm_compute; reflexivity).
  exists tr, info'.
  destruct (predictor_wakes_runtime (λ _, "constraints") "dataplane" elements id 0 wakeSettings
    exMerged wakeEnv (PredictorCRRegistry exClient) exPredictor (mkNN "ns" "p") false wakeRuntime
    [wakeRuntime] [] reqs ∅ tr info' res) as [_ [Hr|[Hr Hd]]];
    [left|exact (PredictorCRRegistry_laws exClient exClient_laws)|vm_compute; reflexivity|reflexivity|reflexivity|reflexivity|left|reflexivity
    |reflexivity|reflexivity|vm_compute; reflexivity|reflexivity|vm_compute; reflexivity|exact Hq
    |exact E| |].
  - subst res. discriminate Hv.
  - subst res. split; [reflexivity|exact Hd].
Defined.
