(* ===== verification/Connections.v ===== *)
(** * The service controller and the Predictors it connects

    The map of model-mesh services (MMServiceMap, controllers/service_controller.go) is
    shared by two reconcilers: the service controller writes it, and the Predictor
    controller (controllers/predictor_controller.go) takes from it the client it talks
    to model-mesh with and the endpoints it reports. Here both are composed. *)

From S2P Require Import Prelude GoStrings Types K8s ModelTypes Registry Config RangeWatcher Events.
From S2P Require Import ConfigProps EventsProps MMService RuntimeScaling ServiceController.
From S2P Require Import ServiceControllerProps PredictorController PredictorControllerProps.

#[local] Hint Resolve rtc_refl : core.

(** ** What the Predictor controller takes from the map *)

Section Clients.
(** the generated client of a connection *)
Variable NewModelMeshClient : nat → ModelMeshClient.

Definition getMMClient (services : gmap string MMService) (namespace : string)
  : option ModelMeshClient :=
  mms ← services !! namespace;
  NewModelMeshClient <$> MMClient mms.

(** The endpoints of the namespace, as the status update reads them *)
Definition getEndpoints (services : gmap string MMService) (namespace : string)
  : option (string * string) :=
  InferenceEndpoints <$> services !! namespace.

(** The surroundings of a reconciliation in a namespace *)
Definition predictorEnv (services : gmap string MMService) (namespace : string) (now : Z) : Env :=
  mkEnvR (getMMClient services namespace) (getEndpoints services namespace) now.
End Clients.

(** ** Runs of the service controller *)

Section Runs.
Context `{!EtcdLibs}.

(** The namespace a request is about *)
Definition servedNamespace (r : ServiceSettings) (req : NamespacedName) : string :=
  if ss_ClusterScope r then Name req else Namespace req.

(** The namespace has a client and no pending reconnection. *)
Definition connected_now (st : ServiceState) (ns : string) : Prop :=
  (mms ← MMServices st !! ns; _ ← mms_client mms; Some (mms_reconnect mms)) = Some false.

#[export] Instance connected_now_dec st ns : Decision (connected_now st ns).
Proof. unfold connected_now. apply _. Defined.

(** Those of the given namespaces *)
Definition keeping (st : ServiceState) (nss : gset string) : gset string :=
  filter (connected_now st) nss.

(** The namespace, when its reconnection is pending and the TLS secret cannot be read *)
Definition unread (env : ServiceEnv) (ns : string) (st : ServiceState) : gset string :=
  match MMServices st !! ns with
  | Some mms => if forgets (sv_connect env) mms then {[ ns ]} else ∅
  | None => ∅
  end.

(** A reconciliation, with any settings and answers, and the two functions that a change
    of the configuration calls. The set holds the namespaces whose reconnection was
    forgotten: the TLS secret could not be read in a reconciliation of theirs with a
    reconnection pending, and they have kept the old client without a pending reconnection
    since. *)
Inductive service_step : ServiceState * gset string → ServiceState * gset string → Prop :=
| step_reconcile r env req cfg st tr st' out forgotten :
    run (ReconcileServices r env req cfg st) = Ret (tr, (st', out)) →
    service_step (st, forgotten)
      (st', keeping st' (unread env (servedNamespace r req) st ∪ forgotten))
| step_config_cluster r namespaces cfg st forgotten :
    let st' := (configChangeRequests r namespaces cfg st).2 in
    service_step (st, forgotten) (st', keeping st' forgotten)
| step_config_namespace r cfg st forgotten :
    let st' := (configChangeRequest r cfg st).2 in
    service_step (st, forgotten) (st', keeping st' forgotten).

Definition startState (controllerNamespace : string) : ServiceState :=
  mkServiceState ∅ (NewModelEventStream controllerNamespace).

(** The states the controller reaches, with the namespaces whose reconnection was
    forgotten *)
Definition reaches (controllerNamespace : string) (st : ServiceState) (forgotten : gset string)
  : Prop :=
  rtc service_step (startState controllerNamespace, ∅) (st, forgotten).

(** The service is the one of its namespace and consistent, but for the endpoint of its
    client when its reconnection was forgotten. *)
Definition svc_ok (forgotten : gset string) (ns : string) (mms : MMService) : Prop :=
  spec_ok mms ∧ mms_namespace mms = ns ∧ (ns ∉ forgotten → mms_ok mms).

(** Every service is, and the event stream is consistent. *)
Record services_ok (forgotten : gset string) (st : ServiceState) : Prop := {
  so_services ns mms : MMServices st !! ns = Some mms → svc_ok forgotten ns mms;
  so_stream : stream_ok (ModelEventStream st)
}.

Lemma keeping_ok forgotten st : services_ok forgotten st → services_ok (keeping st forgotten) st.
Proof.
  intros [Hm Hs]. split; [|done]. intros ns mms Hns. destruct (Hm _ _ Hns) as (Hsp & Hn & Hok).
  split_and!; [done..|]. intros Hk. destruct (decide (ns ∈ forgotten)) as [Hf|]; [|by apply Hok].
  split; [done|]. intros c Hc Hr. destruct Hk. apply elem_of_filter.
  split; [|done]. unfold connected_now. rewrite Hns. simpl. by rewrite Hc; simpl; rewrite Hr.
Qed.

(** *** The steps of a reconciliation keep a service and the stream consistent *)

Lemma stream_step_ok s s' : stream_ok s → stream_step s s' → stream_ok s'.
Proof.
  intros Hs Hstep. destruct Hstep as [get secret svc n s0|svc n s0].
  - destruct (UpdateWatchedService get secret svc n s0) as [e s1] eqn:E.
    eapply UpdateWatchedService_ok; [exact Hs|exact E].
  - by apply RemoveWatchedService_ok.
Qed.

(** The steps of a service, with any answers *)
Inductive any_step : MMService → MMService → Prop :=
| any_UpdateConfig cfg mms : any_step mms (UpdateConfig cfg mms).2
| any_Connect env mms : any_step mms (ConnectIfNeeded env mms).2
| any_Disconnect closeErr mms : any_step mms (Disconnect closeErr mms).

Lemma any_step_spec mms mms' : any_step mms mms' → spec_ok mms → spec_ok mms'.
Proof.
  intros [cfg mms0|env mms0|closeErr mms0];
    eauto using UpdateConfig_keeps_spec, ConnectIfNeeded_keeps_spec, Disconnect_keeps_spec.
Qed.

Lemma any_step_namespace mms mms' :
  any_step mms mms' → mms_namespace mms' = mms_namespace mms.
Proof.
  intros Hstep. destruct Hstep as [cfg mms|env mms|closeErr mms]; [done| |].
  - unfold ConnectIfNeeded. destruct (_ && _); [done|]. cbn zeta.
    destruct (if bool_decide _ then _ else _) as [c|]; [|done].
    destruct (newMmClient _ _ _ _ _ _); [|done]. unfold Disconnect. cbn [mms_client set_reconnect].
    by destruct (mms_client mms), (ce_closeErr env).
  - unfold Disconnect. by destruct (mms_client mms), closeErr.
Qed.

Lemma svc_steps_ok forgotten forgotten' ns mms mms' :
  rtc any_step mms mms' → forgotten ⊆ forgotten' →
  (ns ∉ forgotten' → rtc mms_step mms mms') →
  svc_ok forgotten ns mms → svc_ok forgotten' ns mms'.
Proof.
  intros Hany Hsub Hsteps (Hsp & Hns & Hok). split_and!.
  - eapply (rtc_invariant any_step spec_ok); [|exact Hany|done]. intros a b ? ?. by eapply any_step_spec.
  - eapply (rtc_invariant any_step (λ m, mms_namespace m = ns)); [|exact Hany|done].
    intros a b <- ?. by apply any_step_namespace.
  - intros Hn. eapply (rtc_invariant mms_step mms_ok); [apply mms_step_ok|by apply Hsteps|].
    apply Hok. set_solver.
Qed.

Section Step.
Variables (r : ServiceSettings) (env : ServiceEnv).

Lemma cleanServices_stream name items found stream :
  emits (cleanServices env name items found stream) (λ _ out, rtc stream_step stream out.2).
Proof.
  revert found stream. induction items as [|ss rest IH]; intros found stream;
    cbn [cleanServices]; [by apply emits_ret|].
  case_bool_decide; [apply IH|].
  eapply emits_bind; [apply emits_call with (P := λ _ _, True); done|]. intros cs [] _.
  destruct (sv_Write env _); [by apply emits_ret|].
  eapply emits_weaken; [apply IH|]. intros cs' out Hout. cbn beta in *.
  eapply rtc_l; [apply step_Remove|exact Hout].
Qed.

Lemma createService_steps mms name ns target owner :
  emits (createService env mms name ns target owner)
    (λ _ out, rtc any_step mms out.2 ∧ rtc mms_step mms out.2).
Proof.
  assert (Hd : let mms' := Disconnect (ce_closeErr (sv_connect env)) mms in
    rtc any_step mms mms' ∧ rtc mms_step mms mms')
    by (split; apply rtc_once; constructor).
  unfold createService. cbn zeta.
  eapply emits_bind; [apply emits_lift with (P := λ _ _, True); done|].
  intros cs [e|] _; [by apply emits_ret|].
  eapply emits_bind; [apply emits_call with (P := λ _ _, True); done|]. intros cs' [] _.
  by apply emits_ret.
Qed.

Lemma updateService_steps mms s0 name target :
  emits (updateService env mms s0 name target)
    (λ _ out, rtc any_step mms out.2 ∧ (forgets (sv_connect env) mms = false → rtc mms_step mms out.2)).
Proof.
  unfold updateService. cbn zeta. case_bool_decide.
  - eapply emits_bind; [apply emits_call with (P := λ _ _, True); done|]. intros cs [] _.
    by apply emits_ret.
  - eapply emits_bind; [apply emits_call with (P := λ _ _, True); done|]. intros cs [] _.
    destruct (ConnectIfNeeded (sv_connect env) mms) as [err mms'] eqn:E. apply emits_ret.
    cbn [snd]. replace mms' with (ConnectIfNeeded (sv_connect env) mms).2 by (by rewrite E).
    split; [apply rtc_once, any_Connect|]. intros Htls. apply rtc_once, step_Connect, Htls.
Qed.

Lemma reconcileService_steps mms ns owner stream :
  emits (reconcileService r env mms ns owner stream)
    (λ _ out, rtc any_step mms out.1.2 ∧
       (forgets (sv_connect env) mms = false → rtc mms_step mms out.1.2) ∧
       rtc stream_step stream out.2).
Proof.
  destruct (decide (mms_name mms = "")) as [En|En];
    [rewrite reconcileService_unready by (by left); by apply emits_ret|].
  destruct (mms_serviceSpec mms) as [target|] eqn:Et;
    [|rewrite reconcileService_unready by (by right); by apply emits_ret].
  rewrite (reconcileService_ready r env _ ns owner stream target En Et).
  destruct (if ss_ClusterScope r then _ else _) as [[]|]; [| |by apply emits_ret].
  - destruct (sv_ListServices env ns) as [items|]; [|by apply emits_ret].
    eapply emits_bind; [apply cleanServices_stream|]. intros cs [found stream1] Hs.
    destruct found as [[s|]|]; [| |by apply emits_ret].
    + eapply emits_bind; [apply updateService_steps|]. intros cs' [res mms'] [? ?].
      by apply emits_ret.
    + eapply emits_bind; [apply createService_steps|]. intros cs' [res mms'] [? ?].
      by apply emits_ret.
  - apply emits_ret. split_and!; [done..|]. apply rtc_once, step_Remove.
Qed.

Lemma getMMService_ok forgotten ns cfg newConfig st :
  services_ok forgotten st →
  let '(mms, _, st') := getMMService ns cfg newConfig st in
  svc_ok forgotten ns mms ∧ services_ok forgotten st'.
Proof.
  intros [Hm Hs]. unfold getMMService.
  set (m0 := match MMServices st !! ns with Some _ => _ | None => _ end).
  assert (svc_ok forgotten ns m0.1) as H0.
  { subst m0. destruct (MMServices st !! ns) as [mms|] eqn:E; [by apply Hm|].
    split_and!; [apply NewMMService_ok|done|]. intros _. apply NewMMService_ok. }
  destruct m0 as [mms0 new]. cbn [fst] in H0.
  assert (∃ changed mms, (if new || newConfig then UpdateConfig cfg mms0 else (false, mms0))
            = (changed, mms) ∧ svc_ok forgotten ns mms)
    as (changed & mms & -> & Hok).
  { destruct (new || newConfig); [|by eexists _, _].
    destruct (UpdateConfig cfg mms0) as [c mms] eqn:E. exists c, mms. split; [done|].
    replace mms with (UpdateConfig cfg mms0).2 by by rewrite E.
    eapply svc_steps_ok; [apply rtc_once, any_UpdateConfig|done| |exact H0].
    intros _. apply rtc_once, step_UpdateConfig. }
  split; [done|]. split; [|done]. cbn [MMServices]. intros n m.
  rewrite lookup_insert_Some. intros [[<- <-]|[_ Hn]]; [done|by apply Hm].
Qed.
End Step.

(** *** Whole reconciliations *)

Lemma reconcileServiceMonitor_emits env metrics owner :
  emits (reconcileServiceMonitor env metrics owner) (λ _ _, True).
Proof. unfold reconcileServiceMonitor. cbn zeta. repeat emits_step; done. Qed.

Lemma svc_ok_mono forgotten forgotten' ns mms :
  forgotten ⊆ forgotten' → svc_ok forgotten ns mms → svc_ok forgotten' ns mms.
Proof. intros Hsub. by apply svc_steps_ok. Qed.

(** A service that is not in the map yet has no client to keep. *)
Lemma getMMService_forgets env ns cfg st :
  forgets (sv_connect env) (getMMService ns cfg false st).1.1 = true → ns ∈ unread env ns st.
Proof.
  unfold getMMService, unread. destruct (MMServices st !! ns) as [mms|]; cbn; [|done].
  intros ->. set_solver.
Qed.

Lemma serveNamespace_ok r env ns cfg st forgotten forgotten' :
  unread env ns st ∪ forgotten ⊆ forgotten' → services_ok forgotten st →
  emits (serveNamespace r env ns cfg st) (λ _ out, services_ok forgotten' out.1).
Proof.
  intros Hsub Hst. unfold serveNamespace. assert (forgotten ⊆ forgotten') by set_solver.
  pose proof (getMMService_ok forgotten ns cfg false st Hst) as Hg.
  pose proof (getMMService_forgets env ns cfg st) as Hf.
  destruct (getMMService ns cfg false st) as [[mms changed] st1]. destruct Hg as [Hm [Hms Hs]].
  cbn [fst] in Hf.
  eapply emits_bind; [apply reconcileService_steps|].
  intros cs [[[[s err] requeue] mms'] stream] (Hany & Hm' & Hs'). cbn [fst snd] in Hany, Hm', Hs'.
  assert (∀ strm, rtc stream_step stream strm →
    services_ok forgotten' (mkServiceState (<[ns := mms']> (MMServices st1)) strm)) as Hok.
  { intros strm Hstrm. split; cbn [MMServices ModelEventStream].
    - intros n m. rewrite lookup_insert_Some.
      intros [[<- <-]|[_ Hn]]; [|by eapply svc_ok_mono, Hms].
      eapply svc_steps_ok; [exact Hany|done| |exact Hm]. intros Hn. apply Hm'.
      apply not_true_is_false. set_solver.
    - eapply (rtc_invariant stream_step stream_ok); [apply stream_step_ok| |exact Hs].
      by etrans. }
  cbn zeta. destruct (_ || _); [by apply emits_ret, Hok|].
  destruct (UpdateWatchedService _ _ _ _ _) as [e stream2] eqn:Eu.
  assert (rtc stream_step stream stream2) as Hw.
  { apply rtc_once. eapply (f_equal snd) in Eu. cbn [snd] in Eu. rewrite <- Eu.
    apply step_Update. }
  destruct e; [by apply emits_ret, Hok|]. destruct s as [s|]; [|by apply emits_ret, Hok].
  destruct (ss_ServiceMonitorCRDExists r); [|by apply emits_ret, Hok].
  eapply emits_bind; [|intros cs' [e' rq] _; by apply emits_ret, Hok].
  apply reconcileServiceMonitor_emits.
Qed.

Lemma deleteServices_trace env items : emits (deleteServices env items) (λ _ _, True).
Proof.
  eapply emits_weaken; [apply deleteServices_emits|done].
Qed.

Lemma services_ok_mono forgotten forgotten' st :
  forgotten ⊆ forgotten' → services_ok forgotten st → services_ok forgotten' st.
Proof. intros Hsub [Hm Hs]. split; [|done]. intros ns mms ?. by eapply svc_ok_mono, Hm. Qed.

Lemma disableNamespace_ok r env ns st forgotten :
  services_ok forgotten st →
  emits (disableNamespace r env ns st) (λ _ out, services_ok forgotten out.1).
Proof.
  intros [Hm Hs]. unfold disableNamespace.
  destruct (sv_ListServices env ns) as [items|]; [|by apply emits_ret].
  eapply emits_bind; [apply deleteServices_trace|]. intros cs [e|] _; [by apply emits_ret|].
  destruct (MMServices st !! ns) as [mms|] eqn:Em; [|by apply emits_ret].
  eapply emits_bind; [apply reconcileService_steps|].
  intros cs' [[res mms'] stream] (_ & _ & Hs'). cbn [fst snd] in Hs'. apply emits_ret.
  split; cbn [fst MMServices ModelEventStream].
  - intros n m. rewrite lookup_delete_Some. intros [_ Hn]. by apply Hm.
  - eapply (rtc_invariant stream_step stream_ok); [apply stream_step_ok|exact Hs'|exact Hs].
Qed.

Lemma ReconcileServices_ok r env req cfg st forgotten forgotten' :
  unread env (servedNamespace r req) st ∪ forgotten ⊆ forgotten' → services_ok forgotten st →
  emits (ReconcileServices r env req cfg st) (λ _ out, services_ok forgotten' out.1).
Proof.
  intros Hn Hst. assert (services_ok forgotten' st) as Hst'
    by (eapply services_ok_mono; [|done]; set_solver).
  unfold ReconcileServices, servedNamespace in *. cbn zeta. destruct (ss_ClusterScope r).
  - destruct (sv_GetNamespace env _); [|by apply emits_ret].
    destruct (modelMeshEnabled _ _); [by eapply serveNamespace_ok|].
    by apply disableNamespace_ok.
  - destruct (sv_GetControllerDeployment env) as [e|]; [|by eapply serveNamespace_ok].
    destruct (IsNotFound e); apply emits_ret; [|done]. destruct Hst' as [Hm Hs].
    split; [|done]. cbn [fst MMServices]. intros n m. rewrite lookup_alter_Some.
    intros [(<- & m0 & H0 & ->)|[_ Hx]]; [|by apply Hm].
    eapply (svc_steps_ok forgotten'); [apply rtc_once, any_Disconnect|done| |by apply Hm].
    intros _. apply rtc_once, step_Disconnect.
Qed.

Lemma configChangeRequests_ok r namespaces cfg st forgotten :
  services_ok forgotten st → services_ok forgotten (configChangeRequests r namespaces cfg st).2.
Proof.
  revert st. induction namespaces as [|n rest IH]; intros st Hst; cbn [configChangeRequests];
    [done|].
  destruct (modelMeshEnabled _ _); [|by apply IH].
  pose proof (getMMService_ok forgotten (ns_Name n) cfg true st Hst) as Hg.
  destruct (getMMService _ _ _ _) as [[mms c] st1]. destruct Hg as [_ Hst1].
  specialize (IH st1 Hst1). by destruct (configChangeRequests r rest cfg st1).
Qed.

Lemma service_step_ok p p' : services_ok p.2 p.1 → service_step p p' → services_ok p'.2 p'.1.
Proof.
  intros Hst Hstep. destruct Hstep as [r env req cfg st tr st' out forgotten Hrun
    |r nss cfg st forgotten|r cfg st forgotten]; apply keeping_ok; cbn [fst snd] in *.
  - exact (emits_run _ _ _ _ (ReconcileServices_ok r env req cfg st forgotten _ (reflexivity _) Hst) Hrun).
  - by apply configChangeRequests_ok.
  - subst st'. unfold configChangeRequest.
    pose proof (getMMService_ok forgotten (Namespace (ss_ControllerDeployment r)) cfg true st Hst) as Hg.
    destruct (getMMService _ _ _ _) as [[mms c] st1]. by destruct Hg.
Qed.

Lemma services_ok_reachable ctl st forgotten : reaches ctl st forgotten → services_ok forgotten st.
Proof.
  intros Hr. eapply (rtc_invariant service_step (λ p, services_ok p.2 p.1) _ (st, forgotten));
    [exact service_step_ok|exact Hr|]. split; [done|]. apply NewModelEventStream_ok.
Qed.

(** C11: In every state the service controller reaches, by reconciliations that succeed,
    fail or ask for a retry and by changes of the configuration, in any order and
    whatever the API server answers, the map holds for a namespace only the service of
    that namespace, the Service spec it would write is the one of the configuration it
    last saw, and the running etcd watchers are exactly those some namespace can cancel,
    each over the key range of that namespace's service. The endpoint of a service's
    client is the current one, unless a reconnection is pending or was forgotten
    because the TLS secret could not be read when it was attempted. *)
Theorem service_states_ok ctl st forgotten :
  reaches ctl st forgotten →
  (∀ ns mms, MMServices st !! ns = Some mms → mms_namespace mms = ns ∧
     match mms_serviceSpec mms with
     | Some s => s = targetSpec (mms_name mms) (mms_port mms) (mms_restPort mms)
                       (mms_headless mms) (mms_metricsPort mms)
     | None => mms_name mms = ""
     end ∧
     ∀ c, mms_client mms = Some c → mms_reconnect mms = false → ns ∉ forgotten →
       endpoint c = inferenceEndpoint mms) ∧
  let s := ModelEventStream st in
  (∀ id rw, es_running s !! id = Some rw →
     ∃ name, es_watchedServices s !! rw_namespace rw = Some (mkNW name (Some id))) ∧
  (∀ ns name id, es_watchedServices s !! ns = Some (mkNW name (Some id)) →
     es_running s !! id = Some (mkRW ns (es_etcdClient s)
       (servicePrefix (es_etcdRootPrefix s) (controllerNamespace s) ns name))).
Proof.
  intros Hr. destruct (services_ok_reachable _ _ _ Hr) as [Hm Hs]. split; [|split; apply Hs].
  intros ns mms Hmms. destruct (Hm _ _ Hmms) as (Hspec & Hns & Hok). split_and!; [done| |].
  - unfold spec_ok in Hspec. by destruct (mms_serviceSpec mms); [|destruct Hspec].
  - intros c Hc Hre Hn. by apply (Hok Hn).
Qed.

(** ** Namespaces that are no longer served *)

Lemma disableNamespace_forgets r env ns st :
  emits (disableNamespace r env ns st)
    (λ _ out, out.2.2 = None → MMServices out.1 !! ns = None).
Proof.
  unfold disableNamespace. destruct (sv_ListServices env ns) as [items|]; [|by apply emits_ret].
  eapply emits_bind; [apply deleteServices_trace|]. intros cs [e|] _; [by apply emits_ret|].
  destruct (MMServices st !! ns) as [mms|] eqn:Em; [|by apply emits_ret].
  eapply emits_bind; [apply reconcileService_steps|]. intros cs' [[res mms'] stream] _.
  apply emits_ret. intros _. apply lookup_delete_eq.
Qed.
End Runs.

Section Predictors.
Context `{!EtcdLibs, !ProtocolNames, !PredictorLibs}.
Variable NewModelMeshClient : nat → ModelMeshClient.

(** The calls to model-mesh *)
Definition to_mesh (c : PredictorCall) : Prop :=
  match c with CallUpdateStatus _ => False | _ => True end.

Lemma ReconcilePredictor_unconnected env n sourceId reg :
  env_MMClient env = None →
  emits (ReconcilePredictor env n sourceId reg) (λ cs _, Forall (λ c, ¬ to_mesh c) cs).
Proof.
  intros Hc. unfold ReconcilePredictor, handlePredictorNotFound. cbn zeta. rewrite Hc.
  apply emits_lift_bind. intros got _. cbn [app].
  destruct got as [[p|]|e]; [|by apply emits_ret; constructor|destruct (IsNotFound e);
    by apply emits_ret; constructor].
  eapply (emits_bind _ _ (λ cs _, cs = [])).
  - unfold reconcileModel, reconcileInvalid. cbn zeta. rewrite Hc. case_bool_decide;
      [|by apply emits_ret].
    eapply emits_bind; [by apply (emits_ret _ (λ cs _, cs = []))|].
    intros cs' [[[u st] m] e] ->. destruct (markInvalid _ _ _ _ _). by apply emits_ret.
  - intros cs' [[[upd st] have] err] ->. cbn [app]. destruct upd.
    + eapply emits_bind; [apply (emits_call _ (λ cs _, Forall (λ c, ¬ to_mesh c) cs)),
        Forall_singleton; by intros []|].
      intros cs1 [] Hcs1. unfold afterUpdate, finish. destruct (reg_UpdateStatus reg _) as [[]|].
      * apply emits_lift_bind. intros msg _. cbn [app]. destruct err; apply emits_ret; by rewrite app_nil_r.
      * apply emits_ret. by rewrite app_nil_r.
      * apply emits_ret. by rewrite app_nil_r.
    + unfold finish. destruct err; by apply emits_ret; constructor.
Qed.

(** C24: Once a namespace has stopped being served, model-mesh hears nothing more of its
    Predictors: after a reconciliation of the service controller that disabled the
    namespace without error, no reconciliation of a Predictor there calls model-mesh;
    a valid Predictor is left alone and looked at again after three seconds, and the
    removal of a deleted one is retried after ten. *)
Theorem disabled_namespace_silent r env ns st tr st' res now n sourceId reg :
  run (disableNamespace r env ns st) = Ret (tr, (st', (res, None))) →
  let penv := predictorEnv NewModelMeshClient (MMServices st') ns now in
  (∀ cs out, run (ReconcilePredictor penv n sourceId reg) = Ret (cs, out) →
     Forall (λ c, ¬ to_mesh c) cs) ∧
  (∀ p, reg_Get reg n = Ret (Ok (Some p)) → validatePredictor p = "" →
     run (ReconcilePredictor penv n sourceId reg) = Ret ([], (requeueAfter (3 * Second), None))) ∧
  (reg_Get reg n = Ret (Ok None) →
     run (ReconcilePredictor penv n sourceId reg) = Ret ([], (requeueAfter (10 * Second), None))).
Proof.
  intros Hrun penv.
  assert (MMServices st' !! ns = None) as Hns
    by exact (emits_run _ _ _ _ (disableNamespace_forgets r env ns st) Hrun eq_refl).
  assert (env_MMClient penv = None) as Hc
    by (unfold penv, predictorEnv, getMMClient; cbn [env_MMClient]; by rewrite Hns).
  split_and!.
  - intros cs out Hr.
    exact (emits_run _ _ _ _ (ReconcilePredictor_unconnected penv n sourceId reg Hc) Hr).
  - intros p Hg Hv. unfold ReconcilePredictor, reconcileModel. cbn zeta. run_io.
    rewrite Hg, Hv, bool_decide_false by (intros Hx; by apply Hx). rewrite Hc. done.
  - intros Hg. unfold ReconcilePredictor, handlePredictorNotFound. cbn zeta. run_io.
    by rewrite Hg, Hc.
Qed.

(** ** The endpoint that is reported *)

Lemma setVModel_emits mmc p loadNow sourceId :
  emits (setVModel mmc p loadNow sourceId) (λ cs x,
    ∀ rq, CallSetVModel rq ∈ cs → x = SetVModel mmc rq).
Proof.
  unfold setVModel. cbn zeta. destruct (extractModelFields p) as [[[path sp] sk] params].
  destruct (MarshalKeyInfo _) as [key|kerr].
  - apply emits_lift_bind. intros label _. cbn [app]. set (rq' := mkSetVModel _ _ _ _ _ _ _ _).
    eapply (emits_bind _ _ (λ cs _, cs = [CallSetVModel rq'])); [by apply emits_call|].
    intros cs [] ->. apply emits_ret. rewrite app_nil_r.
    by intros rq [= ->]%list_elem_of_singleton.
  - apply emits_ret. by intros rq []%not_elem_of_nil.
Qed.

Lemma reconcileInvalid_unregistered env p sourceId message rq :
  emits (reconcileInvalid env p sourceId message) (λ cs _, CallSetVModel rq ∉ cs).
Proof.
  unfold reconcileInvalid, Progress. cbn zeta.
  eapply (emits_bind _ _ (λ cs _, CallSetVModel rq ∉ cs)).
  - destruct (env_MMClient env) as [mmc|]; [|apply emits_ret; apply not_elem_of_nil].
    eapply (emits_bind _ _ (λ cs _, CallSetVModel rq ∉ cs)).
    { apply emits_call. intros [=]%list_elem_of_singleton. }
    intros cs [] Hcs. destruct (GetVModelStatus mmc _) as [vms|e].
    + apply emits_lift_bind. intros [c st] _. apply emits_ret. by rewrite !app_nil_r.
    + destruct (isNoAddresses e); apply emits_ret; by rewrite app_nil_r.
  - intros cs [[[u st] m] e] Hcs. destruct (markInvalid _ _ _ _ _). apply emits_ret.
    by rewrite app_nil_r.
Qed.

(** The model step of a Predictor that was registered: the status is the one built from
    the answer. *)
Lemma reconcileModel_registered env p sourceId rt mmc rq v :
  env_MMClient env = Some mmc → SetVModel mmc rq = Ok v →
  emits (reconcileModel env p sourceId rt) (λ cs x, CallSetVModel rq ∈ cs →
    x.1.1.2 = newStatus (env_now env) (env_endpoints env) v true (p_Status p)).
Proof.
  intros Hc Hv. unfold reconcileModel. cbn zeta. rewrite Hc. case_bool_decide.
  { eapply emits_weaken; [apply (reconcileInvalid_unregistered _ _ _ _ rq)|]. done. }
  unfold reconcileValid. cbn zeta. eapply emits_bind; [apply setVModel_emits|].
  intros cs [vms|e] Hx.
  - destruct (update_closed_form (env_now env) (env_endpoints env) vms true (p_Status p))
      as (c & Hu & _). rewrite Hu.
    intros tr tr' a [= <- <-]. exists []. rewrite !app_nil_r. split; [done|]. intros Hin.
    cbn beta in Hx. pose proof (Hx rq Hin) as Hvms. rewrite Hv in Hvms. by injection Hvms as ->.
  - eapply (emits_weaken _ (λ cs' _, cs' = [])).
    + destruct (isNoAddresses e); [destruct (setStatusFailureInfo _ _); by apply emits_ret|].
      case_bool_decide; [destruct (setStatusFailureInfo _ _)|]; by apply emits_ret.
    + intros cs' y ->. rewrite app_nil_r. intros Hin. cbn beta in Hx.
      pose proof (Hx rq Hin) as He. by rewrite Hv in He.
Qed.

(** C20: The endpoint a Predictor reports is the one of its namespace's service: in every
    state the service controller reaches, when the namespace has a client, no reconnection
    is pending and none was forgotten because the TLS secret could not be read, and
    model-mesh accepts the registration of a Predictor, the status the reconciliation
    leaves behind carries the DNS name and the port of the Service of that namespace, as
    configured. *)
Theorem reported_endpoint_current ctl st forgotten mms c now n sourceId reg p tr out rq v :
  reaches ctl st forgotten → Namespace n ∉ forgotten →
  MMServices st !! Namespace n = Some mms → mms_client mms = Some c → mms_reconnect mms = false →
  reg_Get reg n = Ret (Ok (Some p)) → runtime_ref_ok p →
  run (ReconcilePredictor (predictorEnv NewModelMeshClient (MMServices st) (Namespace n) now)
         n sourceId reg) = Ret (tr, out) →
  CallSetVModel rq ∈ tr → SetVModel (NewModelMeshClient (grpcConn c)) rq = Ok v →
  GrpcEndpoint (final_status p tr) =
    "grpc://" +:+ dnsName (mms_name mms) (Namespace n) +:+ ":" +:+ Itoa (mms_port mms).
Proof.
  intros Hreach Hnf Hmms Hcl Hre Hg Href Hrun Hin Hv.
  destruct (services_ok_reachable _ _ _ Hreach) as [Hok _].
  destruct (Hok _ _ Hmms) as (_ & Hns & Hsvc). pose proof (mo_client mms (Hsvc Hnf)) as Hep. set (env := predictorEnv _ _ _ _) in *.
  assert (env_MMClient env = Some (NewModelMeshClient (grpcConn c))) as Hc.
  { unfold env, predictorEnv, getMMClient. cbn [env_MMClient]. rewrite Hmms.
    cbn [mbind option_bind]. unfold MMClient. by rewrite Hcl. }
  destruct (reconcile_run env n sourceId reg p Hg Href)
    as (calls & upd & s & have & res & err & Hr & Hcalls & [Hu _ _] & _ & e & Hm).
  rewrite Hr in Hrun. injection Hrun as <- <-.
  assert (CallSetVModel rq ∈ calls) as Hin'.
  { apply elem_of_app in Hin as [Hin|Hin]; [done|]. destruct upd; set_solver. }
  destruct (reconcileModel_registered env p sourceId (reg_GetSourceName reg) _ rq v Hc Hv _ _ _ Hm)
    as (cs & Hcs & Hs). cbn [app] in Hcs. subst cs.
  pose proof (Hs Hin') as Hst. cbn [fst snd] in Hst.
  pose proof (final_status_run p sourceId env calls upd s Hcalls Hu) as Hf.
  apply (f_equal GrpcEndpoint) in Hf. unfold set_Available in Hf. cbn [GrpcEndpoint] in Hf.
  rewrite Hf, Hst. unfold newStatus. cbn [GrpcEndpoint env_endpoints env predictorEnv].
  unfold getEndpoints. rewrite Hmms. cbn [fmap option_fmap option_map default from_option].
  unfold InferenceEndpoints. rewrite Hcl. cbn. rewrite (Hep c Hcl Hre). unfold inferenceEndpoint.
  by rewrite Hns.
Qed.

(** ** Namespaces that are served *)

Definition connected (mms : MMService) : Prop :=
  is_Some (mms_client mms) ∧ mms_reconnect mms = false.

Lemma ConnectIfNeeded_connected env mms mms' :
  ConnectIfNeeded env mms = (None, mms') → connected mms'.
Proof.
  unfold ConnectIfNeeded. destruct (_ && _) eqn:Eb.
  - intros [= <-]. apply andb_true_iff in Eb as [Hc%bool_decide_eq_true Hr%negb_true_iff].
    by split.
  - cbn zeta. destruct (if bool_decide _ then _ else _); [|done].
    destruct (newMmClient _ _ _ _ _ _); [|done]. intros [= <-]. split; [by eexists|].
    unfold Disconnect, set_client. by destruct (mms_client _), (ce_closeErr env).
Qed.

(** The calls that only delete Services *)
Definition no_update (cs : list ServiceCall) : Prop := ∀ s, UpdateService s ∉ cs.

Definition stream_good (s : ModelMeshEventStream) : Prop := stream_ok s ∧ stream_live s.

Lemma cleanServices_good env name items found stream :
  stream_good stream →
  emits (cleanServices env name items found stream) (λ cs out, no_update cs ∧ stream_good out.2).
Proof.
  revert found stream. induction items as [|ss rest IH]; intros found stream Hs;
    cbn [cleanServices]; [apply emits_ret; split; [intros s; apply not_elem_of_nil|done]|].
  case_bool_decide; [by apply IH|].
  eapply emits_bind; [apply emits_call with (P := λ cs _, no_update cs);
    by intros s [=]%list_elem_of_singleton|].
  intros cs [] Hcs. destruct (sv_Write env _); [apply emits_ret; by rewrite app_nil_r|].
  eapply emits_weaken; [apply IH|].
  - destruct Hs as [Ho Hl]. destruct (RemoveWatchedService_ok (so_Name ss) (so_Namespace ss) stream Ho).
    split; auto.
  - intros cs' out [Hcs' Hout]. split; [|done]. intros s [Hx|Hx]%elem_of_app;
      [by apply (Hcs s)|by apply (Hcs' s)].
Qed.

Lemma updateService_connected env mms s0 name target :
  emits (updateService env mms s0 name target) (λ cs out,
    ¬ no_update cs → out.1.1.2 = None → connected out.2).
Proof.
  unfold updateService. cbn zeta. case_bool_decide.
  - eapply emits_bind; [apply emits_call with (P := λ cs _, no_update cs);
      by intros s [=]%list_elem_of_singleton|].
    intros cs [] Hcs. apply emits_ret. rewrite app_nil_r. by intros [].
  - eapply emits_bind; [apply emits_call with (P := λ _ _, True); done|]. intros cs [] _.
    destruct (ConnectIfNeeded (sv_connect env) mms) as [err mms'] eqn:E. apply emits_ret.
    intros _. cbn [fst snd]. destruct (sv_Write env _); [by destruct err|].
    destruct err; [done|]. intros _. by eapply ConnectIfNeeded_connected.
Qed.

Lemma reconcileService_connected r env mms ns owner stream :
  stream_good stream →
  emits (reconcileService r env mms ns owner stream) (λ cs out, stream_good out.2 ∧
    (¬ no_update cs → out.1.1.1.2 = None → connected out.1.2)).
Proof.
  intros Hs. assert (no_update []) as Hnil by (intros s; apply not_elem_of_nil).
  destruct (decide (mms_name mms = "")) as [En|En];
    [rewrite reconcileService_unready by (by left); apply emits_ret; by split|].
  destruct (mms_serviceSpec mms) as [target|] eqn:Et;
    [|rewrite reconcileService_unready by (by right); apply emits_ret; by split].
  rewrite (reconcileService_ready r env _ ns owner stream target En Et).
  destruct (if ss_ClusterScope r then _ else _) as [[]|]; [| |apply emits_ret; by split].
  - destruct (sv_ListServices env ns) as [items|]; [|apply emits_ret; by split].
    eapply emits_bind; [by apply cleanServices_good|]. intros cs [found stream1] [Hcs Hs1].
    assert (∀ cs', ¬ no_update (cs ++ cs') → ¬ no_update cs') as Happ.
    { intros cs' Hn Hcs'. apply Hn. intros s [Hx|Hx]%elem_of_app;
        [by apply (Hcs s)|by apply (Hcs' s)]. }
    destruct found as [[s|]|];
      [| |apply emits_ret; split; [done|]; intros Hn; by destruct (Happ _ Hn)].
    + eapply emits_bind; [apply updateService_connected|]. intros cs' [res mms'] Hm.
      apply emits_ret. split; [done|]. rewrite app_nil_r. intros Hn. by apply Hm, Happ.
    + eapply (emits_bind _ _ (λ cs _, no_update cs)); [unfold createService; cbn zeta|].
      * apply emits_lift_bind. intros [e|] _; [by apply emits_ret|].
        eapply emits_bind; [apply emits_call with (P := λ cs _, no_update cs);
          by intros s [=]%list_elem_of_singleton|].
        intros cs2 [] Hcs2. apply emits_ret. by rewrite app_nil_r.
      * intros cs' [res mms'] Hn. apply emits_ret. split; [done|]. rewrite app_nil_r.
        intros Hx. by destruct (Happ _ Hx).
  - apply emits_ret. destruct Hs as [Ho Hl].
    destruct (RemoveWatchedService_ok (mms_name mms) ns stream Ho). split; [split; auto|].
    by intros [].
Qed.

Lemma reconcileServiceMonitor_no_update env metrics owner :
  emits (reconcileServiceMonitor env metrics owner) (λ cs _, no_update cs).
Proof.
  assert (no_update []) as Hnil by (intros s; apply not_elem_of_nil).
  assert (Hput : ∀ c (f : io ServiceCall (option error * bool)) x,
    (∀ s, c ≠ UpdateService s) → f = mret x →
    emits (_ ← call c; f) (λ cs _, no_update cs)).
  { intros c f x Hc ->. eapply emits_bind; [apply emits_call with (P := λ cs _, no_update cs);
      intros s [= Hx]%list_elem_of_singleton; by destruct (Hc s)|].
    intros cs [] Hcs. apply emits_ret. by rewrite app_nil_r. }
  unfold reconcileServiceMonitor. cbn zeta.
  destruct (match sv_GetMonitor env _ with Ok _ => _ | Err _ => _ end) as [[sm ex]|];
    [|by apply emits_ret].
  destruct (_ || _).
  { destruct ex; [by eapply Hput|by apply emits_ret]. }
  destruct (sv_SetMonitorOwner env owner sm) as [refs|]; [|by apply emits_ret].
  destruct (targetMonitor _ _ _ _) as [changed sm']. destruct changed; [|by apply emits_ret].
  destruct ex; by eapply Hput.
Qed.

(** C21: A served namespace becomes reachable: when, in a state the service controller
    reaches in which every watched service has its watchers (they all lose them when a
    connection to etcd with a changed secret fails), a reconciliation updates the Service
    of the namespace and ends without error or request for a retry, the Predictor
    controller has a client for the namespace, no reconnection is pending, and the part
    of etcd where the service keeps its models and vmodels is watched, so that their
    changes come back as reconciliations; and every watched service still has its
    watchers. *)
Theorem served_namespace_connected ctl forgotten r env ns cfg st tr st' s :
  reaches ctl st forgotten → stream_live (ModelEventStream st) →
  run (serveNamespace r env ns cfg st) = Ret (tr, (st', (emptyResult, None))) →
  UpdateService s ∈ tr →
  (∃ mms c, MMServices st' !! ns = Some mms ∧ mms_client mms = Some c ∧
     mms_reconnect mms = false ∧
     getMMClient NewModelMeshClient (MMServices st') ns = Some (NewModelMeshClient (grpcConn c))) ∧
  let strm := ModelEventStream st' in
  stream_live strm ∧
  ∃ id, es_watchedServices strm !! ns = Some (mkNW (InferenceServiceName cfg) (Some id)) ∧
    es_running strm !! id = Some (mkRW ns (es_etcdClient strm)
      (servicePrefix (es_etcdRootPrefix strm) (controllerNamespace strm) ns
         (InferenceServiceName cfg))).
Proof.
  intros Ho%services_ok_reachable%so_stream Hl Hrun Hin. set (P := λ (cs : list ServiceCall) (out : ServiceOutcome),
    out.2 = (emptyResult, None) → ¬ no_update cs →
    (∃ mms, MMServices out.1 !! ns = Some mms ∧ connected mms) ∧
    stream_good (ModelEventStream out.1) ∧
    ∃ id, es_watchedServices (ModelEventStream out.1) !! ns =
            Some (mkNW (InferenceServiceName cfg) (Some id))).
  enough (emits (serveNamespace r env ns cfg st) P) as He.
  { destruct (emits_run _ _ _ _ He Hrun eq_refl) as ((mms & Hmms & [c Hc] & Hr) & [Hok Hlv] & id & Hid).
    { intros Hn. by apply (Hn s). }
    cbn [fst] in *. split; [|split; [done|]].
    - exists mms, c. split_and!; [done..|]. unfold getMMClient. rewrite Hmms.
      cbn [mbind option_bind]. unfold MMClient. by rewrite Hc.
    - exists id. split; [done|]. by apply Hok. }
  clear Hrun Hin. unfold serveNamespace.
  destruct (getMMService ns cfg false st) as [[mms changed] st1] eqn:Eg.
  assert (ModelEventStream st1 = ModelEventStream st) as ->.
  { unfold getMMService in Eg. destruct (MMServices st !! ns); cbn in Eg; by injection Eg as _ _ <-. }
  eapply emits_bind; [by apply reconcileService_connected|].
  intros cs [[[[svc err] requeue] mms'] stream] [[Ho1 Hl1] Hc]. cbn [fst snd] in Ho1, Hl1, Hc.
  cbn zeta. destruct (_ || _) eqn:Eb; [by apply emits_ret|].
  apply orb_false_iff in Eb as [Ee%bool_decide_eq_false _]. destruct err; [by destruct Ee|].
  destruct (UpdateWatchedService _ _ _ _ _) as [e stream2] eqn:Eu.
  destruct e as [e|]; [by apply emits_ret|].
  destruct (UpdateWatchedService_ok _ _ _ _ _ _ _ Ho1 Eu) as [Ho2 Hw].
  destruct (Hw eq_refl Hl1) as (Hl2 & _ & id & Hid).
  assert (∀ x cs', no_update cs' →
    P (cs ++ cs') (mkServiceState (<[ns := mms']> (MMServices st1)) stream2, x)) as HP.
  { intros x cs' Hcs' _ Hn. cbn [fst MMServices ModelEventStream]. split; [|split; [by split|by exists id]].
    exists mms'. split; [apply lookup_insert_eq|]. apply Hc; [|done]. intros Hx. apply Hn.
    intros s1 [Hy|Hy]%elem_of_app; [by apply (Hx s1)|by apply (Hcs' s1)]. }
  assert (no_update []) as Hnil by (intros s1; apply not_elem_of_nil).
  destruct svc as [svc|]; [|by apply emits_ret, HP].
  destruct (ss_ServiceMonitorCRDExists r); [|by apply emits_ret, HP].
  eapply emits_bind; [apply reconcileServiceMonitor_no_update|]. intros cs' [e' rq] Hcs'.
  apply emits_ret. rewrite app_nil_r. by apply HP.
Qed.
End Predictors.

(** ** Concrete runs *)

#[local] Existing Instances protocolNamesImpl etcdLibsImpl exEventLibs.

(** The API server, with the Service in place and an etcd secret *)
Definition connEnv : ServiceEnv :=
  let e := svcEnv "true" [exService "modelmesh-serving"] in
  mkServiceEnv (sv_GetNamespace e) (sv_GetNamespaceAgain e) (sv_GetControllerDeployment e)
    (sv_ListServices e) (sv_Write e) (sv_SetOwner e) (sv_connect e) (λ _, exSecretData)
    (sv_GetMonitor e) (sv_SetMonitorOwner e) (sv_LookupEnv e).

Definition connRun : exec (list ServiceCall * ServiceOutcome) :=
  run (ReconcileServices svcSettings connEnv (mkNN "" "ns") exMerged (startState "controller")).

(** The state after that reconciliation *)
Definition connState : ServiceState :=
  match connRun with Ret (_, (st, _)) => st | Panic => startState "controller" end.

Lemma connState_reachable : reaches "controller" connState ∅.
Proof.
  apply rtc_once. destruct connRun as [[tr [st out]]|] eqn:E; [|vm_compute in E; discriminate].
  replace connState with st by (unfold connState; by rewrite E).
  pose proof (step_reconcile svcSettings connEnv _ _ _ _ _ _ ∅ E) as Hstep.
  replace (keeping _ _) with (∅ : gset string) in Hstep; [done|].
  apply set_eq. intros x. unfold keeping. rewrite elem_of_filter. set_solver.
Qed.

Lemma service_states_ok_witness :
  ∃ mms, MMServices connState !! "ns" = Some mms ∧ mms_namespace mms = "ns".
Proof.
  destruct (service_states_ok "controller" connState ∅ connState_reachable) as [H _].
  assert (is_Some (MMServices connState !! "ns")) as [mms Hm] by (vm_compute; by eexists).
  exists mms. split; [exact Hm|]. exact (proj1 (H _ _ Hm)).
Defined.

Definition connClient (conn : nat) : ModelMeshClient :=
  mkMMC (λ _, Ok exLoading) (λ _, Ok exLoading) (λ _, None).

Definition connRegistry : PredictorRegistry :=
  exRegistry (Ok (Some (exPredictor1 None defaultStatus))).

Lemma served_namespace_connected_witness :
  ∃ mms c, MMServices connState !! "ns" = Some mms ∧ mms_client mms = Some c.
Proof.
  assert (Hrun : ∃ tr s, run (serveNamespace svcSettings connEnv "ns" exMerged
      (startState "controller")) = Ret (tr, (connState, (emptyResult, None))) ∧
      UpdateService s ∈ tr).
  { eexists _, _. split; [vm_compute; reflexivity|]. left. }
  destruct Hrun as (tr & s & Hrun & Hin).
  destruct (served_namespace_connected connClient "controller" ∅ svcSettings connEnv "ns" exMerged
    (startState "controller") tr connState s) as [(mms & c & H1 & H2 & _) _];
    [constructor|apply NewModelEventStream_ok|exact Hrun|exact Hin|].
  exact (ex_intro _ mms (ex_intro _ c (conj H1 H2))).
Defined.

Lemma disabled_namespace_silent_witness :
  ∃ tr st' res, run (disableNamespace svcSettings (svcEnv "false" [exService "a"]) "ns" connState)
    = Ret (tr, (st', (res, None))) ∧
    run (ReconcilePredictor (predictorEnv connClient (MMServices st') "ns" 0) (mkNN "ns" "p") "ksp"
           connRegistry) = Ret ([], (requeueAfter (3 * Second), None)).
Proof.
  eexists _, _, _. split; [vm_compute; reflexivity|].
  edestruct (disabled_namespace_silent connClient svcSettings (svcEnv "false" [exService "a"]) "ns"
    connState) as (_ & H & _); [vm_compute; reflexivity|].
  eapply H; [reflexivity|vm_compute; reflexivity].
Defined.

Lemma reported_endpoint_current_witness :
  ∃ tr out, run (ReconcilePredictor (predictorEnv connClient (MMServices connState) "ns" 0)
      (mkNN "ns" "p") "ksp" connRegistry) = Ret (tr, out) ∧
    GrpcEndpoint (final_status (exPredictor1 None defaultStatus) tr) =
      "grpc://modelmesh-serving.ns:8033".
Proof.
  assert (∃ mms c, MMServices connState !! "ns" = Some mms ∧ mms_client mms = Some c ∧
    mms_reconnect mms = false ∧ mms_name mms = "modelmesh-serving" ∧ mms_port mms = 8033%Z)
    as (mms & c & Hm & Hc & Hr & Hn & Hp) by (eexists _, _; split_and!; vm_compute; reflexivity).
  assert (Hrun : ∃ tr out rq, run (ReconcilePredictor
      (predictorEnv connClient (MMServices connState) "ns" 0) (mkNN "ns" "p") "ksp" connRegistry)
      = Ret (tr, out) ∧ CallSetVModel rq ∈ tr).
  { eexists _, _, _. split; [vm_compute; reflexivity|]. left. }
  destruct Hrun as (tr & out & rq & Hrun & Hin). exists tr, out. split; [exact Hrun|].
  rewrite (reported_endpoint_current connClient "controller" connState ∅ mms c 0 (mkNN "ns" "p") "ksp"
    connRegistry (exPredictor1 None defaultStatus) tr out rq exLoading);
    [rewrite Hn, Hp; vm_compute; reflexivity|exact connState_reachable
    |apply not_elem_of_empty|exact Hm|exact Hc|exact Hr
    |reflexivity|exact I|exact Hrun|exact Hin|reflexivity].
Defined.
