(* ===== verification/Dispatch.v ===== *)
(** * The dispatchers of source plugin events (main.go)

    Each predictor source plugin has a goroutine that reads the plugin's channel and
    sends every event, with the source id in front of the namespace, first to the
    channel of the predictor controller and then to that of the runtime controller.
    The channels are bounded and shared by all dispatchers; the goroutines and the two
    controllers take turns in any order. *)

From S2P Require Import Prelude GoStrings Types Startup.

(** The capacity of both channels *)
Definition eventCapacity : nat := 256.

(** Where a dispatcher is in its loop *)
Inductive Phase :=
| Receiving
| ToPredictor (evnt : NamespacedName)
| ToRuntime (evnt : NamespacedName).

(** A dispatcher, with the events that will still arrive from its plugin *)
Record Dispatcher := mkDispatcher {
  dp_sid : string;
  dp_channel : list NamespacedName;
  dp_phase : Phase
}.

(** The dispatchers, the contents of the two channels, and what the controllers have
    taken from them so far; events carry the number of the dispatcher that sent them. *)
Record DispatchState := mkDispatchState {
  ds_dispatchers : list Dispatcher;
  predictorControllerEvents : list (nat * NamespacedName);
  runtimeControllerEvents : list (nat * NamespacedName);
  ds_predictorGot : list (nat * NamespacedName);
  ds_runtimeGot : list (nat * NamespacedName)
}.

Inductive dispatch_step : DispatchState → DispatchState → Prop :=
| step_receive i sid pe rest ds p r gp gr :
    ds !! i = Some (mkDispatcher sid (pe :: rest) Receiving) →
    dispatch_step (mkDispatchState ds p r gp gr)
      (mkDispatchState
         (<[i := mkDispatcher sid rest (ToPredictor (dispatchedEvent sid pe))]> ds) p r gp gr)
| step_toPredictor i sid c e ds p r gp gr :
    ds !! i = Some (mkDispatcher sid c (ToPredictor e)) → length p < eventCapacity →
    dispatch_step (mkDispatchState ds p r gp gr)
      (mkDispatchState (<[i := mkDispatcher sid c (ToRuntime e)]> ds) (p ++ [(i, e)]) r gp gr)
| step_toRuntime i sid c e ds p r gp gr :
    ds !! i = Some (mkDispatcher sid c (ToRuntime e)) → length r < eventCapacity →
    dispatch_step (mkDispatchState ds p r gp gr)
      (mkDispatchState (<[i := mkDispatcher sid c Receiving]> ds) p (r ++ [(i, e)]) gp gr)
(* the controllers *)
| step_takePredictor x ds p r gp gr :
    dispatch_step (mkDispatchState ds (x :: p) r gp gr)
      (mkDispatchState ds p r (gp ++ [x]) gr)
| step_takeRuntime x ds p r gp gr :
    dispatch_step (mkDispatchState ds p (x :: r) gp gr)
      (mkDispatchState ds p r gp (gr ++ [x])).

(** The dispatchers of some plugins, each with its id and its events *)
Definition startDispatch (sources : list (string * list NamespacedName)) : DispatchState :=
  mkDispatchState ((λ '(sid, c), mkDispatcher sid c Receiving) <$> sources) [] [] [] [].

(** ** Order *)

(** The events of one dispatcher, in order *)
Definition sent_by (i : nat) (l : list (nat * NamespacedName)) : list NamespacedName :=
  (filter (λ x, x.1 = i) l).*2.

Lemma sent_by_app i l l' : sent_by i (l ++ l') = sent_by i l ++ sent_by i l'.
Proof. unfold sent_by. by rewrite filter_app, fmap_app. Qed.

Lemma sent_by_same i e : sent_by i [(i, e)] = [e].
Proof. unfold sent_by. by rewrite filter_cons_True. Qed.

Lemma sent_by_other i j e : i ≠ j → sent_by i [(j, e)] = [].
Proof. intros Hne. unfold sent_by. by rewrite filter_cons_False by (simpl; congruence). Qed.

(** What dispatcher [i] still has to send to the predictor controller, and to the
    runtime controller *)
Definition pending (d : Dispatcher) : list NamespacedName :=
  match dp_phase d with ToPredictor e => [e] | _ => [] end ++
  (dispatchedEvent (dp_sid d) <$> dp_channel d).

Definition pendingRuntime (d : Dispatcher) : list NamespacedName :=
  match dp_phase d with ToRuntime e => [e] | _ => [] end ++ pending d.

(** Everything a dispatcher has sent and will send, to either controller, is the events
    of its plugin in order. *)
Definition dispatch_ok (sources : list (string * list NamespacedName)) (s : DispatchState)
  : Prop :=
  length (ds_dispatchers s) = length sources ∧
  ∀ i sid c d, sources !! i = Some (sid, c) → ds_dispatchers s !! i = Some d →
    dp_sid d = sid ∧
    sent_by i (ds_predictorGot s ++ predictorControllerEvents s) ++ pending d =
      dispatchedEvent sid <$> c ∧
    sent_by i (ds_runtimeGot s ++ runtimeControllerEvents s) ++ pendingRuntime d =
      dispatchedEvent sid <$> c.

Lemma dispatch_ok_start sources : dispatch_ok sources (startDispatch sources).
Proof.
  split; [apply length_fmap|]. intros i sid c d Hs. simpl. rewrite list_lookup_fmap, Hs.
  by intros [= <-].
Qed.

Lemma dispatch_ok_step sources s s' :
  dispatch_ok sources s → dispatch_step s s' → dispatch_ok sources s'.
Proof.
  intros [Hl Hok] Hstep. destruct Hstep as
    [i sid pe rest ds p r gp gr Hi|i sid c e ds p r gp gr Hi Hroom|
     i sid c e ds p r gp gr Hi Hroom|x ds p r gp gr|x ds p r gp gr];
    (split; [cbn in *; by rewrite ?length_insert|]); intros j sid' c' d Hs;
    cbn [ds_dispatchers predictorControllerEvents runtimeControllerEvents ds_predictorGot
         ds_runtimeGot] in *.
  4, 5: rewrite <- app_assoc; cbn [app]; by apply Hok.
  all: rewrite list_lookup_insert_Some; intros [(<- & <- & _)|[Hne Hd]];
    [destruct (Hok _ _ _ _ Hs Hi) as (<- & Hp & Hr)|destruct (Hok _ _ _ _ Hs Hd) as (<- & Hp & Hr)];
    (split; [done|]);
    rewrite ?app_assoc, ?(sent_by_app _ (_ ++ _)), ?sent_by_same, ?sent_by_other, ?app_nil_r
      by congruence;
    try done.
  - split; [by rewrite <- Hp, <- app_assoc|exact Hr].
  - split; [exact Hp|by rewrite <- Hr, <- app_assoc].
Qed.

Lemma dispatch_ok_reachable sources s :
  rtc dispatch_step (startDispatch sources) s → dispatch_ok sources s.
Proof.
  intros Hr. eapply (rtc_invariant dispatch_step (dispatch_ok sources));
    [apply dispatch_ok_step|exact Hr|apply dispatch_ok_start].
Qed.

(** ** Progress *)

(** The steps an event still needs: to be read, sent twice and taken twice *)
Definition dispatcherWork (d : Dispatcher) : nat :=
  5 * length (dp_channel d) +
  match dp_phase d with Receiving => 0 | ToPredictor _ => 4 | ToRuntime _ => 2 end.

Definition work (s : DispatchState) : nat :=
  sum_list_with dispatcherWork (ds_dispatchers s) +
  length (predictorControllerEvents s) + length (runtimeControllerEvents s).

Lemma work_insert (l : list Dispatcher) i d d' :
  l !! i = Some d →
  dispatcherWork d + sum_list_with dispatcherWork (<[i := d']> l) =
  dispatcherWork d' + sum_list_with dispatcherWork l.
Proof.
  revert i. induction l as [|x l IH]; intros [|i] Hi; simpl in *; [done..|injection Hi as ->; lia|].
  specialize (IH _ Hi). lia.
Qed.

Lemma dispatch_step_work s s' : dispatch_step s s' → work s = S (work s').
Proof.
  destruct 1; unfold work;
    cbn [ds_dispatchers predictorControllerEvents runtimeControllerEvents];
    rewrite ?length_app; cbn [length]; try lia;
    match goal with Hi : _ !! _ = Some _ |- context [<[_ := ?d']> _] =>
      pose proof (work_insert _ _ _ d' Hi) as Hw end;
    unfold dispatcherWork in Hw at 1 3; cbn [dp_channel dp_phase length] in Hw; lia.
Qed.

(** A state in which nothing can happen: nothing is left in the channels, and every
    dispatcher has read all its events. *)
Lemma dispatch_stuck s :
  (∀ s', ¬ dispatch_step s s') →
  predictorControllerEvents s = [] ∧ runtimeControllerEvents s = [] ∧
  ∀ i d, ds_dispatchers s !! i = Some d → dp_channel d = [] ∧ dp_phase d = Receiving.
Proof.
  destruct s as [ds p r gp gr]. intros Hn.
  cbn [ds_dispatchers predictorControllerEvents runtimeControllerEvents].
  assert (p = []) as -> by (destruct p; [done|]; by destruct (Hn _ (step_takePredictor _ _ _ _ _ _))).
  assert (r = []) as -> by (destruct r; [done|]; by destruct (Hn _ (step_takeRuntime _ _ _ _ _ _))).
  split_and!; [done..|]. intros i [sid c ph] Hi. cbn [dp_channel dp_phase].
  destruct ph as [|e|e].
  - destruct c as [|pe c]; [done|]. by destruct (Hn _ (step_receive _ _ _ _ _ _ _ _ _ Hi)).
  - destruct (Hn _ (step_toPredictor _ _ _ _ _ [] [] gp gr Hi (Nat.lt_0_succ 255))).
  - destruct (Hn _ (step_toRuntime _ _ _ _ _ [] [] gp gr Hi (Nat.lt_0_succ 255))).
Qed.

(** C25: Both controllers get every event of every plugin, in the plugin's order, however
    the dispatchers and the controllers are scheduled and although they share bounded
    channels: at every moment the events a controller has taken from one plugin are a
    prefix of those the plugin sent (under the plugin's id), the runtime controller's
    share never being ahead of what was sent to the predictor controller; no run is longer than
    five steps per event; and when nothing can happen any more, both controllers have
    all of them. *)
Theorem dispatch_delivers sources n s :
  nsteps dispatch_step n (startDispatch sources) s →
  n ≤ 5 * length (sources ≫= snd) ∧
  ∀ i sid c, sources !! i = Some (sid, c) →
    sent_by i (ds_predictorGot s) `prefix_of` (dispatchedEvent sid <$> c) ∧
    sent_by i (ds_runtimeGot s) `prefix_of`
      sent_by i (ds_predictorGot s ++ predictorControllerEvents s) ∧
    ((∀ s', ¬ dispatch_step s s') →
       sent_by i (ds_predictorGot s) = dispatchedEvent sid <$> c ∧
       sent_by i (ds_runtimeGot s) = dispatchedEvent sid <$> c).
Proof.
  intros Hn. split.
  - assert (work (startDispatch sources) = n + work s) as Hw.
    { clear -Hn. induction Hn as [|n x y z Hxy _ IH]; [done|].
      rewrite (dispatch_step_work _ _ Hxy). lia. }
    assert (work (startDispatch sources) = 5 * length (sources ≫= snd)) as <-; [|lia].
    unfold work. simpl. clear. rewrite !Nat.add_0_r.
    induction sources as [|[sid c] rest IH]; [done|].
    cbn [fmap list_fmap sum_list_with mbind list_bind snd]. rewrite length_app, IH.
    unfold dispatcherWork. cbn [dp_channel dp_phase]. lia.
  - intros i sid c Hs. destruct (dispatch_ok_reachable sources s) as [Hl Hok];
      [by eapply rtc_nsteps_2|].
    assert (is_Some (ds_dispatchers s !! i)) as [d Hd].
    { apply lookup_lt_is_Some_2. rewrite Hl. by eapply lookup_lt_Some. }
    destruct (Hok _ _ _ _ Hs Hd) as (Hsid & Hp & Hr). split_and!.
    + rewrite <- Hp, sent_by_app, <- app_assoc. by eexists.
    + rewrite <- Hp in Hr. unfold pendingRuntime in Hr. rewrite app_assoc in Hr.
      apply app_inv_tail in Hr. rewrite <- Hr, sent_by_app, <- app_assoc. by eexists.
    + intros Hstuck. destruct (dispatch_stuck s Hstuck) as (Ep & Er & Hidle).
      destruct (Hidle _ _ Hd) as [Hc Hph]. unfold pendingRuntime, pending in Hp, Hr.
      rewrite Hc, Hph, Ep in Hp. rewrite Hc, Hph, Er in Hr. simpl in Hp, Hr.
      rewrite !app_nil_r in Hp. rewrite !app_nil_r in Hr. done.
Qed.

(** ** A concrete run *)

Definition exSources : list (string * list NamespacedName) := [("src", [mkNN "ns" "p"])].

Lemma dispatch_delivers_witness :
  ∃ s, nsteps dispatch_step 5 (startDispatch exSources) s ∧
    sent_by 0 (ds_runtimeGot s) = [mkNN "src_ns" "p"].
Proof.
  eexists. assert (Hr : nsteps dispatch_step 5 (startDispatch exSources)
    (mkDispatchState [mkDispatcher "src" [] Receiving] [] []
       [(0, mkNN "src_ns" "p")] [(0, mkNN "src_ns" "p")])).
  { eapply nsteps_l; [by eapply (step_receive 0)|].
    eapply nsteps_l; [eapply (step_toPredictor 0); [done|cbn; unfold eventCapacity; lia]|].
    eapply nsteps_l; [eapply step_takePredictor|].
    eapply nsteps_l; [eapply (step_toRuntime 0); [done|cbn; unfold eventCapacity; lia]|].
    eapply nsteps_l; [eapply step_takeRuntime|]. apply nsteps_O. }
  split; [exact Hr|].
  destruct (dispatch_delivers exSources 5 _ Hr) as [_ H].
  destruct (H 0 "src" [mkNN "ns" "p"] eq_refl) as (_ & _ & Hd). apply Hd.
  intros s' Hs'. inversion Hs' as [i ? ? ? ? ? ? ? ? Hi|i ? ? ? ? ? ? ? ? Hi|i ? ? ? ? ? ? ? ? Hi| |];
    subst; destruct i; discriminate Hi.
Defined.
