(* ===== verification/Overlay.v ===== *)
(** * Overlays on resources (controllers/config/overlay.go)

    The merge of one unstructured resource into another. Both are trees of JSON values;
    a Go map is the list of its entries in the order in which it is ranged over. Source
    maps are changed in place: the functions below return the changed tree. Nothing in
    the program calls this code but its test. *)

From S2P Require Import Prelude GoStrings.

(** ** Data *)

(** The values of an unstructured object; [JNull] is a nil interface. *)
Inductive json :=
| JNull
| JBool (b : bool)
| JNumber (n : Z)
| JString (s : string)
| JSlice (l : list json)
| JMap (m : list (string * json)).

(** v, exists := m[k] *)
Fixpoint getKey {A} (k : string) (m : list (string * A)) : option A :=
  match m with
  | [] => None
  | (k', v) :: rest => if bool_decide (k' = k) then Some v else getKey k rest
  end.

(** m[k] = v *)
Fixpoint setKey {A} (k : string) (v : A) (m : list (string * A)) : list (string * A) :=
  match m with
  | [] => [(k, v)]
  | (k', v') :: rest =>
      if bool_decide (k' = k) then (k', v) :: rest else (k', v') :: setKey k v rest
  end.

(** Equality of interfaces: comparing two slices or two maps panics. *)
Definition sameInterface (x y : json) : exec bool :=
  match x, y with
  | JSlice _, JSlice _ | JMap _, JMap _ => Panic
  | JNull, JNull => Ret true
  | JBool a, JBool b => Ret (bool_decide (a = b))
  | JNumber a, JNumber b => Ret (bool_decide (a = b))
  | JString a, JString b => Ret (bool_decide (a = b))
  | _, _ => Ret false
  end.

(** ** overlayMap: the check of names

    Whether the merge goes on. The kind of a nil value cannot be asked for. *)
Fixpoint namesAgree (source overlay : list (string * json)) : exec bool :=
  match overlay with
  | [] => Ret true
  | (k, ov) :: rest =>
      match getKey k source with
      | None => namesAgree source rest
      | Some JNull => Panic
      | Some (JString s) =>
          if bool_decide (k = "name") then
            match ov with
            | JString s' => if bool_decide (s = s') then namesAgree source rest else Ret false
            | _ => Ret false
            end
          else namesAgree source rest
      | Some _ => namesAgree source rest
      end
  end.

(** ** overlaySlice: the element of the same name

    The index of the first element of that name and the element. Every element looked at
    must be a map. *)
Fixpoint findNamed (oname : json) (source : list json) (i : nat)
  : exec (option (nat * list (string * json))) :=
  match source with
  | [] => Ret None
  | JMap v :: rest =>
      match getKey "name" v with
      | Some sname =>
          b ← sameInterface sname oname;
          if b : bool then Ret (Some (i, v)) else findNamed oname rest (S i)
      | None => findNamed oname rest (S i)
      end
  | _ :: _ => Panic
  end.

(** ** The merge

    [overlayValue v ov] is what becomes of the value [v] of a key that the overlay has
    too. Without an element of the same name, the overlay's element is written into a
    nil map, which panics unless there is nothing to write. *)
Fixpoint overlayValue (v ov : json) {struct ov} : exec json :=
  match v with
  | JSlice source =>
      match ov with
      | JSlice overlay =>
          r ← (fix overlaySlice (source overlay : list json) {struct overlay}
               : exec (list json) :=
                 match overlay with
                 | [] => Ret source
                 | (JMap om as o) :: rest =>
                     found ← findNamed (default JNull (getKey "name" om)) source 0;
                     match found with
                     | Some (i, sv) =>
                         r ← overlayValue (JMap sv) o;
                         overlaySlice (<[i := r]> source) rest
                     | None =>
                         match om with
                         | [] => overlaySlice source rest
                         | _ :: _ => Panic
                         end
                     end
                 | _ :: _ => Panic
                 end) source overlay;
          Ret (JSlice r)
      | _ => Panic
      end
  | JMap source =>
      match ov with
      | JMap overlay =>
          b ← namesAgree source overlay;
          if b : bool then
            r ← (fix merge (source overlay : list (string * json)) {struct overlay}
                 : exec (list (string * json)) :=
                   match overlay with
                   | [] => Ret source
                   | (k, o) :: rest =>
                       match getKey k source with
                       | None => merge (setKey k o source) rest
                       | Some v =>
                           v' ← overlayValue v o;
                           merge (setKey k v' source) rest
                       end
                   end) source overlay;
            Ret (JMap r)
          else Ret (JMap source)
      | _ => Panic
      end
  | JString _ => Ret ov
  | JNull | JBool _ | JNumber _ => Panic
  end.

(** The merge of the entries of an overlay, once the names agree *)
Fixpoint mergeEntries (source overlay : list (string * json))
  : exec (list (string * json)) :=
  match overlay with
  | [] => Ret source
  | (k, o) :: rest =>
      match getKey k source with
      | None => mergeEntries (setKey k o source) rest
      | Some v => v' ← overlayValue v o; mergeEntries (setKey k v' source) rest
      end
  end.

Definition overlayMap (source overlay : list (string * json)) : exec (list (string * json)) :=
  b ← namesAgree source overlay;
  if b : bool then mergeEntries source overlay else Ret source.

(** overlay: the specs of both must be maps; the error is always nil. *)
Definition overlay (resource o : list (string * json)) : exec (list (string * json)) :=
  match getKey "spec" resource, getKey "spec" o with
  | Some (JMap s), Some (JMap os) =>
      r ← overlayMap s os; Ret (setKey "spec" (JMap r) resource)
  | _, _ => Panic
  end.

(** ** Properties *)

Lemma getKey_setKey {A} k (v : A) m : getKey k (setKey k v m) = Some v.
Proof.
  induction m as [|[k' v'] m IH]; simpl; [by rewrite bool_decide_true|].
  case_bool_decide; simpl; [by rewrite bool_decide_true|by rewrite bool_decide_false].
Qed.

Lemma getKey_setKey_ne {A} k k' (v : A) m : k ≠ k' → getKey k' (setKey k v m) = getKey k' m.
Proof.
  intros Hne. induction m as [|[x v'] m IH]; simpl; [by rewrite bool_decide_false|].
  case_bool_decide; simpl; case_bool_decide; try done; congruence.
Qed.

Lemma getKey_elem {A} k (v : A) m : NoDup m.*1 → (k, v) ∈ m ↔ getKey k m = Some v.
Proof.
  induction m as [|[x w] m IH]; cbn [fmap list_fmap getKey];
    [intros _; split; [by intros ?%not_elem_of_nil|done]|].
  intros [Hx Hnd]%NoDup_cons. rewrite elem_of_cons. case_bool_decide as Hk.
  - subst x. split; [|intros [= <-]; by left]. intros [[= <-]|Hin]; [done|].
    destruct Hx. by apply (list_elem_of_fmap_2 fst) in Hin.
  - rewrite <- IH by done. split; [intros [[= ? ?]|?]; [by subst|done]|by right].
Qed.

Lemma overlayValue_maps source o :
  overlayValue (JMap source) (JMap o) = r ← overlayMap source o; Ret (JMap r).
Proof.
  unfold overlayMap. simpl. by destruct (namesAgree source o) as [[]|].
Qed.

(** What one key holds after a merge, from what both sides held *)
Definition mergedKey (v ov : option json) : exec (option json) :=
  match v, ov with
  | Some v, Some ov => r ← overlayValue v ov; Ret (Some r)
  | None, ov => Ret ov
  | v, None => Ret v
  end.

(** Merging is done key by key: a merge that returns leaves under each key what the two
    values of that key alone make, and it panics exactly if some key does. *)
Lemma mergeEntries_spec source o :
  NoDup o.*1 →
  match mergeEntries source o with
  | Ret r => ∀ k, mergedKey (getKey k source) (getKey k o) = Ret (getKey k r)
  | Panic => ∃ k, mergedKey (getKey k source) (getKey k o) = Panic
  end.
Proof.
  revert source. induction o as [|[k v] rest IH]; intros source Hnd; cbn [mergeEntries].
  { intros k. simpl. by destruct (getKey k source). }
  cbn [fmap list_fmap] in Hnd. apply NoDup_cons in Hnd as [Hk Hnd].
  assert (getKey k rest = None) as Hrest.
  { destruct (getKey k rest) as [x|] eqn:E; [|done]. apply (getKey_elem k x rest Hnd) in E.
    destruct Hk. by apply (list_elem_of_fmap_2 fst) in E. }
  assert (∀ v', mergedKey (getKey k source) (Some v) = Ret (Some v') →
    match mergeEntries (setKey k v' source) rest with
    | Ret r => ∀ x, mergedKey (getKey x source) (getKey x ((k, v) :: rest)) = Ret (getKey x r)
    | Panic => ∃ x, mergedKey (getKey x source) (getKey x ((k, v) :: rest)) = Panic
    end) as Hstep.
  { intros v' Hv. specialize (IH (setKey k v' source) Hnd). cbn [getKey].
    destruct (mergeEntries _ rest) as [r|].
    - intros x. specialize (IH x). case_bool_decide as Hx.
      + subst x. rewrite getKey_setKey, Hrest in IH. by rewrite Hv, <- IH.
      + by rewrite getKey_setKey_ne in IH.
    - destruct IH as [x Hx]. exists x. case_bool_decide as Hxk.
      + subst x. by rewrite getKey_setKey, Hrest in Hx.
      + by rewrite getKey_setKey_ne in Hx. }
  destruct (getKey k source) as [x|] eqn:Ex; [|by apply Hstep].
  destruct (overlayValue x v) as [v'|] eqn:Ev; cbn [mbind exec_bind].
  - apply Hstep. simpl. by rewrite Ev.
  - exists k. cbn [getKey]. rewrite bool_decide_true by done. rewrite Ex. simpl. by rewrite Ev.
Qed.

(** The order in which Go ranges over the overlay does not matter to the merge: two
    orders of the same entries both panic, or leave the same value under every key. *)
Theorem merge_order_irrelevant source o o' :
  NoDup o.*1 → o ≡ₚ o' →
  match mergeEntries source o, mergeEntries source o' with
  | Ret r, Ret r' => ∀ k, getKey k r = getKey k r'
  | Panic, Panic => True
  | _, _ => False
  end.
Proof.
  intros Hnd Hp. assert (NoDup o'.*1) as Hnd' by (by rewrite <- Hp).
  assert (∀ k, getKey k o = getKey k o') as Hk.
  { intros k. apply option_eq. intros v. by rewrite <- !getKey_elem, Hp by done. }
  pose proof (mergeEntries_spec source o Hnd) as H1.
  pose proof (mergeEntries_spec source o' Hnd') as H2.
  destruct (mergeEntries source o) as [r|], (mergeEntries source o') as [r'|].
  - intros k. specialize (H1 k). specialize (H2 k). rewrite Hk in H1. congruence.
  - destruct H2 as [k H2]. specialize (H1 k). rewrite Hk in H1. congruence.
  - destruct H1 as [k H1]. specialize (H2 k). rewrite Hk in H1. congruence.
  - done.
Qed.

(** It does matter to the check of names: beside a name that differs, which ends the merge
    quietly, a null value makes it panic, if it is looked at first. *)
Theorem name_check_depends_on_order :
  let source := [("name", JString "a"); ("x", JNull)] in
  overlayMap source [("name", JString "b"); ("x", JNumber 1)] = Ret source ∧
  overlayMap source [("x", JNumber 1); ("name", JString "b")] = Panic.
Proof. split; reflexivity. Qed.

(** A list of the overlay cannot add an element: one whose name the source does not have
    is written into a nil map. *)
Theorem unmatched_element_panics source om :
  om ≠ [] → findNamed (default JNull (getKey "name" om)) source 0 = Ret None →
  overlayValue (JSlice source) (JSlice [JMap om]) = Panic.
Proof. intros Hne Hf. simpl. rewrite Hf. cbn [mbind exec_bind]. by destruct om. Qed.

(** Lists are merged by name, maps by key, strings are replaced. *)
Example overlay_containers :
  overlay
    [("spec", JMap [("containers", JSlice [JMap [("name", JString "mm"); ("image", JString "a")];
                                          JMap [("name", JString "rt"); ("image", JString "b")]])])]
    [("spec", JMap [("containers", JSlice [JMap [("name", JString "rt"); ("image", JString "c")]]);
                    ("strategy", JString "Recreate")])]
  = Ret [("spec", JMap [("containers",
            JSlice [JMap [("name", JString "mm"); ("image", JString "a")];
                    JMap [("name", JString "rt"); ("image", JString "c")]]);
          ("strategy", JString "Recreate")])].
Proof. reflexivity. Qed.
