(* ===== verification/DeepCopy.v ===== *)
(** * Deep copies of the Predictor types
      (apis/serving/v1alpha1/zz_generated.deepcopy.go)

    The structs as Go lays them out: pointer, map and slice fields are addresses in
    a memory of typed cells. Every DeepCopyInto and DeepCopy is a computation that
    may read, allocate and write cells. [R_T h g v] says that in memory [h] the
    struct [g] stands for the value [v] of Types.v; [DeepCopies] is the contract of
    a copy function: the copy stands for the same value, lives wholly in cells that
    did not exist before, and nothing that existed before is written.

    The maps of a nil reference and of an empty map stand for the same value (the
    empty map); that a nil map stays nil is [copyMap_nil]. *)

From S2P Require Import Prelude Types.

(** ** Memory *)

Abbreviation addr := nat.

(** A Go pointer: nil or an address. A map value and a slice value are pointers
    to the map object and to the backing array. *)
Abbreviation ptr := (option addr).

(** metav1.Time wraps a time.Time. *)
Record gTime := mkGTime { gt_Time : Z }.

Record gTypeMeta := mkTypeMeta { tm_Kind : string; tm_APIVersion : string }.

Record gObjectMeta := mkGMeta {
  gom_Name : string;
  gom_Namespace : string;
  gom_ResourceVersion : string;
  gom_DeletionTimestamp : ptr;
  gom_Labels : ptr;
  gom_Annotations : ptr
}.

Record gListMeta := mkGListMeta {
  glm_ResourceVersion : string;
  glm_Continue : string;
  glm_RemainingItemCount : ptr
}.

(** *** The structs of predictor_types.go *)

Record gFailureInfo := mkGFailureInfo {
  gfi_Location : string;
  gfi_Reason : FailureReason;
  gfi_Message : string;
  gfi_ModelId : string;
  gfi_Time : ptr
}.

Record gModelType := mkGModelType { gmt_Name : string; gmt_Version : ptr }.

Record gStorageSpec := mkGStorageSpec {
  gss_Path : ptr;
  gss_SchemaPath : ptr;
  gss_Parameters : ptr;
  gss_StorageKey : ptr
}.

Record gS3StorageSource := mkGS3 { gs3_SecretKey : string; gs3_Bucket : ptr }.

Record gStorage := mkGStorage {
  gst_StorageSpec : gStorageSpec;
  gst_PersistentVolumeClaim : ptr;
  gst_S3 : ptr
}.

Record gModel := mkGModel {
  gm_Type : gModelType;
  gm_Path : string;
  gm_SchemaPath : ptr;
  gm_Storage : ptr
}.

Record gPredictorRuntime := mkGPredictorRuntime { gpr_RuntimeRef : ptr }.

Record gPredictorSpec := mkGPredictorSpec {
  gps_ServiceAccountName : ptr;
  gps_Model : gModel;
  gps_Gpu : ptr;
  gps_Runtime : ptr;
  gps_ProtocolVersion : ptr
}.

Record gPredictorStatus := mkGPredictorStatus {
  gs_Available : bool;
  gs_TransitionStatus : TransitionStatus;
  gs_ActiveModelState : ModelState;
  gs_TargetModelState : ModelState;
  gs_LastFailureInfo : ptr;
  gs_HTTPEndpoint : string;
  gs_GrpcEndpoint : string;
  gs_TotalCopies : Z;
  gs_FailedCopies : Z
}.

Record gPredictor := mkGPredictor {
  gp_TypeMeta : gTypeMeta;
  gp_ObjectMeta : gObjectMeta;
  gp_Spec : gPredictorSpec;
  gp_Status : gPredictorStatus
}.

Record gPredictorList := mkGPredictorList {
  gl_TypeMeta : gTypeMeta;
  gl_ListMeta : gListMeta;
  gl_Items : ptr
}.

(** The interface value Client and the pointer Decoder. *)
Record gServingRuntimeWebhook := mkGWebhook { gw_Client : ptr; gw_Decoder : ptr }.

(** *** Cells

    A GpuRequest is a string; [None] is the empty one of a fresh variable. *)

Inductive cell :=
| CString (s : string)
| CInt (z : Z)
| CTime (t : gTime)
| CGpu (g : option GpuRequest)
| CPVC (c : PersistentVolumeClaimVolumeSource)
| CMapObject (m : gmap string string)
| CMapVar (m : ptr)
| CRuntimeRef (r : RuntimeRef)
| CPredictorRuntime (r : gPredictorRuntime)
| CModelType (t : gModelType)
| CStorageSpec (s : gStorageSpec)
| CS3 (s : gS3StorageSource)
| CStorage (s : gStorage)
| CModel (m : gModel)
| CFailureInfo (f : gFailureInfo)
| CPredictorSpec (s : gPredictorSpec)
| CPredictorStatus (s : gPredictorStatus)
| CPredictor (p : gPredictor)
| CPredictors (l : list gPredictor)
| CPredictorList (l : gPredictorList)
| CWebhook (w : gServingRuntimeWebhook).

Abbreviation heap := (gmap addr cell).

(** A type whose values fill a cell, with the zero value of [new]. *)
Class Cell (A : Type) := {
  to_cell : A → cell;
  of_cell : cell → option A;
  zero : A;
  of_to_cell a : of_cell (to_cell a) = Some a
}.

(** *** Zero values *)

Definition zStorageSpec := mkGStorageSpec None None None None.
Definition zModel := mkGModel (mkGModelType "" None) "" None None.
Definition zSpec := mkGPredictorSpec None zModel None None None.
Definition zStatus :=
  mkGPredictorStatus false NoTransitionStatus NoModelState NoModelState None "" "" 0 0.
Definition zPredictor :=
  mkGPredictor (mkTypeMeta "" "") (mkGMeta "" "" "" None None None) zSpec zStatus.
Definition zList := mkGPredictorList (mkTypeMeta "" "") (mkGListMeta "" "" None) None.

#[export] Instance Cell_string : Cell string := {|
  to_cell := CString; of_cell c := match c with CString a => Some a | _ => None end;
  zero := ""; of_to_cell _ := eq_refl |}.
#[export] Instance Cell_Z : Cell Z := {|
  to_cell := CInt; of_cell c := match c with CInt a => Some a | _ => None end;
  zero := 0%Z; of_to_cell _ := eq_refl |}.
#[export] Instance Cell_Time : Cell gTime := {|
  to_cell := CTime; of_cell c := match c with CTime a => Some a | _ => None end;
  zero := mkGTime zeroTime; of_to_cell _ := eq_refl |}.
#[export] Instance Cell_Gpu : Cell (option GpuRequest) := {|
  to_cell := CGpu; of_cell c := match c with CGpu a => Some a | _ => None end;
  zero := None; of_to_cell _ := eq_refl |}.
#[export] Instance Cell_PVC : Cell PersistentVolumeClaimVolumeSource := {|
  to_cell := CPVC; of_cell c := match c with CPVC a => Some a | _ => None end;
  zero := mkPVCSource "" false; of_to_cell _ := eq_refl |}.
#[export] Instance Cell_MapObject : Cell (gmap string string) := {|
  to_cell := CMapObject; of_cell c := match c with CMapObject a => Some a | _ => None end;
  zero := ∅; of_to_cell _ := eq_refl |}.
#[export] Instance Cell_MapVar : Cell ptr := {|
  to_cell := CMapVar; of_cell c := match c with CMapVar a => Some a | _ => None end;
  zero := None; of_to_cell _ := eq_refl |}.
#[export] Instance Cell_RuntimeRef : Cell RuntimeRef := {|
  to_cell := CRuntimeRef; of_cell c := match c with CRuntimeRef a => Some a | _ => None end;
  zero := mkRuntimeRef ""; of_to_cell _ := eq_refl |}.
#[export] Instance Cell_PredictorRuntime : Cell gPredictorRuntime := {|
  to_cell := CPredictorRuntime; of_cell c := match c with CPredictorRuntime a => Some a | _ => None end;
  zero := mkGPredictorRuntime None; of_to_cell _ := eq_refl |}.
#[export] Instance Cell_ModelType : Cell gModelType := {|
  to_cell := CModelType; of_cell c := match c with CModelType a => Some a | _ => None end;
  zero := mkGModelType "" None; of_to_cell _ := eq_refl |}.
#[export] Instance Cell_StorageSpec : Cell gStorageSpec := {|
  to_cell := CStorageSpec; of_cell c := match c with CStorageSpec a => Some a | _ => None end;
  zero := zStorageSpec; of_to_cell _ := eq_refl |}.
#[export] Instance Cell_S3 : Cell gS3StorageSource := {|
  to_cell := CS3; of_cell c := match c with CS3 a => Some a | _ => None end;
  zero := mkGS3 "" None; of_to_cell _ := eq_refl |}.
#[export] Instance Cell_Storage : Cell gStorage := {|
  to_cell := CStorage; of_cell c := match c with CStorage a => Some a | _ => None end;
  zero := mkGStorage zStorageSpec None None; of_to_cell _ := eq_refl |}.
#[export] Instance Cell_Model : Cell gModel := {|
  to_cell := CModel; of_cell c := match c with CModel a => Some a | _ => None end;
  zero := zModel; of_to_cell _ := eq_refl |}.
#[export] Instance Cell_FailureInfo : Cell gFailureInfo := {|
  to_cell := CFailureInfo; of_cell c := match c with CFailureInfo a => Some a | _ => None end;
  zero := mkGFailureInfo "" NoFailureReason "" "" None; of_to_cell _ := eq_refl |}.
#[export] Instance Cell_PredictorSpec : Cell gPredictorSpec := {|
  to_cell := CPredictorSpec; of_cell c := match c with CPredictorSpec a => Some a | _ => None end;
  zero := zSpec; of_to_cell _ := eq_refl |}.
#[export] Instance Cell_PredictorStatus : Cell gPredictorStatus := {|
  to_cell := CPredictorStatus; of_cell c := match c with CPredictorStatus a => Some a | _ => None end;
  zero := zStatus; of_to_cell _ := eq_refl |}.
#[export] Instance Cell_Predictor : Cell gPredictor := {|
  to_cell := CPredictor; of_cell c := match c with CPredictor a => Some a | _ => None end;
  zero := zPredictor; of_to_cell _ := eq_refl |}.
#[export] Instance Cell_Predictors : Cell (list gPredictor) := {|
  to_cell := CPredictors; of_cell c := match c with CPredictors a => Some a | _ => None end;
  zero := []; of_to_cell _ := eq_refl |}.
#[export] Instance Cell_PredictorList : Cell gPredictorList := {|
  to_cell := CPredictorList; of_cell c := match c with CPredictorList a => Some a | _ => None end;
  zero := zList; of_to_cell _ := eq_refl |}.
#[export] Instance Cell_Webhook : Cell gServingRuntimeWebhook := {|
  to_cell := CWebhook; of_cell c := match c with CWebhook a => Some a | _ => None end;
  zero := mkGWebhook None None; of_to_cell _ := eq_refl |}.

(** ** Computations on the memory *)

Definition M (A : Type) : Type := heap → exec (A * heap).

#[export] Instance M_ret : MRet M := λ A a h, Ret (a, h).
#[export] Instance M_bind : MBind M := λ A B f m h,
  match m h with Ret (a, h') => f a h' | Panic => Panic end.

(** A variable with an initial value; [new] is one with the zero value. *)
Definition newWith `{Cell A} (a : A) : M addr := λ h,
  let l := fresh (dom h) in Ret (l, <[l := to_cell a]> h).
Definition new (A : Type) `{Cell A} : M addr := newWith zero.

(** Reading and writing through a pointer *)
Definition load `{Cell A} (l : addr) : M A := λ h,
  match h !! l ≫= of_cell with Some a => Ret (a, h) | None => Panic end.
Definition store `{Cell A} (l : addr) (a : A) : M unit := λ h,
  Ret (tt, <[l := to_cell a]> h).

(** The function every DeepCopy method is, given the DeepCopyInto of its type, and
    what the generator emits for a pointer field: a nil pointer stays nil, any other
    one is replaced by a new variable the pointed-to struct is copied into. *)
Definition deepCopy `{Cell A} (DeepCopyInto : A → M A) (inp : ptr) : M ptr :=
  match inp with
  | None => mret None
  | Some l =>
      out ← new A;
      v ← load l;
      w ← DeepCopyInto v;
      store out w ;; mret (Some out)
  end.

(** A type without references: [*out = *in]. *)
Definition assign {A} (inp : A) : M A := mret inp.

(** A pointer field whose type has a DeepCopy of its own *)
Definition ifNonNil (DeepCopy : ptr → M ptr) (inp : ptr) : M ptr :=
  match inp with Some _ => DeepCopy inp | None => mret None end.

(** [for key, val := range *in { ( *out)[key] = val }] over the entries [kvs]. *)
Fixpoint copyEntries (out : addr) (kvs : list (string * string)) : M unit :=
  match kvs with
  | [] => mret tt
  | (key, val) :: rest =>
      m ← load (A := gmap string string) out;
      store out (<[key := val]> m) ;; copyEntries out rest
  end.

(** The field Parameters, a pointer to a map *)
Definition copyParameters (inp : ptr) : M ptr :=
  match inp with
  | None => mret None
  | Some l =>
      out ← new ptr;
      m ← load (A := ptr) l;
      match m with
      | None => mret tt
      | Some mo =>
          o ← new (gmap string string);
          store out (Some o) ;;
          entries ← load (A := gmap string string) mo;
          copyEntries o (map_to_list entries)
      end ;;
      mret (Some out)
  end.

(** ** What values the structs stand for *)

(** The pointed-to cell stands for the value; nil stands for the absent value. *)
Definition R_ptr {A V} `{Cell A} (R : heap → A → V → Prop)
    (h : heap) (p : ptr) (o : option V) : Prop :=
  match p, o with
  | None, None => True
  | Some l, Some v => ∃ a, h !! l = Some (to_cell a) ∧ R h a v
  | _, _ => False
  end.

Definition R_eq {A} (_ : heap) (a v : A) : Prop := a = v.
Definition R_Time (_ : heap) (t : gTime) (v : Z) : Prop := gt_Time t = v.
Definition R_Gpu (_ : heap) (g : option GpuRequest) (v : GpuRequest) : Prop := g = Some v.

(** A map value: nil is an empty map. *)
Definition R_map (h : heap) (p : ptr) (v : gmap string string) : Prop :=
  match p with
  | None => v = ∅
  | Some l => h !! l = Some (CMapObject v)
  end.

Definition R_ObjectMeta (h : heap) (g : gObjectMeta) (v : ObjectMeta) : Prop :=
  gom_Name g = om_Name v ∧ gom_Namespace g = om_Namespace v ∧
  gom_ResourceVersion g = om_ResourceVersion v ∧
  R_ptr R_Time h (gom_DeletionTimestamp g) (om_DeletionTimestamp v) ∧
  R_map h (gom_Labels g) (om_Labels v) ∧
  R_map h (gom_Annotations g) (om_Annotations v).

(** metav1.ListMeta as a value *)
Record ListMeta := mkListMeta {
  lm_ResourceVersion : string;
  lm_Continue : string;
  lm_RemainingItemCount : option Z
}.

Definition R_ListMeta (h : heap) (g : gListMeta) (v : ListMeta) : Prop :=
  glm_ResourceVersion g = lm_ResourceVersion v ∧ glm_Continue g = lm_Continue v ∧
  R_ptr R_eq h (glm_RemainingItemCount g) (lm_RemainingItemCount v).

Definition R_FailureInfo (h : heap) (g : gFailureInfo) (v : FailureInfo) : Prop :=
  gfi_Location g = fi_Location v ∧ gfi_Reason g = fi_Reason v ∧
  gfi_Message g = fi_Message v ∧ gfi_ModelId g = fi_ModelId v ∧
  R_ptr R_Time h (gfi_Time g) (fi_Time v).

Definition R_ModelType (h : heap) (g : gModelType) (v : ModelType) : Prop :=
  gmt_Name g = mt_Name v ∧ R_ptr R_eq h (gmt_Version g) (mt_Version v).

Definition R_StorageSpec (h : heap) (g : gStorageSpec) (v : StorageSpec) : Prop :=
  R_ptr R_eq h (gss_Path g) (ss_Path v) ∧ R_ptr R_eq h (gss_SchemaPath g) (ss_SchemaPath v) ∧
  R_ptr R_map h (gss_Parameters g) (ss_Parameters v) ∧
  R_ptr R_eq h (gss_StorageKey g) (ss_StorageKey v).

Definition R_S3 (h : heap) (g : gS3StorageSource) (v : S3StorageSource) : Prop :=
  gs3_SecretKey g = s3_SecretKey v ∧ R_ptr R_eq h (gs3_Bucket g) (s3_Bucket v).

Definition R_Storage (h : heap) (g : gStorage) (v : Storage) : Prop :=
  R_StorageSpec h (gst_StorageSpec g) (st_StorageSpec v) ∧
  R_ptr R_eq h (gst_PersistentVolumeClaim g) (st_PersistentVolumeClaim v) ∧
  R_ptr R_S3 h (gst_S3 g) (st_S3 v).

Definition R_Model (h : heap) (g : gModel) (v : Model) : Prop :=
  R_ModelType h (gm_Type g) (m_Type v) ∧ gm_Path g = m_Path v ∧
  R_ptr R_eq h (gm_SchemaPath g) (m_SchemaPath v) ∧
  R_ptr R_Storage h (gm_Storage g) (m_Storage v).

Definition R_PredictorRuntime (h : heap) (g : gPredictorRuntime) (v : PredictorRuntime) : Prop :=
  R_ptr R_eq h (gpr_RuntimeRef g) (pr_RuntimeRef v).

Definition R_PredictorSpec (h : heap) (g : gPredictorSpec) (v : PredictorSpec) : Prop :=
  R_ptr R_eq h (gps_ServiceAccountName g) (ps_ServiceAccountName v) ∧
  R_Model h (gps_Model g) (ps_Model v) ∧
  R_ptr R_Gpu h (gps_Gpu g) (ps_Gpu v) ∧
  R_ptr R_PredictorRuntime h (gps_Runtime g) (ps_Runtime v) ∧
  R_ptr R_eq h (gps_ProtocolVersion g) (ps_ProtocolVersion v).

Definition R_PredictorStatus (h : heap) (g : gPredictorStatus) (v : PredictorStatus) : Prop :=
  gs_Available g = Available v ∧ gs_TransitionStatus g = st_TransitionStatus v ∧
  gs_ActiveModelState g = ActiveModelState v ∧ gs_TargetModelState g = TargetModelState v ∧
  R_ptr R_FailureInfo h (gs_LastFailureInfo g) (LastFailureInfo v) ∧
  gs_HTTPEndpoint g = HTTPEndpoint v ∧ gs_GrpcEndpoint g = GrpcEndpoint v ∧
  gs_TotalCopies g = TotalCopies v ∧ gs_FailedCopies g = FailedCopies v.

(** A Predictor with its TypeMeta *)
Definition R_Predictor (h : heap) (g : gPredictor) (v : gTypeMeta * Predictor) : Prop :=
  gp_TypeMeta g = v.1 ∧ R_ObjectMeta h (gp_ObjectMeta g) (p_Meta v.2) ∧
  R_PredictorSpec h (gp_Spec g) (p_Spec v.2) ∧ R_PredictorStatus h (gp_Status g) (p_Status v.2).

Record PredictorList := mkPredictorList {
  pl_TypeMeta : gTypeMeta;
  pl_ListMeta : ListMeta;
  pl_Items : option (list (gTypeMeta * Predictor))
}.

Definition R_PredictorList (h : heap) (g : gPredictorList) (v : PredictorList) : Prop :=
  gl_TypeMeta g = pl_TypeMeta v ∧ R_ListMeta h (gl_ListMeta g) (pl_ListMeta v) ∧
  R_ptr (λ h, Forall2 (R_Predictor h)) h (gl_Items g) (pl_Items v).

(** ** The contract of a copy function *)

(** From memory [h], [m] returns, every cell of [h] keeps its content, and the
    cells [k] it added satisfy [Q] with the result. *)
Definition copying {A} (m : M A) (h : heap) (Q : heap → A → Prop) : Prop :=
  ∃ k a, m h = Ret (a, h ∪ k) ∧ h ##ₘ k ∧ Q k a.

Class Monotone {A V} (R : heap → A → V → Prop) : Prop :=
  monotone h h' a v : h ⊆ h' → R h a v → R h' a v.

Class DeepCopies {A V} (R : heap → A → V → Prop) (DeepCopyInto : A → M A) : Prop := {
  dc_mono :: Monotone R;
  dc_copy h a v : R h a v → copying (DeepCopyInto a) h (λ k a', R k a' v)
}.

(** *** Rules

    [copies h K m Q]: the same, where the cells [K] were added to [h] before. *)
Definition copies {A} (h K : heap) (m : M A) (Q : heap → A → Prop) : Prop :=
  ∃ K' a, m (h ∪ K) = Ret (a, h ∪ K') ∧ h ##ₘ K' ∧ K ⊆ K' ∧ Q K' a.

Lemma copies_copying {A} h (m : M A) Q : copies h ∅ m Q → copying m h Q.
Proof.
  intros (K & a & E & Hd & _ & HQ). exists K, a. by rewrite (right_id ∅ (∪)) in E.
Qed.

Lemma copies_ret {A} h K (a : A) (Q : heap → A → Prop) :
  h ##ₘ K → Q K a → copies h K (mret a) Q.
Proof. intros. by exists K, a. Qed.

Lemma copies_bind {A B} h K (m : M A) (f : A → M B) P Q :
  copies h K m P →
  (∀ K' a, h ##ₘ K' → K ⊆ K' → P K' a → copies h K' (f a) Q) →
  copies h K (m ≫= f) Q.
Proof.
  intros (K1 & a & E & Hd & HK & HP) Hf.
  destruct (Hf K1 a Hd HK HP) as (K2 & b & E2 & Hd2 & HK2 & HQ).
  exists K2, b. split_and!; [|done|by etrans|done].
  unfold mbind, M_bind. by rewrite E.
Qed.

Lemma copies_dc {A V} (R : heap → A → V → Prop) f `{!DeepCopies R f} h K a v :
  h ##ₘ K → R h a v → copies h K (f a) (λ K' a', R K' a' v).
Proof.
  intros Hd HR.
  destruct (dc_copy (h ∪ K) a v) as (k & a' & E & Hk & HR').
  { eapply monotone, HR. apply map_union_subseteq_l. }
  apply map_disjoint_union_l in Hk as [Hk1 Hk2].
  exists (K ∪ k), a'. rewrite (assoc (∪)). split_and!; [done|by apply map_disjoint_union_r|
    apply map_union_subseteq_l|].
  eapply monotone, HR'. by apply map_union_subseteq_r.
Qed.

(** The step every DeepCopyInto takes for a field *)
Lemma copies_field {A V B} (R : heap → A → V → Prop) f `{!DeepCopies R f} h K a v
    (g : A → M B) Q :
  h ##ₘ K → R h a v →
  (∀ K' a', h ##ₘ K' → K ⊆ K' → R K' a' v → copies h K' (g a') Q) →
  copies h K (f a ≫= g) Q.
Proof. intros Hd HR Hg. eapply copies_bind; [by apply (copies_dc R f)|done]. Qed.

(** *** Cells *)

Lemma fresh_heap (h : heap) : h !! fresh (dom h) = None.
Proof. apply not_elem_of_dom, is_fresh. Qed.

(** Allocation, a read and a write, as equations on the memory *)
Lemma newWith_eq `{Cell A} {B} (a : A) (f : addr → M B) h :
  (newWith a ≫= f) h = f (fresh (dom h)) (<[fresh (dom h) := to_cell a]> h).
Proof. done. Qed.

Lemma load_eq `{Cell A} {B} l (a : A) (f : A → M B) h :
  h !! l = Some (to_cell a) → (load l ≫= f) h = f a h.
Proof.
  intros E. unfold mbind at 1, M_bind, load. rewrite E. simpl. by rewrite of_to_cell.
Qed.

Lemma store_eq `{Cell A} {B} l (a : A) (f : unit → M B) h :
  (store l a ≫= f) h = f tt (<[l := to_cell a]> h).
Proof. done. Qed.

Lemma bind_eq {A B} (m : M A) (f : A → M B) h a h' :
  m h = Ret (a, h') → (m ≫= f) h = f a h'.
Proof. intros E. unfold mbind, M_bind. by rewrite E. Qed.

(** A copy begun after the variable [l] was allocated, and then written to [l] *)
Lemma insert_new_union (h k : heap) l c d :
  h !! l = None → <[l := c]> h ##ₘ k →
  h ##ₘ <[l := d]> k ∧ k !! l = None ∧
  <[l := d]> (<[l := c]> h ∪ k) = h ∪ <[l := d]> k.
Proof.
  intros Hl [Hk Hd]%map_disjoint_insert_l. split_and!; [by apply map_disjoint_insert_r|done|].
  by rewrite insert_union_l, insert_insert_eq, <- insert_union_l, insert_union_r by done.
Qed.

(** *** The generic copy functions *)

#[export] Instance R_ptr_mono {A V} `{Cell A} (R : heap → A → V → Prop) :
  Monotone R → Monotone (R_ptr R).
Proof.
  intros HR h h' [l|] [v|] Hh; simpl; [|done..].
  intros (a & E & Ha). exists a. split; [by eapply lookup_weaken|by eapply HR].
Qed.

#[export] Instance deepCopy_copies {A V} `{Cell A} (R : heap → A → V → Prop) f :
  DeepCopies R f → DeepCopies (R_ptr R) (deepCopy f).
Proof.
  intros HR. split; [apply _|]. intros h [l|] [v|]; [|done..|].
  2:{ intros _. exists ∅, None. rewrite (right_id ∅ (∪)).
      split_and!; [done|apply map_disjoint_empty_r|done]. }
  intros (a & E & Ha). pose proof (fresh_heap h) as Ho.
  set (o := fresh (dom h)) in *.
  destruct (dc_copy (R := R) (DeepCopyInto := f) (<[o := to_cell zero]> h) a v)
    as (k & w & Ef & Hk & Hw).
  { eapply monotone, Ha. by apply insert_subseteq. }
  destruct (insert_new_union h k o _ (to_cell w) Ho Hk) as (Hd & Hko & Eh).
  exists (<[o := to_cell w]> k), (Some o). split_and!; [|done|].
  - unfold deepCopy, new. rewrite newWith_eq. fold o.
    rewrite (load_eq l a) by (rewrite lookup_insert_ne; [done|congruence]).
    rewrite (bind_eq _ _ _ _ _ Ef), store_eq. by rewrite <- Eh.
  - exists w. split; [by rewrite lookup_insert_eq|].
    eapply monotone, Hw. by apply insert_subseteq.
Qed.

#[export] Instance assign_copies {A V} (P : A → V → Prop) : DeepCopies (λ _, P) assign.
Proof.
  split; [by intros h h' a v _|]. intros h a v Ha. exists ∅, a.
  rewrite (right_id ∅ (∪)). split_and!; [done|apply map_disjoint_empty_r|done].
Qed.

#[export] Instance assign_eq {A} : DeepCopies (@R_eq A) assign := assign_copies eq.
#[export] Instance assign_Time : DeepCopies R_Time assign := assign_copies (λ t v, gt_Time t = v).
#[export] Instance assign_Gpu : DeepCopies R_Gpu assign := assign_copies (λ g v, g = Some v).

#[export] Instance ifNonNil_copies {A V} `{Cell A} (R : heap → A → V → Prop) f :
  DeepCopies (R_ptr R) f → DeepCopies (R_ptr R) (ifNonNil f).
Proof.
  intros HR. split; [apply dc_mono|]. intros h [l|] v Hv; [by apply (dc_copy (DeepCopyInto := f))|].
  exists ∅, None. rewrite (right_id ∅ (∪)).
  split_and!; [done|apply map_disjoint_empty_r|by destruct v].
Qed.

(** *** Maps *)

Definition putAll (m : gmap string string) (kvs : list (string * string)) :=
  foldl (λ m kv, <[kv.1 := kv.2]> m) m kvs.

(** Ranging over a map in any order rebuilds it. *)
Lemma putAll_entries (m : gmap string string) kvs :
  kvs ≡ₚ map_to_list m → putAll ∅ kvs = m.
Proof.
  intros Hp. transitivity (list_to_map (M := gmap string string) (reverse kvs)).
  - clear Hp. induction kvs as [|[a b] l IH] using rev_ind; [done|].
    unfold putAll in *. by rewrite foldl_app, reverse_snoc, IH.
  - rewrite <- (list_to_map_to_list m). symmetry. apply list_to_map_proper.
    + apply NoDup_fst_map_to_list.
    + by rewrite reverse_Permutation.
Qed.

Lemma copyEntries_eq out kvs h m :
  h !! out = Some (CMapObject m) →
  copyEntries out kvs h = Ret (tt, <[out := CMapObject (putAll m kvs)]> h).
Proof.
  revert h m. induction kvs as [|[key val] rest IH]; intros h m E; cbn [copyEntries].
  - by rewrite insert_id.
  - rewrite (load_eq (A := gmap string string) out m) by done.
    rewrite store_eq, (IH _ (<[key := val]> m)) by by rewrite lookup_insert_eq.
    by rewrite insert_insert_eq.
Qed.

#[export] Instance R_map_mono : Monotone R_map.
Proof. intros h h' [l|] v Hh; simpl; [|done]. intros. by eapply lookup_weaken. Qed.

(** A pointer to a nil map is copied to one to a nil map. *)
Lemma copyMap_nil h l :
  h !! l = Some (CMapVar None) →
  copying (copyParameters (Some l)) h
    (λ k p, ∃ o, p = Some o ∧ k !! o = Some (CMapVar None)).
Proof.
  intros E. pose proof (fresh_heap h) as Ho. set (o := fresh (dom h)) in *.
  exists {[ o := CMapVar None ]}, (Some o). split_and!.
  - unfold copyParameters, new. rewrite newWith_eq. fold o.
    rewrite (load_eq (A := ptr) l None) by (rewrite lookup_insert_ne; [done|congruence]).
    cbn. by rewrite insert_union_singleton_l, map_union_comm by by apply map_disjoint_singleton_l.
  - by apply map_disjoint_singleton_r.
  - exists o. by rewrite lookup_singleton_eq.
Qed.

Lemma copyMap_made h l mo m :
  h !! l = Some (CMapVar (Some mo)) → h !! mo = Some (CMapObject m) →
  copying (copyParameters (Some l)) h
    (λ k p, ∃ o o', p = Some o ∧ k !! o = Some (CMapVar (Some o')) ∧
                    k !! o' = Some (CMapObject m)).
Proof.
  intros E Em. pose proof (fresh_heap h) as Ho. set (o := fresh (dom h)) in *.
  set (h1 := <[o := to_cell (A := ptr) zero]> h).
  pose proof (fresh_heap h1) as Ho'. set (o' := fresh (dom h1)) in *.
  assert (Hne : o ≠ o') by (intros E'; unfold h1 in Ho'; by rewrite <- E', lookup_insert_eq in Ho').
  assert (Ho2 : h !! o' = None) by by rewrite <- Ho'; unfold h1; rewrite lookup_insert_ne.
  exists (<[o := CMapVar (Some o')]> {[ o' := CMapObject m ]}), (Some o). split_and!.
  - unfold copyParameters, new. rewrite newWith_eq. fold o. fold h1.
    rewrite (load_eq (A := ptr) l (Some mo)) by (unfold h1; rewrite lookup_insert_ne; [done|congruence]).
    erewrite bind_eq; [reflexivity|].
    rewrite newWith_eq. fold o'. rewrite store_eq.
    rewrite (load_eq (A := gmap string string) mo m)
      by (unfold h1; rewrite !lookup_insert_ne by congruence; done).
    rewrite (copyEntries_eq _ _ _ ∅) by (rewrite lookup_insert_ne, lookup_insert_eq; done).
    rewrite (putAll_entries m) by done. f_equal. f_equal. unfold h1.
    rewrite <- insert_union_r, <- insert_union_singleton_r by done.
    rewrite (insert_insert_ne _ o' o), insert_insert_eq by done.
    by rewrite (insert_insert_ne h o' o), insert_insert_eq by done.
  - apply map_disjoint_insert_r. split; [done|]. by apply map_disjoint_singleton_r.
  - exists o, o'. by rewrite lookup_insert_eq, lookup_insert_ne, lookup_singleton_eq.
Qed.

#[export] Instance copyParameters_copies : DeepCopies (R_ptr R_map) copyParameters.
Proof.
  split; [apply _|]. intros h [l|] [v|]; [|done..|].
  - intros ([mo|] & E & Hm); simpl in Hm.
    + destruct (copyMap_made h l mo v E Hm) as (k & p & Ef & Hd & o & o' & -> & Ho & Ho').
      exists k, (Some o). split_and!; [done..|]. by exists (Some o').
    + subst v. destruct (copyMap_nil h l E) as (k & p & Ef & Hd & o & -> & Ho).
      exists k, (Some o). split_and!; [done..|]. by exists None.
  - intros _. exists ∅, None. rewrite (right_id ∅ (∪)).
    split_and!; [done|apply map_disjoint_empty_r|done].
Qed.

(** *** Automation *)

Ltac lift_facts K K' Hs :=
  repeat match goal with
  | Hf : ?R K ?a ?v |- _ => apply (monotone (R := R) K K' a v Hs) in Hf
  end.

(** One field copied after another, then the copied struct *)
Ltac copy_fields :=
  lazymatch goal with
  | |- copies ?h ?K (mret _) _ => apply copies_ret; [assumption|]
  | |- copies ?h ?K _ _ =>
      let K' := fresh "K" in let a := fresh "a" in
      let Hd := fresh "Hd" in let Hs := fresh "Hs" in let Ha := fresh "Ha" in
      eapply copies_field; [|eassumption|eassumption|];
      [apply _|intros K' a Hd Hs Ha; lift_facts K K' Hs; copy_fields]
  end.

(** The contract of a DeepCopyInto whose relation is [R], a conjunction *)
Ltac solve_copies R :=
  split;
  [ intros h h' g v Hh HR; unfold R in *; destruct_and? HR; split_and?;
    first [done|by eapply monotone]
  | intros h g v HR; unfold R in *; destruct_and? HR; apply copies_copying;
    pose proof (map_disjoint_empty_r h); copy_fields; split_and?; assumption ].

(** ** The copy functions *)

(** The metadata types belong to the Kubernetes API machinery, which generates their
    copy functions the same way. *)
Class MetaV1 := {
  Time_DeepCopy : ptr → M ptr;
  ObjectMeta_DeepCopyInto : gObjectMeta → M gObjectMeta;
  ListMeta_DeepCopyInto : gListMeta → M gListMeta;
  Time_copies :: DeepCopies (R_ptr R_Time) Time_DeepCopy;
  ObjectMeta_copies :: DeepCopies R_ObjectMeta ObjectMeta_DeepCopyInto;
  ListMeta_copies :: DeepCopies R_ListMeta ListMeta_DeepCopyInto
}.

Section DeepCopy.
Context `{!MetaV1}.

Definition FailureInfo_DeepCopyInto (inp : gFailureInfo) : M gFailureInfo :=
  t ← ifNonNil Time_DeepCopy (gfi_Time inp);
  mret (mkGFailureInfo (gfi_Location inp) (gfi_Reason inp) (gfi_Message inp)
          (gfi_ModelId inp) t).

Definition FailureInfo_DeepCopy : ptr → M ptr := deepCopy FailureInfo_DeepCopyInto.

Definition ModelType_DeepCopyInto (inp : gModelType) : M gModelType :=
  v ← deepCopy (A := string) assign (gmt_Version inp);
  mret (mkGModelType (gmt_Name inp) v).

Definition ModelType_DeepCopy : ptr → M ptr := deepCopy ModelType_DeepCopyInto.

Definition StorageSpec_DeepCopyInto (inp : gStorageSpec) : M gStorageSpec :=
  path ← deepCopy (A := string) assign (gss_Path inp);
  schema ← deepCopy (A := string) assign (gss_SchemaPath inp);
  parameters ← copyParameters (gss_Parameters inp);
  key ← deepCopy (A := string) assign (gss_StorageKey inp);
  mret (mkGStorageSpec path schema parameters key).

Definition StorageSpec_DeepCopy : ptr → M ptr := deepCopy StorageSpec_DeepCopyInto.

Definition S3StorageSource_DeepCopyInto (inp : gS3StorageSource) : M gS3StorageSource :=
  bucket ← deepCopy (A := string) assign (gs3_Bucket inp);
  mret (mkGS3 (gs3_SecretKey inp) bucket).

Definition S3StorageSource_DeepCopy : ptr → M ptr := deepCopy S3StorageSource_DeepCopyInto.

Definition Storage_DeepCopyInto (inp : gStorage) : M gStorage :=
  spec ← StorageSpec_DeepCopyInto (gst_StorageSpec inp);
  pvc ← deepCopy (A := PersistentVolumeClaimVolumeSource) assign
          (gst_PersistentVolumeClaim inp);
  s3 ← deepCopy S3StorageSource_DeepCopyInto (gst_S3 inp);
  mret (mkGStorage spec pvc s3).

Definition Storage_DeepCopy : ptr → M ptr := deepCopy Storage_DeepCopyInto.

Definition Model_DeepCopyInto (inp : gModel) : M gModel :=
  type ← ModelType_DeepCopyInto (gm_Type inp);
  schema ← deepCopy (A := string) assign (gm_SchemaPath inp);
  storage ← deepCopy Storage_DeepCopyInto (gm_Storage inp);
  mret (mkGModel type (gm_Path inp) schema storage).

Definition Model_DeepCopy : ptr → M ptr := deepCopy Model_DeepCopyInto.

Definition RuntimeRef_DeepCopyInto (inp : RuntimeRef) : M RuntimeRef := assign inp.
Definition RuntimeRef_DeepCopy : ptr → M ptr := deepCopy RuntimeRef_DeepCopyInto.

Definition PredictorRuntime_DeepCopyInto (inp : gPredictorRuntime) : M gPredictorRuntime :=
  ref ← deepCopy (A := RuntimeRef) assign (gpr_RuntimeRef inp);
  mret (mkGPredictorRuntime ref).

Definition PredictorRuntime_DeepCopy : ptr → M ptr := deepCopy PredictorRuntime_DeepCopyInto.

Definition PredictorSpec_DeepCopyInto (inp : gPredictorSpec) : M gPredictorSpec :=
  account ← deepCopy (A := string) assign (gps_ServiceAccountName inp);
  model ← Model_DeepCopyInto (gps_Model inp);
  gpu ← deepCopy (A := option GpuRequest) assign (gps_Gpu inp);
  runtime ← deepCopy PredictorRuntime_DeepCopyInto (gps_Runtime inp);
  protocol ← deepCopy (A := string) assign (gps_ProtocolVersion inp);
  mret (mkGPredictorSpec account model gpu runtime protocol).

Definition PredictorSpec_DeepCopy : ptr → M ptr := deepCopy PredictorSpec_DeepCopyInto.

Definition PredictorStatus_DeepCopyInto (inp : gPredictorStatus) : M gPredictorStatus :=
  failure ← deepCopy FailureInfo_DeepCopyInto (gs_LastFailureInfo inp);
  mret (mkGPredictorStatus (gs_Available inp) (gs_TransitionStatus inp)
          (gs_ActiveModelState inp) (gs_TargetModelState inp) failure
          (gs_HTTPEndpoint inp) (gs_GrpcEndpoint inp) (gs_TotalCopies inp)
          (gs_FailedCopies inp)).

Definition PredictorStatus_DeepCopy : ptr → M ptr := deepCopy PredictorStatus_DeepCopyInto.

Definition Predictor_DeepCopyInto (inp : gPredictor) : M gPredictor :=
  meta ← ObjectMeta_DeepCopyInto (gp_ObjectMeta inp);
  spec ← PredictorSpec_DeepCopyInto (gp_Spec inp);
  status ← PredictorStatus_DeepCopyInto (gp_Status inp);
  mret (mkGPredictor (gp_TypeMeta inp) meta spec status).

Definition Predictor_DeepCopy : ptr → M ptr := deepCopy Predictor_DeepCopyInto.

(** A runtime.Object is an interface value: nil, or a pointer with its type. A nil
    pointer of a type would not be a nil interface value. *)
Inductive Object := PredictorObject (p : ptr) | PredictorListObject (p : ptr).

Definition Predictor_DeepCopyObject (inp : ptr) : M (option Object) :=
  c ← Predictor_DeepCopy inp;
  mret (match c with Some _ => Some (PredictorObject c) | None => None end).

(** [for i := range *in { ( *in)[i].DeepCopyInto(&( *out)[i]) }] *)
Fixpoint copyItems (out : addr) (i : nat) (items : list gPredictor) : M unit :=
  match items with
  | [] => mret tt
  | p :: rest =>
      w ← Predictor_DeepCopyInto p;
      a ← load (A := list gPredictor) out;
      store out (<[i := w]> a) ;; copyItems out (S i) rest
  end.

Definition copySlice (inp : ptr) : M ptr :=
  match inp with
  | None => mret None
  | Some l =>
      items ← load (A := list gPredictor) l;
      out ← newWith (replicate (length items) zPredictor);
      copyItems out 0 items ;; mret (Some out)
  end.

Definition PredictorList_DeepCopyInto (inp : gPredictorList) : M gPredictorList :=
  meta ← ListMeta_DeepCopyInto (gl_ListMeta inp);
  items ← copySlice (gl_Items inp);
  mret (mkGPredictorList (gl_TypeMeta inp) meta items).

Definition PredictorList_DeepCopy : ptr → M ptr := deepCopy PredictorList_DeepCopyInto.

Definition PredictorList_DeepCopyObject (inp : ptr) : M (option Object) :=
  c ← PredictorList_DeepCopy inp;
  mret (match c with Some _ => Some (PredictorListObject c) | None => None end).

(** The webhook's references are shared by its copies. *)
Definition ServingRuntimeWebhook_DeepCopyInto (inp : gServingRuntimeWebhook)
  : M gServingRuntimeWebhook := assign inp.
Definition ServingRuntimeWebhook_DeepCopy : ptr → M ptr :=
  deepCopy ServingRuntimeWebhook_DeepCopyInto.

(** ** The copies are deep *)

#[export] Instance FailureInfo_copies : DeepCopies R_FailureInfo FailureInfo_DeepCopyInto.
Proof. solve_copies R_FailureInfo. Qed.
#[export] Instance ModelType_copies : DeepCopies R_ModelType ModelType_DeepCopyInto.
Proof. solve_copies R_ModelType. Qed.
#[export] Instance StorageSpec_copies : DeepCopies R_StorageSpec StorageSpec_DeepCopyInto.
Proof. solve_copies R_StorageSpec. Qed.
#[export] Instance S3_copies : DeepCopies R_S3 S3StorageSource_DeepCopyInto.
Proof. solve_copies R_S3. Qed.
#[export] Instance Storage_copies : DeepCopies R_Storage Storage_DeepCopyInto.
Proof. solve_copies R_Storage. Qed.
#[export] Instance Model_copies : DeepCopies R_Model Model_DeepCopyInto.
Proof. solve_copies R_Model. Qed.
#[export] Instance PredictorRuntime_copies :
  DeepCopies R_PredictorRuntime PredictorRuntime_DeepCopyInto.
Proof. solve_copies R_PredictorRuntime. Qed.
#[export] Instance PredictorSpec_copies : DeepCopies R_PredictorSpec PredictorSpec_DeepCopyInto.
Proof. solve_copies R_PredictorSpec. Qed.
#[export] Instance PredictorStatus_copies :
  DeepCopies R_PredictorStatus PredictorStatus_DeepCopyInto.
Proof. solve_copies R_PredictorStatus. Qed.
#[export] Instance Predictor_copies : DeepCopies R_Predictor Predictor_DeepCopyInto.
Proof. solve_copies R_Predictor. Qed.

(** *** The items of a list *)

#[export] Instance R_items_mono : Monotone (λ h, Forall2 (R_Predictor h)).
Proof.
  intros h h' l l' Hh Hl. eapply Forall2_impl; [exact Hl|]. intros g v Hg.
  by eapply (monotone (R := R_Predictor)).
Qed.

(** The memory while the loop runs: the array [o] holds the items copied so far,
    which refer to the cells [k]. *)
Definition arrayMem (h k : heap) (o : addr) (arr : list gPredictor) : heap :=
  h ∪ <[o := CPredictors arr]> k.

Lemma arrayMem_lookup h k o arr : h !! o = None →
  arrayMem h k o arr !! o = Some (CPredictors arr).
Proof.
  intros Hh. unfold arrayMem. by rewrite lookup_union_r, lookup_insert_eq.
Qed.

Lemma arrayMem_add h k k1 o arr :
  arrayMem h k o arr ∪ k1 = arrayMem h (k ∪ k1) o arr.
Proof. unfold arrayMem. by rewrite insert_union_l, (assoc (∪)). Qed.

Lemma arrayMem_store h k o arr arr' : h !! o = None →
  <[o := CPredictors arr']> (arrayMem h k o arr) = arrayMem h k o arr'.
Proof.
  intros. unfold arrayMem. by rewrite insert_union_r, insert_insert_eq by done.
Qed.

Lemma copyItems_ok h o items vs :
  h !! o = None → Forall2 (R_Predictor h) items vs →
  ∀ k copied ws, h ##ₘ k → k !! o = None → Forall2 (R_Predictor k) copied ws →
  ∃ k' arr, copyItems o (length copied) items
      (arrayMem h k o (copied ++ replicate (length items) zPredictor))
      = Ret (tt, arrayMem h k' o arr) ∧
    h ##ₘ k' ∧ k' !! o = None ∧ Forall2 (R_Predictor k') arr (ws ++ vs).
Proof.
  intros Ho. induction 1 as [|p v items vs Hp _ IH]; intros k copied ws Hd Hk Hc.
  { exists k, copied. by rewrite !app_nil_r. }
  cbn [length copyItems].
  set (H0 := arrayMem h k o _).
  destruct (dc_copy (R := R_Predictor) (DeepCopyInto := Predictor_DeepCopyInto) H0 p v)
    as (k1 & w & E & Hd1 & Hw).
  { eapply monotone, Hp. apply map_union_subseteq_l. }
  apply map_disjoint_union_l in Hd1 as [Hh1 [Hk1 Hkk]%map_disjoint_insert_l].
  destruct (IH (k ∪ k1) (copied ++ [w]) (ws ++ [v])) as (k' & arr & E' & ? & ? & Harr).
  - by apply map_disjoint_union_r.
  - by apply lookup_union_None.
  - apply Forall2_app.
    + eapply (monotone (R := λ h, Forall2 (R_Predictor h))), Hc. apply map_union_subseteq_l.
    + constructor; [|constructor]. eapply monotone, Hw. by apply map_union_subseteq_r.
  - exists k', arr. split_and!; [|done..|by rewrite <- (assoc (++)) in Harr].
    rewrite (bind_eq _ _ _ _ _ E). unfold H0. rewrite arrayMem_add.
    erewrite load_eq by by apply (arrayMem_lookup h (k ∪ k1) o).
    rewrite store_eq, <- E', length_app, Nat.add_1_r. f_equal.
    transitivity (<[o := CPredictors ((copied ++ [w]) ++ replicate (length items) zPredictor)]>
      (arrayMem h (k ∪ k1) o (copied ++ replicate (S (length items)) zPredictor)));
      [|by apply arrayMem_store].
    do 2 f_equal. cbn [replicate]. rewrite insert_app_r_alt, Nat.sub_diag by done.
    by rewrite <- (assoc (++)).
Qed.

#[export] Instance copySlice_copies :
  DeepCopies (R_ptr (λ h, Forall2 (R_Predictor h))) copySlice.
Proof.
  split; [apply _|]. intros h [l|] [vs|]; [|done..|].
  - intros (items & E & Hi). pose proof (fresh_heap h) as Ho. set (o := fresh (dom h)) in *.
    destruct (copyItems_ok h o items vs Ho Hi ∅ [] []) as (k & arr & Ec & Hd & Hk & Ha);
      [apply map_disjoint_empty_r|done|constructor|].
    exists (<[o := CPredictors arr]> k), (Some o). split_and!.
    + unfold copySlice. rewrite (load_eq l items) by done. rewrite newWith_eq. fold o.
      unfold arrayMem in Ec. rewrite insert_empty in Ec.
      rewrite <- insert_union_singleton_r in Ec by done.
      by rewrite (bind_eq _ _ _ _ _ Ec).
    + by apply map_disjoint_insert_r.
    + exists arr. split; [by rewrite lookup_insert_eq|].
      eapply (monotone (R := λ h, Forall2 (R_Predictor h))), Ha. by apply insert_subseteq.
  - intros _. exists ∅, None. rewrite (right_id ∅ (∪)).
    split_and!; [done|apply map_disjoint_empty_r|done].
Qed.

#[export] Instance PredictorList_copies :
  DeepCopies R_PredictorList PredictorList_DeepCopyInto.
Proof. solve_copies R_PredictorList. Qed.

(** ** The original and the copy are isolated *)

(** [p] in [h] and its copy [p'] in [h'] stand for the same value, and do so in every
    later memory [g] in which the other's cells have changed at will. *)
Definition isolated {A V} (R : heap → A → V → Prop) (h : heap) (p : A) (v : V)
    (h' : heap) (p' : A) : Prop :=
  h ⊆ h' ∧ R h' p' v ∧
  (∀ g, (∀ l, l ∈ dom h → g !! l = h' !! l) → R g p v) ∧
  (∀ g, (∀ l, l ∉ dom h → g !! l = h' !! l) → R g p' v).

Lemma copying_isolated {A V} (R : heap → A → V → Prop) `{!Monotone R} h p v k p' :
  R h p v → h ##ₘ k → R k p' v → isolated R h p v (h ∪ k) p'.
Proof.
  intros Hp Hd Hk. split_and!.
  - apply map_union_subseteq_l.
  - eapply monotone, Hk. by apply map_union_subseteq_r.
  - intros g Hg. eapply monotone, Hp. apply map_subseteq_spec. intros l c Hl.
    rewrite Hg by by eapply elem_of_dom_2. by apply lookup_union_Some_l.
  - intros g Hg. eapply monotone, Hk. apply map_subseteq_spec. intros l c Hl.
    assert (h !! l = None) by by eapply map_disjoint_Some_r.
    rewrite Hg by by apply not_elem_of_dom. by apply lookup_union_Some_r.
Qed.

Lemma deepCopy_isolated {A V B} `{Cell A} (R : heap → A → V → Prop) f `{!DeepCopies R f}
    (g : ptr → B) h p v :
  R_ptr R h p (Some v) →
  ∃ p' h', (c ← deepCopy f p; mret (g c)) h = Ret (g (Some p'), h') ∧
    isolated (R_ptr R) h p (Some v) h' (Some p').
Proof.
  intros Hp.
  destruct (dc_copy (R := R_ptr R) (DeepCopyInto := deepCopy f) h p (Some v) Hp)
    as (k & [p'|] & E & Hd & Hk); [|done].
  exists p', (h ∪ k). split; [by erewrite bind_eq by exact E|].
  by apply (copying_isolated (R_ptr R)).
Qed.

(** C17: The copy of a Predictor object, or of a list of them, never panics, leaves
    every existing cell as it is and yields an object of the same value that shares no
    cell with the original: writing to either one, at any depth, is never seen
    through the other. *)
Theorem deepcopy_isolated h :
  (∀ p P, R_ptr R_Predictor h p (Some P) →
     ∃ p' h', Predictor_DeepCopyObject p h = Ret (Some (PredictorObject (Some p')), h') ∧
       isolated (R_ptr R_Predictor) h p (Some P) h' (Some p')) ∧
  (∀ p L, R_ptr R_PredictorList h p (Some L) →
     ∃ p' h', PredictorList_DeepCopyObject p h
                = Ret (Some (PredictorListObject (Some p')), h') ∧
       isolated (R_ptr R_PredictorList) h p (Some L) h' (Some p')).
Proof.
  split; intros p v Hp.
  - exact (deepCopy_isolated R_Predictor Predictor_DeepCopyInto
      (λ c, match c with Some _ => Some (PredictorObject c) | None => None end) h p v Hp).
  - exact (deepCopy_isolated R_PredictorList PredictorList_DeepCopyInto
      (λ c, match c with Some _ => Some (PredictorListObject c) | None => None end) h p v Hp).
Qed.

(** A nil Predictor is copied to a nil object. *)
Lemma DeepCopyObject_nil h :
  Predictor_DeepCopyObject None h = Ret (None, h) ∧
  PredictorList_DeepCopyObject None h = Ret (None, h).
Proof. done. Qed.

(** The webhook's copy shares its client and decoder. *)
Lemma webhook_copy_shallow h l w :
  h !! l = Some (CWebhook w) →
  copying (ServingRuntimeWebhook_DeepCopy (Some l)) h
    (λ k p, ∃ o, p = Some o ∧ k !! o = Some (CWebhook w)).
Proof.
  intros E.
  destruct (dc_copy (R := R_ptr R_eq)
    (DeepCopyInto := deepCopy (A := gServingRuntimeWebhook) assign) h (Some l) (Some w))
    as (k & [o|] & Ef & Hd & Hk); [by exists w| |done].
  exists k, (Some o). split_and!; [done..|]. exists o. by destruct Hk as (? & ? & <-).
Qed.

End DeepCopy.

(** ** An implementation of the metadata's copy functions *)

(** A map field, as the generator copies it *)
Definition copyMap (inp : ptr) : M ptr :=
  deepCopy (A := gmap string string) assign inp.

Definition metaV1_ObjectMeta (inp : gObjectMeta) : M gObjectMeta :=
  t ← deepCopy (A := gTime) assign (gom_DeletionTimestamp inp);
  labels ← copyMap (gom_Labels inp);
  annotations ← copyMap (gom_Annotations inp);
  mret (mkGMeta (gom_Name inp) (gom_Namespace inp) (gom_ResourceVersion inp)
          t labels annotations).

Definition metaV1_ListMeta (inp : gListMeta) : M gListMeta :=
  n ← deepCopy (A := Z) assign (glm_RemainingItemCount inp);
  mret (mkGListMeta (glm_ResourceVersion inp) (glm_Continue inp) n).

#[export] Instance copyMap_copies : DeepCopies R_map copyMap.
Proof.
  split; [apply _|]. intros h [l|] v HR.
  - destruct (dc_copy (R := R_ptr R_eq) (DeepCopyInto := copyMap) h (Some l) (Some v))
      as (k & [o|] & E & Hd & Hk); [by exists v| |done].
    exists k, (Some o). split_and!; [done..|]. by destruct Hk as (? & Hk & <-).
  - exists ∅, None. rewrite (right_id ∅ (∪)).
    split_and!; [done|apply map_disjoint_empty_r|done].
Qed.

#[export] Instance metaV1_ObjectMeta_copies : DeepCopies R_ObjectMeta metaV1_ObjectMeta.
Proof. solve_copies R_ObjectMeta. Qed.
#[export] Instance metaV1_ListMeta_copies : DeepCopies R_ListMeta metaV1_ListMeta.
Proof. solve_copies R_ListMeta. Qed.

Definition metaV1Impl : MetaV1 := {|
  Time_DeepCopy := deepCopy (A := gTime) assign;
  ObjectMeta_DeepCopyInto := metaV1_ObjectMeta;
  ListMeta_DeepCopyInto := metaV1_ListMeta
|}.

(** ** A run *)

Definition exGStorage : gStorage :=
  mkGStorage (mkGStorageSpec (Some 1) None (Some 2) None) None None.
Definition exGPredictor : gPredictor :=
  mkGPredictor (mkTypeMeta "Predictor" "serving.kserve.io/v1alpha1")
    (mkGMeta "p" "ns" "7" None (Some 5) None)
    (mkGPredictorSpec None (mkGModel (mkGModelType "onnx" None) "" None (Some 4)) None None None)
    (mkGPredictorStatus false UpToDate Pending NoModelState (Some 6) "" "" 0 0).
Definition exHeap : heap :=
  <[0 := CPredictor exGPredictor]> (<[1 := CString "models/m"]> (<[2 := CMapVar (Some 3)]>
  (<[3 := CMapObject {[ "bucket" := "b" ]}]> (<[4 := CStorage exGStorage]>
  (<[5 := CMapObject {[ "app" := "x" ]}]>
  (<[6 := CFailureInfo (mkGFailureInfo "pod" ModelLoadFailed "m" "id" (Some 7))]>
  (<[7 := CTime (mkGTime 9)]> (<[8 := CPredictors [exGPredictor]]>
  (<[9 := CPredictorList (mkGPredictorList (mkTypeMeta "" "") (mkGListMeta "7" "" None)
            (Some 8))]> ∅))))))))).
Definition exValue : gTypeMeta * Predictor :=
  (mkTypeMeta "Predictor" "serving.kserve.io/v1alpha1",
   mkPredictor (mkMeta "p" "ns" "7" None {[ "app" := "x" ]} ∅)
     (mkPredictorSpec None
        (mkModel (mkModelType "onnx" None) "" None
           (Some (mkStorage (mkStorageSpec (Some "models/m") None
                    (Some {[ "bucket" := "b" ]}) None) None None))) None None None)
     (mkPredictorStatus false UpToDate Pending NoModelState
        (Some (mkFailureInfo "pod" ModelLoadFailed "m" "id" (Some 9%Z))) "" "" 0 0)).

Lemma exValue_ok : R_Predictor exHeap exGPredictor exValue.
Proof.
  unfold R_Predictor, R_ObjectMeta, R_PredictorSpec, R_PredictorStatus, R_Model, R_ModelType.
  cbn -[lookup exHeap]. split_and!; try done.
  - exists exGStorage. split; [done|].
    unfold R_Storage, R_StorageSpec. cbn -[lookup exHeap]. split_and!; try done.
    + by eexists.
    + by exists (Some 3).
  - eexists. split; [done|]. unfold R_FailureInfo. cbn -[lookup exHeap].
    split_and!; try done. by eexists.
Qed.

Lemma deepcopy_isolated_witness :
  let L := mkPredictorList (mkTypeMeta "" "") (mkListMeta "7" "" None) (Some [exValue]) in
  (∃ p' h', Predictor_DeepCopyObject (H := metaV1Impl) (Some 0) exHeap
              = Ret (Some (PredictorObject (Some p')), h') ∧
     isolated (R_ptr R_Predictor) exHeap (Some 0) (Some exValue) h' (Some p')) ∧
  (∃ p' h', PredictorList_DeepCopyObject (H := metaV1Impl) (Some 9) exHeap
              = Ret (Some (PredictorListObject (Some p')), h') ∧
     isolated (R_ptr R_PredictorList) exHeap (Some 9) (Some L) h' (Some p')).
Proof.
  intros L. pose proof (deepcopy_isolated (H := metaV1Impl) exHeap) as [Hp Hl]. split.
  - apply Hp. exists exGPredictor. split; [done|apply exValue_ok].
  - apply Hl. eexists. split; [done|]. unfold R_PredictorList, R_ListMeta.
    split_and!; try done. exists [exGPredictor]. split; [done|].
    constructor; [apply exValue_ok|constructor].
Defined.

(** Overwriting the copy's parameters leaves the original's parameters as they were. *)
Example copy_then_write :
  match Predictor_DeepCopy (H := metaV1Impl) (Some 0) exHeap with
  | Ret (Some o, h') =>
      ∃ g s m l, h' !! o = Some (CPredictor g) ∧ gm_Storage (gps_Model (gp_Spec g)) = Some s ∧
        h' !! s = Some (CStorage m) ∧ gss_Parameters (gst_StorageSpec m) = Some l ∧
        exHeap !! o = None ∧ exHeap !! s = None ∧ exHeap !! l = None ∧
        (<[l := CMapVar None]> h') !! 2 = Some (CMapVar (Some 3))
  | _ => False
  end.
Proof. vm_compute. repeat eexists. Qed.
