(* ===== verification/Mesh.v ===== *)
(** * Predictors and the registrations in model-mesh

    The Predictor controller against the two states it keeps in step: the Predictors
    its registries show and the vmodels registered with model-mesh. A world holds
    both, the controller's work queue and the request its worker has taken. A
    change of a Predictor or of a vmodel puts a request for it on the queue, unless
    its event is missed; the worker takes a request, reads the Predictor, runs
    [Reconcile], and the request goes back on the queue when the result asks for it.
    Between two steps of the worker the world may change.

    Events can be missed: the watch of the vmodels forgets deletions that happen
    before its first resynchronisation ([RangeWatcher.first_resync_misses_deletion])
    and a failed change of the secret stops it
    ([EventsProps.failed_secret_change_stops_watches]). The world records of which
    Predictors a change went unannounced since the worker last took a request for
    them.

    Model-mesh is reached through a client whose answers are arbitrary;
    [mesh_call] is what its documentation says of an answer: an accepted
    registration is in place and never takes a vmodel from another owner, a deletion
    removes the vmodel of its owner only, and a call that failed may or may not have
    had its effect. That a change leads to a request which resolves to what changed is
    shown of the watches and of the event stream at the end. *)

From S2P Require Import Prelude GoStrings Types Registry ModelTypes.
From S2P Require Import PredictorController PredictorControllerProps Connections.
From S2P Require Import RangeWatcher Events.
From Stdlib Require Import Ascii.

(** ** Model-mesh's registry of vmodels *)

(** The namespace and the id of a vmodel; its owner and its target model *)
Abbreviation vmodel_key := (string * string)%type.
Abbreviation mesh := (gmap vmodel_key (string * string)).

Definition owned (m : mesh) (owner : string) (k : vmodel_key) (target : string) : Prop :=
  m !! k = Some (owner, target).

(** No other owner has the vmodel. *)
Definition free_for (m : mesh) (owner : string) (k : vmodel_key) : Prop :=
  ∀ o t, m !! k = Some (o, t) → o = owner.

Definition register (ns : string) (rq : SetVModelRequest) (m : mesh) : mesh :=
  <[(ns, sv_VModelId rq) := (sv_Owner rq, sv_TargetModelId rq)]> m.

Definition unregister (ns : string) (rq : DeleteVModelRequest) (m : mesh) : mesh :=
  match m !! (ns, dv_VModelId rq) with
  | Some (o, _) => if bool_decide (o = dv_Owner rq) then delete (ns, dv_VModelId rq) m else m
  | None => m
  end.

(** The effect of one call in the namespace [ns], given the answer of the client *)
Inductive mesh_call (ns : string) (mmc : ModelMeshClient)
  : PredictorCall → mesh → mesh → Prop :=
| set_accepted rq v m : SetVModel mmc rq = Ok v →
    free_for m (sv_Owner rq) (ns, sv_VModelId rq) →
    mesh_call ns mmc (CallSetVModel rq) m (register ns rq m)
| set_lost rq e m : SetVModel mmc rq = Err e → mesh_call ns mmc (CallSetVModel rq) m m
| set_unanswered rq e m : SetVModel mmc rq = Err e →
    free_for m (sv_Owner rq) (ns, sv_VModelId rq) →
    mesh_call ns mmc (CallSetVModel rq) m (register ns rq m)
| delete_accepted rq m : DeleteVModel mmc rq = None →
    mesh_call ns mmc (CallDeleteVModel rq) m (unregister ns rq m)
| delete_lost rq e m : DeleteVModel mmc rq = Some e → mesh_call ns mmc (CallDeleteVModel rq) m m
| delete_unanswered rq e m : DeleteVModel mmc rq = Some e →
    mesh_call ns mmc (CallDeleteVModel rq) m (unregister ns rq m)
| get_reads rq m : mesh_call ns mmc (CallGetVModelStatus rq) m m
| status_elsewhere p m : mesh_call ns mmc (CallUpdateStatus p) m m.

(** The calls of a reconciliation, in order; without a client only the status update
    is possible. *)
Inductive mesh_calls (ns : string) : option ModelMeshClient → list PredictorCall →
    mesh → mesh → Prop :=
| no_calls c m : mesh_calls ns c [] m m
| one_call mmc c cs m m1 m' : mesh_call ns mmc c m m1 → mesh_calls ns (Some mmc) cs m1 m' →
    mesh_calls ns (Some mmc) (c :: cs) m m'
| no_client p cs m m' : mesh_calls ns None cs m m' →
    mesh_calls ns None (CallUpdateStatus p :: cs) m m'.

(** *** What a reconciliation can change *)

(** The call concerns the vmodel [id] of [owner] only. *)
Definition call_for (owner id : string) (c : PredictorCall) : Prop :=
  match c with
  | CallSetVModel rq => sv_VModelId rq = id ∧ sv_Owner rq = owner
  | CallDeleteVModel rq => dv_VModelId rq = id ∧ dv_Owner rq = owner
  | _ => True
  end.

(** Every vmodel but that of [owner] under [k] is as it was. *)
Definition same_but (owner : string) (k : vmodel_key) (m m' : mesh) : Prop :=
  ∀ o k' t, (o, k') ≠ (owner, k) → owned m o k' t ↔ owned m' o k' t.

#[export] Instance same_but_preorder owner k : PreOrder (same_but owner k).
Proof.
  split; [done|]. intros m1 m2 m3 H12 H23 o k' t Hne.
  rewrite (H12 o k' t Hne). by apply H23.
Qed.

Lemma register_same_but ns rq m :
  free_for m (sv_Owner rq) (ns, sv_VModelId rq) →
  same_but (sv_Owner rq) (ns, sv_VModelId rq) m (register ns rq m).
Proof.
  intros Hf o k t Hne. unfold owned, register. rewrite lookup_insert_Some.
  destruct (decide ((ns, sv_VModelId rq) = k)) as [<-|Hk]; [|naive_solver].
  split; [intros E; apply Hf in E; naive_solver|naive_solver].
Qed.

Lemma unregister_same_but ns rq m :
  same_but (dv_Owner rq) (ns, dv_VModelId rq) m (unregister ns rq m).
Proof.
  intros o k t Hne. unfold owned, unregister.
  destruct (m !! (ns, dv_VModelId rq)) as [[o' t']|] eqn:E; [|done].
  case_bool_decide; [|done]. subst. rewrite lookup_delete_Some.
  split; [|naive_solver]. intros Ho. split; [|done]. intros <-. naive_solver.
Qed.

Lemma unregister_gone ns rq m t :
  ¬ owned (unregister ns rq m) (dv_Owner rq) (ns, dv_VModelId rq) t.
Proof.
  unfold owned, unregister.
  destruct (m !! (ns, dv_VModelId rq)) as [[o' t']|] eqn:E; [|by rewrite E].
  case_bool_decide; [by rewrite lookup_delete_eq|]. rewrite E. naive_solver.
Qed.

Lemma mesh_call_same_but ns mmc owner id c m m' :
  call_for owner id c → mesh_call ns mmc c m m' → same_but owner (ns, id) m m'.
Proof.
  intros Hc Hm. destruct Hm; simpl in Hc; try done; destruct Hc as [<- <-];
    eauto using register_same_but, unregister_same_but.
Qed.

Lemma mesh_calls_same_but ns mmc owner id cs m m' :
  Forall (call_for owner id) cs → mesh_calls ns mmc cs m m' → same_but owner (ns, id) m m'.
Proof.
  intros Hc. induction 1 as [|mmc c cs m m1 m' Hm _ IH|]; [done| |by apply Forall_cons in Hc as []; eauto].
  apply Forall_cons in Hc as [Hc Hcs]. etrans; [by eapply mesh_call_same_but|eauto].
Qed.

Lemma mesh_calls_app ns c cs cs' m m' :
  mesh_calls ns c (cs ++ cs') m m' →
  ∃ m1, mesh_calls ns c cs m m1 ∧ mesh_calls ns c cs' m1 m'.
Proof.
  revert m. induction cs as [|x cs IH]; intros m Hm; [exists m; split; [constructor|done]|].
  inversion Hm; subst; edestruct IH as (m2 & ? & ?); eauto; exists m2; split; try done; by econstructor.
Qed.

(** A Predictor is known by its source and its name. *)
Abbreviation pkey := (string * NamespacedName)%type.

(** ** Reconciliations seen from model-mesh *)

Section Mesh.
Context `{!ProtocolNames, !PredictorLibs}.

(** An accepted registration of the Predictor is the one call that model-mesh got. *)
Definition registered (env : Env) (p : Predictor) (sourceId : string)
    (cs : list PredictorCall) : Prop :=
  ∃ mmc rq v cs', env_MMClient env = Some mmc ∧ cs = CallSetVModel rq :: cs' ∧
    SetVModel mmc rq = Ok v ∧ vmodelRequest p sourceId rq ∧ Forall (λ c, ¬ to_mesh c) cs'.

Lemma registered_app env p sourceId cs cs' :
  registered env p sourceId cs → Forall (λ c, ¬ to_mesh c) cs' →
  registered env p sourceId (cs ++ cs').
Proof.
  intros (mmc & rq & v & cs0 & ? & -> & ? & ? & ?) Hcs'. exists mmc, rq, v, (cs0 ++ cs').
  split_and!; try done. by apply Forall_app.
Qed.

Lemma setVModel_request mmc p sourceId :
  emits (setVModel mmc p (shouldLoadNow p) sourceId) (λ cs x,
    Forall (call_for sourceId (om_Name (p_Meta p))) cs ∧
    ∀ v, x = Ok v → ∃ rq, cs = [CallSetVModel rq] ∧ SetVModel mmc rq = Ok v ∧
                          vmodelRequest p sourceId rq).
Proof.
  unfold setVModel. cbn zeta. destruct (extractModelFields p) as [[[path sp] sk] params].
  destruct (MarshalKeyInfo _) as [key|kerr]; [|by apply emits_ret].
  apply emits_lift_bind. intros label Hl. apply emits_call_bind, emits_ret.
  split; [by apply Forall_singleton|]. intros v Hv. eexists. split; [done|]. split; [done|].
  unfold vmodelRequest. by split_and!.
Qed.

Lemma reconcileInvalid_calls_for env p sourceId message id :
  emits (reconcileInvalid env p sourceId message) (λ cs _, Forall (call_for sourceId id) cs).
Proof.
  unfold reconcileInvalid, Progress. cbn zeta.
  eapply (emits_bind _ _ (λ cs _, Forall (call_for sourceId id) cs)).
  - destruct (env_MMClient env) as [mmc|]; [|by apply emits_ret].
    apply emits_call_bind. destruct (GetVModelStatus mmc _) as [vms|e].
    + apply emits_lift_bind. intros [c st] _. apply emits_ret. by apply Forall_singleton.
    + destruct (isNoAddresses e); apply emits_ret; by apply Forall_singleton.
  - intros cs [[[u st] m] e] Hcs. destruct (markInvalid _ _ _ _ _). apply emits_ret.
    by rewrite app_nil_r.
Qed.

Lemma WaitingForRuntime_set st info :
  fi_Reason info = RuntimeUnhealthy →
  WaitingForRuntime (setStatusFailureInfo st (Some info)).2 = true.
Proof.
  intros E. unfold WaitingForRuntime. rewrite setStatusFailureInfo_lfi. by apply bool_decide_eq_true.
Qed.

(** The model step: its calls concern the Predictor's vmodel only, and it ends
    without error, with a client and not waiting for a runtime only after model-mesh
    accepted the registration. *)
Lemma reconcileModel_emits env p sourceId rt :
  emits (reconcileModel env p sourceId rt) (λ cs x,
    Forall (call_for sourceId (om_Name (p_Meta p))) cs ∧
    (validatePredictor p = "" → x.2 = None → x.1.2 = true →
     WaitingForRuntime x.1.1.2 = false → registered env p sourceId cs)).
Proof.
  unfold reconcileModel. cbn zeta. case_bool_decide as Hv.
  { eapply emits_weaken; [apply reconcileInvalid_calls_for|].
    intros cs x Hcs. split; [exact Hcs|]. by intros. }
  destruct (env_MMClient env) as [mmc|] eqn:Em; [|by apply emits_ret].
  unfold reconcileValid. cbn zeta. eapply emits_bind; [apply setVModel_request|].
  intros cs [v|e] [Hcs Hx].
  - apply emits_lift_bind. intros [c st] _. apply emits_ret. rewrite app_nil_r.
    split; [done|]. intros _ _ _ _. destruct (Hx v eq_refl) as (rq & -> & ? & ?).
    exists mmc, rq, v, []. by split_and!.
  - eapply (emits_weaken _ (λ cs' x, cs' = [] ∧ (x.2 = None → WaitingForRuntime x.1.1.2 = true))).
    + destruct (isNoAddresses e); [|case_bool_decide; [destruct (setStatusFailureInfo _ _)|];
        by apply emits_ret].
      destruct (setStatusFailureInfo _ _) as [c st] eqn:Es. apply emits_ret. split; [done|].
      intros _. change st with (c, st).2. rewrite <- Es. by apply WaitingForRuntime_set.
    + intros cs' x [-> Hw]. rewrite app_nil_r. split; [done|].
      intros _ He _ Hnw. rewrite Hw in Hnw by done. done.
Qed.

(** What a registry answers when the Predictor of that name is [snap]. *)
Definition answers (reg : PredictorRegistry) (n : NamespacedName) (snap : option Predictor)
  : Prop :=
  match reg_Get reg n with
  | Ret (Ok o) => o = snap
  | Ret (Err e) => IsNotFound e = true → snap = None
  | Panic => True
  end.

(** What a reconciliation that needs no repetition has achieved *)
Definition achieved (env : Env) (n : NamespacedName) (sourceId : string)
    (snap : option Predictor) (cs : list PredictorCall) : Prop :=
  match snap with
  | Some p => validatePredictor p = "" → registered env p sourceId cs
  | None => ∃ mmc, env_MMClient env = Some mmc ∧
      cs = [CallDeleteVModel (mkDeleteVModel (Name n) sourceId)] ∧
      (DeleteVModel mmc (mkDeleteVModel (Name n) sourceId) = None ∨
       sourceId = InferenceServiceCRSourceId)
  end.

Lemma handlePredictorNotFound_emits env n sourceId :
  emits (handlePredictorNotFound env n sourceId) (λ cs out,
    Forall (call_for sourceId (Name n)) cs ∧
    (done_with out = true → achieved env n sourceId None cs)).
Proof.
  unfold handlePredictorNotFound. destruct (env_MMClient env) as [mmc|] eqn:Em;
    [|by apply emits_ret].
  apply emits_call_bind. set (rq := mkDeleteVModel _ _).
  assert (Forall (call_for sourceId (Name n)) [CallDeleteVModel rq]) by by apply Forall_singleton.
  destruct (DeleteVModel mmc rq) as [err|] eqn:Ed.
  - destruct (isNoAddresses err); [case_bool_decide|]; apply emits_ret; (split; [done|]);
      [|done..]. intros _. exists mmc. split_and!; [done..|by right].
  - apply emits_ret. split; [done|]. intros _. exists mmc. split_and!; [done..|by left].
Qed.

Lemma finish_emits have st err :
  emits (finish have st err) (λ cs out, cs = [] ∧
    (done_with out = true → err = None ∧ have = true ∧ WaitingForRuntime st = false)).
Proof.
  unfold finish, requeueFor. destruct err as [e|]; [by apply emits_ret|].
  destruct (negb have || WaitingForRuntime st) eqn:E; apply emits_ret; [done|].
  split; [done|]. intros _. apply orb_false_iff in E as [E1 E2]. by destruct have.
Qed.

Lemma afterUpdate_emits rt p w have err r :
  emits (afterUpdate rt p w have err r) (λ cs out, cs = [] ∧
    (done_with out = true → err = None ∧ have = true ∧ WaitingForRuntime (p_Status p) = false)).
Proof.
  unfold afterUpdate. destruct r as [[]|e].
  - apply emits_lift_bind. intros msg _. apply finish_emits.
  - by apply emits_ret.
  - eapply emits_weaken; [apply finish_emits|]. intros cs out [-> Ho]. split; [done|].
    by intros [? _]%Ho.
Qed.

Lemma ReconcilePredictor_emits env n sourceId reg snap :
  answers reg n snap → (∀ p, snap = Some p → predictor_nn p = n) →
  emits (ReconcilePredictor env n sourceId reg) (λ cs out,
    Forall (call_for sourceId (Name n)) cs ∧
    (done_with out = true → achieved env n sourceId snap cs)).
Proof.
  intros Ha Hn. unfold ReconcilePredictor. cbn zeta. apply emits_lift_bind. intros got Hg.
  unfold answers in Ha. rewrite Hg in Ha.
  destruct got as [[p|]|e].
  2:{ subst snap. apply handlePredictorNotFound_emits. }
  2:{ destruct (IsNotFound e); [|by apply emits_ret]. rewrite Ha by done.
      apply handlePredictorNotFound_emits. }
  subst snap. specialize (Hn p eq_refl).
  assert (om_Name (p_Meta p) = Name n) as Hname by by rewrite <- Hn.
  eapply emits_bind; [apply reconcileModel_emits|]. rewrite Hname.
  intros cs [[[upd st] have] err] [Hcs Hreg]. cbn [fst snd] in Hreg. destruct upd.
  - apply emits_call_bind. eapply emits_weaken; [apply afterUpdate_emits|].
    intros cs' out [-> Ho]. split; [apply Forall_app; split; [done|by apply Forall_singleton]|].
    intros (? & ? & ?)%Ho. intros Hv. apply registered_app; [by apply Hreg|].
    apply Forall_singleton. by intros [].
  - eapply emits_weaken; [apply finish_emits|]. intros cs' out [-> Ho]. rewrite app_nil_r.
    split; [done|]. intros (? & ? & ?)%Ho. intros Hv. by apply Hreg.
Qed.

(** *** The vmodel afterwards *)

Lemma mesh_calls_silent ns c cs m m' :
  Forall (λ c, ¬ to_mesh c) cs → mesh_calls ns c cs m m' → m' = m.
Proof.
  intros Hs. induction 1 as [|mmc c cs m m1 m' Hm _ IH|p cs m m' _ IH]; [done| |];
    apply Forall_cons in Hs as [Hc Hs].
  - rewrite IH by done. destruct Hm; simpl in Hc; by try destruct (Hc I).
  - by apply IH.
Qed.

(** The vmodel of a Predictor of source [src] is as it should be. *)
Definition settled (src : string) (n : NamespacedName) (o : option Predictor) (m : mesh)
  : Prop :=
  match o with
  | Some p => validatePredictor p = "" →
      owned m src (Namespace n, Name n) (concreteModelName p src)
  | None => src ≠ InferenceServiceCRSourceId → ∀ t, ¬ owned m src (Namespace n, Name n) t
  end.

Lemma achieved_settled env n src snap cs m m' :
  (∀ p, snap = Some p → predictor_nn p = n) →
  achieved env n src snap cs → mesh_calls (Namespace n) (env_MMClient env) cs m m' →
  settled src n snap m'.
Proof.
  intros Hn Ha Hm. destruct snap as [p|]; simpl in Ha |- *.
  - intros Hv. destruct (Ha Hv) as (mmc & rq & v & cs' & Hc & -> & Hs & (Hid & Ho & Ht & _) & Hsil).
    rewrite Hc in Hm. inversion Hm as [|? ? ? ? m1 ? Hm1 Hms|]; subst.
    apply mesh_calls_silent in Hms as ->; [|done].
    assert (m1 = register (Namespace n) rq m) as ->
      by (inversion Hm1; subst; [done|congruence..]).
    unfold owned, register. rewrite Hid, Ht, <- (Hn p eq_refl). by rewrite lookup_insert_eq.
  - intros Hsrc t. destruct Ha as (mmc & Hc & -> & [Hd|]); [|done].
    rewrite Hc in Hm. inversion Hm as [|? ? ? ? m1 ? Hm1 Hms|]; subst.
    apply mesh_calls_silent in Hms as ->; [|done].
    inversion Hm1; subst; [|congruence..].
    apply (unregister_gone (Namespace n) (mkDeleteVModel (Name n) src)).
Qed.

(** ** The world *)

Record World := mkWorld {
  w_store : gmap pkey Predictor;
  w_mesh : mesh;
  (* requests that are queued, or will be after a delay *)
  w_queue : gset NamespacedName;
  (* the request the worker is processing, and the Predictor it read *)
  w_busy : option (NamespacedName * option Predictor);
  (* Predictors with a change of theirs or of their vmodel that no event announced,
     since the worker last took a request for them; the controller does not see this *)
  w_missed : gset pkey
}.

Definition enqueue (req : NamespacedName) (w : World) : World :=
  mkWorld (w_store w) (w_mesh w) ({[ req ]} ∪ w_queue w) (w_busy w) (w_missed w).

(** The Predictor a request is about *)
Definition resolves (req : NamespacedName) (n : NamespacedName) (src : string) : Prop :=
  ResolveSource req PredictorCRSourceId = Ret (n, src).

(** The sources whose registries the controller looks up *)
Variable sources : gset string.

Inductive world_step : World → World → Prop :=
(* a Predictor is created or updated *)
| step_put w src n p req : resolves req n src → predictor_nn p = n →
    world_step w
      (enqueue req (mkWorld (<[(src, n) := p]> (w_store w)) (w_mesh w) (w_queue w) (w_busy w)
                      (w_missed w)))
(* a Predictor is deleted *)
| step_remove w src n req : resolves req n src →
    world_step w
      (enqueue req (mkWorld (delete (src, n) (w_store w)) (w_mesh w) (w_queue w) (w_busy w)
                      (w_missed w)))
(* model-mesh changes a vmodel, or somebody else does, and its event stream tells *)
| step_vmodel w src n req m' : resolves req n src →
    same_but src (Namespace n, Name n) (w_mesh w) m' →
    world_step w (enqueue req (mkWorld (w_store w) m' (w_queue w) (w_busy w) (w_missed w)))
(* a Predictor or its vmodel changes and no event tells *)
| step_missed w src n store' m' :
    (∀ p, store' !! (src, n) = Some p → predictor_nn p = n) →
    (∀ k, k ≠ (src, n) → store' !! k = w_store w !! k) →
    same_but src (Namespace n, Name n) (w_mesh w) m' →
    world_step w (mkWorld store' m' (w_queue w) (w_busy w) ({[ (src, n) ]} ∪ w_missed w))
(* any other event *)
| step_event w req : world_step w (enqueue req w)
(* the worker takes a request and reads its Predictor *)
| step_take w req n src : req ∈ w_queue w → w_busy w = None → resolves req n src →
    world_step w (mkWorld (w_store w) (w_mesh w) (w_queue w ∖ {[ req ]})
                    (Some (req, w_store w !! (src, n))) (w_missed w ∖ {[ (src, n) ]}))
(* the worker's reconciliation returns *)
| step_reconcile w req n src snap env regs cs out m' :
    w_busy w = Some (req, snap) → resolves req n src →
    dom regs = sources → (∀ reg, regs !! src = Some reg → answers reg n snap) →
    run (Reconcile env req regs) = Ret (cs, out) →
    mesh_calls (Namespace n) (env_MMClient env) cs (w_mesh w) m' →
    world_step w (mkWorld (w_store w) m'
      (if done_with out then w_queue w else {[ req ]} ∪ w_queue w) None (w_missed w)).

(** *** The invariant *)

Definition requested (w : World) (src : string) (n : NamespacedName) : Prop :=
  ∃ req, req ∈ w_queue w ∧ resolves req n src.

(** The controller will look at the Predictor, or was never told to. *)
Definition pending (w : World) (src : string) (n : NamespacedName) : Prop :=
  requested w src n ∨ (src, n) ∈ w_missed w.

(** The worker is at it, with the current Predictor. *)
Definition processing (w : World) (src : string) (n : NamespacedName) : Prop :=
  ∃ req, w_busy w = Some (req, w_store w !! (src, n)) ∧ resolves req n src.

Record world_ok (w : World) : Prop := {
  wo_names src n p : w_store w !! (src, n) = Some p → predictor_nn p = n;
  wo_busy_names req snap n src p : w_busy w = Some (req, snap) → resolves req n src →
    snap = Some p → predictor_nn p = n;
  (* what the worker has read is current, or the request is queued again, or the
     change was missed *)
  wo_busy req snap n src : w_busy w = Some (req, snap) → resolves req n src →
    snap = w_store w !! (src, n) ∨ pending w src n;
  wo_settled src n : src ∈ sources →
    pending w src n ∨ processing w src n ∨ settled src n (w_store w !! (src, n)) (w_mesh w)
}.

Lemma resolves_inj req n n' src src' :
  resolves req n src → resolves req n' src' → n = n' ∧ src = src'.
Proof. unfold resolves. intros -> [=]. done. Qed.

Lemma settled_frame src n o src' n' m m' :
  same_but src (Namespace n, Name n) m m' → (src', n') ≠ (src, n) →
  settled src' n' o m → settled src' n' o m'.
Proof.
  intros Hs Hne Hset.
  assert (∀ t, owned m src' (Namespace n', Name n') t ↔ owned m' src' (Namespace n', Name n') t)
    as Ho.
  { intros t. apply Hs. intros [= -> E1 E2]. apply Hne. destruct n, n'. simpl in *. by subst. }
  destruct o as [p|]; simpl in *.
  - intros Hv. by apply Ho, Hset.
  - intros Hsrc t Ht%Ho. by eapply Hset.
Qed.

Lemma Reconcile_emits env req n src regs snap :
  resolves req n src → src ∈ dom regs → (∀ reg, regs !! src = Some reg → answers reg n snap) →
  (∀ p, snap = Some p → predictor_nn p = n) →
  emits (Reconcile env req regs) (λ cs out,
    Forall (call_for src (Name n)) cs ∧
    (done_with out = true → achieved env n src snap cs)).
Proof.
  intros Hr [reg Hreg]%elem_of_dom Ha Hn. unfold Reconcile. rewrite Hr.
  apply emits_lift_bind. intros [n' src'] [= <- <-]. rewrite Hreg.
  apply ReconcilePredictor_emits; eauto.
Qed.

Lemma pending_mono w w' src n :
  w_queue w ⊆ w_queue w' → w_missed w ⊆ w_missed w' → pending w src n → pending w' src n.
Proof. intros Hq Hm [(req & ? & ?)|?]; [left; exists req|right]; set_solver. Qed.

(** A change at one Predictor or its vmodel, with a request for it or missed *)
Lemma change_ok w src n store' mesh' queue' missed' :
  let w' := mkWorld store' mesh' queue' (w_busy w) missed' in
  world_ok w → pending w' src n → w_queue w ⊆ queue' → w_missed w ⊆ missed' →
  (∀ p, store' !! (src, n) = Some p → predictor_nn p = n) →
  (∀ k, k ≠ (src, n) → store' !! k = w_store w !! k) →
  same_but src (Namespace n, Name n) (w_mesh w) mesh' →
  world_ok w'.
Proof.
  intros w' [Hnames Hbn Hbusy Hset] Hreq Hqu Hmi Hp Hst Hm.
  assert (∀ src' n', pending w src' n' → pending w' src' n') as Hreq'
    by (intros; by eapply pending_mono).
  split; cbn [w' w_store w_mesh w_busy].
  - intros src' n' p Hp'. destruct (decide ((src', n') = (src, n))) as [[= -> ->]|Hne]; [eauto|].
    rewrite Hst in Hp' by done. eauto.
  - done.
  - intros req' snap n' src' Hb Hr'.
    destruct (decide ((src', n') = (src, n))) as [[= -> ->]|Hne]; [by right|].
    rewrite Hst by done. destruct (Hbusy _ _ _ _ Hb Hr'); eauto.
  - intros src' n' Hsrc.
    destruct (decide ((src', n') = (src, n))) as [[= -> ->]|Hne]; [by left|].
    destruct (Hset src' n' Hsrc) as [|[Hp'|Hs]]; [by eauto| |].
    + right; left. unfold processing in *. cbn [w' w_busy w_store]. by rewrite Hst.
    + right; right. rewrite Hst by done. by eapply settled_frame.
Qed.

(** The same with a request *)
Lemma announced_ok w src n req store' mesh' :
  world_ok w → resolves req n src →
  (∀ p, store' !! (src, n) = Some p → predictor_nn p = n) →
  (∀ k, k ≠ (src, n) → store' !! k = w_store w !! k) →
  same_but src (Namespace n, Name n) (w_mesh w) mesh' →
  world_ok (enqueue req (mkWorld store' mesh' (w_queue w) (w_busy w) (w_missed w))).
Proof.
  intros Hok Hr. intros. apply (change_ok w src n); try done; cbn [w_queue]; [|set_solver].
  left. exists req. split; [cbn [w_queue]; set_solver|done].
Qed.

Lemma take_ok w req n src :
  world_ok w → req ∈ w_queue w → w_busy w = None → resolves req n src →
  world_ok (mkWorld (w_store w) (w_mesh w) (w_queue w ∖ {[ req ]})
              (Some (req, w_store w !! (src, n))) (w_missed w ∖ {[ (src, n) ]})).
Proof.
  intros [Hnames Hbn Hbusy Hset] Hq Hb Hr. split; cbn [w_store w_mesh w_busy].
  - done.
  - intros req' snap n' src' p [= <- <-] Hr' Hp. destruct (resolves_inj _ _ _ _ _ Hr Hr') as [-> ->].
    eauto.
  - intros req' snap n' src' [= <- <-] Hr'. destruct (resolves_inj _ _ _ _ _ Hr Hr') as [-> ->]. by left.
  - intros src' n' Hsrc.
    destruct (decide ((src', n') = (src, n))) as [[= -> ->]|Hne]; [right; left; by exists req|].
    destruct (Hset src' n' Hsrc) as [[(req' & Hq' & Hr')|Hmi]|[(? & E & _)|Hs]].
    + left; left. exists req'. split; [|done]. cbn [w_queue]. apply elem_of_difference. split; [done|].
      intros ->%elem_of_singleton. destruct (resolves_inj _ _ _ _ _ Hr Hr') as [-> ->]. done.
    + left; right. cbn [w_missed]. set_solver.
    + congruence.
    + by right; right.
Qed.

Lemma reconcile_ok w req n src snap env regs cs out m' :
  world_ok w → w_busy w = Some (req, snap) → resolves req n src →
  dom regs = sources → (∀ reg, regs !! src = Some reg → answers reg n snap) →
  run (Reconcile env req regs) = Ret (cs, out) →
  mesh_calls (Namespace n) (env_MMClient env) cs (w_mesh w) m' →
  world_ok (mkWorld (w_store w) m'
    (if done_with out then w_queue w else {[ req ]} ∪ w_queue w) None (w_missed w)).
Proof.
  intros [Hnames Hbn Hbusy Hset] Hb Hr Hdom Ha Hrun Hm.
  set (w' := mkWorld _ _ _ _ _).
  assert (∀ src' n', pending w src' n' → pending w' src' n') as Hreq.
  { intros src' n'. apply pending_mono; [|done]. cbn. destruct (done_with out); set_solver. }
  split; cbn [w' w_store w_mesh w_busy]; [done..|].
  intros src' n' Hsrc.
  destruct (decide ((src', n') = (src, n))) as [[= -> ->]|Hne].
  - rewrite <- Hdom in Hsrc.
    destruct (emits_run _ _ _ _ (Reconcile_emits env req n src regs snap Hr Hsrc Ha
      (λ p, Hbn _ _ _ _ p Hb Hr)) Hrun) as [_ Hdone].
    destruct (done_with out) eqn:Ed.
    + destruct (Hbusy _ _ _ _ Hb Hr) as [<-|]; [|left; by apply Hreq].
      right; right. eapply achieved_settled; eauto.
    + left; left. exists req. split; [cbn; rewrite ?Ed; set_solver|done].
  - destruct (Hset src' n' Hsrc) as [|[(req' & E & Hr')|Hs]]; [eauto| |].
    + rewrite Hb in E. injection E as -> ->.
      destruct (resolves_inj _ _ _ _ _ Hr Hr') as [-> ->]. done.
    + right; right. eapply settled_frame; [|done..]. clear Hs Hne Hsrc.
      destruct (decide (src ∈ dom regs)) as [Hsrc|Hsrc].
      * destruct (emits_run _ _ _ _ (Reconcile_emits env req n src regs snap Hr Hsrc Ha
          (λ p, Hbn _ _ _ _ p Hb Hr)) Hrun) as [Hcs _]. by eapply mesh_calls_same_but.
      * assert (cs = []) as ->.
        { unfold Reconcile in Hrun. rewrite Hr in Hrun. run_io.
          apply not_elem_of_dom in Hsrc. rewrite Hsrc in Hrun. by injection Hrun as <-. }
        by apply mesh_calls_silent in Hm as ->.
Qed.

Lemma world_step_ok w w' : world_ok w → world_step w w' → world_ok w'.
Proof.
  intros Hok. destruct 1 as [w src n p req Hr Hn|w src n req Hr|w src n req m' Hr Hm
    |w src n store' m' Hn Hst Hm|w req|w req n src|w req n src snap env regs cs out m'].
  - eapply announced_ok; eauto.
    + intros q. rewrite lookup_insert_eq. by intros [= <-].
    + intros k Hk. by rewrite lookup_insert_ne.
    + done.
  - eapply announced_ok; eauto.
    + intros q. by rewrite lookup_delete_eq.
    + intros k Hk. by rewrite lookup_delete_ne.
    + done.
  - eapply announced_ok; eauto using wo_names.
  - apply (change_ok w src n); try done; [|set_solver]. right. cbn [w_missed]. set_solver.
  - destruct (ResolveSource_total req PredictorCRSourceId) as [[n src] Hr].
    destruct w. eapply (announced_ok (mkWorld _ _ _ _ _)); eauto using wo_names. done.
  - by apply take_ok.
  - by eapply reconcile_ok.
Qed.

(** When the controller starts, its watches put a request on the queue for every
    Predictor and its event stream one for every vmodel it does not miss. *)
Record started (w : World) : Prop := {
  sw_idle : w_busy w = None;
  sw_names src n p : w_store w !! (src, n) = Some p → predictor_nn p = n;
  sw_predictors src n p : w_store w !! (src, n) = Some p → requested w src n;
  sw_vmodels src n t : src ∈ sources → owned (w_mesh w) src (Namespace n, Name n) t →
    pending w src n
}.

Lemma started_ok w : started w → world_ok w.
Proof.
  intros [Hb Hn Hp Hv]. split; [done|congruence..|]. intros src n Hsrc.
  destruct (w_store w !! (src, n)) as [p|] eqn:Es; [left; left; eauto|].
  destruct (w_mesh w !! (Namespace n, Name n)) as [[o t]|] eqn:Em.
  - destruct (decide (o = src)) as [->|Hne]; [left; by eapply Hv|].
    right; right. intros _ t' Ht. unfold owned in Ht. congruence.
  - right; right. intros _ t' Ht. unfold owned in Ht. congruence.
Qed.

Definition idle (w : World) : Prop := w_queue w = ∅ ∧ w_busy w = None.

(** The vmodels are those of the Predictors, for those of which no change was missed. *)
Record consistent (w : World) : Prop := {
  (* every valid Predictor is registered with the model of its current spec *)
  cs_registered src n p : src ∈ sources → (src, n) ∉ w_missed w →
    w_store w !! (src, n) = Some p → validatePredictor p = "" →
    owned (w_mesh w) src (Namespace n, Name n) (concreteModelName p src);
  (* every vmodel belongs to a Predictor, and has its model *)
  cs_owned src n t : src ∈ sources → (src, n) ∉ w_missed w → src ≠ InferenceServiceCRSourceId →
    owned (w_mesh w) src (Namespace n, Name n) t →
    ∃ p, w_store w !! (src, n) = Some p ∧
         (validatePredictor p = "" → t = concreteModelName p src);
  (* a name is valid in one source only *)
  cs_unique src src' n p p' : src ∈ sources → src' ∈ sources →
    (src, n) ∉ w_missed w → (src', n) ∉ w_missed w →
    w_store w !! (src, n) = Some p → w_store w !! (src', n) = Some p' →
    validatePredictor p = "" → validatePredictor p' = "" → src = src'
}.

Lemma idle_settled w src n :
  world_ok w → idle w → src ∈ sources → (src, n) ∉ w_missed w →
  settled src n (w_store w !! (src, n)) (w_mesh w).
Proof.
  intros Hok [Hq Hb] Hsrc Hmi.
  destruct (wo_settled w Hok src n Hsrc) as [[(req & Hin & _)|]|[(req & E & _)|]];
    [rewrite Hq in Hin; set_solver|done|congruence|done].
Qed.

Lemma idle_consistent w : world_ok w → idle w → consistent w.
Proof.
  intros Hok Hidle.
  assert (∀ src n p, src ∈ sources → (src, n) ∉ w_missed w →
    w_store w !! (src, n) = Some p → validatePredictor p = "" →
    owned (w_mesh w) src (Namespace n, Name n) (concreteModelName p src)) as Hreg.
  { intros src n p Hsrc Hmi Hs Hv. pose proof (idle_settled w src n Hok Hidle Hsrc Hmi) as Hset.
    rewrite Hs in Hset. by apply Hset. }
  split; [done| |].
  - intros src n t Hsrc Hmi Hne Ho. pose proof (idle_settled w src n Hok Hidle Hsrc Hmi) as Hset.
    destruct (w_store w !! (src, n)) as [p|] eqn:Es.
    + exists p. split; [done|]. intros Hv. specialize (Hset Hv). unfold owned in *. congruence.
    + by apply (Hset Hne) in Ho.
  - intros src src' n p p' Hs Hs' Hmi Hmi' E E' Hv Hv'.
    pose proof (Hreg _ _ _ Hs Hmi E Hv) as H1. pose proof (Hreg _ _ _ Hs' Hmi' E' Hv') as H2.
    unfold owned in *. congruence.
Qed.

(** C3: Whatever happened before - changes of Predictors and of vmodels at any moment, also
    while a reconciliation is under way, lost and failed calls, conflicts of sources,
    errors of registries, events that were missed - whenever the controller has nothing
    left to do, model-mesh's registrations are those of the Predictors, but for the
    Predictors of which a change was missed and no request was taken since: every other
    valid Predictor is registered under its name and source with the model of its current
    spec, and every other vmodel of a source belongs to one of its Predictors. (The
    vmodels of InferenceServices that are gone may stay: their deletion is given up when
    there are no model-mesh pods.) *)
Theorem idle_mesh_consistent w0 w :
  started w0 → rtc world_step w0 w → idle w → consistent w.
Proof.
  intros Hs Hsteps Hidle. apply idle_consistent; [|done].
  eapply rtc_invariant; [apply world_step_ok|done|by apply started_ok].
Qed.
End Mesh.

(** ** Where the requests of the steps come from

    The requests that the watches and the event stream make for a Predictor or a vmodel
    resolve to it. (Namespaces have no underscores; a source id is not empty.) *)
Section Requests.

(** A Predictor resource *)
Lemma predictor_request ns name :
  has_char "_"%char ns = false → resolves (mkNN ns name) (mkNN ns name) PredictorCRSourceId.
Proof. intros. by apply ResolveSource_plain. Qed.

(** An InferenceService *)
Lemma isvc_request (o : ObjectMeta) :
  has_char "_"%char (om_Namespace o) = false →
  Forall (λ req, resolves req (mkNN (om_Namespace o) (om_Name o)) InferenceServiceCRSourceId)
    (prefixName InferenceServiceCRSourceId o).
Proof. intros. apply Forall_singleton. by apply ResolveSource_prefixed. Qed.

(** A vmodel that was written, or removed with its last record known *)
Lemma vmodel_request `{!EtcdLibs} ns name record src t :
  has_char "_"%char ns = false → src ≠ "" → UnmarshalOwner record = Ok src →
  t = UPDATE ∨ t = DELETE →
  ∃ req, vmodelListener ns (mkNotif t name (Some record)) = Some req ∧
         resolves req (mkNN ns name) src.
Proof.
  intros Hns Hsrc Ho Ht. exists (mkNN (src +:+ "_" +:+ ns) name).
  split; [|by apply ResolveSource_prefixed].
  unfold vmodelListener. destruct Ht as [-> | ->]; cbn [n_type n_value n_key];
    change (default "" (Some record)) with record; by rewrite Ho, bool_decide_false.
Qed.
End Requests.

(** ** Runs *)

#[local] Existing Instance predictorLibsImpl.
#[local] Existing Instance protocolNamesImpl.

Definition meshRequest : NamespacedName := mkNN "ns" "p".
Definition meshPredictor : Predictor := exPredictor1 None defaultStatus.

(** A Predictor that is not registered yet, and a vmodel whose Predictor is gone *)
Definition meshWorld0 : World :=
  mkWorld {[ ("ksp", meshRequest) := meshPredictor ]} {[ ("ns", "q") := ("ksp", "q__ksp-1") ]}
    {[ meshRequest; mkNN "ksp_ns" "q" ]} None ∅.

Definition meshEnv : Env := mkEnvR (Some exLoadedClient) None 0.
Definition meshRegistries (o : option Predictor) : gmap string PredictorRegistry :=
  {[ "ksp" := exRegistry (Ok o) ]}.

Lemma meshWorld0_started : started {[ "ksp" ]} meshWorld0.
Proof.
  split; unfold meshWorld0; cbn [w_store w_mesh w_busy]; [done|..].
  - intros src n p [[= <- <-] <-]%lookup_singleton_Some. done.
  - intros src n p [[= <- <-] <-]%lookup_singleton_Some. exists meshRequest.
    split; [set_solver|reflexivity].
  - unfold owned. intros src [ns id] t ->%elem_of_singleton [[= <- <-] _]%lookup_singleton_Some.
    left. exists (mkNN "ksp_ns" "q"). split; [set_solver|reflexivity].
Qed.

(** Both requests are worked off. *)
Definition meshWorld4 : World :=
  mkWorld (w_store meshWorld0)
    (unregister "ns" (mkDeleteVModel "q" "ksp")
       (register "ns" (mkSetVModel "p" "ksp" (concreteModelName meshPredictor "ksp")
                         true true "" "" "") (w_mesh meshWorld0)))
    ∅ None ∅.

Lemma meshWorld4_reachable : rtc (world_step {[ "ksp" ]}) meshWorld0 meshWorld4.
Proof.
  eapply rtc_l; [eapply (step_take _ _ meshRequest meshRequest "ksp"); [set_solver|done|reflexivity]|].
  eapply rtc_l.
  { eapply (step_reconcile _ _ meshRequest meshRequest "ksp" (Some meshPredictor) meshEnv
      (meshRegistries (Some meshPredictor))); [reflexivity..| | |].
    - unfold meshRegistries. by intros reg [_ <-]%lookup_singleton_Some.
    - vm_compute. reflexivity.
    - econstructor; [eapply set_accepted; [reflexivity|]|econstructor; constructor].
      intros o t. vm_compute. discriminate. }
  eapply rtc_l; [eapply (step_take _ _ (mkNN "ksp_ns" "q") (mkNN "ns" "q") "ksp");
    [vm_compute; reflexivity|done|reflexivity]|].
  eapply rtc_l.
  { eapply (step_reconcile _ _ (mkNN "ksp_ns" "q") (mkNN "ns" "q") "ksp" None meshEnv
      (meshRegistries None)); [reflexivity..| | |].
    - unfold meshRegistries. by intros reg [_ <-]%lookup_singleton_Some.
    - vm_compute. reflexivity.
    - econstructor; [apply delete_accepted; reflexivity|constructor]. }
  match goal with |- rtc _ ?w _ => assert (w = meshWorld4) as -> by (vm_compute; reflexivity) end.
  reflexivity.
Qed.

Lemma idle_mesh_consistent_witness :
  consistent {[ "ksp" ]} meshWorld4 ∧
  owned (w_mesh meshWorld4) "ksp" ("ns", "p") "p__ksp-6161616161" ∧
  w_mesh meshWorld4 !! ("ns", "q") = None.
Proof.
  split; [|split; vm_compute; reflexivity].
  apply (idle_mesh_consistent {[ "ksp" ]} meshWorld0 meshWorld4).
  - exact meshWorld0_started.
  - exact meshWorld4_reachable.
  - split; reflexivity.
Defined.
