(* ===== verification/MeshProgress.v ===== *)
(** * Progress of the Predictor controller

    In the worlds of Mesh.v the controller finishes its work: while the specs of the
    Predictors stay as they are and model-mesh accepts and has loaded what it is told,
    every reconciliation is the last one of its request. Its own effects come back to
    it: the status it writes is stored and the event of that update puts a request on
    the queue, and so does the event of a vmodel that its call changed. The second
    reconciliation of a Predictor finds nothing to write and nothing to change, so the
    feedback dies out. The deletion of a vmodel of an InferenceService without
    model-mesh pods is the exception to the consistency of an idle controller; a run
    shows it. *)

From S2P Require Import Prelude GoStrings Types Registry ModelTypes.
From S2P Require Import PredictorController PredictorControllerProps Connections Mesh.

Section Progress.
Context `{!ProtocolNames, !PredictorLibs}.
Variable sources : gset string.

(** ** Model-mesh when all is well *)

Definition loaded (v : VModelStatusInfo) : Prop :=
  vs_ActiveModelId v = vs_TargetModelId v ∧
  ∃ i, vs_ActiveModelStatus v = Some i ∧ msi_Status i = MS_LOADED.

(** Neither loading nor in an unexpected state, e.g. loaded, failed or not found *)
Definition resting (v : VModelStatusInfo) : Prop :=
  (decoded (vs_ActiveModelStatus v)).1.1 ≠ Loading ∧
  (decoded (vs_ActiveModelStatus v)).1.1 ≠ NoModelState.

(** What model-mesh of a namespace answers to SetVModel and to GetVModelStatus for a
    vmodel of an owner, and the inference endpoints of the namespace *)
Variables accepted known : string → string → string → VModelStatusInfo.
Variable endpoints : string → option (string * string).
Hypothesis accepted_loaded : ∀ ns owner id, loaded (accepted ns owner id).
Hypothesis known_resting : ∀ ns owner id, resting (known ns owner id).

Record cooperative (ns : string) (env : Env) (mmc : ModelMeshClient) : Prop := {
  co_client : env_MMClient env = Some mmc;
  co_endpoints : env_endpoints env = endpoints ns;
  co_set rq : SetVModel mmc rq = Ok (accepted ns (sv_Owner rq) (sv_VModelId rq));
  co_get rq : GetVModelStatus mmc rq = Ok (known ns (gv_Owner rq) (gv_VModelId rq));
  co_delete rq : DeleteVModel mmc rq = None
}.

(** The controller can build the registration request. *)
Definition registrable (p : Predictor) : Prop :=
  runtime_ref_ok p ∧ ∀ mki, is_Some (match MarshalKeyInfo mki with Ok s => Some s | Err _ => None end).

(** *** The status after such an answer *)

Lemma decoded_loaded i : msi_Status i = MS_LOADED → (decoded (Some i)).1.1 = Loaded.
Proof.
  intros E. assert (∃ r m, decodeModelState (Some i) = Ret (Loaded, r, m)) as (r & m & Hd).
  { unfold decodeModelState. rewrite E. destruct (msi_Errors i); by eexists _, _. }
  rewrite decodeModelState_total in Hd. by injection Hd as ->.
Qed.

Lemma newStatus_loaded now eps v st :
  loaded v →
  ActiveModelState (newStatus now eps v true st) = Loaded ∧
  LastFailureInfo (newStatus now eps v true st) = None.
Proof.
  intros (Hid & i & Ei & Hi). unfold newStatus. cbn [ActiveModelState LastFailureInfo].
  rewrite Ei, decoded_loaded by done. split; [done|].
  unfold failureOf, targetFailureInfo, targetOf. rewrite bool_decide_true, Ei by done.
  cbn [fst snd]. by rewrite bool_decide_true.
Qed.

Lemma newStatus_resting now eps v st :
  resting v → ActiveModelState (newStatus now eps v false st) ≠ Loading.
Proof.
  intros [Hl Hn]. unfold newStatus, keep. cbn [ActiveModelState]. by rewrite bool_decide_false.
Qed.

(** The status that a reconciliation gives a Predictor of the namespace *)
Definition nextStatus (now : Z) (ns src : string) (p : Predictor) : PredictorStatus :=
  let name := om_Name (p_Meta p) in
  if bool_decide (validatePredictor p = "")
  then newStatus now (endpoints ns) (accepted ns src name) true (p_Status p)
  else (markInvalid p src (validatePredictor p) false
          (newStatus now (endpoints ns) (known ns src name) false (p_Status p))).2.

(** A reconciliation finds no change of the status to write. *)
Definition unchanging (ns src : string) (p : Predictor) : Prop :=
  ∀ now, set_Available false (nextStatus now ns src p) = set_Available false (p_Status p).

(** What is stored when the status of [q] is updated *)
Definition stored (q q' : Predictor) : Prop :=
  p_Spec q' = p_Spec q ∧ p_Status q' = p_Status q ∧ predictor_nn q' = predictor_nn q.

Lemma markInvalid_status p src message b st :
  (markInvalid p src message b st).2 =
  mkPredictorStatus (Available st) InvalidSpec (ActiveModelState st) (TargetModelState st)
    (Some (mkFailureInfo "" InvalidPredictorSpec message (concreteModelName p src) None))
    (HTTPEndpoint st) (GrpcEndpoint st) (TotalCopies st) (FailedCopies st).
Proof.
  unfold markInvalid. rewrite assign_failure. cbn zeta beta iota. destruct st.
  case_bool_decide as Ht; [done|]. cbn in *. by subst.
Qed.

Lemma markInvalid_flag p src message b st :
  (markInvalid p src message b st).1 = true →
  b = true ∨ (markInvalid p src message b st).2 ≠ st.
Proof.
  rewrite markInvalid_status. unfold markInvalid. rewrite assign_failure. cbn zeta beta iota.
  destruct st. cbn. case_bool_decide as Ht; [intros _; right; congruence|]. case_bool_decide; [|by left].
  intros _; right. congruence.
Qed.

(** The status an update computes does not depend on Available. *)
Lemma newStatus_Available now eps v incl st st' :
  set_Available false st = set_Available false st' →
  newStatus now eps v incl st = newStatus now eps v incl st'.
Proof.
  intros E. unfold newStatus, failureOf.
  assert (LastFailureInfo st = LastFailureInfo st') as Hl by by apply set_Available_inj in E as (_ & _ & ?).
  rewrite (targetFailureInfo_lfi now st st') by done. rewrite Hl.
  destruct st, st'. unfold set_Available in E. cbn in *. injection E as -> -> -> -> -> -> -> ->.
  f_equal. do 2 f_equal. apply waiting_lfi. by rewrite !setStatusFailureInfo_lfi.
Qed.

(** After a reconciliation with its status written there is nothing to change. *)
Lemma nextStatus_unchanging now ns src p p' :
  p_Spec p' = p_Spec p → om_Name (p_Meta p') = om_Name (p_Meta p) →
  set_Available false (p_Status p') = set_Available false (nextStatus now ns src p) →
  unchanging ns src p'.
Proof.
  intros Hspec Hname Hst now'. unfold nextStatus.
  assert (validatePredictor p' = validatePredictor p) as Hv
    by (unfold validatePredictor; by rewrite Hspec).
  assert (concreteModelName p' src = concreteModelName p src) as Hc
    by (unfold concreteModelName; by rewrite Hspec, Hname).
  rewrite Hname, Hv. unfold nextStatus in Hst. case_bool_decide as Hvalid.
  - rewrite (newStatus_Available _ _ _ _ _ _ Hst), newStatus_stable; [done|].
    by rewrite (proj2 (newStatus_loaded _ _ _ _ (accepted_loaded _ _ _))).
  - rewrite (newStatus_Available _ _ _ _ _ _ Hst), Hst, !markInvalid_status, Hc.
    unfold newStatus, set_Available. cbn. by rewrite keep_idem, targetStateOf_idem.
Qed.

(** *** A reconciliation that needs no repetition *)

(** What the model step leaves: nothing to wait for, the status computed, and no update
    of a status that does not change *)
Definition at_rest (ns src : string) (p : Predictor)
    (x : bool * PredictorStatus * bool * option error) : Prop :=
  x.2 = None ∧ x.1.2 = true ∧ ActiveModelState x.1.1.2 ≠ Loading ∧
  WaitingForRuntime x.1.1.2 = false ∧
  (∃ now, x.1.1.2 = nextStatus now ns src p) ∧ (unchanging ns src p → x.1.1.1 = false).

Lemma nextStatus_invalid_flag now ns src p c :
  validatePredictor p ≠ "" → unchanging ns src p →
  let st := newStatus now (endpoints ns) (known ns src (om_Name (p_Meta p))) false (p_Status p) in
  (c = true ↔ set_Available false st ≠ set_Available false (p_Status p)) →
  (markInvalid p src (validatePredictor p) c st).1 = false.
Proof.
  intros Hv Hu st Hc. specialize (Hu now). unfold nextStatus in Hu.
  rewrite bool_decide_false in Hu by done. fold st in Hu. rewrite markInvalid_status in Hu.
  assert (st_TransitionStatus st = st_TransitionStatus (p_Status p) ∧
          LastFailureInfo st = LastFailureInfo (p_Status p)) as [Ht Hl] by done.
  assert (set_Available false st = set_Available false (p_Status p)) as Hst.
  { clear Hc. revert Hu Ht Hl. generalize st. intros st1. destruct st1, (p_Status p).
    unfold set_Available. cbn. intros [=]. intros. by subst. }
  apply not_true_is_false. intros [->|Hne]%markInvalid_flag; [by apply Hc|].
  apply Hne. rewrite markInvalid_status. revert Hu Ht Hl. generalize st. intros st1.
  destruct st1, (p_Status p). unfold set_Available. cbn. intros [=]. intros. by subst.
Qed.

Lemma reconcileModel_rest env mmc p ns sourceId rt :
  cooperative ns env mmc → registrable p →
  emits (reconcileModel env p sourceId rt) (λ _ x, at_rest ns sourceId p x).
Proof.
  intros [Hc Heps Hset Hget _] [_ Hm]. unfold reconcileModel. cbn zeta. rewrite Hc.
  case_bool_decide as Hv.
  - unfold reconcileInvalid, Progress. cbn zeta. rewrite Hc.
    eapply (emits_bind _ _ (λ _ x, x.2 = None ∧ x.1.2 = true ∧
      let st := newStatus (env_now env) (endpoints ns)
        (known ns sourceId (om_Name (p_Meta p))) false (p_Status p) in
      x.1.1.2 = st ∧ (x.1.1.1 = true ↔ set_Available false st ≠ set_Available false (p_Status p)))).
    + apply emits_call_bind. rewrite Hget. cbn [gv_Owner gv_VModelId].
      apply emits_lift_bind. intros [c st] Hu. apply emits_ret. rewrite Heps in Hu.
      destruct (update_closed_form (env_now env) (endpoints ns)
        (known ns sourceId (om_Name (p_Meta p))) false (p_Status p)) as (c' & Hu' & Hf).
      rewrite Hu' in Hu. by injection Hu as <- <-.
    + intros cs [[[u st] m] e] (He & Hm' & Hst & Hf). cbn [fst snd] in *. subst e m.
      pose proof (nextStatus_invalid_flag (env_now env) ns sourceId p u Hv) as Hflag.
      destruct (markInvalid p sourceId (validatePredictor p) u st) as [u' st'] eqn:Em.
      assert (st' = (markInvalid p sourceId (validatePredictor p) u st).2) as Hst' by by rewrite Em.
      rewrite markInvalid_status in Hst'. apply emits_ret. subst st st'.
      unfold at_rest. cbn [fst snd]. split_and!; [done..| | | |].
      * by apply newStatus_resting, known_resting.
      * done.
      * exists (env_now env). unfold nextStatus. rewrite bool_decide_false by done.
        by rewrite markInvalid_status.
      * intros Hun. specialize (Hflag Hun Hf). cbn zeta in Hflag. by rewrite Em in Hflag.
  - unfold reconcileValid, setVModel. cbn zeta.
    destruct (extractModelFields p) as [[[path sp] sk] params].
    set (mki := mkKeyInfo _ _ _ _). specialize (Hm mki).
    destruct (MarshalKeyInfo mki) as [key|]; [|by destruct Hm].
    eapply (emits_bind _ _ (λ _ x, x = Ok (accepted ns sourceId (om_Name (p_Meta p))))).
    + apply emits_lift_bind. intros label _. apply emits_call_bind, emits_ret. by rewrite Hset.
    + intros cs x ->. apply emits_lift_bind. intros [c st] Hu. apply emits_ret. rewrite Heps in Hu.
      destruct (update_closed_form (env_now env) (endpoints ns)
        (accepted ns sourceId (om_Name (p_Meta p))) true (p_Status p)) as (c' & Hu' & Hf).
      rewrite Hu' in Hu. injection Hu as <- <-.
      destruct (newStatus_loaded (env_now env) (endpoints ns) _ (p_Status p)
        (accepted_loaded ns sourceId (om_Name (p_Meta p)))) as [Ha Hl].
      unfold at_rest. cbn [fst snd]. split_and!; [done..| | | |].
      * by rewrite Ha.
      * unfold WaitingForRuntime. by rewrite Hl.
      * exists (env_now env). unfold nextStatus. by rewrite bool_decide_true.
      * intros Hun. specialize (Hun (env_now env)). unfold nextStatus in Hun.
        rewrite bool_decide_true in Hun by done. destruct c'; [|done]. by apply Hf in Hun.
Qed.

Lemma finish_rest st :
  ActiveModelState st ≠ Loading → WaitingForRuntime st = false →
  emits (finish true st None) (λ cs out, cs = [] ∧ done_with out = true).
Proof.
  intros Ha Hw. unfold finish, requeueFor. rewrite Hw, bool_decide_false by done. by apply emits_ret.
Qed.

(** The Predictor whose status a reconciliation writes *)
Definition written (cs : list PredictorCall) : option Predictor :=
  last (omap (λ c, match c with CallUpdateStatus q => Some q | _ => None end) cs).

Lemma written_app env p sourceId calls (q : option Predictor) :
  model_calls env p sourceId calls →
  written (calls ++ match q with Some q => [CallUpdateStatus q] | None => [] end) = q.
Proof. intros Hc. unfold written. rewrite omap_app. by destruct Hc, q. Qed.

Definition changes_no_vmodel (c : PredictorCall) : Prop :=
  match c with CallGetVModelStatus _ | CallUpdateStatus _ => True | _ => False end.

Lemma mesh_calls_unchanged ns c cs m m' :
  Forall changes_no_vmodel cs → mesh_calls ns c cs m m' → m' = m.
Proof.
  intros Hs. induction 1 as [|mmc c cs m m1 m' Hm _ IH|p cs m m' _ IH]; [done| |];
    apply Forall_cons in Hs as [Hc Hs]; [|by apply IH].
  rewrite IH by done. by destruct Hm.
Qed.

(** A reconciliation that found its Predictor: it is done, writes the status it computed
    if it changed, and registers a valid Predictor. *)
Lemma Reconcile_found env mmc req n src regs reg p :
  cooperative (Namespace n) env mmc → resolves req n src → regs !! src = Some reg →
  reg_Get reg n = Ret (Ok (Some p)) → (∀ q, reg_UpdateStatus reg q = Ok true) → registrable p →
  ∃ cs out st, run (Reconcile env req regs) = Ret (cs, out) ∧ done_with out = true ∧
    (∃ now, st = nextStatus now (Namespace n) src p) ∧
    (written cs = Some (set_Status st p) ∨
     written cs = None ∧ set_Available false st = set_Available false (p_Status p)) ∧
    (unchanging (Namespace n) src p → written cs = None) ∧
    (validatePredictor p ≠ "" → Forall changes_no_vmodel cs).
Proof.
  intros Hco Hr Hreg Hg Hu [Href Hmar]. unfold Reconcile. rewrite Hr, run_lift_bind, Hreg.
  destruct (reconcile_run env n src reg p Hg Href)
    as (calls & upd & st & have & res & err & Hrun & Hcalls & Hpost & Hres & e & Hmod).
  pose proof (emits_run _ _ _ _ (reconcileModel_rest env mmc p (Namespace n) src
    (reg_GetSourceName reg) Hco (conj Href Hmar)) Hmod) as (He & Hh & Hal & Hw & Hnow & Hun).
  cbn [fst snd] in *. subst e have. rewrite Hrun. eexists _, _, st. split_and!; [done|..|done| | |].
  - eapply (emits_run _ (λ _ out, done_with out = true)); [|exact Hrun].
    unfold ReconcilePredictor. cbn zeta. rewrite Hg. apply emits_lift_bind. intros got [= <-].
    eapply emits_bind; [by eapply (reconcileModel_rest env mmc p (Namespace n))|].
    intros cs [[[u s] h] e] (He & Hh & Ha' & Hw' & _). cbn [fst snd] in *. subst. destruct u.
    + apply emits_call_bind. unfold afterUpdate. rewrite Hu. apply emits_lift_bind. intros msg _.
      eapply emits_weaken; [by apply finish_rest|by intros ? ? [_ ?]].
    + eapply emits_weaken; [by apply finish_rest|by intros ? ? [_ ?]].
  - destruct upd; [left; by apply (written_app env p src calls (Some _))|right].
    split; [by apply (written_app env p src calls None)|]. by apply (mp_unchanged _ _ _ _ _ _ Hpost).
  - intros Hq. rewrite (Hun Hq). by apply (written_app env p src calls None).
  - intros Hv. apply Forall_app. split; [|destruct upd; by repeat constructor].
    destruct Hcalls; by repeat constructor.
Qed.

(** ** The controller at work

    The steps of the worker while nobody else changes anything: registries answer,
    status updates are stored and model-mesh cooperates. The events of the status
    update and of the vmodel put requests for the Predictor on the queue. *)

(** The Predictors after the status updates of a reconciliation *)
Definition status_stored (k : pkey) (cs : list PredictorCall)
    (store store' : gmap pkey Predictor) : Prop :=
  match written cs with
  | Some q => ∃ q', stored q q' ∧ store' = <[k := q']> store
  | None => store' = store
  end.

(** The queue after a reconciliation: [req] again when it asks for it, [preq] for the
    event of the status update, [vreq] for the event of the vmodel *)
Definition requeued (req preq vreq : NamespacedName) (again updated changed : bool)
    (q : gset NamespacedName) : gset NamespacedName :=
  (if again then {[ req ]} else ∅) ∪ (if updated then {[ preq ]} else ∅) ∪
  (if changed then {[ vreq ]} else ∅) ∪ q.

Inductive work_step : World → World → Prop :=
| work_take w req n src : req ∈ w_queue w → w_busy w = None → resolves req n src →
    work_step w (mkWorld (w_store w) (w_mesh w) (w_queue w ∖ {[ req ]})
                   (Some (req, w_store w !! (src, n))) (w_missed w ∖ {[ (src, n) ]}))
| work_reconcile w req n src snap env mmc regs cs out store' m' preq vreq :
    w_busy w = Some (req, snap) → resolves req n src → dom regs = sources →
    cooperative (Namespace n) env mmc →
    (∀ reg, regs !! src = Some reg →
       reg_Get reg n = Ret (Ok snap) ∧ ∀ q, reg_UpdateStatus reg q = Ok true) →
    run (Reconcile env req regs) = Ret (cs, out) →
    mesh_calls (Namespace n) (env_MMClient env) cs (w_mesh w) m' →
    status_stored (src, n) cs (w_store w) store' →
    resolves preq n src → resolves vreq n src →
    work_step w (mkWorld store' m'
      (requeued req preq vreq (negb (done_with out)) (bool_decide (is_Some (written cs)))
         (bool_decide (m' ≠ w_mesh w)) (w_queue w)) None (w_missed w)).

(** No conflict of sources, every Predictor registrable, the worker's copy current *)
Record calm (w : World) : Prop := {
  ca_registrable k p : w_store w !! k = Some p → registrable p;
  ca_unique src src' n p p' : w_store w !! (src, n) = Some p → w_store w !! (src', n) = Some p' →
    src = src';
  ca_free src n p : w_store w !! (src, n) = Some p →
    free_for (w_mesh w) src (Namespace n, Name n);
  ca_busy req snap n src : w_busy w = Some (req, snap) → resolves req n src →
    snap = w_store w !! (src, n)
}.

(** A reconciliation of the Predictor would change nothing. *)
Definition quiet (src : string) (n : NamespacedName) (o : option Predictor) (m : mesh) : Prop :=
  src ∈ sources →
  match o with
  | Some p => unchanging (Namespace n) src p ∧
      (validatePredictor p = "" → owned m src (Namespace n, Name n) (concreteModelName p src))
  | None => ∀ t, ¬ owned m src (Namespace n, Name n) t
  end.

Lemma quiet_frame src n o src' n' m m' :
  same_but src (Namespace n, Name n) m m' → (src', n') ≠ (src, n) →
  quiet src' n' o m → quiet src' n' o m'.
Proof.
  intros Hs Hne Hq Hsrc. specialize (Hq Hsrc).
  assert (∀ t, owned m src' (Namespace n', Name n') t ↔ owned m' src' (Namespace n', Name n') t)
    as Ho.
  { intros t. apply Hs. intros [= -> E1 E2]. apply Hne. destruct n, n'. simpl in *. by subst. }
  destruct o as [p|].
  - split; [apply Hq|]. intros Hv. by apply Ho, Hq.
  - intros t Ht%Ho. by eapply Hq.
Qed.

Lemma free_for_same_but src src' (k k' : vmodel_key) m m' :
  same_but src k m m' → (k = k' → src = src' ∨ ∀ t, ¬ owned m' src k t) →
  free_for m src' k' → free_for m' src' k'.
Proof.
  intros Hs Hk Hf o t Ho. destruct (decide ((o, k') = (src, k))) as [[= -> ->]|Hne].
  - destruct (Hk eq_refl) as [|Hno]; [done|]. by destruct (Hno t).
  - eapply Hf. by apply (Hs o k' t Hne).
Qed.

Lemma Reconcile_unknown env req n src (regs : gmap string PredictorRegistry) :
  resolves req n src → regs !! src = None →
  run (Reconcile env req regs) = Ret ([], (emptyResult, None)).
Proof. intros Hr Hn. unfold Reconcile. rewrite Hr, run_lift_bind, Hn. done. Qed.

Lemma Reconcile_gone env mmc req n src regs reg :
  cooperative (Namespace n) env mmc → resolves req n src → regs !! src = Some reg →
  reg_Get reg n = Ret (Ok None) →
  run (Reconcile env req regs) =
    Ret ([CallDeleteVModel (mkDeleteVModel (Name n) src)], (emptyResult, None)).
Proof.
  intros [Hc _ _ _ Hd] Hr Hreg Hg. unfold Reconcile. rewrite Hr, run_lift_bind, Hreg.
  unfold ReconcilePredictor, handlePredictorNotFound. cbn zeta. rewrite Hg. run_io.
  rewrite Hc, Hd. done.
Qed.

Lemma unregister_idle ns rq m :
  (∀ t, ¬ owned m (dv_Owner rq) (ns, dv_VModelId rq) t) → unregister ns rq m = m.
Proof.
  intros Hno. unfold unregister. destruct (m !! (ns, dv_VModelId rq)) as [[o t]|] eqn:E; [|done].
  case_bool_decide; [|done]. subst o. by destruct (Hno t).
Qed.

(** The outcome of a reconciliation at work *)
Record outcome (src : string) (n : NamespacedName) (snap : option Predictor)
    (cs : list PredictorCall) (out : CtrlResult * option error) (m m' : mesh) : Prop := {
  oc_done : done_with out = true;
  oc_same : same_but src (Namespace n, Name n) m m';
  oc_gone : snap = None → m' = m ∨ ∀ t, ¬ owned m' src (Namespace n, Name n) t;
  oc_written q : written cs = Some q → ∃ p st, snap = Some p ∧ q = set_Status st p;
  oc_quiet o : match written cs with
               | Some q => ∃ q', stored q q' ∧ o = Some q'
               | None => o = snap
               end → quiet src n o m';
  oc_silent : quiet src n snap m → written cs = None ∧ m' = m
}.

Lemma registered_effect env mmc p n src cs m m' :
  cooperative (Namespace n) env mmc → predictor_nn p = n →
  registered env p src cs → mesh_calls (Namespace n) (env_MMClient env) cs m m' →
  m' = <[(Namespace n, Name n) := (src, concreteModelName p src)]> m.
Proof.
  intros Hco Hn (mmc' & rq & v & cs' & Hc & -> & Hs & (Hid & Ho & Ht & _) & Hsil) Hm.
  rewrite Hc in Hm. inversion Hm as [|? ? ? ? m1 ? Hm1 Hms|]; subst.
  apply mesh_calls_silent in Hms as ->; [|done].
  assert (m1 = register (Namespace (predictor_nn p)) rq m) as ->
    by (inversion Hm1; subst; [done|congruence..]).
  unfold register. by rewrite Hid, Ht.
Qed.

Lemma found_outcome env mmc req n src regs reg p cs out m m' :
  cooperative (Namespace n) env mmc → resolves req n src → regs !! src = Some reg →
  reg_Get reg n = Ret (Ok (Some p)) → (∀ q, reg_UpdateStatus reg q = Ok true) → registrable p →
  predictor_nn p = n → (done_with out = true → achieved env n src (Some p) cs) →
  same_but src (Namespace n, Name n) m m' → src ∈ sources →
  run (Reconcile env req regs) = Ret (cs, out) →
  mesh_calls (Namespace n) (env_MMClient env) cs m m' →
  outcome src n (Some p) cs out m m'.
Proof.
  intros Hco Hr E Hg Hu Hp Hn Hach Hsame Hsrc Hrun Hm.
  destruct (Reconcile_found env mmc req n src regs reg p Hco Hr E Hg Hu Hp)
    as (cs' & out' & st & Hrun' & Hd & [now Hst] & Hw & Hun & Hinv).
  rewrite Hrun' in Hrun. injection Hrun as -> ->. specialize (Hach Hd).
  assert (validatePredictor p = "" →
    m' = <[(Namespace n, Name n) := (src, concreteModelName p src)]> m) as Hreg
    by (intros Hv; eapply registered_effect; eauto).
  assert (validatePredictor p ≠ "" → m' = m) as Hsil
    by (intros Hv; exact (mesh_calls_unchanged _ _ _ _ _ (Hinv Hv) Hm)).
  split; [done..| | |].
  - intros q Hq. destruct Hw as [Hw|[Hw _]]; [|congruence]. rewrite Hw in Hq. injection Hq as <-.
    by exists p, st.
  - intros o Ho _.
    assert (∃ q', o = Some q' ∧ p_Spec q' = p_Spec p ∧ predictor_nn q' = n ∧
      set_Available false (p_Status q') = set_Available false st) as (q' & -> & Hspec & Hn' & Hst').
    { destruct Hw as [Hw|[Hw Hst']]; rewrite Hw in Ho.
      - destruct Ho as (q' & (? & Hs & ?) & ->). exists q'. rewrite Hs. by subst n.
      - exists p. by rewrite Hst'. }
    assert (om_Name (p_Meta q') = om_Name (p_Meta p)) as Hname
      by (rewrite <- Hn in Hn'; by injection Hn').
    split; [eapply nextStatus_unchanging; [done..|]; by rewrite Hst', Hst|].
    unfold validatePredictor, concreteModelName. rewrite Hspec, Hname. intros Hv.
    rewrite Hreg by done. unfold owned. by rewrite lookup_insert_eq.
  - intros [Hunch Ho]%(λ H, H Hsrc). split; [by apply Hun|].
    destruct (decide (validatePredictor p = "")) as [Hv|]; [|by apply Hsil].
    rewrite Hreg by done. by apply insert_id, Ho.
Qed.

Lemma work_outcome w req n src snap env mmc regs cs out m' :
  world_ok sources w → calm w → w_busy w = Some (req, snap) → resolves req n src →
  dom regs = sources → cooperative (Namespace n) env mmc →
  (∀ reg, regs !! src = Some reg →
     reg_Get reg n = Ret (Ok snap) ∧ ∀ q, reg_UpdateStatus reg q = Ok true) →
  run (Reconcile env req regs) = Ret (cs, out) →
  mesh_calls (Namespace n) (env_MMClient env) cs (w_mesh w) m' →
  outcome src n snap cs out (w_mesh w) m'.
Proof.
  intros Hok Hcalm Hb Hr Hdom Hco Hreg Hrun Hm.
  pose proof (ca_busy _ Hcalm _ _ _ _ Hb Hr) as Hsnap.
  destruct (regs !! src) as [reg|] eqn:E.
  2:{ rewrite (Reconcile_unknown env req n src regs Hr E) in Hrun. injection Hrun as <- <-.
      apply mesh_calls_silent in Hm as ->; [|done]. split; try done; [by left|].
      intros o _ Hsrc. apply not_elem_of_dom in E. by rewrite Hdom in E. }
  destruct (Hreg reg eq_refl) as [Hg Hu].
  destruct (emits_run _ _ _ _ (Reconcile_emits env req n src regs snap Hr (elem_of_dom_2 _ _ _ E)
    ltac:(rewrite E; intros ? [= <-]; unfold answers; by rewrite Hg)
    (λ p, wo_busy_names _ _ Hok _ _ _ _ p Hb Hr)) Hrun) as [Hcs Hach].
  pose proof (mesh_calls_same_but _ _ _ _ _ _ _ Hcs Hm) as Hsame.
  destruct snap as [p|].
  - apply (found_outcome env mmc req n src regs reg p); eauto using ca_registrable.
    + by apply (wo_busy_names _ _ Hok _ _ _ _ p Hb Hr).
    + rewrite <- Hdom. by eapply elem_of_dom_2.
  - rewrite (Reconcile_gone env mmc req n src regs reg Hco Hr E Hg) in Hrun.
    injection Hrun as <- <-. rewrite (co_client _ _ _ Hco) in Hm.
    inversion Hm as [|? ? ? ? m1 ? Hm1 Hms|]; subst.
    apply mesh_calls_silent in Hms as ->; [|done].
    assert (m1 = unregister (Namespace n) (mkDeleteVModel (Name n) src) (w_mesh w)) as ->
      by (inversion Hm1; subst; [done|pose proof (co_delete _ _ _ Hco (mkDeleteVModel (Name n) src));
        congruence..]).
    pose proof (unregister_gone (Namespace n) (mkDeleteVModel (Name n) src) (w_mesh w)) as Hgone.
    cbn [dv_Owner dv_VModelId] in Hgone.
    split; try done; [by right|by intros o -> _|]. intros Hq. split; [done|].
    apply unregister_idle. apply Hq. rewrite <- Hdom. by eapply elem_of_dom_2.
Qed.

(** *** Predictors that differ in their status only *)

Definition alike (s s' : gmap pkey Predictor) : Prop :=
  ∀ k, p_Spec <$> s' !! k = p_Spec <$> s !! k.

#[export] Instance alike_preorder : PreOrder alike.
Proof. split; [by intros s k|]. intros s1 s2 s3 H1 H2 k. by rewrite H2. Qed.

Lemma alike_before s s' k p' :
  alike s s' → s' !! k = Some p' → ∃ p, s !! k = Some p ∧ p_Spec p' = p_Spec p.
Proof.
  intros Ha Hp. specialize (Ha k). rewrite Hp in Ha.
  destruct (s !! k) as [p|]; [|done]. exists p. by injection Ha.
Qed.

Lemma stored_alike src n snap cs out m m' s s' :
  outcome src n snap cs out m m' → snap = s !! (src, n) → status_stored (src, n) cs s s' →
  alike s s'.
Proof.
  intros Hoc Hs Hst k. unfold status_stored in Hst. destruct (written cs) as [q|] eqn:Ew; [|by subst].
  destruct Hst as (q' & (Hspec & _) & ->).
  destruct (oc_written _ _ _ _ _ _ _ Hoc q Ew) as (p & st & -> & ->).
  destruct (decide (k = (src, n))) as [->|Hne]; [|by rewrite lookup_insert_ne].
  rewrite lookup_insert_eq, <- Hs. cbn. by rewrite Hspec.
Qed.

Lemma world_step_eq w w1 w2 : world_step sources w w1 → w1 = w2 → world_step sources w w2.
Proof. by intros ? <-. Qed.

Lemma stored_at k cs s s' :
  status_stored k cs s s' →
  match written cs with
  | Some q => ∃ q', stored q q' ∧ s' !! k = Some q'
  | None => s' !! k = s !! k
  end.
Proof.
  unfold status_stored. destruct (written cs) as [q|]; [|by intros ->].
  intros (q' & Hq & ->). exists q'. by rewrite lookup_insert_eq.
Qed.

Lemma stored_elsewhere k cs s s' k' :
  status_stored k cs s s' → k' ≠ k → s' !! k' = s !! k'.
Proof.
  unfold status_stored. destruct (written cs) as [q|]; [|by intros ->].
  intros (q' & Hq & ->) Hne. by rewrite lookup_insert_ne.
Qed.

(** *** What a step of work keeps *)

Lemma calm_step w w' : world_ok sources w → calm w → work_step w w' → calm w'.
Proof.
  intros Hok Hcalm. destruct 1 as [w req n src Hq Hb Hr
    |w req n src snap env mmc regs cs out store' m' preq vreq Hb Hr Hd Hco Hreg Hrun Hm Hst Hpr Hvr].
  - destruct Hcalm as [Hre Hu Hf _]. split; [done..|]. cbn [w_busy w_store].
    intros req' snap n' src' [= <- <-] Hr'. by destruct (resolves_inj _ _ _ _ _ Hr Hr') as [-> ->].
  - pose proof (work_outcome w req n src snap env mmc regs cs out m' Hok Hcalm Hb Hr Hd Hco
      Hreg Hrun Hm) as Hoc.
    pose proof (ca_busy _ Hcalm _ _ _ _ Hb Hr) as Hsnap.
    pose proof (stored_alike _ _ _ _ _ _ _ _ _ Hoc Hsnap Hst) as Halike.
    destruct Hcalm as [Hre Hu Hf _]. split; cbn [w_store w_mesh w_busy]; [..|done].
    + intros k p Hp. destruct (alike_before _ _ _ _ Halike Hp) as (p0 & Hp0 & Hspec).
      destruct (Hre _ _ Hp0) as [Href Hmar]. split; [|done]. unfold runtime_ref_ok. by rewrite Hspec.
    + intros src1 src2 n1 p1 p2 H1 H2.
      destruct (alike_before _ _ _ _ Halike H1) as (? & ? & _).
      destruct (alike_before _ _ _ _ Halike H2) as (? & ? & _). eauto.
    + intros src' n' p' Hp'. destruct (alike_before _ _ _ _ Halike Hp') as (p0 & Hp0 & _).
      eapply free_for_same_but; [exact (oc_same _ _ _ _ _ _ _ Hoc)| |by eapply Hf]. intros [= E1 E2].
      assert (n = n') as <- by (destruct n, n'; simpl in *; by subst).
      destruct snap as [p|]; [left; by eapply Hu|].
      destruct (oc_gone _ _ _ _ _ _ _ Hoc eq_refl) as [->|]; [|by right].
      destruct (decide (src = src')); [by left|right]. intros t Ht. by apply (Hf _ _ _ Hp0) in Ht.
Qed.

(** A step of work is made of steps of the world. *)
Lemma work_world w w' : world_ok sources w → calm w → work_step w w' → rtc (world_step sources) w w'.
Proof.
  intros Hok Hcalm. destruct 1 as [w req n src Hq Hb Hr
    |w req n src snap env mmc regs cs out store' m' preq vreq Hb Hr Hd Hco Hreg Hrun Hm Hst Hpr Hvr].
  { by apply rtc_once, step_take. }
  pose proof (work_outcome w req n src snap env mmc regs cs out m' Hok Hcalm Hb Hr Hd Hco
    Hreg Hrun Hm) as Hoc.
  pose proof (ca_busy _ Hcalm _ _ _ _ Hb Hr) as Hsnap.
  eapply rtc_l.
  { eapply step_reconcile; [done..| |done|done]. intros reg [Hg _]%Hreg. unfold answers. by rewrite Hg. }
  rewrite (oc_done _ _ _ _ _ _ _ Hoc). cbn [negb].
  set (q1 := if bool_decide (m' ≠ w_mesh w) then {[ vreq ]} ∪ w_queue w else w_queue w).
  trans (mkWorld (w_store w) m' q1 None (w_missed w)).
  { subst q1. case_bool_decide; [|done]. apply rtc_once.
    apply (step_event _ (mkWorld (w_store w) m' (w_queue w) None (w_missed w))). }
  unfold status_stored in Hst. destruct (written cs) as [q|] eqn:Ew.
  - destruct Hst as (q' & (_ & _ & Hn) & ->). apply rtc_once.
    destruct (oc_written _ _ _ _ _ _ _ Hoc q Ew) as (p & st & -> & ->).
    rewrite (bool_decide_true (is_Some _)) by by eexists.
    eapply world_step_eq; [apply (step_put _ (mkWorld (w_store w) m' q1 None (w_missed w)) src n q' preq)|].
    + done.
    + rewrite Hn. by apply (wo_busy_names _ _ Hok _ _ _ _ p Hb Hr).
    + unfold enqueue. cbn. f_equal. subst q1. unfold requeued. case_bool_decide; set_solver.
  - subst store'. rewrite (bool_decide_false (is_Some _)) by by intros [].
    replace (requeued _ _ _ _ _ _ _) with q1; [done|].
    subst q1. unfold requeued. case_bool_decide; set_solver.
Qed.

(** *** How much work is left

    [D] holds the Predictors that were not reconciled yet: of the requests, all others
    are quiet. *)
Definition tracked (D : gset pkey) (w : World) : Prop :=
  ∀ req n src, req ∈ w_queue w ∨ (∃ snap, w_busy w = Some (req, snap)) → resolves req n src →
    (src, n) ∈ D ∨ quiet src n (w_store w !! (src, n)) (w_mesh w).

Definition work_left (D : gset pkey) (w : World) : nat :=
  2 * size (w_queue w) + (if w_busy w then 1 else 0) + 4 * size D.

Lemma elem_requeued r req preq vreq again updated changed q :
  r ∈ requeued req preq vreq again updated changed q →
  r = req ∨ r = preq ∨ r = vreq ∨ r ∈ q.
Proof. unfold requeued. destruct again, updated, changed; set_solver. Qed.

Lemma size_requeued req preq vreq (updated changed : bool) q :
  size (requeued req preq vreq false updated changed q) ≤
  (if updated then 1 else 0) + (if changed then 1 else 0) + size q.
Proof.
  unfold requeued. size_unions. destruct updated, changed; rewrite ?size_singleton, ?size_empty in *; lia.
Qed.

Lemma work_step_eq w w1 w2 : work_step w w1 → w1 = w2 → work_step w w2.
Proof. by intros ? <-. Qed.

Lemma work_tracked D w w' :
  world_ok sources w → calm w → tracked D w → work_step w w' →
  ∃ D', tracked D' w' ∧ work_left D' w' < work_left D w.
Proof.
  intros Hok Hcalm Htr. destruct 1 as [w req n src Hq Hb Hr
    |w req n src snap env mmc regs cs out store' m' preq vreq Hb Hr Hd Hco Hreg Hrun Hm Hst Hpr Hvr].
  - exists D. split.
    + intros req' n' src' Hreq'. apply (Htr req' n' src'). left. cbn [w_queue w_busy] in Hreq'.
      destruct Hreq' as [|(? & [= -> _])]; set_solver.
    + unfold work_left. cbn [w_queue w_busy]. rewrite Hb, (size_delete_elem req (w_queue w)) by done. lia.
  - pose proof (work_outcome w req n src snap env mmc regs cs out m' Hok Hcalm Hb Hr Hd Hco
      Hreg Hrun Hm) as Hoc.
    pose proof (ca_busy _ Hcalm _ _ _ _ Hb Hr) as Hsnap.
    exists (D ∖ {[ (src, n) ]}). split.
    + intros req' n' src' Hreq' Hr'. cbn [w_queue w_busy w_store w_mesh] in *.
      destruct (decide ((src', n') = (src, n))) as [[= -> ->]|Hne].
      { right. apply (oc_quiet _ _ _ _ _ _ _ Hoc). rewrite Hsnap. by apply stored_at. }
      rewrite (stored_elsewhere (src, n) cs (w_store w) store') by done.
      assert (req' ∈ w_queue w) as Hin.
      { destruct Hreq' as [Hreq'|[? [=]]].
        assert (∀ r, resolves r n src → req' ≠ r) as Hno.
        { intros r Hrr ->. destruct (resolves_inj _ _ _ _ _ Hr' Hrr) as [-> ->]. done. }
        apply elem_requeued in Hreq' as [E|[E|[E|]]]; [by destruct (Hno _ Hr)
          |by destruct (Hno _ Hpr)|by destruct (Hno _ Hvr)|done]. }
      destruct (Htr req' n' src' (or_introl Hin) Hr') as [|Hqt]; [left; set_solver|right].
      by eapply quiet_frame; [apply (oc_same _ _ _ _ _ _ _ Hoc)|..].
    + unfold work_left. cbn [w_queue w_busy]. rewrite Hb, (oc_done _ _ _ _ _ _ _ Hoc). cbn [negb].
      destruct (Htr req n src (or_intror (ex_intro _ snap Hb)) Hr) as [Hin|Hqt].
      * pose proof (size_requeued req preq vreq (bool_decide (is_Some (written cs)))
          (bool_decide (m' ≠ w_mesh w)) (w_queue w)).
        rewrite (size_delete_elem (src, n) D) by done. repeat case_bool_decide; lia.
      * rewrite <- Hsnap in Hqt. destruct (oc_silent _ _ _ _ _ _ _ Hoc Hqt) as [Hw ->].
        pose proof (size_requeued req preq vreq false false (w_queue w)) as Hsz. cbv iota in Hsz.
        assert (size (D ∖ {[ (src, n) ]}) ≤ size D) by (apply subseteq_size; set_solver).
        rewrite Hw, (bool_decide_false (is_Some _)), (bool_decide_false (_ ≠ _))
          by (try tauto; by intros []). lia.
Qed.

(** The Predictors of the requests *)
Definition keyOf (req : NamespacedName) : pkey :=
  match ResolveSource req PredictorCRSourceId with Ret (n, src) => (src, n) | Panic => ("", req) end.

Definition requestedKeys (w : World) : gset pkey :=
  list_to_set (keyOf <$> elements (w_queue w)) ∪
  match w_busy w with Some (req, _) => {[ keyOf req ]} | None => ∅ end.

Lemma requestedKeys_tracked w : tracked (requestedKeys w) w.
Proof.
  intros req n src Hreq Hr. left. unfold requestedKeys.
  assert ((src, n) = keyOf req) as -> by (unfold keyOf; by rewrite Hr).
  destruct Hreq as [Hin|[snap Hb]].
  - apply elem_of_union_l. apply elem_of_list_to_set, list_elem_of_fmap. exists req. set_solver.
  - rewrite Hb. set_solver.
Qed.

Lemma work_left_start w :
  work_left (requestedKeys w) w ≤ 6 * size (w_queue w) + (if w_busy w then 5 else 0).
Proof.
  unfold work_left, requestedKeys.
  pose proof (size_list_to_set_le (keyOf <$> elements (w_queue w))) as Hl.
  rewrite length_fmap in Hl. change (length (elements (w_queue w))) with (size (w_queue w)) in Hl.
  size_unions. destruct (w_busy w) as [[req snap]|]; rewrite ?size_singleton, ?size_empty in *; lia.
Qed.

(** *** The work can go on *)

Lemma cooperative_effect env mmc ns src id cs m :
  cooperative ns env mmc → Forall (call_for src id) cs → free_for m src (ns, id) →
  ∃ m', mesh_calls ns (Some mmc) cs m m'.
Proof.
  intros Hco. revert m. induction cs as [|c cs IH]; intros m Hcs Hf.
  { exists m. constructor. }
  apply Forall_cons in Hcs as [Hc Hcs].
  assert (∃ m1, mesh_call ns mmc c m m1) as [m1 Hm1].
  { destruct c as [rq|rq|rq|p]; simpl in Hc; [by eexists; constructor| | |by eexists; constructor].
    - destruct Hc as [<- <-]. eexists. by eapply set_accepted; [apply (co_set _ _ _ Hco)|].
    - eexists. apply delete_accepted, (co_delete _ _ _ Hco). }
  destruct (IH m1 Hcs) as [m' Hm'].
  - eapply free_for_same_but; [by eapply mesh_call_same_but|by left|done].
  - exists m'. by econstructor.
Qed.

(** A model-mesh that cooperates, and a registry that answers *)
Definition cooperativeClient (ns : string) : ModelMeshClient :=
  mkMMC (λ rq, Ok (known ns (gv_Owner rq) (gv_VModelId rq)))
    (λ rq, Ok (accepted ns (sv_Owner rq) (sv_VModelId rq))) (λ _, None).
Definition cooperativeEnv (ns : string) : Env :=
  mkEnvR (Some (cooperativeClient ns)) (endpoints ns) 0.
Definition answering (snap : option Predictor) : PredictorRegistry :=
  mkRegistry (λ _, Ret (Ok snap)) (λ St _ _ s, Ret (s, Ok false)) (λ _, Ok true) "Predictor".
Definition answeringAll (snap : option Predictor) : gmap string PredictorRegistry :=
  gset_to_gmap (answering snap) sources.

Lemma cooperativeEnv_ok ns : cooperative ns (cooperativeEnv ns) (cooperativeClient ns).
Proof. by split. Qed.

Lemma answeringAll_ok snap src n reg :
  answeringAll snap !! src = Some reg →
  reg_Get reg n = Ret (Ok snap) ∧ ∀ q, reg_UpdateStatus reg q = Ok true.
Proof. by intros [_ <-]%lookup_gset_to_gmap_Some. Qed.

(** The reconciliation under way can return, with an effect on the vmodels. *)
Lemma reconcile_returns w req n src snap :
  let env := cooperativeEnv (Namespace n) in
  world_ok sources w → calm w → w_busy w = Some (req, snap) → resolves req n src →
  ∃ cs out m', run (Reconcile env req (answeringAll snap)) = Ret (cs, out) ∧
    mesh_calls (Namespace n) (env_MMClient env) cs (w_mesh w) m'.
Proof.
  intros env Hok Hcalm Hb Hr. pose proof (cooperativeEnv_ok (Namespace n)) as Hco.
  pose proof (ca_busy _ Hcalm _ _ _ _ Hb Hr) as Hs.
  destruct (answeringAll snap !! src) as [reg|] eqn:E.
  2:{ eexists [], _, _. split; [by eapply Reconcile_unknown|constructor]. }
  destruct (answeringAll_ok snap src n reg E) as [Hg Hu]. destruct snap as [p|].
  - destruct (Reconcile_found env _ req n src _ reg p Hco Hr E Hg Hu)
      as (cs & out & st & Hrun & _); [by eapply (ca_registrable _ Hcalm)|].
    destruct (emits_run _ _ _ _ (Reconcile_emits env req n src _ (Some p) Hr (elem_of_dom_2 _ _ _ E)
      ltac:(rewrite E; intros ? [= <-]; unfold answers; by rewrite Hg)
      (λ p, wo_busy_names _ _ Hok _ _ _ _ p Hb Hr)) Hrun) as [Hcs _].
    destruct (cooperative_effect env _ (Namespace n) src (Name n) cs (w_mesh w) Hco Hcs)
      as [m' Hm']; [by eapply (ca_free _ Hcalm)|]. by exists cs, out, m'.
  - eexists _, _, _. split; [by eapply Reconcile_gone|].
    econstructor; [by apply delete_accepted|constructor].
Qed.

Lemma status_storable k cs store : ∃ store', status_stored k cs store store'.
Proof.
  unfold status_stored. destruct (written cs) as [q|]; [|by eexists]. eexists. by exists q.
Qed.

Lemma work_progress w :
  world_ok sources w → calm w → idle w ∨ ∃ w', work_step w w'.
Proof.
  intros Hok Hcalm. destruct (w_busy w) as [[req snap]|] eqn:Hb.
  - right. destruct (ResolveSource_total req PredictorCRSourceId) as [[n src] Hr].
    destruct (reconcile_returns w req n src snap Hok Hcalm Hb Hr) as (cs & out & m' & Hrun & Hm).
    destruct (status_storable (src, n) cs (w_store w)) as [store' Hst].
    eexists. eapply (work_reconcile w req n src snap (cooperativeEnv (Namespace n)) _ (answeringAll snap));
      [done..|apply dom_gset_to_gmap|apply cooperativeEnv_ok| |done|done|done|done|done].
    intros reg Hreg. by eapply answeringAll_ok.
  - destruct (decide (w_queue w = ∅)) as [Hq|[req Hq]%set_choose_L]; [by left|].
    right. destruct (ResolveSource_total req PredictorCRSourceId) as [[n src] Hr].
    eexists. by eapply work_take.
Qed.

Lemma work_invariant w w' :
  world_ok sources w → calm w → work_step w w' →
  world_ok sources w' ∧ calm w' ∧ alike (w_store w) (w_store w') ∧ w_missed w' ⊆ w_missed w.
Proof.
  intros Hok Hcalm Hstep. split_and!.
  - eapply rtc_invariant; [apply world_step_ok|by apply work_world|done].
  - by eapply calm_step.
  - destruct Hstep as [|w req n src snap env mmc regs cs out store' m' preq vreq Hb Hr Hd Hco Hreg Hrun Hm Hst].
    + done.
    + eapply (stored_alike src n snap cs out); [by eapply work_outcome| |done].
      by eapply ca_busy.
  - destruct Hstep; [set_solver|done].
Qed.

End Progress.

(** ** Runs *)

#[local] Existing Instance predictorLibsImpl.
#[local] Existing Instance protocolNamesImpl.

Definition loadedAnswer : VModelStatusInfo :=
  mkVStatus VMS_DEFINED "m" "m" (Some (mkStatusInfo MS_LOADED [] [])) None.
Definition allLoaded (ns owner id : string) : VModelStatusInfo := loadedAnswer.
Definition runEndpoints (ns : string) : option (string * string) := Some ("grpc://mm", "http://mm").

Abbreviation mesh_work := (work_step {[ "ksp" ]} allLoaded allLoaded runEndpoints).

Lemma meshWorld0_calm : calm meshWorld0.
Proof.
  split; unfold meshWorld0; cbn [w_store w_mesh w_busy]; [..|done].
  - intros k p [_ <-]%lookup_singleton_Some. split; [exact I|]. intros mki. by eexists.
  - intros src src' n p p' [[= <- <-] _]%lookup_singleton_Some [[= <-] _]%lookup_singleton_Some.
    done.
  - intros src n p [[= <- <-] _]%lookup_singleton_Some o t. vm_compute. discriminate.
Qed.

(** After the request of the Predictor was taken and worked off: the status that was
    written and the new vmodel left a request each *)
Definition meshPredictor2 : Predictor :=
  set_Status (nextStatus allLoaded allLoaded runEndpoints 0 "ns" "ksp" meshPredictor) meshPredictor.
Definition meshWorld2 : World :=
  mkWorld {[ ("ksp", meshRequest) := meshPredictor2 ]}
    (<[("ns", "p") := ("ksp", concreteModelName meshPredictor "ksp")]> (w_mesh meshWorld0))
    {[ meshRequest; mkNN "ksp_ns" "p"; mkNN "ksp_ns" "q" ]} None ∅.

Lemma meshWorld2_work : nsteps mesh_work 2 meshWorld0 meshWorld2.
Proof.
  eapply nsteps_l; [eapply (work_take _ _ _ _ _ meshRequest meshRequest "ksp");
    [set_solver|done|reflexivity]|].
  eapply nsteps_l; [|constructor].
  eapply work_step_eq.
  { eapply (work_reconcile _ _ _ _ _ meshRequest meshRequest "ksp" (Some meshPredictor)
      (cooperativeEnv allLoaded allLoaded runEndpoints "ns")
      (cooperativeClient allLoaded allLoaded "ns") {[ "ksp" := answering (Some meshPredictor) ]}
      _ _ _ _ meshRequest (mkNN "ksp_ns" "p")).
    - reflexivity.
    - reflexivity.
    - reflexivity.
    - apply cooperativeEnv_ok.
    - by intros reg [_ <-]%lookup_singleton_Some.
    - vm_compute. reflexivity.
    - econstructor; [eapply set_accepted; [reflexivity|]|econstructor; constructor].
      intros o t. vm_compute. discriminate.
    - eexists. split; [|reflexivity]. by split.
    - reflexivity.
    - reflexivity. }
  vm_compute. reflexivity.
Qed.


(** A vmodel of an InferenceService that is gone, and no model-mesh pods *)
Definition orphanRequest : NamespacedName := mkNN "isvc_ns" "m".
Definition orphanWorld0 : World :=
  mkWorld ∅ {[ ("ns", "m") := ("isvc", "m__isvc-1") ]} {[ orphanRequest ]} None ∅.
Definition orphanEnv : Env :=
  let e := ErrGrpc Unavailable "name resolver error: produced zero addresses" in
  mkEnvR (Some (mkMMC (λ _, Err e) (λ _, Err e) (λ _, Some e))) None 0.

(** The deletion of an InferenceService while no model-mesh pod is running is dropped: the
    controller is idle and the vmodel stays registered, without a Predictor. *)
Theorem isvc_vmodel_orphaned :
  ∃ w, started {[ InferenceServiceCRSourceId ]} orphanWorld0 ∧
    rtc (world_step {[ InferenceServiceCRSourceId ]}) orphanWorld0 w ∧ idle w ∧
    w_store w = ∅ ∧
    owned (w_mesh w) InferenceServiceCRSourceId ("ns", "m") "m__isvc-1".
Proof.
  exists (mkWorld ∅ (w_mesh orphanWorld0) ∅ None ∅). split_and!; [| |done..].
  - split; unfold orphanWorld0; cbn [w_store w_mesh w_busy]; [done..|].
    unfold owned. intros src [ns id] t ->%elem_of_singleton [[= <- <-] _]%lookup_singleton_Some.
    left. exists orphanRequest. split; [set_solver|reflexivity].
  - eapply rtc_l; [eapply (step_take _ _ orphanRequest (mkNN "ns" "m") "isvc");
      [set_solver|done|reflexivity]|].
    eapply rtc_l.
    { eapply (step_reconcile _ _ orphanRequest (mkNN "ns" "m") "isvc" None orphanEnv
        {[ "isvc" := exRegistry (Ok None) ]}); [reflexivity..| | |].
      - by intros reg [_ <-]%lookup_singleton_Some.
      - vm_compute. reflexivity.
      - econstructor; [eapply delete_lost; reflexivity|constructor]. }
    match goal with |- rtc _ ?w ?w' => assert (w = w') as -> by (vm_compute; reflexivity) end.
    reflexivity.
Qed.
