(* ===== verification/RuntimeWorld.v ===== *)
(** * Runtimes and the type constraints that model-mesh reads

    The runtime controller against what it reads and the one thing it shares with every
    model-mesh pod of a namespace: the config map that holds the type constraints. A
    world holds the ServingRuntimes, the ClusterServingRuntimes, the namespaces and the
    configuration, the config maps, the controller's work queue, and the request its
    worker has taken with the state it read. A change of any of them puts the requests
    on the queue that the watches of servingruntime_controller.go map it to
    ([RuntimeRequests]); the worker runs [ReconcileRuntime] and the request goes back on
    the queue when the result asks for it. Between two steps of the worker the world may
    change. The controller's mode is cluster scope.

    A map function drops its event when a list fails, and when it runs after a further
    change it maps to the runtimes there are by then. The world records the namespaces
    whose constraints changed with such an event, and those that a reconciliation could
    not read, until the worker takes a request for them. *)

From S2P Require Import Prelude GoStrings Types K8s ModelTypes Registry Config RangeWatcher Events.
From S2P Require Import Validator Autoscaler RuntimeScaling RuntimePVCs RuntimeRequests Manifests.
From S2P Require Import PredictorController PredictorControllerProps Deployment DeploymentProps.
From S2P Require Import RuntimeController ConfigProps EventsProps RuntimeControllerProps.

(** ** What the controller reads *)

Record ClusterState := mkCluster {
  cl_runtimes : gmap NamespacedName ServingRuntime;
  cl_clusterRuntimes : gmap string ServingRuntime;
  cl_namespaces : gmap string NamespaceObj;
  cl_cfg : Config
}.

(** Objects are stored under their names; a namespace has one. *)
Record cluster_ok (c : ClusterState) : Prop := {
  co_runtime n rt : cl_runtimes c !! n = Some rt → n = mkNN (rt_Namespace rt) (rt_Name rt);
  co_cluster name rt : cl_clusterRuntimes c !! name = Some rt → rt_Name rt = name;
  co_namespace ns n : cl_namespaces c !! ns = Some n → ns_Name n = ns ∧ ns ≠ ""
}.

Definition values {K A} `{Countable K} (m : gmap K A) : list A := (map_to_list m).*2.

Definition runtimesIn (c : ClusterState) (ns : string) : list ServingRuntime :=
  filter (λ rt, ns = "" ∨ rt_Namespace rt = ns) (values (cl_runtimes c)).

Definition getNamespace (c : ClusterState) (ns : string) : result error NamespaceObj :=
  match cl_namespaces c !! ns with Some n => Ok n | None => Err ErrNotFound end.

Definition listsOf (c : ClusterState) : RuntimeLists :=
  mkRuntimeLists (λ ns, Ok (runtimesIn c ns)) (Ok (values (cl_clusterRuntimes c)))
    (Ok (values (cl_namespaces c))) (getNamespace c).

(** A reader sees the objects in any order, or an error where the code handles one. *)
Record reads (lists : RuntimeLists) (c : ClusterState) (ns : string) : Prop := {
  rd_runtimes l : rl_ServingRuntimes lists ns = Ok l → l ≡ₚ runtimesIn c ns;
  rd_cluster l : rl_ClusterServingRuntimes lists = Ok l → l ≡ₚ values (cl_clusterRuntimes c);
  rd_namespace : rl_GetNamespace lists ns = getNamespace c ns
}.

(** What a map function of the watches reads when no list fails *)
Record sees (lists : RuntimeLists) (c : ClusterState) : Prop := {
  se_runtimes ns : ∃ l, rl_ServingRuntimes lists ns = Ok l ∧ l ≡ₚ runtimesIn c ns;
  se_cluster : ∃ l, rl_ClusterServingRuntimes lists = Ok l ∧ l ≡ₚ values (cl_clusterRuntimes c);
  se_namespaces : ∃ l, rl_Namespaces lists = Ok l ∧ l ≡ₚ values (cl_namespaces c);
  se_namespace ns : rl_GetNamespace lists ns = getNamespace c ns
}.

Lemma elem_of_values {K A} `{Countable K} (m : gmap K A) x :
  x ∈ values m ↔ ∃ k, m !! k = Some x.
Proof.
  unfold values. rewrite list_elem_of_fmap. split.
  - intros ([k y] & -> & Hk%elem_of_map_to_list). eauto.
  - intros [k Hk]. exists (k, x). by rewrite elem_of_map_to_list.
Qed.

(** The values of a map whose keys are names of the values have different names. *)
Lemma NoDup_values {K A} `{Countable K} (name : A → K) (m : gmap K A) :
  (∀ k x, m !! k = Some x → name x = k) → NoDup (values m).
Proof.
  intros Hname. apply NoDup_fmap_2_strong; [|apply NoDup_map_to_list].
  intros [k x] [k' x'] Hk%elem_of_map_to_list Hk'%elem_of_map_to_list. simpl. intros <-.
  f_equal. by rewrite <- (Hname _ _ Hk), <- (Hname _ _ Hk').
Qed.

Lemma foldl_insert {A V} (k : A → string) (v : A → V) (l : list A) (m : gmap string V) :
  NoDup (k <$> l) →
  foldl (λ m x, <[k x := v x]> m) m l = list_to_map ((λ x, (k x, v x)) <$> l) ∪ m.
Proof.
  revert m. induction l as [|x l IH]; intros m Hnd; simpl; [by rewrite (left_id ∅ (∪))|].
  apply NoDup_cons in Hnd as [Hx Hnd]. rewrite IH by done.
  rewrite <- insert_union_l, <- insert_union_r; [done|].
  apply not_elem_of_list_to_map_1. rewrite <- list_fmap_compose. exact Hx.
Qed.

Lemma foldl_filter {A B} (P : A → bool) (f : B → A → B) (l : list A) (b : B) :
  foldl (λ b x, if P x then f b x else b) b l = foldl f b (filter (λ x, P x = true) l).
Proof.
  revert b. induction l as [|x l IH]; intros b; simpl; [done|].
  rewrite IH. destruct (P x) eqn:E.
  - by rewrite filter_cons_True.
  - by rewrite filter_cons_False by congruence.
Qed.

Section Specs.
Context `{!KServeRuntime}.
Variable settings : RuntimeSettings.

Let multi (rt : ServingRuntime) : bool := IsMultiModelRuntime (rt_Spec rt).
Let named (l : list ServingRuntime) : gmap string ServingRuntimeSpec :=
  list_to_map ((λ rt, (rt_Name rt, rt_Spec rt)) <$> l).

Lemma named_lookup l name spec :
  NoDup (rt_Name <$> l) →
  named l !! name = Some spec ↔ ∃ rt, rt ∈ l ∧ rt_Name rt = name ∧ rt_Spec rt = spec.
Proof.
  intros Hnd. unfold named. rewrite <- elem_of_list_to_map.
  - rewrite list_elem_of_fmap. split.
    + intros (rt & [= -> ->] & ?). eauto.
    + intros (rt & ? & <- & <-). eauto.
  - by rewrite <- list_fmap_compose.
Qed.

Lemma buildSpecs_named csrs rts :
  NoDup (rt_Name <$> csrs) → NoDup (rt_Name <$> rts) →
  buildSpecs csrs rts = named rts ∪ named (filter (λ c, multi c = true) csrs).
Proof.
  intros Hc Hr. unfold buildSpecs. cbn zeta.
  rewrite (foldl_filter multi (λ m crt, <[rt_Name crt := rt_Spec crt]> m)).
  rewrite !foldl_insert; [by rewrite (right_id ∅ (∪))| |done].
  eapply sublist_NoDup; [exact Hc|apply fmap_sublist, sublist_filter].
Qed.

Lemma buildSpecs_proper csrs csrs' rts rts' :
  csrs ≡ₚ csrs' → rts ≡ₚ rts' → NoDup (rt_Name <$> csrs) → NoDup (rt_Name <$> rts) →
  buildSpecs csrs rts = buildSpecs csrs' rts'.
Proof.
  intros Pc Pr Hc Hr. rewrite !buildSpecs_named by (try done; by rewrite <- ?Pc, <- ?Pr).
  unfold named. f_equal; apply list_to_map_proper; try (by rewrite ?Pc, ?Pr);
    rewrite <- list_fmap_compose; [done|].
  eapply sublist_NoDup; [exact Hc|apply fmap_sublist, sublist_filter].
Qed.

(** The specs whose types count in a namespace: its own runtimes and, for the other
    names, the multi-model cluster runtimes *)
Definition watched (c : ClusterState) : list ServingRuntime :=
  if rs_EnableCSRWatch settings then values (cl_clusterRuntimes c) else [].

Definition visible (c : ClusterState) (ns : string) : gmap string ServingRuntimeSpec :=
  if nsEnabled settings (listsOf c) ns then buildSpecs (watched c) (runtimesIn c ns) else ∅.

Lemma watched_names c : cluster_ok c → NoDup (rt_Name <$> watched c).
Proof.
  intros Hc. unfold watched. destruct (rs_EnableCSRWatch settings); [|constructor].
  apply NoDup_fmap_2_strong.
  - intros x y [k Hx]%elem_of_values [k' Hy]%elem_of_values Hn.
    rewrite (co_cluster c Hc _ _ Hx), (co_cluster c Hc _ _ Hy) in Hn. congruence.
  - eapply (NoDup_values rt_Name), (co_cluster c Hc).
Qed.

Lemma elem_of_runtimesIn c ns rt :
  cluster_ok c → ns ≠ "" →
  rt ∈ runtimesIn c ns ↔ rt_Namespace rt = ns ∧ cl_runtimes c !! mkNN ns (rt_Name rt) = Some rt.
Proof.
  intros Hc Hne. unfold runtimesIn. rewrite list_elem_of_filter, elem_of_values. split.
  - intros [[?|<-] [n Hn]]; [done|]. split; [done|]. by rewrite <- (co_runtime c Hc _ _ Hn).
  - intros [<- Hr]. eauto.
Qed.

Lemma runtimesIn_names c ns : cluster_ok c → ns ≠ "" → NoDup (rt_Name <$> runtimesIn c ns).
Proof.
  intros Hc Hne. apply NoDup_fmap_2_strong.
  - intros x y Hx%elem_of_runtimesIn Hy%elem_of_runtimesIn Hn; [|done..].
    destruct Hx as [_ Hx], Hy as [_ Hy]. rewrite Hn in Hx. congruence.
  - apply NoDup_filter, (NoDup_values (λ rt, mkNN (rt_Namespace rt) (rt_Name rt))).
    intros n rt Hn. by rewrite <- (co_runtime c Hc _ _ Hn).
Qed.

Lemma nsEnabled_named c ns :
  cluster_ok c → rs_ClusterScope settings = true →
  nsEnabled settings (listsOf c) ns = true → ns ≠ "" ∧ ns ∈ ns_Name <$> values (cl_namespaces c).
Proof.
  intros Hc Hs. unfold nsEnabled, modelMeshEnabled2. rewrite Hs. cbn [negb].
  change (rl_GetNamespace (listsOf c) ns) with (getNamespace c ns). unfold getNamespace.
  destruct (cl_namespaces c !! ns) as [n|] eqn:E; [|done]. intros _.
  destruct (co_namespace c Hc _ _ E) as [Hn Hne]. split; [done|].
  apply list_elem_of_fmap. exists n. split; [done|]. apply elem_of_values. eauto.
Qed.

Definition own (c : ClusterState) (ns name : string) (spec : ServingRuntimeSpec) : Prop :=
  ∃ rt, cl_runtimes c !! mkNN ns name = Some rt ∧ rt_Spec rt = spec.

Definition from_cluster (c : ClusterState) (name : string) (spec : ServingRuntimeSpec) : Prop :=
  rs_EnableCSRWatch settings = true ∧
  ∃ rt, cl_clusterRuntimes c !! name = Some rt ∧ multi rt = true ∧ rt_Spec rt = spec.

Lemma visible_spec c ns name spec :
  cluster_ok c → rs_ClusterScope settings = true →
  visible c ns !! name = Some spec ↔
    nsEnabled settings (listsOf c) ns = true ∧
    (own c ns name spec ∨ cl_runtimes c !! mkNN ns name = None ∧ from_cluster c name spec).
Proof.
  intros Hc Hs. unfold visible. destruct (nsEnabled settings (listsOf c) ns) eqn:En.
  2:{ rewrite lookup_empty. by split; [|intros []]. }
  destruct (nsEnabled_named _ _ Hc Hs En) as [Hne _].
  pose proof (watched_names c Hc) as Hw. pose proof (runtimesIn_names c ns Hc Hne) as Hr.
  rewrite buildSpecs_named, lookup_union_Some_raw by done.
  assert (NoDup (rt_Name <$> filter (λ rt, multi rt = true) (watched c))) as Hw'.
  { eapply sublist_NoDup; [exact Hw|apply fmap_sublist, sublist_filter]. }
  rewrite eq_None_not_Some. unfold is_Some.
  setoid_rewrite (λ spec, named_lookup _ name spec Hr).
  setoid_rewrite (λ spec, named_lookup _ name spec Hw').
  setoid_rewrite (λ rt, elem_of_runtimesIn c ns rt Hc Hne). setoid_rewrite list_elem_of_filter.
  assert (∀ rt, rt ∈ watched c ↔ rs_EnableCSRWatch settings = true ∧
    cl_clusterRuntimes c !! rt_Name rt = Some rt) as Hwatch.
  { intros rt. unfold watched. destruct (rs_EnableCSRWatch settings); [|set_solver].
    rewrite elem_of_values. split; [|naive_solver]. intros [k Hk]. split; [done|].
    by rewrite (co_cluster c Hc _ _ Hk). }
  setoid_rewrite Hwatch. unfold own, from_cluster. split.
  - intros [(rt & (<- & Hrt) & <- & <-)|(Hno & rt & (Hm & Hcsr & Hrt) & <- & <-)];
      (split; [done|]); [left; eauto|right]. split; [|eauto 6].
    destruct (cl_runtimes c !! mkNN ns (rt_Name rt)) as [rt'|] eqn:E; [|done]. destruct Hno.
    pose proof (co_runtime c Hc _ _ E) as [= -> Hn]. rewrite Hn in E. eauto 8.
  - intros [_ [(rt & Hrt & <-)|(Hno & Hcsr & rt & Hrt & Hm & <-)]].
    + left. exists rt. pose proof (co_runtime c Hc _ _ Hrt) as [= -> ->]. done.
    + right. pose proof (co_cluster c Hc _ _ Hrt) as <-. split; [|eauto 8].
      intros (spec & rt' & (_ & Hrt') & Hn & _). congruence.
Qed.

Lemma listSpecs_reads env c ns srSpecs :
  cluster_ok c → rs_ClusterScope settings = true → reads (re_lists env) c ns →
  listSpecs settings env ns (nsEnabled settings (re_lists env) ns) = Ok srSpecs →
  srSpecs = visible c ns.
Proof.
  intros Hc Hs [Hr Hcl Hn]. unfold visible.
  assert (nsEnabled settings (re_lists env) ns = nsEnabled settings (listsOf c) ns) as ->.
  { unfold nsEnabled, modelMeshEnabled2. by rewrite Hn. }
  unfold listSpecs. destruct (nsEnabled settings (listsOf c) ns) eqn:En; [|by intros [= <-]].
  destruct (nsEnabled_named _ _ Hc Hs En) as [Hne _].
  destruct (rl_ServingRuntimes (re_lists env) ns) as [l|]; [|done].
  destruct (if rs_EnableCSRWatch settings then _ else _) as [csrs|] eqn:Ecs; [|done].
  intros [= <-]. symmetry. apply buildSpecs_proper; [| |by apply watched_names|by apply runtimesIn_names].
  - unfold watched. destruct (rs_EnableCSRWatch settings); [|by injection Ecs as <-].
    symmetry. by apply Hcl.
  - symmetry. by apply Hr.
Qed.
End Specs.

(** ** The config maps *)

(** The BinaryData of the config map, by namespace *)
Abbreviation config_maps := (gmap string (gmap string string)).

(** The constraints in the config map; [None] without one *)
Definition stored (maps : config_maps) (ns : string) : option (option string) :=
  (λ data, data !! MMTypeConstraintsKey) <$> maps !! ns.

Definition written (c : ConfigMapCall) (maps : config_maps) : config_maps :=
  match c with
  | CreateConfigMap ns data | UpdateConfigMap ns data => <[ns := data]> maps
  | DeleteConfigMap ns => delete ns maps
  end.

Definition is_config (c : RuntimeCall) : Prop :=
  match c with OnConfigMap _ => True | _ => False end.

Definition no_config (cs : list RuntimeCall) : Prop := Forall (λ c, ¬ is_config c) cs.

(** The effect of a call: a write that failed may have been made. *)
Inductive write_effect (write : ConfigMapCall → option error)
  : RuntimeCall → config_maps → config_maps → Prop :=
| write_done c m : write c = None → write_effect write (OnConfigMap c) m (written c m)
| write_lost c e m : write c = Some e → write_effect write (OnConfigMap c) m m
| write_unanswered c e m : write c = Some e →
    write_effect write (OnConfigMap c) m (written c m)
| write_elsewhere c m : ¬ is_config c → write_effect write c m m.

Inductive write_effects (write : ConfigMapCall → option error)
  : list RuntimeCall → config_maps → config_maps → Prop :=
| effects_nil m : write_effects write [] m m
| effects_cons c cs m m1 m' : write_effect write c m m1 → write_effects write cs m1 m' →
    write_effects write (c :: cs) m m'.

Lemma no_config_effects write cs m m' :
  no_config cs → write_effects write cs m m' → m' = m.
Proof.
  intros Hn. induction 1 as [|c cs m m1 m' Hc _ IH]; [done|].
  apply Forall_cons in Hn as [Hc' Hn]. rewrite (IH Hn). by destruct Hc; try destruct (Hc' I).
Qed.

(** What a read of the config map answers: an error may be any but not found. *)
Definition gets (get : result error (gmap string string)) (o : option (gmap string string))
  : Prop :=
  match get with
  | Ok data => o = Some data
  | Err e => IsNotFound e = true → o = None
  end.

Section Constraints.
Context `{!ProtocolNames, !KServeRuntime, !KServeConstants, !EtcdLibs, !JSONMap}.
Variable Marshal : gmap string (list string) → string.
Variable dataPlane : string.
Variables (sortedList : gset string → list string) (TrimSpace : string → string).
Variable spare : nat.
Variable settings : RuntimeSettings.

(** The constraints of the given runtimes *)
Definition constraintsOf (srSpecs : gmap string ServingRuntimeSpec) (rest : bool)
  : option string :=
  if decide (srSpecs = ∅) then None else Some (Marshal (constraintMap srSpecs rest)).

Definition expected (c : ClusterState) (ns : string) : option string :=
  constraintsOf (visible settings c ns) (rp_Enabled (RESTProxy (cl_cfg c))).

Definition settled (c : ClusterState) (maps : config_maps) (ns : string) : Prop :=
  stored maps ns = Some <$> expected c ns.

(** The call leaves [o] in the config map of [ns], and the others alone. *)
Definition puts (ns : string) (o : option string) (c : ConfigMapCall) : Prop :=
  ∀ maps, stored (written c maps) ns = Some <$> o ∧
    ∀ ns', ns' ≠ ns → written c maps !! ns' = maps !! ns'.

Lemma put_constraints ns srSpecs rest data c :
  srSpecs ≠ ∅ →
  c = CreateConfigMap ns (addConstraints Marshal dataPlane srSpecs rest data) ∨
  c = UpdateConfigMap ns (addConstraints Marshal dataPlane srSpecs rest data) →
  puts ns (constraintsOf srSpecs rest) c.
Proof.
  intros Hne Hc maps. unfold stored, constraintsOf. rewrite decide_False by done.
  destruct Hc as [-> | ->]; simpl; rewrite lookup_insert_eq; cbn [fmap option_fmap option_map];
    (split; [by rewrite addConstraints_lookup|intros; by rewrite lookup_insert_ne]).
Qed.

Lemma put_nothing ns rest : puts ns (constraintsOf ∅ rest) (DeleteConfigMap ns).
Proof.
  intros maps. unfold stored. simpl. rewrite lookup_delete_eq.
  split; [done|]. intros. by rewrite lookup_delete_ne.
Qed.

Lemma ClusterConfigReconcile_writes get write srSpecs ns cfg :
  let o := constraintsOf srSpecs (rp_Enabled (RESTProxy cfg)) in
  emits (ClusterConfigReconcile Marshal dataPlane get write srSpecs ns cfg) (λ cs err,
    (cs = [] ∧ (err = None → o = None ∧ ∃ e, get = Err e ∧ IsNotFound e = true)) ∨
    ∃ c, cs = [c] ∧ err = write c ∧ puts ns o c).
Proof.
  intros o. unfold ClusterConfigReconcile. cbn zeta.
  assert (∀ c, puts ns o c → emits (_ ← call c; mret (M := io _) (write c)) (λ cs err,
    (cs = [] ∧ (err = None → o = None ∧ ∃ e, get = Err e ∧ IsNotFound e = true)) ∨
    ∃ c, cs = [c] ∧ err = write c ∧ puts ns o c)) as Hput.
  { intros c Hc. apply emits_call_bind, emits_ret. right. by exists c. }
  destruct get as [data|e]; [|destruct (IsNotFound e) eqn:Ee; [|by apply emits_ret; left]];
    case_bool_decide as Hs.
  - apply Hput. subst o. rewrite Hs. apply put_nothing.
  - apply Hput. eapply put_constraints; eauto.
  - apply emits_ret. left. split; [done|]. subst o. rewrite Hs. eauto.
  - apply Hput. eapply put_constraints; eauto.
Qed.

(** *** The rest of the reconciliation does not touch the config map. *)

Lemma secrets_no_config cs : Forall is_secret cs → no_config cs.
Proof. intros Hs. eapply Forall_impl; [exact Hs|]. by intros [] [] []. Qed.

Lemma hpa_no_config cs : Forall is_hpa cs → no_config cs.
Proof. intros Hs. eapply Forall_impl; [exact Hs|]. by intros [] [] []. Qed.

Lemma manifest_no_config c : no_config [OnManifest c].
Proof. apply Forall_singleton. by intros []. Qed.

Lemma applyDeployment_no_config env m owner replicas :
  emits (applyDeployment sortedList TrimSpace spare env m owner replicas)
    (λ cs _, no_config cs).
Proof.
  unfold applyDeployment. cbn zeta.
  apply emits_lift_bind. intros [ms|e] _; [|apply emits_ret; constructor].
  case_bool_decide; [apply emits_ret; constructor|].
  destruct (setConfigMap m _); [apply emits_ret; constructor|].
  apply emits_lift_bind. intros [rs|e] _; [|apply emits_ret; constructor].
  apply emits_lift_bind. intros [rs'|e] _; [|apply emits_ret; constructor].
  apply emits_call_bind, emits_ret, manifest_no_config.
Qed.

Lemma deployRuntime_no_config cfg env req cluster rt m info :
  emits (deployRuntime sortedList TrimSpace spare cfg env req cluster rt m info)
    (λ cs _, no_config cs).
Proof.
  unfold deployRuntime. cbn zeta. apply emits_lift_bind. intros [info' [[n d]|]] _;
    [|apply emits_ret; constructor].
  eapply emits_bind; [apply replicasAndHPA_hpa|]. intros cs r Hcs%hpa_no_config.
  destruct r as [n'|]; [|apply emits_ret; by rewrite app_nil_r].
  eapply emits_bind; [apply applyDeployment_no_config|]. intros cs' err Hcs'.
  apply emits_ret. rewrite app_nil_r. by apply Forall_app.
Qed.

Lemma reconcileRuntime_no_config cfg env req en cluster rt info :
  emits (reconcileRuntime sortedList TrimSpace spare settings cfg env req en cluster rt info)
    (λ cs _, no_config cs).
Proof.
  unfold reconcileRuntime. cbn zeta.
  destruct (validateServingRuntimeSpec _ _); [apply emits_ret; constructor|].
  apply emits_lift_bind. intros [pvcs|] _; [|apply emits_ret; constructor].
  apply emits_lift_bind. intros m _. destruct (_ || _); [|apply deployRuntime_no_config].
  eapply emits_bind; [apply deleteDeployment_emits|]. intros cs err Hcs. apply emits_ret.
  rewrite app_nil_r. destruct Hcs as [[-> _]|(rs & -> & _)]; [constructor|apply manifest_no_config].
Qed.

(** A reconciliation that ends without error has left the constraints of the runtimes it
    listed in the config map of its namespace, and never writes another. *)
Lemma ReconcileRuntime_writes env cfg req info :
  let ns := Namespace req in
  let listed := listSpecs settings env ns (nsEnabled settings (re_lists env) ns) in
  let rest_proxy := rp_Enabled (RESTProxy cfg) in
  emits (ReconcileRuntime Marshal dataPlane sortedList TrimSpace spare settings cfg env
           req info) (λ cs out,
    ∃ pre rest, cs = pre ++ rest ∧ no_config rest ∧
      (pre = [] ∧ (out.2.2 = None → ∃ srSpecs, listed = Ok srSpecs ∧
         constraintsOf srSpecs rest_proxy = None ∧
         ∃ e, re_GetConfigMap env ns = Err e ∧ IsNotFound e = true) ∨
       ∃ put srSpecs, pre = [OnConfigMap put] ∧ listed = Ok srSpecs ∧
         puts ns (constraintsOf srSpecs rest_proxy) put ∧
         (out.2.2 = None → re_WriteConfigMap env put = None))).
Proof.
  intros ns listed rest_proxy. unfold ReconcileRuntime. cbn zeta. fold ns. fold listed.
  destruct listed as [srSpecs|].
  2:{ apply emits_ret. exists [], []. split; [done|]. split; [constructor|]. by left. }
  eapply emits_bind; [apply emits_embed, ClusterConfigReconcile_writes|].
  intros cs err (cms & -> & Hcms). fold rest_proxy in Hcms.
  eapply (emits_weaken _ (λ cs' out, no_config cs' ∧ (out.2.2 = None → err = None))).
  - destruct err as [e|]; [apply emits_ret; split; [constructor|done]|].
    eapply emits_bind; [apply reconcileEtcdSecret_secrets|]. intros cs2 err2 Hcs2%secrets_no_config.
    destruct err2 as [e|]; [by apply emits_ret; rewrite app_nil_r|].
    destruct (findRuntime _ _ _) as [[[cluster rt]|]|]; try (by apply emits_ret; rewrite app_nil_r).
    eapply emits_weaken; [apply reconcileRuntime_no_config|]. intros cs3 out Hcs3.
    split; [by apply Forall_app|done].
  - intros cs' out [Hcs' Hout]. exists (map OnConfigMap cms), cs'. split; [done|]. split; [done|].
    destruct Hcms as [[-> Hnone]|(put & -> & -> & Hput)]; [left|right].
    + split; [done|]. intros Hn. exists srSpecs. split; [done|]. by apply Hnone, Hout.
    + exists put, srSpecs. by split_and!.
Qed.

(** Whatever it reads, it changes the config map of its namespace only. *)
Lemma reconciled_elsewhere env cfg req info cs out maps maps' :
  run (ReconcileRuntime Marshal dataPlane sortedList TrimSpace spare settings cfg env
         req info) = Ret (cs, out) →
  write_effects (re_WriteConfigMap env) cs maps maps' →
  ∀ ns, ns ≠ Namespace req → maps' !! ns = maps !! ns.
Proof.
  intros Hrun Heff ns Hne.
  destruct (emits_run _ _ _ _ (ReconcileRuntime_writes env cfg req info) Hrun)
    as (pre & rest & -> & Hrest & [[-> _]|(put & srSpecs & -> & _ & Hput & _)]).
  - by apply no_config_effects in Heff as ->.
  - inversion Heff as [|call cs' m m1 m' Hcall Heff']; subst.
    apply no_config_effects in Heff' as ->; [|done]. destruct (Hput maps) as [_ Hothers].
    inversion Hcall; subst; try done; by apply Hothers.
Qed.

Lemma reconciled_settled env c req info cs out maps maps' :
  cluster_ok c → rs_ClusterScope settings = true → reads (re_lists env) c (Namespace req) →
  gets (re_GetConfigMap env (Namespace req)) (maps !! Namespace req) →
  run (ReconcileRuntime Marshal dataPlane sortedList TrimSpace spare settings (cl_cfg c) env
         req info) = Ret (cs, out) →
  write_effects (re_WriteConfigMap env) cs maps maps' →
  out.2.2 = None → settled c maps' (Namespace req).
Proof.
  intros Hc Hs Hr Hget Hrun Heff He.
  destruct (emits_run _ _ _ _ (ReconcileRuntime_writes env (cl_cfg c) req info) Hrun)
    as (pre & rest & -> & Hrest & [[-> Hnone]|(put & srSpecs & -> & Hl & Hput & Hwrite)]).
  - apply no_config_effects in Heff as ->; [|done].
    destruct (Hnone He) as (srSpecs & Hl & Hexp & e & Hg & Hnf).
    apply listSpecs_reads with (c := c) in Hl as ->; [|done..].
    unfold gets in Hget. rewrite Hg in Hget.
    unfold settled, stored, expected. by rewrite Hexp, (Hget Hnf).
  - apply listSpecs_reads with (c := c) in Hl as ->; [|done..].
    inversion Heff as [|call cs' m m1 m' Hcall Heff']; subst.
    apply no_config_effects in Heff' as ->; [|done]. destruct (Hput maps) as [Hns _].
    specialize (Hwrite He).
    inversion Hcall as [? ? Hw|? ? ? Hw|? ? ? Hw|? ? Hno]; subst; [done|congruence|done|by destruct (Hno I)].
Qed.
End Constraints.

(** ** The world *)

Record RWorld := mkRWorld {
  rw_cluster : ClusterState;
  rw_maps : config_maps;
  rw_queue : gset NamespacedName;
  (** the request the worker has taken, and what there was to read then *)
  rw_busy : option (NamespacedName * ClusterState);
  rw_info : RuntimeInfoMap;
  (** namespaces of which a change may not have led to a request, since the worker last
      took a request for them; the controller does not see this *)
  rw_missed : gset string
}.

Definition enqueueAll (reqs : list NamespacedName) (w : RWorld) : RWorld :=
  mkRWorld (rw_cluster w) (rw_maps w) (list_to_set reqs ∪ rw_queue w) (rw_busy w) (rw_info w)
    (rw_missed w).

Definition change (c : ClusterState) (miss : gset string) (w : RWorld) : RWorld :=
  mkRWorld c (rw_maps w) (rw_queue w) (rw_busy w) (rw_info w) (miss ∪ rw_missed w).

Definition set_runtime (n : NamespacedName) (o : option ServingRuntime) (c : ClusterState)
  : ClusterState :=
  mkCluster (partial_alter (λ _, o) n (cl_runtimes c)) (cl_clusterRuntimes c) (cl_namespaces c)
    (cl_cfg c).

Definition set_clusterRuntime (name : string) (o : option ServingRuntime) (c : ClusterState)
  : ClusterState :=
  mkCluster (cl_runtimes c) (partial_alter (λ _, o) name (cl_clusterRuntimes c))
    (cl_namespaces c) (cl_cfg c).

Definition set_namespace (ns : string) (o : option NamespaceObj) (c : ClusterState)
  : ClusterState :=
  mkCluster (cl_runtimes c) (cl_clusterRuntimes c) (partial_alter (λ _, o) ns (cl_namespaces c))
    (cl_cfg c).

Definition set_config (cfg : Config) (c : ClusterState) : ClusterState :=
  mkCluster (cl_runtimes c) (cl_clusterRuntimes c) (cl_namespaces c) cfg.

(** kserve's IsMultiModelRuntime is the flag of the spec. *)
Class MultiModelFlag (H : KServeRuntime) := {
  multi_model_flag s : IsMultiModelRuntime s = default false (sr_MultiModel s)
}.

Section World.
Context `{!ProtocolNames, !KServeRuntime, !KServeConstants, !EtcdLibs, !JSONMap}.
Context `{!MultiModelFlag _}.
Variable Marshal : gmap string (list string) → string.
Variable dataPlane : string.
Variables (sortedList : gset string → list string) (TrimSpace : string → string).
Variable spare : nat.
Variable settings : RuntimeSettings.
Hypothesis cluster_scope : rs_ClusterScope settings = true.

Let expected := expected Marshal settings.
Let settled := settled Marshal settings.

(** The requests of an event of a cluster runtime: an update is mapped for the old and
    for the new object; without the watch there are none. *)
Definition csrRequests (lists : RuntimeLists) (old new : option ServingRuntime)
  : list NamespacedName :=
  if rs_EnableCSRWatch settings
  then (o ← [old; new];
        match o with Some csr => clusterServingRuntimeRequests settings lists csr | None => [] end)
  else [].

(** The namespaces whose constraints a change from [c] to [c'] affects *)
Definition affected (c c' : ClusterState) : gset string :=
  filter (λ ns, expected c' ns ≠ expected c ns) (dom (cl_namespaces c) ∪ dom (cl_namespaces c')).

(** What the map function of the event of a change reads, and the namespaces it may miss *)
Inductive mapped (lists : RuntimeLists) (c c' : ClusterState) : gset string → Prop :=
(* no list fails, and there was no further change *)
| mapped_current : sees lists c' → mapped lists c c' ∅
(* a list fails, or there was a further change *)
| mapped_otherwise : mapped lists c c' (affected c c').

Inductive rworld_step : RWorld → RWorld → Prop :=
(* a runtime of a namespace is created, changed or deleted *)
| rstep_runtime w n o : (∀ rt, o = Some rt → n = mkNN (rt_Namespace rt) (rt_Name rt)) →
    rworld_step w (enqueueAll [n] (change (set_runtime n o (rw_cluster w)) ∅ w))
(* a cluster runtime, and the watch of cluster runtimes *)
| rstep_clusterRuntime w name o lists miss : (∀ rt, o = Some rt → rt_Name rt = name) →
    mapped lists (rw_cluster w) (set_clusterRuntime name o (rw_cluster w)) miss →
    rworld_step w
      (enqueueAll (csrRequests lists (cl_clusterRuntimes (rw_cluster w) !! name) o)
         (change (set_clusterRuntime name o (rw_cluster w)) miss w))
(* a namespace, and the watch of namespaces *)
| rstep_namespace w ns o lists miss : ns ≠ "" → (∀ n, o = Some n → ns_Name n = ns) →
    mapped lists (rw_cluster w) (set_namespace ns o (rw_cluster w)) miss →
    rworld_step w (enqueueAll (namespaceRequests settings lists ns)
                     (change (set_namespace ns o (rw_cluster w)) miss w))
(* the configuration, and the watch of its config map *)
| rstep_config w cfg lists miss :
    mapped lists (rw_cluster w) (set_config cfg (rw_cluster w)) miss →
    rworld_step w (enqueueAll (configRequests settings lists)
                     (change (set_config cfg (rw_cluster w)) miss w))
(* the config map of a namespace that is gone is collected *)
| rstep_collected w ns : cl_namespaces (rw_cluster w) !! ns = None →
    rworld_step w (mkRWorld (rw_cluster w) (delete ns (rw_maps w)) (rw_queue w) (rw_busy w)
                     (rw_info w) (rw_missed w))
(* any other request: for a Predictor, a deployment, the storage secret *)
| rstep_request w reqs : rworld_step w (enqueueAll reqs w)
(* the worker takes a request *)
| rstep_take w req : req ∈ rw_queue w → rw_busy w = None →
    rworld_step w (mkRWorld (rw_cluster w) (rw_maps w) (rw_queue w ∖ {[ req ]})
                     (Some (req, rw_cluster w)) (rw_info w) (rw_missed w ∖ {[ Namespace req ]}))
(* ... and reconciles it; a namespace that cannot be read counts as not enabled, and its
   config map is taken away without an error *)
| rstep_reconcile w req c env cs info out maps' misread :
    rw_busy w = Some (req, c) →
    (if misread : bool
     then ∃ e, rl_GetNamespace (re_lists env) (Namespace req) = Err e
     else reads (re_lists env) c (Namespace req)) →
    gets (re_GetConfigMap env (Namespace req)) (rw_maps w !! Namespace req) →
    run (ReconcileRuntime Marshal dataPlane sortedList TrimSpace spare settings (cl_cfg c) env
           req (rw_info w)) = Ret (cs, (info, out)) →
    write_effects (re_WriteConfigMap env) cs (rw_maps w) maps' →
    rworld_step w (mkRWorld (rw_cluster w) maps'
      (if done_with out then rw_queue w else {[ req ]} ∪ rw_queue w) None info
      (if misread then {[ Namespace req ]} ∪ rw_missed w else rw_missed w)).

(** *** The invariant *)

Definition requestedIn (w : RWorld) (ns : string) : Prop :=
  ∃ req, req ∈ rw_queue w ∧ Namespace req = ns.

(** The controller will look at the namespace, or may not have been told to. *)
Definition openIn (w : RWorld) (ns : string) : Prop := requestedIn w ns ∨ ns ∈ rw_missed w.

Record rworld_ok (w : RWorld) : Prop := {
  rwo_cluster : cluster_ok (rw_cluster w);
  rwo_busy_cluster req c : rw_busy w = Some (req, c) → cluster_ok c;
  (* what the worker has read is current, or there is another request or one is missed *)
  rwo_busy req c : rw_busy w = Some (req, c) →
    expected c (Namespace req) = expected (rw_cluster w) (Namespace req) ∨
    openIn w (Namespace req);
  rwo_settled ns : openIn w ns ∨ (∃ req c, rw_busy w = Some (req, c) ∧ Namespace req = ns) ∨
    settled (rw_cluster w) (rw_maps w) ns
}.

Lemma openIn_mono w w' ns :
  rw_queue w ⊆ rw_queue w' → rw_missed w ⊆ rw_missed w' → openIn w ns → openIn w' ns.
Proof. intros Hq Hm [(req & ? & ?)|?]; [left; exists req|right]; set_solver. Qed.

(** A change of what the controller reads, after which every namespace whose constraints
    change has a request or is recorded as missed *)
Lemma rchange_ok w c miss reqs :
  rworld_ok w → cluster_ok c →
  (∀ ns, expected c ns = expected (rw_cluster w) ns ∨
         (∃ req, req ∈ reqs ∧ Namespace req = ns) ∨ ns ∈ miss) →
  rworld_ok (enqueueAll reqs (change c miss w)).
Proof.
  intros [Hc Hbc Hb Hset] Hc' Hexp. set (w' := enqueueAll reqs (change c miss w)).
  assert (∀ ns, openIn w ns → openIn w' ns) as Hopen
    by (intros ns; apply openIn_mono; cbn; set_solver).
  assert (∀ ns, (∃ req, req ∈ reqs ∧ Namespace req = ns) ∨ ns ∈ miss → openIn w' ns) as Hnew.
  { intros ns [(req & Hin & <-)|Hin]; [left; exists req; split; [|done]|right]; cbn; set_solver. }
  split; cbn [w' rw_cluster rw_busy rw_maps enqueueAll change]; [done|done| |].
  - intros req c0 Hbusy. destruct (Hexp (Namespace req)) as [-> |]; [|eauto].
    destruct (Hb _ _ Hbusy); eauto.
  - intros ns. destruct (Hexp ns) as [E|]; [|eauto]. destruct (Hset ns) as [|[|Hs]]; [eauto..|].
    right; right. unfold settled, RuntimeWorld.settled in *. unfold expected in E. congruence.
Qed.

Lemma rcollected_ok w ns :
  rworld_ok w → cl_namespaces (rw_cluster w) !! ns = None →
  rworld_ok (mkRWorld (rw_cluster w) (delete ns (rw_maps w)) (rw_queue w) (rw_busy w) (rw_info w)
               (rw_missed w)).
Proof.
  intros [Hc Hbc Hb Hset] Hns. split; [done..|]. intros ns'.
  destruct (decide (ns' = ns)) as [->|Hne].
  - right; right. unfold settled, RuntimeWorld.settled, stored, RuntimeWorld.expected, visible. cbn.
    rewrite lookup_delete_eq. unfold nsEnabled, modelMeshEnabled2. rewrite cluster_scope. cbn.
    unfold getNamespace. by rewrite Hns.
  - destruct (Hset ns') as [|[|Hs]]; [by left|by right; left|right; right].
    unfold settled, RuntimeWorld.settled, stored in *. cbn. by rewrite lookup_delete_ne.
Qed.

Lemma rtake_ok w req :
  rworld_ok w → req ∈ rw_queue w → rw_busy w = None →
  rworld_ok (mkRWorld (rw_cluster w) (rw_maps w) (rw_queue w ∖ {[ req ]})
               (Some (req, rw_cluster w)) (rw_info w) (rw_missed w ∖ {[ Namespace req ]})).
Proof.
  intros [Hc Hbc Hb Hset] Hq Hidle. split; cbn [rw_cluster rw_busy rw_maps]; [done| | |].
  - by intros ? ? [= <- <-].
  - intros ? ? [= <- <-]. by left.
  - intros ns. destruct (decide (Namespace req = ns)) as [<-|Hns]; [right; left; eauto|].
    destruct (Hset ns) as [[(req' & Hin & <-)|Hmi]|[(? & ? & E & _)|Hs]]; [| |congruence|auto].
    + left; left. exists req'. cbn. split; [|done]. set_solver.
    + left; right. cbn. set_solver.
Qed.

Lemma rreconcile_ok w req c env cs info out maps' (misread : bool) :
  rworld_ok w → rw_busy w = Some (req, c) →
  (misread = false → reads (re_lists env) c (Namespace req)) →
  gets (re_GetConfigMap env (Namespace req)) (rw_maps w !! Namespace req) →
  run (ReconcileRuntime Marshal dataPlane sortedList TrimSpace spare settings (cl_cfg c) env
         req (rw_info w)) = Ret (cs, (info, out)) →
  write_effects (re_WriteConfigMap env) cs (rw_maps w) maps' →
  rworld_ok (mkRWorld (rw_cluster w) maps'
    (if done_with out then rw_queue w else {[ req ]} ∪ rw_queue w) None info
    (if misread then {[ Namespace req ]} ∪ rw_missed w else rw_missed w)).
Proof.
  intros [Hc Hbc Hb Hset] Hbusy Hr Hg Hrun Heff. set (w' := mkRWorld _ _ _ _ _ _).
  assert (∀ ns, openIn w ns → openIn w' ns) as Hreq.
  { intros ns. apply openIn_mono; cbn; [destruct (done_with out)|destruct misread]; set_solver. }
  pose proof (reconciled_elsewhere _ _ _ _ _ _ _ _ _ _ _ _ _ _ Hrun Heff) as Hothers.
  split; cbn [w' rw_cluster rw_busy rw_maps]; [done..|]. intros ns.
  destruct (decide (ns = Namespace req)) as [->|Hne].
  - destruct misread; [left; right; cbn; set_solver|].
    destruct (done_with out) eqn:Ed.
    + destruct (Hb _ _ Hbusy) as [E|]; [|auto]. right; right.
      unfold settled, RuntimeWorld.settled. unfold expected in E. rewrite <- E.
      eapply (reconciled_settled Marshal dataPlane sortedList TrimSpace spare settings env c req);
        eauto. unfold done_with in Ed. cbn [snd]. by destruct (out.2).
    + left; left. exists req. cbn. rewrite ?Ed. set_solver.
  - destruct (Hset ns) as [|[(? & ? & E & <-)|Hs]]; [auto|congruence|]. right; right.
    unfold settled, RuntimeWorld.settled, stored in *. by rewrite Hothers.
Qed.

(** *** The watches cover every change *)

Lemma sees_enabled lists c ns :
  sees lists c → nsEnabled settings lists ns = nsEnabled settings (listsOf c) ns.
Proof. intros Hs. unfold nsEnabled, modelMeshEnabled2. by rewrite (se_namespace _ _ Hs). Qed.

Lemma sees_watched lists c :
  sees lists c →
  ∃ csrs, (if rs_EnableCSRWatch settings then rl_ClusterServingRuntimes lists else Ok []) = Ok csrs ∧
          csrs ≡ₚ watched settings c.
Proof.
  intros Hs. unfold watched. destruct (rs_EnableCSRWatch settings); [by apply se_cluster|eauto].
Qed.

Lemma visible_ext c c' ns :
  cluster_ok c → cluster_ok c' →
  nsEnabled settings (listsOf c) ns = nsEnabled settings (listsOf c') ns →
  (nsEnabled settings (listsOf c) ns = true → ∀ name spec,
     cl_runtimes c !! mkNN ns name = cl_runtimes c' !! mkNN ns name ∧
     (from_cluster settings c name spec ↔ from_cluster settings c' name spec)) →
  visible settings c ns = visible settings c' ns.
Proof.
  intros Hc Hc' He Hext. destruct (nsEnabled settings (listsOf c) ns) eqn:En.
  - apply map_eq. intros name. apply option_eq. intros spec.
    destruct (Hext eq_refl name spec) as [Hr Hf]. rewrite !visible_spec by done.
    unfold own. rewrite En, <- He, Hr, Hf. done.
  - unfold visible. by rewrite En, <- He.
Qed.

(** A name that a runtime of the namespace or a multi-model cluster runtime has *)
Definition candidate (c : ClusterState) (ns name : string) : Prop :=
  is_Some (cl_runtimes c !! mkNN ns name) ∨ ∃ spec, from_cluster settings c name spec.

Lemma visible_candidate c ns :
  cluster_ok c → visible settings c ns ≠ ∅ →
  nsEnabled settings (listsOf c) ns = true ∧ ∃ name, candidate c ns name.
Proof.
  intros Hc (name & spec & [En Hv]%visible_spec)%map_choose; [|done..]. split; [done|].
  exists name. unfold candidate. destruct Hv as [(rt & Hrt & _)|[_ Hf]]; eauto.
Qed.

Lemma candidate_requested lists c target keep ns name :
  cluster_ok c → sees lists c → keep ns = true → candidate c ns name →
  target = ns ∧ ns ≠ "" ∨ target = "" ∧ ns ∈ ns_Name <$> values (cl_namespaces c) →
  mkNN ns name ∈ requestsForRuntimes settings lists target keep.
Proof.
  intros Hc Hs Hk Hcand Ht.
  destruct (se_runtimes _ _ Hs target) as (rts & Hr & Pr).
  destruct (sees_watched _ _ Hs) as (csrs & Hcs & Pc).
  destruct (se_namespaces _ _ Hs) as (nss & Hn & Pn).
  apply (requestsForRuntimes_spec _ _ target keep rts csrs nss (mkNN ns name) Hr Hcs Hn). cbn.
  destruct Hcand as [[rt Hrt]|(spec & Hcsr & csr & Hlk & Hm & _)].
  - left. split; [done|]. exists rt. pose proof (co_runtime c Hc _ _ Hrt) as [= En Em].
    split; [|done]. rewrite Pr. unfold runtimesIn. apply list_elem_of_filter.
    split; [|apply elem_of_values; eauto]. destruct Ht as [[-> _]|[-> _]]; auto.
  - right. split.
    + exists csr. rewrite Pc. unfold watched. rewrite Hcsr, elem_of_values.
      split_and!; [eauto|done|by eapply co_cluster].
    + destruct Ht as [[-> Hne]|[-> Hin]]; [by rewrite decide_False|].
      rewrite decide_True by done. split; [done|]. by rewrite Pn.
Qed.

Lemma set_runtime_covered w n o :
  cluster_ok (rw_cluster w) → (∀ rt, o = Some rt → n = mkNN (rt_Namespace rt) (rt_Name rt)) →
  cluster_ok (set_runtime n o (rw_cluster w)) ∧
  ∀ ns, expected (set_runtime n o (rw_cluster w)) ns = expected (rw_cluster w) ns ∨
        ∃ req, req ∈ [n] ∧ Namespace req = ns.
Proof.
  intros Hc Ho. assert (cluster_ok (set_runtime n o (rw_cluster w))) as Hc'.
  { destruct Hc as [Hrt Hcsr Hns]. split; [|done..]. intros k rt. cbn.
    destruct (decide (k = n)) as [->|]; [rewrite lookup_partial_alter_eq; eauto|].
    rewrite lookup_partial_alter_ne by done. apply Hrt. }
  split; [done|]. intros ns. destruct (decide (ns = Namespace n)) as [->|Hne].
  { right. exists n. set_solver. }
  left. unfold expected, RuntimeWorld.expected. f_equal. apply visible_ext; [done..|].
  intros _ name spec. split; [|done]. cbn. apply lookup_partial_alter_ne. intros ->. done.
Qed.

(** The flag of a cluster runtime, where there is one *)
Definition flagged (o : option ServingRuntime) : bool :=
  match o with Some csr => default false (sr_MultiModel (rt_Spec csr)) | None => false end.

Lemma from_cluster_flagged c name spec :
  from_cluster settings c name spec → flagged (cl_clusterRuntimes c !! name) = true.
Proof. intros (_ & rt & -> & Hm & _). by rewrite multi_model_flag in Hm. Qed.

(** A multi-model cluster runtime that was there or is there now: its event requests it
    in every enabled namespace. *)
Lemma csrRequests_enabled lists c old new o name ns :
  cluster_ok c → sees lists c → rs_EnableCSRWatch settings = true →
  nsEnabled settings (listsOf c) ns = true → o ∈ [old; new] → flagged o = true →
  (∀ csr, o = Some csr → rt_Name csr = name) →
  mkNN ns name ∈ csrRequests lists old new.
Proof.
  intros Hc Hs Hw En Hin Hf Hname. destruct o as [csr|]; [|done]. cbn in Hf.
  unfold csrRequests. rewrite Hw. apply list_elem_of_bind. exists (Some csr). split; [|done].
  destruct (se_namespaces _ _ Hs) as (nss & Hn & Pn).
  assert (sr_MultiModel (rt_Spec csr) = Some true) as Hm by (by destruct (sr_MultiModel _) as [[]|]).
  apply (proj1 (watch_requests_complete settings lists) csr nss Hn Hm (mkNN ns name)). cbn.
  split_and!; [by symmetry; eauto| |by rewrite (sees_enabled _ _ _ Hs)].
  rewrite Pn. by destruct (nsEnabled_named settings c ns Hc cluster_scope En).
Qed.

Lemma set_clusterRuntime_covered w name o lists :
  cluster_ok (rw_cluster w) → (∀ rt, o = Some rt → rt_Name rt = name) →
  cluster_ok (set_clusterRuntime name o (rw_cluster w)) ∧
  (sees lists (set_clusterRuntime name o (rw_cluster w)) → ∀ ns,
   expected (set_clusterRuntime name o (rw_cluster w)) ns = expected (rw_cluster w) ns ∨
   ∃ req, req ∈ csrRequests lists (cl_clusterRuntimes (rw_cluster w) !! name) o ∧
          Namespace req = ns).
Proof.
  intros Hc Ho. set (c := rw_cluster w) in *. set (c' := set_clusterRuntime name o c) in *.
  set (old := cl_clusterRuntimes c !! name) in *. assert (cluster_ok c') as Hc'.
  { destruct Hc as [Hrt Hcsr Hns]. split; [done| |done]. intros k rt. cbn.
    destruct (decide (k = name)) as [->|]; [rewrite lookup_partial_alter_eq; eauto|].
    rewrite lookup_partial_alter_ne by done. apply Hcsr. }
  split; [done|]. intros Hs ns.
  destruct (rs_EnableCSRWatch settings && nsEnabled settings (listsOf c') ns &&
            (flagged old || flagged o)) eqn:E.
  - right. exists (mkNN ns name). split; [|done].
    apply andb_true_iff in E as [[Ew En]%andb_true_iff [Hf|Hf]%orb_true_iff].
    + eapply (csrRequests_enabled _ c' _ _ old); eauto; [set_solver|]. by apply (co_cluster c Hc).
    + eapply (csrRequests_enabled _ c' _ _ o); eauto. set_solver.
  - left. unfold expected, RuntimeWorld.expected. f_equal. apply visible_ext; [done..|].
    intros En name' spec. split; [done|]. destruct (decide (name' = name)) as [->|Hne].
    2:{ unfold from_cluster. cbn. by rewrite lookup_partial_alter_ne. }
    rewrite En, andb_true_r in E. apply andb_false_iff in E as [Ew|[Eo En']%orb_false_iff].
    { unfold from_cluster. rewrite Ew. by split; intros []. }
    split; intros Hf%from_cluster_flagged; exfalso.
    + cbn in Hf. rewrite lookup_partial_alter_eq in Hf. congruence.
    + subst old. congruence.
Qed.

Lemma set_namespace_covered w ns o lists :
  cluster_ok (rw_cluster w) → ns ≠ "" → (∀ n, o = Some n → ns_Name n = ns) →
  cluster_ok (set_namespace ns o (rw_cluster w)) ∧
  (sees lists (set_namespace ns o (rw_cluster w)) → ∀ ns',
   expected (set_namespace ns o (rw_cluster w)) ns' = expected (rw_cluster w) ns' ∨
   ∃ req, req ∈ namespaceRequests settings lists ns ∧ Namespace req = ns').
Proof.
  intros Hc Hne Ho. set (c := rw_cluster w) in *. set (c' := set_namespace ns o c) in *.
  assert (cluster_ok c') as Hc'.
  { destruct Hc as [Hrt Hcsr Hns]. split; [done..|]. intros k n. cbn.
    destruct (decide (k = ns)) as [->|]; [rewrite lookup_partial_alter_eq; eauto|].
    rewrite lookup_partial_alter_ne by done. apply Hns. }
  split; [done|]. intros Hs ns'. unfold expected, RuntimeWorld.expected.
  destruct (decide (ns' = ns)) as [->|Hne'].
  2:{ left. f_equal. apply visible_ext; [done..| |done]. unfold nsEnabled, modelMeshEnabled2.
      cbn. unfold getNamespace. cbn. by rewrite lookup_partial_alter_ne. }
  destruct (decide (visible settings c ns = ∅ ∧ visible settings c' ns = ∅)) as [[-> ->]|Hv];
    [by left|right].
  assert (∃ name, candidate c' ns name) as [name Hcand].
  { destruct (decide (visible settings c ns = ∅)) as [E|E].
    - destruct (visible_candidate c' ns Hc') as [_ Hn]; [tauto|done].
    - by destruct (visible_candidate c ns Hc E) as [_ Hn]. }
  exists (mkNN ns name). split; [|done]. eapply candidate_requested; eauto.
Qed.

Lemma set_config_covered w cfg lists :
  cluster_ok (rw_cluster w) →
  cluster_ok (set_config cfg (rw_cluster w)) ∧
  (sees lists (set_config cfg (rw_cluster w)) → ∀ ns,
   expected (set_config cfg (rw_cluster w)) ns = expected (rw_cluster w) ns ∨
   ∃ req, req ∈ configRequests settings lists ∧ Namespace req = ns).
Proof.
  intros Hc. set (c := rw_cluster w) in *. set (c' := set_config cfg c) in *.
  assert (cluster_ok c') as Hc' by (by destruct Hc; split). split; [done|]. intros Hs ns.
  unfold expected, RuntimeWorld.expected. change (visible settings c ns) with (visible settings c' ns).
  destruct (decide (visible settings c' ns = ∅)) as [-> |Hv]; [by left|right].
  destruct (visible_candidate c' ns Hc' Hv) as [En [name Hcand]].
  exists (mkNN ns name). split; [|done]. eapply candidate_requested; [done..| |done|].
  - by rewrite (sees_enabled _ _ _ Hs).
  - right. split; [done|]. by destruct (nsEnabled_named settings c' ns Hc' cluster_scope En).
Qed.

Lemma nsEnabled_exists c ns :
  nsEnabled settings (listsOf c) ns = true → is_Some (cl_namespaces c !! ns).
Proof.
  unfold nsEnabled, modelMeshEnabled2. rewrite cluster_scope. cbn. unfold getNamespace.
  by destruct (cl_namespaces c !! ns).
Qed.

(** The namespaces whose constraints change are among the affected ones. *)
Lemma affected_changed c c' ns :
  cluster_ok c → cluster_ok c' → expected c' ns = expected c ns ∨ ns ∈ affected c c'.
Proof.
  intros Hc Hc'. destruct (decide (expected c' ns = expected c ns)) as [|Hne]; [by left|right].
  unfold affected. apply elem_of_filter. split; [done|].
  assert (∀ d, cluster_ok d → expected d ns ≠ None → ns ∈ dom (cl_namespaces d)) as Hdom.
  { intros d Hd Hsome. apply elem_of_dom, nsEnabled_exists.
    apply (visible_candidate d ns Hd). intros E. apply Hsome.
    unfold expected, RuntimeWorld.expected. by rewrite E. }
  apply elem_of_union. destruct (expected c ns) eqn:E.
  - left. apply Hdom; congruence.
  - right. apply Hdom; congruence.
Qed.

Lemma mapped_ok w c' lists miss reqs :
  rworld_ok w → cluster_ok c' → mapped lists (rw_cluster w) c' miss →
  (sees lists c' → ∀ ns, expected c' ns = expected (rw_cluster w) ns ∨
                         ∃ req, req ∈ reqs ∧ Namespace req = ns) →
  rworld_ok (enqueueAll reqs (change c' miss w)).
Proof.
  intros Hok Hc' Hm Hcov. apply rchange_ok; [done..|]. intros ns. destruct Hm as [Hs|].
  - destruct (Hcov Hs ns); auto.
  - destruct (affected_changed (rw_cluster w) c' ns (rwo_cluster w Hok) Hc'); auto.
Qed.

Lemma rworld_step_ok w w' : rworld_ok w → rworld_step w w' → rworld_ok w'.
Proof.
  intros Hok. pose proof (rwo_cluster w Hok) as Hc.
  destruct 1 as [w n o Ho|w name o lists miss Ho Hm|w ns o lists miss Hne Ho Hm|w cfg lists miss Hm
    |w ns Hns|w reqs|w req|w req c env cs info out maps' misread Hb Hr].
  - destruct (set_runtime_covered w n o Hc Ho) as [? Hcov]. apply rchange_ok; [done..|].
    intros ns. destruct (Hcov ns); auto.
  - destruct (set_clusterRuntime_covered w name o lists Hc Ho). by eapply mapped_ok.
  - destruct (set_namespace_covered w ns o lists Hc Hne Ho). by eapply mapped_ok.
  - destruct (set_config_covered w cfg lists Hc). by eapply mapped_ok.
  - by apply rcollected_ok.
  - pose proof (rchange_ok w (rw_cluster w) ∅ reqs Hok Hc ltac:(by left)) as Hok'.
    destruct w. unfold change in Hok'. cbn in Hok'. by rewrite (left_id_L ∅ (∪)) in Hok'.
  - by apply rtake_ok.
  - eapply rreconcile_ok; try done. by intros ->.
Qed.

(** When the controller starts, its watches map every object there is. *)
Definition startRequests (lists : RuntimeLists) (c : ClusterState) : list NamespacedName :=
  (map_to_list (cl_runtimes c)).*1 ++
  (csr ← watched settings c; clusterServingRuntimeRequests settings lists csr) ++
  (ns ← (map_to_list (cl_namespaces c)).*1; namespaceRequests settings lists ns).

(** The controller starts. Missed are the namespaces for which the lists of its map
    functions fail, and the config maps left in namespaces without runtimes. *)
Record rstarted (w : RWorld) : Prop := {
  rs_cluster : cluster_ok (rw_cluster w);
  rs_idle : rw_busy w = None;
  rs_queue : ∃ lists, sees lists (rw_cluster w) ∧
    ∀ req, req ∈ startRequests lists (rw_cluster w) →
      req ∈ rw_queue w ∨ Namespace req ∈ rw_missed w;
  rs_maps ns : is_Some (rw_maps w !! ns) →
    is_Some (cl_namespaces (rw_cluster w) !! ns) ∧ (∃ name, candidate (rw_cluster w) ns name) ∨
    ns ∈ rw_missed w
}.

Lemma rstarted_ok w : rstarted w → rworld_ok w.
Proof.
  intros [Hc Hi (lists & Hs & Hq) Hm]. split; [done|congruence..|]. intros ns.
  assert (∀ name, candidate (rw_cluster w) ns name → is_Some (cl_namespaces (rw_cluster w) !! ns) →
    openIn w ns) as Hreq.
  { intros name Hcand [n Hn]. cut (mkNN ns name ∈ startRequests lists (rw_cluster w)).
    { intros [|]%Hq; [left; by exists (mkNN ns name)|by right]. }
    unfold startRequests.
    apply elem_of_app; right. apply elem_of_app; right. apply list_elem_of_bind. exists ns. split.
    - eapply candidate_requested; eauto. left. split; [done|]. by apply (co_namespace _ Hc _ _ Hn).
    - apply list_elem_of_fmap. exists (ns, n). split; [done|]. by apply elem_of_map_to_list. }
  destruct (rw_maps w !! ns) as [data|] eqn:E.
  { left. destruct (Hm ns) as [[? [name ?]]|]; [by rewrite E|eauto|by right]. }
  destruct (decide (visible settings (rw_cluster w) ns = ∅)) as [Hv|Hv].
  - right; right. unfold settled, RuntimeWorld.settled, stored, RuntimeWorld.expected.
    by rewrite E, Hv.
  - destruct (visible_candidate _ ns Hc Hv) as [En [name Hcand]]. left.
    eapply Hreq; [exact Hcand|]. by apply nsEnabled_exists.
Qed.

Definition ridle (w : RWorld) : Prop := rw_queue w = ∅ ∧ rw_busy w = None.

(** The config map of a namespace is that of its runtimes. *)
Definition constraints_current (w : RWorld) (ns : string) : Prop :=
  match rw_maps w !! ns with
  | Some data => visible settings (rw_cluster w) ns ≠ ∅ ∧
      data !! MMTypeConstraintsKey =
        Some (Marshal (constraintMap (visible settings (rw_cluster w) ns)
                         (rp_Enabled (RESTProxy (cl_cfg (rw_cluster w))))))
  | None => visible settings (rw_cluster w) ns = ∅
  end.

Lemma ridle_current w ns :
  rworld_ok w → ridle w → ns ∉ rw_missed w → constraints_current w ns.
Proof.
  intros Hok [Hq Hb] Hmi. unfold constraints_current.
  destruct (rwo_settled w Hok ns) as [[(req & Hin & _)|]|[(? & ? & E & _)|Hset]];
    [rewrite Hq in Hin; set_solver|done|congruence|].
  unfold settled, RuntimeWorld.settled, stored, RuntimeWorld.expected, constraintsOf in Hset.
  destruct (rw_maps w !! ns) as [data|]; case_decide; [done| |done|done].
  split; [done|]. by injection Hset.
Qed.

(** C6: In cluster scope, whatever happened before - changes of runtimes, cluster runtimes, namespaces and
    the configuration at any moment, also while a reconciliation is under way, failed
    reads and writes, events dropped by the map functions - whenever the runtime
    controller has nothing left to do, the config map from which the model-mesh pods of a
    namespace read their type constraints exists exactly where there are runtimes, and
    holds the constraints of exactly these, under the current configuration. Excepted
    are the namespaces for which no request was taken since a change whose map function
    failed to list or ran after a further change, since a start of the controller at
    which a list failed or a config map was left over, or since a reconciliation that
    could not read the namespace. *)
Theorem idle_constraints_current w0 w ns :
  rstarted w0 → rtc rworld_step w0 w → ridle w → ns ∉ rw_missed w → constraints_current w ns.
Proof.
  intros Hs Hsteps. apply ridle_current.
  eapply rtc_invariant; [apply rworld_step_ok|done|by apply rstarted_ok].
Qed.

Lemma namespaceRequests_candidate lists c target req :
  cluster_ok c → sees lists c → target ≠ "" → req ∈ namespaceRequests settings lists target →
  candidate c (Namespace req) (Name req).
Proof.
  intros Hc Hs Ht Hreq. destruct (se_runtimes _ _ Hs target) as (rts & Hr & Pr).
  destruct (sees_watched _ _ Hs) as (csrs & Hcs & Pc).
  destruct (se_namespaces _ _ Hs) as (nss & Hn & _).
  apply (requestsForRuntimes_spec _ _ target _ rts csrs nss req Hr Hcs Hn) in Hreq.
  destruct Hreq as [[_ (rt & Hin & E1 & E2)]|[(csr & Hin & Hm & E) _]].
  - left. revert Hin. rewrite Pr. unfold runtimesIn.
    intros [_ [n Hlk]%elem_of_values]%list_elem_of_filter.
    rewrite <- E1, <- E2, <- (co_runtime c Hc _ _ Hlk). eauto.
  - right. exists (rt_Spec csr). revert Hin. rewrite Pc. unfold watched.
    destruct (rs_EnableCSRWatch settings) eqn:Ew; [|set_solver].
    intros [k Hlk]%elem_of_values. rewrite <- E, (co_cluster c Hc _ _ Hlk). split; [done|]. eauto.
Qed.

(** A config map in a disabled namespace that has no candidates is never looked at:
    neither the events of cluster runtimes and of namespaces nor a restart of the
    controller ask for a reconciliation there. So it stays when the last cluster runtime
    is removed and the namespace disabled before the two events are mapped, or while the
    controller is down. *)
Theorem leftover_config_map lists c ns :
  cluster_ok c → sees lists c → nsEnabled settings (listsOf c) ns = false →
  (∀ name, ¬ candidate c ns name) →
  (∀ old new req, req ∈ csrRequests lists old new → Namespace req ≠ ns) ∧
  (∀ target req, target ≠ "" → req ∈ namespaceRequests settings lists target →
     Namespace req ≠ ns) ∧
  (∀ req, req ∈ startRequests lists c → Namespace req ≠ ns).
Proof.
  intros Hc Hs En Hno. destruct (se_namespaces _ _ Hs) as (nss & Hn & _).
  assert (∀ csr req, req ∈ clusterServingRuntimeRequests settings lists csr → Namespace req ≠ ns)
    as Hcsr.
  { intros csr req. unfold clusterServingRuntimeRequests. destruct (negb _); [set_solver|].
    rewrite Hn. intros (x & -> & [Hx _]%list_elem_of_filter)%list_elem_of_fmap. cbn. intros ->.
    by rewrite (sees_enabled _ _ _ Hs), En in Hx. }
  assert (∀ target req, target ≠ "" → req ∈ namespaceRequests settings lists target →
    Namespace req ≠ ns) as Hns.
  { intros target req Ht Hreq <-. eapply Hno, (namespaceRequests_candidate lists); eauto. }
  split_and!; [|done|].
  - intros old new req. unfold csrRequests. destruct (rs_EnableCSRWatch settings); [|set_solver].
    intros ([csr|] & Hreq & _)%list_elem_of_bind; [eauto|set_solver].
  - intros req. unfold startRequests.
    intros [Hin|[(csr & Hreq & _)%list_elem_of_bind|(t & Hreq & Ht)%list_elem_of_bind]%elem_of_app]%elem_of_app.
    + apply list_elem_of_fmap in Hin as ([n rt] & -> & Hlk%elem_of_map_to_list). cbn. intros <-.
      apply (Hno (Name n)). left. destruct n. eauto.
    + eauto.
    + apply list_elem_of_fmap in Ht as ([t' n] & -> & Hlk%elem_of_map_to_list).
      eapply Hns; [|exact Hreq]. by apply (co_namespace c Hc _ _ Hlk).
Qed.
End World.

(** ** Runs *)

#[export] Instance kserveImpl_flag : MultiModelFlag kserveImpl.
Proof. by split. Qed.

#[local] Existing Instances protocolNamesImpl kserveImpl kserveConstantsImpl etcdLibsImpl jsonMapImpl.

(** An enabled namespace, a cluster runtime for it, and no config map yet *)
Definition worldSettings : RuntimeSettings := mkSettings "controller" true true false "storage-config".

Definition worldRuntime : ServingRuntime := mkRuntime "" "rt" ∅ ∅ (rt_Spec (runtimeOf false)).

Definition worldCluster : ClusterState :=
  mkCluster ∅ {[ "rt" := worldRuntime ]}
    {[ "ns" := mkNamespace "ns" {["modelmesh-enabled" := "true"]} false ]} exMerged.

Definition world0 : RWorld := mkRWorld worldCluster ∅ {[ mkNN "ns" "rt" ]} None ∅ ∅.

(** The answers at a time, with the config maps there are *)
Definition worldEnv (maps : config_maps) (now : Z) : RuntimeEnv :=
  mkRuntimeEnv (listsOf worldCluster) (λ _, Err ErrNotFound) (λ _, Ok worldRuntime)
    (λ ns, match maps !! ns with Some data => Ok data | None => Err ErrNotFound end)
    (λ _, None) (λ _, Ok ∅) (λ _, None) (λ _, None) (λ _, Err ErrNotFound) (λ _ _, true) []
    (mkHPAClient (λ _, Err ErrNotFound) (λ _, None) (λ _, None) (λ _, None)) (λ _, None)
    (λ _, Err ErrNotFound) (λ _, None) exampleLibs (λ _, None) now.

Definition worldRun (maps : config_maps) (now : Z) (info : RuntimeInfoMap) :=
  run (ReconcileRuntime (λ _, "constraints") "dataplane" elements id 0 worldSettings exMerged
         (worldEnv maps now) (mkNN "ns" "rt") info).

(** The calls of a run whose writes all succeed *)
Definition applied (cs : list RuntimeCall) (maps : config_maps) : config_maps :=
  foldl (λ m c, match c with OnConfigMap c => written c m | _ => m end) maps cs.

Lemma applied_effects write cs maps :
  (∀ c, write c = None) → write_effects write cs maps (applied cs maps).
Proof.
  intros Hw. revert maps. induction cs as [|c cs IH]; intros maps; [constructor|].
  unfold applied. simpl. econstructor; [|apply IH].
  destruct c; [by apply write_done|apply write_elsewhere; by intros []..].
Qed.

Definition worldNext (maps : config_maps) (now : Z) (info : RuntimeInfoMap)
  : option (config_maps * RuntimeInfoMap * bool) :=
  match worldRun maps now info with
  | Ret (cs, (info', out)) => Some (applied cs maps, info', done_with out)
  | Panic => None
  end.

Definition worldAt (maps : config_maps) (pending : bool) (info : RuntimeInfoMap) : RWorld :=
  mkRWorld worldCluster maps (if pending then {[ mkNN "ns" "rt" ]} else ∅) None info ∅.

Abbreviation world_steps :=
  (rtc (rworld_step (λ _, "constraints") "dataplane" elements id 0 worldSettings)).

Lemma reads_listsOf c ns : reads (listsOf c) c ns.
Proof. split; [by intros l [= <-]..|reflexivity]. Qed.

Lemma worldNext_steps maps now info maps' info' d :
  worldNext maps now info = Some (maps', info', d) →
  world_steps (worldAt maps true info) (worldAt maps' (negb d) info').
Proof.
  unfold worldNext. destruct (worldRun maps now info) as [[cs [info1 out]]|] eqn:E; [|done].
  intros Hn. injection Hn as <- <- <-.
  eapply rtc_l; [apply (rstep_take _ _ _ _ _ _ (worldAt maps true info) (mkNN "ns" "rt"));
                 [set_solver|reflexivity]|].
  eapply rtc_l.
  - eapply (rstep_reconcile _ _ _ _ _ _ _ (mkNN "ns" "rt") worldCluster (worldEnv maps now)
      _ _ _ _ false);
      [reflexivity|apply reads_listsOf| |exact E|by apply applied_effects].
    cbn. unfold gets. destruct (maps !! "ns"); [reflexivity|]. intros _. reflexivity.
  - unfold worldAt. cbn [rw_queue rw_cluster rw_missed].
    replace (∅ ∖ {[ Namespace (mkNN "ns" "rt") ]}) with (∅ : gset string) by set_solver.
    rewrite difference_diag_L, (right_id_L ∅ (∪)).
    destruct (done_with out); reflexivity.
Qed.

(** The runtime is deployed, and scaled to zero when its grace period is over. *)
Definition worldIdle : RWorld :=
  match worldNext ∅ 0 ∅ with
  | Some (maps, info, _) =>
      match worldNext maps (100 * Second) info with
      | Some (maps', info', _) => worldAt maps' false info'
      | None => world0
      end
  | None => world0
  end.

Lemma worldIdle_reachable : world_steps world0 worldIdle.
Proof.
  assert (match worldNext ∅ 0 ∅ with
          | Some (maps, info, false) =>
              match worldNext maps (100 * Second) info with Some (_, _, d) => d | None => false end
          | _ => false
          end = true) as Hv by (vm_compute; reflexivity).
  unfold worldIdle. destruct (worldNext ∅ 0 ∅) as [[[maps info] []]|] eqn:E1;
    [discriminate Hv| |discriminate Hv].
  destruct (worldNext maps (100 * Second) info) as [[[maps' info'] d]|] eqn:E2; [|discriminate Hv].
  subst d. etrans; [exact (worldNext_steps _ _ _ _ _ _ E1)|exact (worldNext_steps _ _ _ _ _ _ E2)].
Qed.

Lemma world0_started : rstarted worldSettings world0.
Proof.
  split.
  - split.
    + intros n rt. cbn. by rewrite lookup_empty.
    + intros name rt. cbn. intros [<- <-]%lookup_singleton_Some. reflexivity.
    + intros ns n. cbn. intros [<- <-]%lookup_singleton_Some. done.
  - reflexivity.
  - exists (listsOf worldCluster). split.
    + split; [intros ns; by eexists|by eexists..|reflexivity].
    + cbn [world0 rw_cluster rw_queue].
      assert (startRequests worldSettings (listsOf worldCluster) worldCluster =
              [mkNN "ns" "rt"; mkNN "ns" "rt"]) as -> by (vm_compute; reflexivity).
      intros req. rewrite !elem_of_cons. set_solver.
  - intros ns. cbn. rewrite lookup_empty. by intros [].
Qed.

Lemma idle_constraints_current_witness :
  ∃ data, rw_maps worldIdle !! "ns" = Some data ∧
    visible worldSettings (rw_cluster worldIdle) "ns" ≠ ∅ ∧
    data !! "type_constraints" = Some "constraints".
Proof.
  assert (match rw_maps worldIdle !! "ns" with Some _ => true | None => false end = true) as Hv
    by (vm_compute; reflexivity).
  pose proof (idle_constraints_current (λ _, "constraints") "dataplane" elements id 0 worldSettings
    eq_refl world0 worldIdle "ns" world0_started worldIdle_reachable) as H.
  unfold constraints_current in H.
  destruct (rw_maps worldIdle !! "ns") as [data|]; [|discriminate Hv].
  exists data. split; [reflexivity|]. apply H; [split; vm_compute; reflexivity|].
  intros Hin. vm_compute in Hin. discriminate Hin.
Defined.
