(* ===== verification/RuntimeProgress.v ===== *)
(** * Progress of the runtime controller

    In the worlds of RuntimeWorld.v the controller finishes its work. While the cluster
    stays as it is and the API server answers, a runtime is reconciled again for two
    reasons: the end of the grace period of a runtime without Predictors, and the event
    of its own Deployment, which the controller watches, when a reconciliation changed
    it. A timed world has a clock, the requests that wait with the time at which they are
    due, and the Deployments as they were last applied. A Deployment that is applied as
    it is causes no event, so this feedback dies out: it is applied with the replicas
    that run and once more, after the grace period, with none. *)

From S2P Require Import Prelude GoStrings Types K8s ModelTypes Registry Config RangeWatcher Events.
From S2P Require Import Validator Autoscaler RuntimeScaling RuntimePVCs RuntimeRequests Manifests.
From S2P Require Import PredictorController PredictorControllerProps Deployment DeploymentProps.
From S2P Require Import RuntimeController ConfigProps EventsProps RuntimeControllerProps RuntimeWorld.

(** ** Computations that return

    [returns m Q]: whatever was called before, [m] returns, and its calls and its result
    are in [Q]. *)

Section Returns.
Context {C : Type}.

Definition returns {A} (m : io C A) (Q : list C → A → Prop) : Prop :=
  ∀ tr, ∃ cs a, m tr = Ret (tr ++ cs, a) ∧ Q cs a.

Lemma returns_weaken {A} (m : io C A) (P Q : list C → A → Prop) :
  returns m P → (∀ cs a, P cs a → Q cs a) → returns m Q.
Proof. intros Hm HPQ tr. destruct (Hm tr) as (cs & a & E & HP). eauto. Qed.

Lemma returns_emits {A} (m : io C A) (P Q : list C → A → Prop) :
  returns m P → emits m Q → returns m (λ cs a, P cs a ∧ Q cs a).
Proof.
  intros Hm He tr. destruct (Hm tr) as (cs & a & E & HP). exists cs, a. split_and!; [done..|].
  destruct (He _ _ _ E) as (cs' & Heq & HQ). by apply app_inv_head in Heq as ->.
Qed.

Lemma returns_ret {A} (a : A) (Q : list C → A → Prop) : Q [] a → returns (mret (M := io C) a) Q.
Proof. intros HQ tr. exists [], a. by rewrite app_nil_r. Qed.

Lemma returns_bind {A B} (m : io C A) (f : A → io C B) (P : list C → A → Prop)
    (Q : list C → B → Prop) :
  returns m P → (∀ cs a, P cs a → returns (f a) (λ cs' b, Q (cs ++ cs') b)) →
  returns (m ≫= f) Q.
Proof.
  intros Hm Hf tr. destruct (Hm tr) as (cs & a & E & HP).
  destruct (Hf cs a HP (tr ++ cs)) as (cs' & b & E2 & HQ). exists (cs ++ cs'), b. split; [|done].
  unfold mbind, io_bind. by rewrite E, E2, <- app_assoc.
Qed.

Lemma returns_call {B} (c : C) (f : () → io C B) (Q : list C → B → Prop) :
  returns (f tt) (λ cs b, Q (c :: cs) b) → returns (call c ≫= f) Q.
Proof.
  intros Hf tr. destruct (Hf (tr ++ [c])) as (cs & b & E & HQ). exists (c :: cs), b.
  split; [|done]. unfold mbind, io_bind, call. by rewrite E, <- app_assoc.
Qed.

Lemma returns_lift {A B} (e : exec A) (f : A → io C B) a (Q : list C → B → Prop) :
  e = Ret a → returns (f a) Q → returns (lift e ≫= f) Q.
Proof. intros -> Hf tr. apply Hf. Qed.
End Returns.

Lemma returns_embed {C D A} (g : C → D) (m : io C A) (Q : list C → A → Prop) :
  returns m Q → returns (embed g m) (λ cs a, ∃ cs0, cs = map g cs0 ∧ Q cs0 a).
Proof.
  intros Hm tr. destruct (Hm []) as (cs & a & E & HQ). exists (map g cs), a.
  unfold embed. rewrite E. eauto.
Qed.

(** ** The Deployment after the calls of a reconciliation *)

Definition deployed_by (cs : list RuntimeCall) (o : option (list DeploymentObj))
  : option (list DeploymentObj) :=
  foldl (λ o c, match c with
                | OnManifest (ApplyResources rs) => Some rs
                | OnManifest (DeleteResources _) => None
                | _ => o
                end) o cs.

Lemma deployed_app cs cs' o : deployed_by (cs ++ cs') o = deployed_by cs' (deployed_by cs o).
Proof. apply foldl_app. Qed.

Definition is_manifest (c : RuntimeCall) : Prop :=
  match c with OnManifest _ => True | _ => False end.

Lemma deployed_untouched cs o : Forall (λ c, ¬ is_manifest c) cs → deployed_by cs o = o.
Proof.
  revert o. induction cs as [|c cs IH]; intros o; [done|]. intros [Hc Hcs]%Forall_cons.
  unfold deployed_by. cbn [foldl]. destruct c; try (by apply IH). by destruct (Hc I).
Qed.

Lemma config_untouched cms : Forall (λ c, ¬ is_manifest c) (map OnConfigMap cms).
Proof. induction cms; constructor; [by intros []|done]. Qed.

Lemma secrets_untouched cs : Forall is_secret cs → Forall (λ c, ¬ is_manifest c) cs.
Proof. intros Hs. eapply Forall_impl; [exact Hs|]. by intros [] [] []. Qed.

Lemma hpa_untouched cs : Forall is_hpa cs → Forall (λ c, ¬ is_manifest c) cs.
Proof. intros Hs. eapply Forall_impl; [exact Hs|]. by intros [] [] []. Qed.

Section Progress.
Context `{!ProtocolNames, !KServeRuntime, !KServeConstants, !EtcdLibs, !JSONMap}.
Context `{!MultiModelFlag _}.
Variable Marshal : gmap string (list string) → string.
Variable dataPlane : string.
Variables (sortedList : gset string → list string) (TrimSpace : string → string).
Variable spare : nat.
Variable settings : RuntimeSettings.
Hypothesis cluster_scope : rs_ClusterScope settings = true.
(** etcd configurations can be marshalled. *)
Hypothesis marshals : ∀ cfg, ∃ text, MarshalEtcdConfig cfg = Ok text.
(** Which runtimes some registry has Predictors for; this does not change either. *)
Variable has : NamespacedName → bool.
(** The manifest of a runtime for a number of replicas, and the number that its autoscaler
    makes of the configured one; these do not change either. *)
Variable manifests : NamespacedName → Z → list DeploymentObj.
Variable scaled : NamespacedName → Z → Z.

(** ** An API server that answers *)

Definition orNotFound {A} (o : option A) : result error A :=
  match o with Some a => Ok a | None => Err ErrNotFound end.

(** The runtime of a request *)
Definition found (c : ClusterState) (req : NamespacedName) : option (bool * ServingRuntime) :=
  match cl_runtimes c !! req with
  | Some rt => Some (false, rt)
  | None => if rs_EnableCSRWatch settings
            then (λ rt, (true, rt)) <$> cl_clusterRuntimes c !! Name req else None
  end.

Record orderly (c : ClusterState) (maps : config_maps) (env : RuntimeEnv) (req : NamespacedName)
  : Prop := {
  or_runtimes : ∃ l, rl_ServingRuntimes (re_lists env) (Namespace req) = Ok l ∧
    l ≡ₚ runtimesIn c (Namespace req);
  or_cluster : ∃ l, rl_ClusterServingRuntimes (re_lists env) = Ok l ∧
    l ≡ₚ values (cl_clusterRuntimes c);
  or_namespace : rl_GetNamespace (re_lists env) (Namespace req) = getNamespace c (Namespace req);
  or_map : re_GetConfigMap env (Namespace req) = orNotFound (maps !! Namespace req);
  or_write call : re_WriteConfigMap env call = None;
  or_secret name e : re_GetSecret env name = Err e → IsNotFound e = true;
  or_etcd : ∃ s etcd, re_GetSecret env (mkNN (rs_ControllerNamespace settings)
      (GetEtcdSecretName (re_LookupEnv env) (cl_cfg c))) = Ok s ∧
    UnmarshalEtcdConfig (default "" (s !! EtcdSecretKey)) = Ok etcd;
  or_writeSecret call : re_WriteSecret env call = None;
  or_deleteSecret name : re_DeleteSecret env name = None;
  or_runtime : re_GetRuntime env req = orNotFound (cl_runtimes c !! req);
  or_clusterRuntime : re_GetClusterRuntime env (Name req) =
    orNotFound (cl_clusterRuntimes c !! Name req)
}.

(** A runtime that can be deployed: it is valid, its claims and Predictors can be read,
    its autoscaler works, and its manifest can be rendered, applied and deleted. *)
Record deployable (cfg : Config) (env : RuntimeEnv) (req : NamespacedName) (cluster : bool)
    (rt : ServingRuntime) : Prop := {
  dp_valid : validateServingRuntimeSpec (rt_Spec rt) cfg = None;
  dp_predictors : runtimeHasPredictors (re_registries env) cfg (rt_Spec rt) req = Ret (Ok (has req));
  dp_autoscaler name ns dep replicas : ∃ a,
    createAutoscaler (re_setOwner env)
      (if cluster && bool_decide (rt_Name rt = "") then mkRuntime "" "" ∅ ∅ (bareSpec [] []) else rt)
      name ns = Ok a ∧
    returns (replicasAndHPA env (Some a) replicas dep) (λ _ r, r = Ok (scaled req replicas));
  dp_deployment : ∃ pvcs m,
    getPVCs (re_StorageSecret env (Namespace req)) (re_registries env)
      (re_pvcExists env (Namespace req)) req (rt_Spec rt) cfg = Ret (Ok pvcs) ∧
    newMMDeployment settings cfg env req rt pvcs = Ret m ∧
    (∀ replicas, returns (applyDeployment sortedList TrimSpace spare env m rt replicas)
       (λ cs err, cs = [OnManifest (ApplyResources (manifests req replicas))] ∧ err = None)) ∧
    returns (deleteDeployment env m rt)
      (λ cs err, (∃ rs, cs = [OnManifest (DeleteResources rs)]) ∧ err = None)
}.

Lemma orderly_reads c maps env req :
  orderly c maps env req → reads (re_lists env) c (Namespace req).
Proof.
  intros [(l & Hl & P) (l' & Hl' & P') Hn]. split; [| |done]; intros ? E;
    [rewrite Hl in E|rewrite Hl' in E]; by injection E as <-.
Qed.

Lemma orderly_gets c maps env req :
  orderly c maps env req → gets (re_GetConfigMap env (Namespace req)) (maps !! Namespace req).
Proof. intros Ho. unfold gets. rewrite (or_map _ _ _ _ Ho). by destruct (maps !! _). Qed.

Lemma findRuntime_found c maps env req :
  orderly c maps env req → findRuntime settings env req = Ok (found c req).
Proof.
  intros Ho. unfold findRuntime, found. rewrite (or_runtime _ _ _ _ Ho), (or_clusterRuntime _ _ _ _ Ho).
  destruct (cl_runtimes c !! req); [done|]. cbn [orNotFound].
  change (IsNotFound ErrNotFound) with true.
  destruct (rs_EnableCSRWatch settings); [|done]. simpl.
  by destruct (cl_clusterRuntimes c !! Name req).
Qed.

(** ** The parts of a reconciliation *)

Lemma listSpecs_returns c maps env req :
  orderly c maps env req →
  ∃ srSpecs, listSpecs settings env (Namespace req)
    (nsEnabled settings (re_lists env) (Namespace req)) = Ok srSpecs.
Proof.
  intros Ho. destruct (or_runtimes _ _ _ _ Ho) as (l & Hl & _).
  destruct (or_cluster _ _ _ _ Ho) as (l' & Hl' & _).
  unfold listSpecs. rewrite Hl, Hl'. destruct (nsEnabled _ _ _), (rs_EnableCSRWatch settings); eauto.
Qed.

Lemma ClusterConfigReconcile_returns c maps env req srSpecs cfg :
  orderly c maps env req →
  returns (ClusterConfigReconcile Marshal dataPlane (re_GetConfigMap env (Namespace req))
             (re_WriteConfigMap env) srSpecs (Namespace req) cfg) (λ _ err, err = None).
Proof.
  intros Ho. unfold ClusterConfigReconcile. rewrite (or_map _ _ _ _ Ho). cbn zeta.
  destruct (maps !! _) as [data|]; cbn [orNotFound]; [|change (IsNotFound ErrNotFound) with true];
    case_bool_decide; try (by apply returns_ret);
    apply returns_call, returns_ret, (or_write _ _ _ _ Ho).
Qed.

Lemma reconcileEtcdSecret_returns c maps env req srSpecs :
  orderly c maps env req →
  returns (reconcileEtcdSecret settings (cl_cfg c) env (Namespace req) srSpecs) (λ _ err, err = None).
Proof.
  intros Ho. unfold reconcileEtcdSecret. cbn zeta.
  case_bool_decide; [by apply returns_ret|]. case_bool_decide.
  - destruct (re_GetSecret env _) as [s|e] eqn:E.
    + apply returns_call, returns_ret, (or_deleteSecret _ _ _ _ Ho).
    + apply returns_ret. by rewrite (or_secret _ _ _ _ Ho _ _ E).
  - destruct (or_etcd _ _ _ _ Ho) as (s & etcd & -> & ->).
    eapply (returns_bind _ _ (λ _ err, err = None)); [|by intros cs err ->; apply returns_ret].
    eapply returns_weaken; [eapply returns_embed with (Q := λ _ err, err = None)|by intros cs err (? & _ & ->)].
    unfold Events.Apply, addData. cbn zeta.
    destruct (marshals (set_RootPrefix (ec_RootPrefix etcd +:+ "/mm_ns/" +:+ Namespace req) etcd))
      as [text Ht]. cbn [ets_EtcdConfig ets_Namespace]. rewrite Ht.
    destruct (re_GetSecret env _) as [d|e] eqn:E; [|rewrite (or_secret _ _ _ _ Ho _ _ E)];
      apply returns_call, returns_ret, (or_writeSecret _ _ _ _ Ho).
Qed.

(** *** The grace period *)

(** Since when a runtime without Predictors has had none, at a time *)
Definition transition (now : Z) (info : RuntimeInfoMap) (req : NamespacedName) : Z :=
  default now (default (Some zeroTime) (info !! req)).

(** A runtime that does not run in the namespace *)
Definition stopped (c : ClusterState) (req : NamespacedName) (rt : ServingRuntime) : bool :=
  IsDisabled (rt_Spec rt) || negb (IsMultiModelRuntime (rt_Spec rt)) ||
  negb (nsEnabled settings (listsOf c) (Namespace req)).

(** A runtime that is to be scaled to zero *)
Definition scaling (c : ClusterState) (req : NamespacedName) : bool :=
  match found c req with
  | Some (_, rt) => negb (stopped c req rt) && sz_Enabled (ScaleToZero (cl_cfg c)) && negb (has req)
  | None => false
  end.

(** ... and whose grace period is not over *)
Definition waits (c : ClusterState) (now : Z) (info : RuntimeInfoMap) (req : NamespacedName) : bool :=
  scaling c req && bool_decide (Since now (transition now info req) < gracePeriodDuration (cl_cfg c))%Z.

(** The Deployment of a runtime that runs *)
Definition running (c : ClusterState) (req : NamespacedName) : option (list DeploymentObj) :=
  match found c req with
  | Some (_, rt) => Some (manifests req (scaled req (determineReplicas (cl_cfg c) (rt_Spec rt))))
  | None => None
  end.

(** What becomes of the Deployment of a request in the end *)
Definition final (c : ClusterState) (req : NamespacedName) (o : option (list DeploymentObj))
  : option (list DeploymentObj) :=
  match found c req with
  | Some (_, rt) =>
      if stopped c req rt then None
      else if scaling c req then Some (manifests req (scaled req 0)) else running c req
  | None => o
  end.

Lemma final_idem c req o : final c req (final c req o) = final c req o.
Proof. unfold final. by destruct (found c req) as [[]|]. Qed.

(** The record of no other runtime changes, and a new time is the present or zero. *)
Definition records (now : Z) (req : NamespacedName) (info info' : RuntimeInfoMap) : Prop :=
  (∀ r, r ≠ req → info' !! r = info !! r) ∧
  ∀ t, info' !! req = Some (Some t) → info !! req = Some (Some t) ∨ t = now ∨ t = zeroTime.

(** A reconciliation returns without error; it is to be repeated exactly while the grace
    period is not over, and leaves the Deployment that runs or the final one. *)
Record outcome_ok (c : ClusterState) (now : Z) (req : NamespacedName) (info : RuntimeInfoMap)
    (cs : list RuntimeCall) (out : RuntimeOutcome) : Prop := {
  oo_error : out.2.2 = None;
  oo_records : records now req info out.1;
  oo_time : scaling c req = true → out.1 !! req = Some (Some (transition now info req));
  oo_done : done_with out.2 = negb (waits c now info req);
  oo_after : waits c now info req = true →
    out.2.1 = requeueAfter (gracePeriodDuration (cl_cfg c) - Since now (transition now info req));
  oo_deployed o : deployed_by cs o =
    if waits c now info req then running c req else final c req o
}.

Lemma records_refl now req info : records now req info info.
Proof. split; [done|]. by left. Qed.

Lemma scaling_returns c env cluster rt req info :
  found c req = Some (cluster, rt) → stopped c req rt = false →
  runtimeHasPredictors (re_registries env) (cl_cfg c) (rt_Spec rt) req = Ret (Ok (has req)) →
  ∃ info' replicas d,
    determineReplicasAndRequeueDuration (re_now env) (re_registries env) (cl_cfg c) (rt_Spec rt)
      req info = Ret (info', Ok (replicas, d)) ∧
    records (re_now env) req info info' ∧
    (scaling c req = true → info' !! req = Some (Some (transition (re_now env) info req))) ∧
    Some (manifests req (scaled req replicas)) =
      (if waits c (re_now env) info req then running c req else final c req None) ∧
    d = (if waits c (re_now env) info req
         then gracePeriodDuration (cl_cfg c) - Since (re_now env) (transition (re_now env) info req)
         else 0)%Z.
Proof.
  intros Hf Hst Hp. unfold determineReplicasAndRequeueDuration, waits, final, running. cbn zeta.
  assert (scaling c req = sz_Enabled (ScaleToZero (cl_cfg c)) && negb (has req)) as ->
    by (unfold scaling; by rewrite Hf, Hst). rewrite Hf, Hst.
  destruct (sz_Enabled _); cbn [negb andb].
  2:{ eexists _, _, _. split; [done|]. split; [apply records_refl|by split_and!]. }
  rewrite Hp. unfold mbind, exec_bind, scaleDecision. cbn zeta.
  fold (transition (re_now env) info req).
  assert (∀ o, (∀ t, o = Some t → info !! req = Some (Some t) ∨ t = re_now env ∨ t = zeroTime) →
    records (re_now env) req info (<[req := o]> info)) as Hrec.
  { intros o Ho. split; [intros; by apply lookup_insert_ne|]. intros t.
    rewrite lookup_insert_eq. intros [= ->]. by apply Ho. }
  destruct (has req); cbn [negb andb].
  { eexists _, _, _. split; [done|]. split; [by apply Hrec|by split_and!]. }
  assert (records (re_now env) req info
    (<[req := Some (transition (re_now env) info req)]> info)) as Hr.
  { apply Hrec. intros t [= <-]. unfold transition. destruct (info !! req) as [[t|]|]; simpl; eauto. }
  case_bool_decide; eexists _, _, _; (split; [done|]); (split; [done|]); rewrite lookup_insert_eq;
    by split_and!.
Qed.

Lemma deployRuntime_returns c env req cluster rt m info :
  found c req = Some (cluster, rt) → stopped c req rt = false →
  deployable (cl_cfg c) env req cluster rt →
  (∀ replicas, returns (applyDeployment sortedList TrimSpace spare env m rt replicas)
     (λ cs err, cs = [OnManifest (ApplyResources (manifests req replicas))] ∧ err = None)) →
  returns (deployRuntime sortedList TrimSpace spare (cl_cfg c) env req cluster rt m info)
    (outcome_ok c (re_now env) req info).
Proof.
  intros Hf Hst Hd Happly. unfold deployRuntime. cbn zeta.
  destruct (scaling_returns c env cluster rt req info Hf Hst (dp_predictors _ _ _ _ _ Hd))
    as (info' & replicas & d & Hdet & Hrec & Htime & Hman & ->).
  set (name := InferenceServiceName (cl_cfg c) +:+ "-" +:+ dep_Name m).
  destruct (dp_autoscaler _ _ _ _ _ Hd name (dep_Namespace m) (mkNN (Namespace req) name) replicas)
    as (a & Ha & Hreplicas).
  eapply returns_lift; [exact Hdet|]. cbn beta iota. rewrite Ha.
  eapply returns_bind; [exact (returns_emits _ _ _ Hreplicas (replicasAndHPA_hpa _ _ _ _))|].
  intros cs r [-> Hcs%hpa_untouched].
  eapply returns_bind; [apply Happly|]. intros cs' err [-> ->].
  apply returns_ret. rewrite app_nil_r. split; cbn [fst snd]; try done.
  - unfold waits. destruct (scaling c req); cbn [andb]; [|done].
    unfold done_with, requeueAfter. cbn [fst snd Requeue RequeueAfter].
    rewrite (bool_decide_true (None = None)) by done. cbn [negb andb].
    destruct (bool_decide (Since _ _ < _)%Z) eqn:Ew; [|done].
    apply bool_decide_eq_true in Ew. apply bool_decide_eq_false. lia.
  - by intros ->.
  - intros o. rewrite deployed_app, (deployed_untouched cs) by done. cbn. rewrite Hman.
    destruct (waits _ _ _ _); [done|]. unfold final. by rewrite Hf.
Qed.

Lemma reconcileRuntime_returns c env req cluster rt info :
  found c req = Some (cluster, rt) → deployable (cl_cfg c) env req cluster rt →
  returns (reconcileRuntime sortedList TrimSpace spare settings (cl_cfg c) env req
             (nsEnabled settings (listsOf c) (Namespace req)) cluster rt info)
    (outcome_ok c (re_now env) req info).
Proof.
  intros Hf Hd. unfold reconcileRuntime. cbn zeta. rewrite (dp_valid _ _ _ _ _ Hd).
  destruct (dp_deployment _ _ _ _ _ Hd) as (pvcs & m & Hp & Hm & Happly & Hdelete).
  eapply returns_lift; [exact Hp|]. cbn beta iota. eapply returns_lift; [exact Hm|].
  fold (stopped c req rt). destruct (stopped c req rt) eqn:Hst; [|by apply deployRuntime_returns].
  assert (scaling c req = false) as Hsc by (unfold scaling; by rewrite Hf, Hst).
  eapply returns_bind; [exact Hdelete|]. intros cs err [(rs & ->) ->].
  apply returns_ret. unfold waits. split; unfold waits; rewrite ?Hsc; try done.
  - apply records_refl.
  - intros o. cbn. unfold final. by rewrite Hf, Hst.
Qed.

(** With the API server answering, a reconciliation returns. *)
Lemma ReconcileRuntime_returns c maps env req info :
  orderly c maps env req →
  (∀ cluster rt, found c req = Some (cluster, rt) → deployable (cl_cfg c) env req cluster rt) →
  returns (ReconcileRuntime Marshal dataPlane sortedList TrimSpace spare settings (cl_cfg c) env
             req info) (outcome_ok c (re_now env) req info).
Proof.
  intros Ho Hd. unfold ReconcileRuntime. cbn zeta.
  destruct (listSpecs_returns c maps env req Ho) as [srSpecs ->].
  eapply returns_bind; [by eapply returns_embed, ClusterConfigReconcile_returns|].
  intros cs err (cms & -> & ->).
  eapply returns_bind; [exact (returns_emits _ _ _ (reconcileEtcdSecret_returns c maps env req srSpecs Ho)
    (reconcileEtcdSecret_secrets _ _ _ _ _))|].
  intros cs2 err [-> Hcs2%secrets_untouched].
  rewrite (findRuntime_found c maps env req Ho).
  assert (nsEnabled settings (re_lists env) (Namespace req) =
          nsEnabled settings (listsOf c) (Namespace req)) as ->.
  { unfold nsEnabled, modelMeshEnabled2. by rewrite (or_namespace _ _ _ _ Ho). }
  assert (∀ cs out, outcome_ok c (re_now env) req info cs out →
    outcome_ok c (re_now env) req info (map OnConfigMap cms ++ cs2 ++ cs) out) as Hpre.
  { intros cs out [? ? ? ? ? Hdep]. split; [done..|]. intros o. rewrite <- Hdep, !deployed_app.
    by rewrite (deployed_untouched (map _ _)), (deployed_untouched cs2) by (done || apply config_untouched). }
  destruct (found c req) as [[cluster rt]|] eqn:Hf.
  - eapply returns_weaken; [by apply reconcileRuntime_returns, Hd|done].
  - apply returns_ret, Hpre. assert (scaling c req = false) as Hsc by (unfold scaling; by rewrite Hf).
    split; unfold waits; rewrite ?Hsc; try done.
    + unfold removeRuntimeFromInfoMap. split.
      * intros r Hr. cbn. by rewrite lookup_delete_ne.
      * intros t. cbn. by rewrite lookup_delete_eq.
    + intros o. unfold final. by rewrite Hf.
Qed.

(** ** The controller at work *)

Record TWorld := mkTWorld {
  (** its queue holds the requests that are ready *)
  tw_world : RWorld;
  (** the requests that were put back with a delay, with the time they are due *)
  tw_due : gmap NamespacedName Z;
  (** the Deployments as they were last applied, by the request *)
  tw_deployed : gmap NamespacedName (list DeploymentObj);
  tw_clock : Z
}.

(** All requests, as the worlds of RuntimeWorld.v hold them *)
Definition whole (p : TWorld) : RWorld :=
  let w := tw_world p in
  mkRWorld (rw_cluster w) (rw_maps w) (rw_queue w ∪ dom (tw_due p)) (rw_busy w) (rw_info w)
    (rw_missed w).

Definition answered (w : RWorld) (req : NamespacedName) (env : RuntimeEnv) : Prop :=
  orderly (rw_cluster w) (rw_maps w) env req ∧
  ∀ cluster rt, found (rw_cluster w) req = Some (cluster, rt) →
    deployable (cl_cfg (rw_cluster w)) env req cluster rt.

Definition taken (w : RWorld) (req : NamespacedName) (queue : gset NamespacedName) : RWorld :=
  mkRWorld (rw_cluster w) (rw_maps w) queue (Some (req, rw_cluster w)) (rw_info w)
    (rw_missed w ∖ {[ Namespace req ]}).

(** A delayed request keeps the earliest of its times. *)
Definition later (req : NamespacedName) (d : Z) (due : gmap NamespacedName Z)
  : gmap NamespacedName Z :=
  <[req := Z.min d (default d (due !! req))]> due.

Inductive rwork_step : TWorld → TWorld → Prop :=
(* the worker takes a request that is ready *)
| rwork_take w due deps clock req now : req ∈ rw_queue w → rw_busy w = None → (clock ≤ now)%Z →
    rwork_step (mkTWorld w due deps clock)
      (mkTWorld (taken w req (rw_queue w ∖ {[ req ]})) due deps now)
(* ... or one whose time has come *)
| rwork_due w due deps clock req d now : due !! req = Some d → rw_busy w = None →
    (clock ≤ now)%Z → (d ≤ now)%Z →
    rwork_step (mkTWorld w due deps clock)
      (mkTWorld (taken w req (rw_queue w)) (delete req due) deps now)
(* ... and reconciles it; when that changed its Deployment, the event of the Deployment may
   make the request ready again (it does for an owner that is a ServingRuntime) *)
| rwork_reconcile w due deps clock req env cs info out maps' (event : bool) :
    rw_busy w = Some (req, rw_cluster w) → answered w req env → (clock ≤ re_now env)%Z →
    run (ReconcileRuntime Marshal dataPlane sortedList TrimSpace spare settings
           (cl_cfg (rw_cluster w)) env req (rw_info w)) = Ret (cs, (info, out)) →
    write_effects (re_WriteConfigMap env) cs (rw_maps w) maps' →
    (event = true → deployed_by cs (deps !! req) ≠ deps !! req) →
    rwork_step (mkTWorld w due deps clock)
      (mkTWorld (mkRWorld (rw_cluster w) maps'
                   (if event then {[ req ]} ∪ rw_queue w else rw_queue w) None info (rw_missed w))
         (if done_with out then due else later req (re_now env + RequeueAfter out.1) due)
         (partial_alter (deployed_by cs) req deps) (re_now env)).

Abbreviation grace w := (gracePeriodDuration (cl_cfg (rw_cluster w))).

(** The cluster in a state in which a request can be answered, whatever the config maps
    and the time *)
Definition can_answer (c : ClusterState) (req : NamespacedName) : Prop :=
  ∀ maps now, ∃ env, re_now env = now ∧ orderly c maps env req ∧
    ∀ cluster rt, found c req = Some (cluster, rt) → deployable (cl_cfg c) env req cluster rt.

(** The requests there are *)
Definition pending (p : TWorld) (req : NamespacedName) : Prop :=
  req ∈ rw_queue (tw_world p) ∨ is_Some (tw_due p !! req) ∨
  ∃ c, rw_busy (tw_world p) = Some (req, c).

(** The worker has read the present state, no time is in the future, and a request waits
    for the end of the grace period of its runtime. *)
Record timely (p : TWorld) : Prop := {
  ti_busy req c : rw_busy (tw_world p) = Some (req, c) → c = rw_cluster (tw_world p);
  ti_times r t : rw_info (tw_world p) !! r = Some (Some t) → (t ≤ tw_clock p)%Z;
  ti_zero : (zeroTime ≤ tw_clock p)%Z;
  ti_due r d : tw_due p !! r = Some d → scaling (rw_cluster (tw_world p)) r = true ∧
    ∃ t, rw_info (tw_world p) !! r = Some (Some t) ∧ d = (t + grace (tw_world p))%Z;
  ti_grace : (0 ≤ grace (tw_world p) < 2 ^ 62)%Z;
  ti_answers req : pending p req → can_answer (rw_cluster (tw_world p)) req
}.

Lemma transition_past p req now :
  timely p → (tw_clock p ≤ now)%Z → (transition now (rw_info (tw_world p)) req ≤ now)%Z.
Proof.
  intros Ht Hn. unfold transition. destruct (rw_info (tw_world p) !! req) as [[t|]|] eqn:E; simpl.
  - pose proof (ti_times p Ht _ _ E). lia.
  - lia.
  - pose proof (ti_zero p Ht). lia.
Qed.

(** A time within the grace period is counted without saturation. *)
Lemma Since_small now t g : (t ≤ now → g < 2 ^ 62 → Since now t < g → Since now t = now - t)%Z.
Proof. unfold Since. lia. Qed.

Lemma reconcile_outcome w req env cs info out :
  answered w req env →
  run (ReconcileRuntime Marshal dataPlane sortedList TrimSpace spare settings
         (cl_cfg (rw_cluster w)) env req (rw_info w)) = Ret (cs, (info, out)) →
  outcome_ok (rw_cluster w) (re_now env) req (rw_info w) cs (info, out).
Proof.
  intros [Ho Hd] Hrun.
  destruct (ReconcileRuntime_returns _ _ env req (rw_info w) Ho Hd []) as (tr & o & Hrun' & Hok).
  unfold run in Hrun. rewrite Hrun' in Hrun. cbn [app] in Hrun. injection Hrun as -> ->. done.
Qed.

(** A request that is delayed is due when the grace period ends. *)
Lemma delayed_until p req cs info out now :
  timely p → (tw_clock p ≤ now)%Z →
  outcome_ok (rw_cluster (tw_world p)) now req (rw_info (tw_world p)) cs (info, out) →
  done_with out = false →
  let t := transition now (rw_info (tw_world p)) req in
  scaling (rw_cluster (tw_world p)) req = true ∧
  info !! req = Some (Some t) ∧ (now + RequeueAfter out.1 = t + grace (tw_world p))%Z ∧
  ∀ d, tw_due p !! req = Some d → d = (t + grace (tw_world p))%Z.
Proof.
  intros Ht Hn Hok Hd t. pose proof (oo_done _ _ _ _ _ _ Hok) as Hw. cbn [fst snd] in Hw.
  rewrite Hd in Hw. symmetry in Hw. apply negb_false_iff in Hw.
  pose proof (oo_after _ _ _ _ _ _ Hok Hw) as Hr. cbn [fst snd] in Hr.
  unfold waits in Hw. apply andb_true_iff in Hw as [Hsc Hs%bool_decide_eq_true].
  pose proof (transition_past p req now Ht Hn) as Hpast.
  pose proof (Since_small _ _ _ Hpast (proj2 (ti_grace p Ht)) Hs) as Hsince.
  split_and!; [done|..].
  - exact (oo_time _ _ _ _ _ _ Hok Hsc).
  - rewrite Hr. unfold requeueAfter. cbn [RequeueAfter]. subst t. lia.
  - intros d (_ & t' & Hi & ->)%(ti_due p Ht). subst t. unfold transition. by rewrite Hi.
Qed.

Lemma timely_step p p' :
  timely p → rwork_step p p' →
  timely p' ∧ rw_cluster (tw_world p') = rw_cluster (tw_world p) ∧
  rw_missed (tw_world p') ⊆ rw_missed (tw_world p).
Proof.
  intros Ht. destruct 1 as [w due deps clock req now Hq Hb Hc|w due deps clock req d now Hd Hb Hc Hdn
    |w due deps clock req env cs info out maps' event Hb Ha Hc Hrun Heff Hev];
    (split; [|by split; [|cbn; set_solver]]).
  - destruct Ht as [_ Htimes Hz Hdue Hg Hans]. split; cbn in *; try done.
    + by intros ? ? [= <- <-].
    + intros r t Hr. specialize (Htimes r t Hr). lia.
    + lia.
    + intros r Hr. apply Hans. unfold pending in *. cbn in *.
      destruct Hr as [|[|(? & [= <- _])]]; [left; set_solver|by right; left|by left].
  - destruct Ht as [_ Htimes Hz Hdue Hg Hans]. split; cbn in *; try done.
    + by intros ? ? [= <- <-].
    + intros r t Hr. specialize (Htimes r t Hr). lia.
    + lia.
    + intros r d' [_ Hr]%lookup_delete_Some. by apply Hdue.
    + intros r Hr. apply Hans. unfold pending in *. cbn in *.
      destruct Hr as [|[[x [_ Hx]%lookup_delete_Some]|(? & [= <- _])]]; [by left|right; left..]; eauto.
  - pose proof (reconcile_outcome w req env cs info out Ha Hrun) as Hok.
    pose proof (delayed_until (mkTWorld w due deps clock) req cs info out (re_now env) Ht Hc Hok) as Hdel.
    destruct (oo_records _ _ _ _ _ _ Hok) as [Hothers Hown]. cbn [fst] in *.
    assert (∀ t, info !! req = Some (Some t) → (t ≤ re_now env)%Z) as Hnew.
    { intros t [Hi|[-> | ->]]%Hown; [pose proof (ti_times _ Ht _ _ Hi) as Hx; cbn in Hx; lia|lia|].
      pose proof (ti_zero _ Ht) as Hx. cbn in Hx. lia. }
    destruct Ht as [_ Htimes Hz Hdue Hg Hans]. cbn in *. split; cbn; try done; [|lia| |].
    + intros r t. destruct (decide (r = req)) as [->|Hne]; [by apply Hnew|].
      rewrite Hothers by done. intros Hi. specialize (Htimes _ _ Hi). lia.
    + intros r d. destruct (done_with out) eqn:Ed.
      * intros Hd. destruct (Hdue r d Hd) as (Hsc & t & Hi & ->). split; [done|].
        exists t. split; [|done].
        destruct (decide (r = req)) as [->|Hne]; [|by rewrite Hothers].
        pose proof (oo_time _ _ _ _ _ _ Hok Hsc) as Hti. cbn [fst] in Hti. rewrite Hti.
        unfold transition. by rewrite Hi.
      * destruct (Hdel eq_refl) as (Hsc & Hi & Hr & Hsame). unfold later.
        destruct (decide (r = req)) as [->|Hne].
        -- rewrite lookup_insert_eq. intros [= <-]. split; [done|]. eexists. split; [exact Hi|].
           destruct (due !! req) as [d|]; simpl; [rewrite (Hsame d eq_refl)|]; lia.
        -- rewrite lookup_insert_ne, Hothers by done. apply Hdue.
    + intros r Hr. apply Hans. unfold pending in *. cbn in *.
      destruct Hr as [Hr|[Hr|[? [=]]]].
      * destruct event; [|by left]. apply elem_of_union in Hr as [->%elem_of_singleton|]; [eauto|by left].
      * destruct (done_with out); [by right; left|]. unfold later in Hr.
        apply lookup_insert_is_Some in Hr as [<-|[_ Hr]]; eauto.
Qed.

Lemma taken_queue (A B : gset NamespacedName) req :
  A ∖ {[ req ]} ∪ B =
  list_to_set (if bool_decide (req ∈ B) then [req] else []) ∪ (A ∪ B) ∖ {[ req ]}.
Proof.
  apply set_eq. intros x. case_bool_decide; cbn [list_to_set];
    destruct (decide (x = req)); set_solver.
Qed.

Lemma rwork_requeued w w' reqs :
  w' = enqueueAll reqs w →
  rtc (rworld_step Marshal dataPlane sortedList TrimSpace spare settings) w w'.
Proof. intros ->. apply rtc_once, rstep_request. Qed.

(** A step of the work is made of steps of the world. *)
Lemma rwork_ok p p' :
  rworld_ok Marshal settings (whole p) → rwork_step p p' → rworld_ok Marshal settings (whole p').
Proof.
  intros Hok Hstep.
  assert (rtc (rworld_step Marshal dataPlane sortedList TrimSpace spare settings)
            (whole p) (whole p')) as Hrtc.
  2:{ eapply rtc_invariant; [by apply rworld_step_ok|exact Hrtc|done]. }
  destruct Hstep as [w due deps clock req now Hq Hb Hc|w due deps clock req d now Hd Hb Hc Hdn
    |w due deps clock req env cs info out maps' event Hb [Ho _] Hc Hrun Heff Hev].
  - eapply rtc_l; [apply (rstep_take _ _ _ _ _ _ _ req); [cbn; set_solver|done]|].
    apply (rwork_requeued _ _ (if bool_decide (req ∈ dom due) then [req] else [])).
    unfold whole, taken, enqueueAll. cbn. f_equal. apply taken_queue.
  - apply elem_of_dom_2 in Hd.
    eapply rtc_l; [apply (rstep_take _ _ _ _ _ _ _ req); [cbn; set_solver|done]|].
    apply (rwork_requeued _ _ (if bool_decide (req ∈ rw_queue w) then [req] else [])).
    unfold whole, taken, enqueueAll. cbn. f_equal. rewrite dom_delete_L.
    rewrite (comm_L (∪) _ (dom due ∖ _)), (comm_L (∪) _ (dom due)). apply taken_queue.
  - eapply rtc_l.
    { eapply (rstep_reconcile _ _ _ _ _ _ _ req _ env cs info out maps' false); try done.
      - by eapply orderly_reads.
      - by apply orderly_gets with (c := rw_cluster w). }
    apply (rwork_requeued _ _ (if event then [req] else [])).
    unfold whole, enqueueAll. cbn. f_equal. unfold later. destruct event, (done_with out);
      rewrite ?dom_insert_L; set_solver.
Qed.

(** *** How much work is left

    Of the requests there are, [D2] holds those that were not reconciled yet, [D1] those
    that run and wait for the end of their grace period, or whose grace period ended; for
    all others a reconciliation changes nothing. *)

(** The grace period is over, or there is none. *)
Definition over (p : TWorld) (req : NamespacedName) : Prop :=
  ∀ now, (tw_clock p ≤ now)%Z →
    waits (rw_cluster (tw_world p)) now (rw_info (tw_world p)) req = false.

Definition quiet (p : TWorld) (req : NamespacedName) : Prop :=
  over p req ∧
  final (rw_cluster (tw_world p)) req (tw_deployed p !! req) = tw_deployed p !! req.

Definition half (p : TWorld) (req : NamespacedName) : Prop :=
  tw_deployed p !! req = running (rw_cluster (tw_world p)) req ∧
  (is_Some (tw_due p !! req) ∨ over p req).

Definition tracked (D2 D1 : gset NamespacedName) (p : TWorld) : Prop :=
  ∀ req, pending p req → req ∈ D2 ∨ req ∈ D1 ∧ half p req ∨ quiet p req.

Definition rwork_left (D2 D1 : gset NamespacedName) (p : TWorld) : nat :=
  2 * size (rw_queue (tw_world p)) + 2 * size (dom (tw_due p)) +
  (if rw_busy (tw_world p) then 1 else 0) + 6 * size D2 + 2 * size D1.

(** A grace period that is over stays over. *)
Lemma waits_over c now now' info info' req :
  waits c now info req = false → (now ≤ now')%Z →
  (scaling c req = true → info' !! req = Some (Some (transition now info req))) →
  waits c now' info' req = false.
Proof.
  unfold waits. destruct (scaling c req); [|done]. cbn [andb].
  intros Hs%bool_decide_eq_false Hn Hi. apply bool_decide_eq_false.
  unfold transition at 1. rewrite Hi by done. cbn [default]. unfold Since in *. simpl. lia.
Qed.

Lemma over_later p p' req :
  over p req → (tw_clock p ≤ tw_clock p')%Z →
  rw_cluster (tw_world p') = rw_cluster (tw_world p) →
  rw_info (tw_world p') !! req = rw_info (tw_world p) !! req → over p' req.
Proof.
  intros Ho Hc Hcl Hi now Hn. specialize (Ho now ltac:(lia)). rewrite Hcl.
  unfold waits, transition in *. by rewrite Hi.
Qed.

(** A step that is not the reconciliation of the request *)
Lemma tracked_other p p' (D2 D1 : gset NamespacedName) req :
  req ∈ D2 ∨ req ∈ D1 ∧ half p req ∨ quiet p req → (tw_clock p ≤ tw_clock p')%Z →
  rw_cluster (tw_world p') = rw_cluster (tw_world p) →
  rw_info (tw_world p') !! req = rw_info (tw_world p) !! req →
  tw_deployed p' !! req = tw_deployed p !! req →
  (is_Some (tw_due p !! req) → is_Some (tw_due p' !! req) ∨ over p' req) →
  req ∈ D2 ∨ req ∈ D1 ∧ half p' req ∨ quiet p' req.
Proof.
  intros Htr Hc Hcl Hi Hd Hdue. unfold half, quiet in *. rewrite Hd, Hcl.
  destruct Htr as [|[(? & ? & [|])|[]]]; [by left|right; left..|right; right];
    (split_and!; try done); eauto using over_later.
Qed.

Lemma due_over w due deps clock req d now :
  timely (mkTWorld w due deps clock) → due !! req = Some d → (d ≤ now)%Z → (clock ≤ now)%Z →
  ∀ deps' due', over (mkTWorld (taken w req (rw_queue w)) due' deps' now) req.
Proof.
  intros Ht Hd Hdn Hc deps' due' now' Hn. cbn in *.
  destruct (ti_due _ Ht _ _ Hd) as (_ & t & Hi & ->). cbn in *.
  pose proof (ti_grace _ Ht) as Hg. cbn in Hg.
  unfold waits, transition. rewrite Hi. simpl. destruct (scaling _ _); [|done]. cbn [andb].
  apply bool_decide_eq_false. unfold Since. lia.
Qed.

Lemma reconciled_tracked D2 D1 w due deps clock req env cs info out maps' due' (event : bool) :
  let p := mkTWorld w due deps clock in
  let p' := mkTWorld (mkRWorld (rw_cluster w) maps'
                   (if event then {[ req ]} ∪ rw_queue w else rw_queue w) None info (rw_missed w))
         due' (partial_alter (deployed_by cs) req deps) (re_now env) in
  timely p → tracked D2 D1 p → rw_busy w = Some (req, rw_cluster w) → (clock ≤ re_now env)%Z →
  outcome_ok (rw_cluster w) (re_now env) req (rw_info w) cs (info, out) →
  (event = true → deployed_by cs (deps !! req) ≠ deps !! req) →
  due' = (if done_with out then due else later req (re_now env + RequeueAfter out.1) due) →
  ∃ D2' D1', tracked D2' D1' p' ∧ rwork_left D2' D1' p' < rwork_left D2 D1 p.
Proof.
  intros p p' Ht Htr Hb Hc [He [Hothers _] Htime Hdone Hafter Hdep] Hev Hdue'. cbn [fst snd] in *.
  (* the other requests *)
  assert (∀ D2' D1' r, r ≠ req → D2 ∖ {[ req ]} ⊆ D2' → D1 ∖ {[ req ]} ⊆ D1' → pending p' r →
    r ∈ D2' ∨ r ∈ D1' ∧ half p' r ∨ quiet p' r) as Hother.
  { intros D2' D1' r Hne Hd2 Hd1 Hr.
    assert (r ∈ D2 ∨ r ∈ D1 ∧ half p' r ∨ quiet p' r) as Hr'; [|set_solver].
    apply (tracked_other p); cbn; try done; [|by apply Hothers|by apply lookup_partial_alter_ne|].
    - apply Htr. unfold pending in *. cbn in *.
      destruct Hr as [Hr|[Hr|[? [=]]]]; [left; destruct event; set_solver|right; left].
      rewrite Hdue' in Hr. destruct (done_with out); [done|]. unfold later in Hr.
      by rewrite lookup_insert_ne in Hr.
    - intros Hs. left. rewrite Hdue'. destruct (done_with out); [done|]. unfold later.
      by rewrite lookup_insert_ne. }
  assert (tw_deployed p' !! req = deployed_by cs (deps !! req)) as Hdep'
    by (cbn; apply lookup_partial_alter_eq).
  assert (size (if event then {[ req ]} ∪ rw_queue w else rw_queue w) ≤
    (if event then 1 else 0) + size (rw_queue w)) as Hsq.
  { destruct event; [|lia]. size_unions. rewrite size_singleton in *. lia. }
  assert (size (D2 ∖ {[ req ]}) ≤ size D2 ∧ size (D1 ∖ {[ req ]}) ≤ size D1) as [Hs2 Hs1]
    by (split; apply subseteq_size; set_solver).
  destruct (waits (rw_cluster w) (re_now env) (rw_info w) req) eqn:Hw; cbn [negb] in Hdone.
  - (* the grace period goes on *)
    rewrite Hdone in Hdue'.
    assert (half p' req) as Hhalf.
    { split; [by rewrite Hdep', Hdep|]. left. cbn. rewrite Hdue'. unfold later. by rewrite lookup_insert_eq. }
    destruct (Htr req) as [Hd2|[[Hd1 [Hrun Hdue]]|[Hov _]]]; [by right; right; eexists|..].
    + exists (D2 ∖ {[ req ]}), ({[ req ]} ∪ D1). split.
      { intros r Hr. destruct (decide (r = req)) as [->|Hne]; [right; left; set_solver|].
        apply Hother; [done|set_solver..|done]. }
      unfold rwork_left. cbn. rewrite Hb, (size_delete_elem req D2), Hdue' by done. unfold later.
      rewrite dom_insert_L. size_unions. rewrite size_singleton in *. destruct event; lia.
    + exists D2, D1. split.
      { intros r Hr. destruct (decide (r = req)) as [->|Hne]; [by right; left|].
        apply Hother; [done|set_solver..|done]. }
      destruct Hdue as [Hdue|Hov]; [|by rewrite Hov in Hw].
      assert (event = false) as ->.
      { destruct event; [|done]. destruct (Hev eq_refl). cbn in Hrun. by rewrite Hdep, Hrun. }
      unfold rwork_left. cbn. rewrite Hb, Hdue'. unfold later. rewrite dom_insert_L.
      replace ({[ req ]} ∪ dom due) with (dom due); [lia|].
      cbn in Hdue. apply elem_of_dom in Hdue. set_solver.
    + by rewrite Hov in Hw.
  - (* the last reconciliation but for events *)
    rewrite Hdone in Hdue'.
    assert (quiet p' req) as Hquiet.
    { split; [|by rewrite Hdep', Hdep; apply final_idem]. intros now Hn. by eapply waits_over. }
    assert (tracked (D2 ∖ {[ req ]}) (D1 ∖ {[ req ]}) p') as Htr'.
    { intros r Hr. destruct (decide (r = req)) as [->|Hne]; [by right; right|]. by apply Hother. }
    exists (D2 ∖ {[ req ]}), (D1 ∖ {[ req ]}). split; [done|].
    unfold rwork_left. cbn. rewrite Hb, Hdue'.
    destruct (Htr req) as [Hd2|[[Hd1 _]|[_ Hfin]]]; [by right; right; eexists|..].
    + rewrite (size_delete_elem req D2) by done. destruct event; lia.
    + rewrite (size_delete_elem req D1) by done. destruct event; lia.
    + assert (event = false) as ->; [|lia].
      destruct event; [|done]. destruct (Hev eq_refl). cbn in Hfin. by rewrite Hdep.
Qed.

Lemma rwork_tracked D2 D1 p p' :
  timely p → tracked D2 D1 p → rwork_step p p' →
  ∃ D2' D1', tracked D2' D1' p' ∧ rwork_left D2' D1' p' < rwork_left D2 D1 p.
Proof.
  intros Ht Htr. destruct 1 as [w due deps clock req now Hq Hb Hc|w due deps clock req d now Hd Hb Hc Hdn
    |w due deps clock req env cs info out maps' event Hb Ha Hc Hrun Heff Hev].
  - exists D2, D1. split.
    + intros r Hr. apply (tracked_other (mkTWorld w due deps clock)); cbn; try done; [|by left].
      apply Htr. unfold pending in *. cbn in *.
      destruct Hr as [|[|(? & [= <- _])]]; [left; set_solver|by right; left|by left].
    + unfold rwork_left. cbn. rewrite Hb, (size_delete_elem req (rw_queue w)) by done. lia.
  - exists D2, D1. split.
    + intros r Hr. apply (tracked_other (mkTWorld w due deps clock)); cbn; try done.
      * apply Htr. unfold pending in *. cbn in *.
        destruct Hr as [|[[x [_ Hx]%lookup_delete_Some]|(? & [= <- _])]]; [by left|right; left..]; eauto.
      * intros Hs. destruct (decide (r = req)) as [->|Hne]; [right; by eapply due_over|].
        left. by rewrite lookup_delete_ne.
    + unfold rwork_left. cbn. rewrite Hb, dom_delete_L.
      rewrite (size_delete_elem req (dom due)) by by eapply elem_of_dom_2. lia.
  - pose proof (reconcile_outcome w req env cs info out Ha Hrun) as Hok.
    by eapply (reconciled_tracked D2 D1 w due deps clock req env cs info out maps' _ event).
Qed.

Lemma rwork_progress p :
  timely p → ridle (whole p) ∨ ∃ p', rwork_step p p'.
Proof.
  destruct p as [w due deps clock]. intros Ht. destruct (rw_busy w) as [[req c]|] eqn:Hb.
  - right. pose proof (ti_busy _ Ht _ _ Hb) as ->.
    destruct (ti_answers _ Ht req ltac:(right; right; eauto) (rw_maps w) clock) as (env & Hnow & Ho & Hd).
    destruct (ReconcileRuntime_returns _ _ env req (rw_info w) Ho Hd []) as (cs & [info out] & Hrun & _).
    eexists. eapply (rwork_reconcile w due deps clock req env cs info out _ false);
      [done|done|lia|exact Hrun| |done].
    apply applied_effects, (or_write _ _ _ _ Ho).
  - destruct (decide (rw_queue w = ∅)) as [Hq|[req Hq]%set_choose_L].
    + destruct (decide (dom due = ∅)) as [Hd|[req [d Hd]%elem_of_dom]%set_choose_L].
      * left. split; [|done]. cbn. rewrite Hq, Hd. set_solver.
      * right. eexists. by eapply (rwork_due w due deps clock req d (Z.max clock d)); [| |lia|lia].
    + right. eexists. by apply (rwork_take w due deps clock req clock).
Qed.

(** The start of the controller's work: no requests are known to wait, and the Deployments
    are any. *)
Definition untimed (w : RWorld) (deps : gmap NamespacedName (list DeploymentObj)) (clock : Z)
  : TWorld := mkTWorld w ∅ deps clock.

(** The requests at the start *)
Definition requested (w : RWorld) : gset NamespacedName :=
  rw_queue w ∪ match rw_busy w with Some (req, _) => {[ req ]} | None => ∅ end.

Lemma requested_tracked w deps clock : tracked (requested w) ∅ (untimed w deps clock).
Proof.
  intros r Hr. left. unfold pending, requested in *. cbn in *. rewrite lookup_empty in Hr.
  destruct Hr as [|[[]|[c ->]]]; [set_solver|done|set_solver].
Qed.

Lemma rwork_left_start w deps clock :
  rwork_left (requested w) ∅ (untimed w deps clock) ≤
  8 * size (rw_queue w) + (if rw_busy w then 7 else 0).
Proof.
  unfold rwork_left, requested. cbn. rewrite dom_empty_L. size_unions.
  destruct (rw_busy w) as [[]|]; rewrite ?size_singleton, ?size_empty in *; lia.
Qed.

Lemma rwork_ends k p p' D2 D1 :
  nsteps rwork_step k p p' → timely p → tracked D2 D1 p → rworld_ok Marshal settings (whole p) →
  k ≤ rwork_left D2 D1 p ∧ rw_cluster (tw_world p') = rw_cluster (tw_world p) ∧
  rw_missed (tw_world p') ⊆ rw_missed (tw_world p) ∧
  ((∃ p'', rwork_step p' p'') ∨
   (ridle (whole p') ∧ ∀ ns, ns ∉ rw_missed (whole p') →
      constraints_current Marshal settings (whole p') ns)).
Proof.
  intros Hwork. revert D2 D1. induction Hwork as [p|k p p1 p' Hstep _ IH]; intros D2 D1 Ht Htr Hok.
  - split_and!; [lia|done|done|]. destruct (rwork_progress p Ht) as [Hi|]; [right|by left].
    split; [done|]. intros ns. by apply ridle_current.
  - destruct (timely_step p p1 Ht Hstep) as (Ht1 & Hc & Hm).
    destruct (rwork_tracked D2 D1 p p1 Ht Htr Hstep) as (D2' & D1' & Htr1 & Hlt).
    destruct (IH D2' D1' Ht1 Htr1) as (Hk & Hst & Hm' & Hend); [by eapply rwork_ok|].
    split_and!; [lia|congruence|by etrans|done].
Qed.

End Progress.

(** ** A run *)

#[local] Existing Instances protocolNamesImpl kserveImpl kserveConstantsImpl etcdLibsImpl jsonMapImpl.

Lemma worldEnv_orderly maps now :
  orderly worldSettings worldCluster maps (worldEnv maps now) (mkNN "ns" "rt").
Proof.
  split; try reflexivity; try (by eexists); try (by intros ? ? [=]).
  by eexists _, _.
Qed.

(** What the run applies for a number of replicas *)
Definition worldApplied (replicas : Z) : list DeploymentObj :=
  match newMMDeployment worldSettings exMerged (worldEnv ∅ 0) (mkNN "ns" "rt") worldRuntime [] with
  | Ret m => match run (applyDeployment elements id 0 (worldEnv ∅ 0) m worldRuntime replicas) with
             | Ret ([OnManifest (ApplyResources rs)], _) => rs
             | _ => []
             end
  | Panic => []
  end.
Definition worldManifests (req : NamespacedName) (replicas : Z) : list DeploymentObj :=
  worldApplied replicas.
Definition unscaled (req : NamespacedName) (replicas : Z) : Z := replicas.

(** A goal about a computation with one call, evaluated *)
Ltac returned := intros tr; eexists [_], _; split; [vm_compute; reflexivity|].

Lemma worldEnv_deployable maps now :
  deployable elements id 0 worldSettings (λ _, false) worldManifests unscaled exMerged
    (worldEnv maps now) (mkNN "ns" "rt") true worldRuntime.
Proof.
  split; [vm_compute; reflexivity|vm_compute; reflexivity| |].
  - intros name ns dep replicas. eexists. split; [vm_compute; reflexivity|].
    unfold replicasAndHPA. intros tr. unfold mbind, io_bind, lift, deref. cbn [as_Class].
    rewrite orb_true_r. eexists [], _. split; [vm_compute; reflexivity|reflexivity].
  - eexists [], _. split_and!; [vm_compute; reflexivity|vm_compute; reflexivity| |].
    + intros replicas. returned. split; [vm_compute; reflexivity|reflexivity].
    + returned. eauto.
Qed.

Lemma world0_timely :
  timely elements id 0 worldSettings (λ _, false) worldManifests unscaled (untimed world0 ∅ 0).
Proof.
  split; cbn [untimed tw_world tw_due tw_clock world0 rw_busy rw_info rw_cluster];
    try (by intros ? ? [=]); try (intros ? ?; rewrite lookup_empty; by intros [=]).
  - vm_compute. discriminate.
  - vm_compute. split; [discriminate|reflexivity].
  - intros req Hreq maps now. unfold pending in Hreq. cbn in Hreq. rewrite lookup_empty in Hreq.
    destruct Hreq as [->%elem_of_singleton|[[]|[c [=]]]]; [|done]. exists (worldEnv maps now).
    split; [reflexivity|]. split; [apply worldEnv_orderly|].
    intros cluster rt Hf. vm_compute in Hf. injection Hf as <- <-. apply worldEnv_deployable.
Qed.

Abbreviation world_work :=
  (rwork_step (λ _, "constraints") "dataplane" elements id 0 worldSettings (λ _, false)
     worldManifests unscaled).

(** The request was taken *)
Definition world1 : TWorld := mkTWorld (taken world0 (mkNN "ns" "rt") ∅) ∅ ∅ (5 * Second).

(** ... and reconciled: the Deployment is new, its event makes the request ready again *)
Definition world2 : TWorld :=
  match worldRun ∅ (5 * Second) ∅ with
  | Ret (cs, (info, out)) =>
      mkTWorld (mkRWorld worldCluster (applied cs ∅) {[ mkNN "ns" "rt" ]} None info ∅)
        (later (mkNN "ns" "rt") (5 * Second + RequeueAfter out.1) ∅)
        (partial_alter (deployed_by cs) (mkNN "ns" "rt") ∅) (5 * Second)
  | Panic => world1
  end.

Lemma rwork_step_eq p p1 p2 : world_work p p1 → p1 = p2 → world_work p p2.
Proof. by intros ? <-. Qed.

Lemma world2_work : nsteps world_work 2 (untimed world0 ∅ 0) world2.
Proof.
  eapply nsteps_l; [|eapply nsteps_l; [|constructor]].
  - eapply rwork_step_eq; [apply (rwork_take _ _ _ _ _ _ _ _ _ world0 ∅ ∅ 0 (mkNN "ns" "rt") (5 * Second));
      [set_solver|reflexivity|vm_compute; discriminate]|].
    assert (taken world0 (mkNN "ns" "rt") (rw_queue world0 ∖ {[ mkNN "ns" "rt" ]}) =
            taken world0 (mkNN "ns" "rt") ∅) as -> by (vm_compute; reflexivity).
    reflexivity.
  - assert (match worldRun ∅ (5 * Second) ∅ with
            | Ret (cs, (_, out)) => negb (done_with out) && bool_decide (is_Some (deployed_by cs None))
            | Panic => false
            end = true) as Hv by (vm_compute; reflexivity).
    unfold world2. destruct (worldRun ∅ (5 * Second) ∅) as [[cs [info out]]|] eqn:E; [|discriminate Hv].
    apply andb_true_iff in Hv as [Hd%negb_true_iff Hs%bool_decide_eq_true].
    eapply rwork_step_eq.
    + eapply (rwork_reconcile _ _ _ _ _ _ _ _ _ _ ∅ ∅ (5 * Second) (mkNN "ns" "rt")
        (worldEnv ∅ (5 * Second)) cs info out (applied cs ∅) true).
      * reflexivity.
      * split; [apply worldEnv_orderly|]. intros cluster rt Hf. vm_compute in Hf.
        injection Hf as <- <-. apply worldEnv_deployable.
      * done.
      * exact E.
      * by apply applied_effects.
      * intros _. rewrite lookup_empty. by destruct Hs as [x ->].
    + rewrite Hd. reflexivity.
Qed.

