(* ===== verification/FVT.v ===== *)
(** * The acceptance tests' waiting and checking (fvt/helpers.go, fvt/utils.go)

    The functions by which the functional verification tests decide whether the
    controllers did their work: they follow the events of a watch until a Predictor, an
    InferenceService or the deployments have reached a state, and compare status
    fields. A failed expectation ends the test and is a panic here; a wait that is
    still going on has no result yet ([None]). What the select statement of a wait
    picks, one time after another, is an argument: the theorems hold for every
    schedule of events and timers. *)

From S2P Require Import Prelude GoStrings Types Overlay.
From S2P Require Import PredictorController PredictorControllerProps.

(** ** Unstructured objects *)

(** The value at a path through nested maps *)
Fixpoint field (o : json) (path : list string) : option json :=
  match path with
  | [] => Some o
  | k :: rest => match o with JMap m => v ← getKey k m; field v rest | _ => None end
  end.

(** The accessors of the API machinery: value, whether it exists, and an error for a
    value of another type. *)
Class Unstructured := {
  NestedString : json → list string → string * bool * option error;
  NestedBool : json → list string → bool * bool * option error;
  NestedInt64 : json → list string → Z * bool * option error;
  NestedMap : json → list string → option (list (string * json)) * bool * option error;
  NestedSlice : json → list string → list json * bool * option error;
  NestedString_found o path s :
    field o path = Some (JString s) → NestedString o path = (s, true, None);
  NestedBool_found o path b :
    field o path = Some (JBool b) → NestedBool o path = (b, true, None);
  NestedInt64_found o path n :
    field o path = Some (JNumber n) → NestedInt64 o path = (n, true, None);
  NestedMap_found o path m :
    field o path = Some (JMap m) → NestedMap o path = (Some m, true, None);
  (* the last step of the path is missing *)
  NestedMap_absent o path k m :
    field o path = Some (JMap m) → getKey k m = None →
    NestedMap o (path ++ [k]) = (None, false, None)
}.

(** An implementation *)
Definition unstructuredImpl : Unstructured.
Proof.
  refine {|
    NestedString := λ o path,
      match field o path with
      | Some (JString s) => (s, true, None)
      | Some _ => ("", false, Some (ErrMsg "type")) | None => ("", false, None)
      end;
    NestedBool := λ o path,
      match field o path with
      | Some (JBool b) => (b, true, None)
      | Some _ => (false, false, Some (ErrMsg "type")) | None => (false, false, None)
      end;
    NestedInt64 := λ o path,
      match field o path with
      | Some (JNumber n) => (n, true, None)
      | Some _ => (0%Z, false, Some (ErrMsg "type")) | None => (0%Z, false, None)
      end;
    NestedMap := λ o path,
      match field o path with
      | Some (JMap m) => (Some m, true, None)
      | Some _ => (None, false, Some (ErrMsg "type")) | None => (None, false, None)
      end;
    NestedSlice := λ o path,
      match field o path with
      | Some (JSlice l) => (l, true, None)
      | Some _ => ([], false, Some (ErrMsg "type")) | None => ([], false, None)
      end
  |}.
  - by intros o path s ->.
  - by intros o path b ->.
  - by intros o path n ->.
  - by intros o path m ->.
  - intros o path k m Hp Hk.
    assert (field o (path ++ [k]) = None) as ->; [|done].
    revert o Hp. induction path as [|k' path IH]; intros o Hp; simpl in *.
    + injection Hp as ->. by rewrite Hk.
    + destruct o as [| | | | |m']; try done. destruct (getKey k' m'); simpl in *; [by apply IH|done].
Defined.

Section FVT.
Context `{!Unstructured}.

(** An expectation that does not hold fails the test. *)
Definition Expect (b : bool) : exec () := if b then Ret tt else Panic.

Definition GetInt64 (obj : json) (fieldPath : list string) : exec Z :=
  let '(value, _, err) := NestedInt64 obj fieldPath in
  _ ← Expect (bool_decide (err = None)); Ret value.

Definition GetString (obj : json) (fieldPath : list string) : exec string :=
  let '(value, exists_, err) := NestedString obj fieldPath in
  _ ← Expect exists_; _ ← Expect (bool_decide (err = None)); Ret value.

Definition CheckIfStringExists (obj : json) (fieldPath : list string) : exec bool :=
  let '(_, exists_, err) := NestedString obj fieldPath in
  _ ← Expect (bool_decide (err = None)); Ret exists_.

Definition GetSlice (obj : json) (fieldPath : list string) : exec (list json * bool) :=
  let '(value, exists_, err) := NestedSlice obj fieldPath in
  _ ← Expect (bool_decide (err = None)); Ret (value, exists_).

Definition GetMap (obj : json) (fieldPath : list string) : exec (option (list (string * json))) :=
  let '(value, _, err) := NestedMap obj fieldPath in
  _ ← Expect (bool_decide (err = None)); Ret value.

Definition GetBool (obj : json) (fieldPath : list string) : exec bool :=
  let '(value, exists_, err) := NestedBool obj fieldPath in
  _ ← Expect exists_; _ ← Expect (bool_decide (err = None)); Ret value.

(** ** Expectations on a status *)

(** The states after which a failure is still shown *)
Definition failureAllowed (activeModelState targetModelState transitionStatus : string) : bool :=
  negb (bool_decide (transitionStatus ≠ "BlockedByFailedLoad") &&
        bool_decide (transitionStatus ≠ "InvalidSpec") &&
        bool_decide (activeModelState ≠ "FailedToLoad") &&
        bool_decide (targetModelState ≠ "FailedToLoad")).

Definition ExpectPredictorState (obj : json) (available : bool)
    (activeModelState targetModelState transitionStatus : string) : exec () :=
  actualActiveModelState ← GetString obj ["status"; "activeModelState"];
  _ ← Expect (bool_decide (actualActiveModelState = activeModelState));
  actualAvailable ← GetBool obj ["status"; "available"];
  _ ← Expect (bool_decide (actualAvailable = available));
  actualTargetModel ← GetString obj ["status"; "targetModelState"];
  _ ← Expect (bool_decide (actualTargetModel = targetModelState));
  actualTransitionStatus ← GetString obj ["status"; "transitionStatus"];
  _ ← Expect (bool_decide (actualTransitionStatus = transitionStatus));
  if failureAllowed activeModelState targetModelState transitionStatus then Ret tt
  else
    actualFailureInfo ← GetMap obj ["status"; "lastFailureInfo"];
    Expect (match actualFailureInfo with None => true | Some _ => false end).

Definition ExpectIsvcState (obj : json)
    (activeModelState targetModelState transitionStatus : string) : exec () :=
  actualActiveModelState ← GetString obj ["status"; "modelStatus"; "states"; "activeModelState"];
  _ ← Expect (bool_decide (actualActiveModelState = activeModelState));
  actualTargetModel ← GetString obj ["status"; "modelStatus"; "states"; "targetModelState"];
  _ ← Expect (bool_decide (actualTargetModel = targetModelState));
  actualTransitionStatus ← GetString obj ["status"; "modelStatus"; "transitionStatus"];
  _ ← Expect (bool_decide (actualTransitionStatus = transitionStatus));
  if failureAllowed activeModelState targetModelState transitionStatus then Ret tt
  else
    actualFailureInfo ← GetMap obj ["status"; "modelStatus"; "lastFailureInfo"];
    Expect (match actualFailureInfo with None => true | Some _ => false end).

(** BeEmpty holds of an empty string, list or map; of any other value it is an error,
    so that its negation fails too. *)
Definition notEmpty (v : option json) : bool :=
  match v with
  | Some (JString s) => bool_decide (s ≠ "")
  | Some (JSlice l) => match l with [] => false | _ => true end
  | Some (JMap m) => match m with [] => false | _ => true end
  | _ => false
  end.

(** BeNil, of a missing key or a nil value *)
Definition isNil (v : option json) : bool :=
  match v with None | Some JNull => true | _ => false end.

(** The expectations on a failure info that both functions below share. [now] is the
    clock and [ParseRFC3339] reads a time. *)
Definition expectFailure (ParseRFC3339 : string → result error Z) (now : Z)
    (actualFailureInfo : option (list (string * json))) (reason : string)
    (hasLocation hasTime : bool) (message : string) : exec () :=
  m ← deref actualFailureInfo;
  _ ← Expect (match getKey "reason" m with
              | Some (JString r) => bool_decide (r = reason)
              | _ => false
              end);
  _ ← Expect (if hasLocation then notEmpty (getKey "location" m) else isNil (getKey "location" m));
  _ ← Expect (if bool_decide (message ≠ "")
              then match getKey "message" m with
                   | Some (JString s) => Contains s message
                   | _ => false
                   end
              else notEmpty (getKey "message" m));
  if negb hasTime then Expect (isNil (getKey "time" m))
  else
    _ ← Expect (negb (isNil (getKey "time" m)));
    match getKey "time" m with
    | Some (JString t) =>
        match ParseRFC3339 t with
        | Err _ => Panic
        | Ok actualTime => Expect (bool_decide (now - actualTime < 60 * Second)%Z)
        end
    | _ => Panic
    end.

Definition ExpectPredictorFailureInfo (ParseRFC3339 : string → result error Z) (now : Z)
    (obj : json) (reason : string) (hasLocation hasTime : bool) (message : string) : exec () :=
  actualFailureInfo ← GetMap obj ["status"; "lastFailureInfo"];
  expectFailure ParseRFC3339 now actualFailureInfo reason hasLocation hasTime message.

Definition ExpectIsvcFailureInfo (ParseRFC3339 : string → result error Z) (now : Z)
    (obj : json) (reason : string) (hasLocation hasTime : bool) (message : string) : exec () :=
  actualFailureInfo ← GetMap obj ["status"; "modelStatus"; "lastFailureInfo"];
  expectFailure ParseRFC3339 now actualFailureInfo reason hasLocation hasTime message.

(** ** Waiting *)

(** What the select of a wait picks: the timer, the closed channel of the watch, or an
    event, whose object has the expected type or not. *)
Inductive selected :=
| TimerFired
| WatchClosed
| WatchEvent (object : option json).

(** The values that are logged with an event; reading them may fail the test. *)
Definition logPredictorStatus (obj : json) : exec (list json) :=
  name ← GetString obj ["metadata"; "name"];
  available ← GetBool obj ["status"; "available"];
  active ← GetString obj ["status"; "activeModelState"];
  target ← GetString obj ["status"; "targetModelState"];
  transition ← GetString obj ["status"; "transitionStatus"];
  failure ← GetMap obj ["status"; "lastFailureInfo"];
  Ret [JString "name"; JString name; JString "status.available"; JBool available;
       JString "status.activeModelState"; JString active;
       JString "status.targetModelState"; JString target;
       JString "status.transitionStatus"; JString transition;
       JString "status.lastFailureInfo";
       match failure with Some m => JMap m | None => JNull end].

(** The position of the first occurrence of a state in the remaining list *)
Fixpoint findState (state : string) (states : list string) : option nat :=
  match states with
  | [] => None
  | s :: rest => if bool_decide (s = state) then Some 0 else S <$> findState state rest
  end.

Record WaitState := mkWaitState {
  wt_obj : option json;
  wt_lastState : string;
  wt_lastStateIndex : nat
}.

(** An event of a Predictor that is expected to pass through the states: whether the
    target state is reached *)
Definition stateEvent (statusAttribute : string) (expectedStates : list string)
    (targetState : string) (object : option json) (w : WaitState) : exec (bool * WaitState) :=
  obj ← deref object;
  _ ← logPredictorStatus obj;
  lastState ← GetString obj ["status"; statusAttribute];
  _ ← GetString obj ["metadata"; "name"];
  if bool_decide (lastState = targetState)
  then Ret (true, mkWaitState (Some obj) lastState (wt_lastStateIndex w))
  else
    i ← deref (findState lastState (drop (wt_lastStateIndex w) expectedStates));
    Ret (false, mkWaitState (Some obj) lastState (wt_lastStateIndex w + i)).

(** The loop: whether the target was reached, and the last object *)
Fixpoint waitStates (statusAttribute : string) (expectedStates : list string)
    (targetState : string) (sel : list selected) (w : WaitState)
  : exec (option (bool * option json)) :=
  match sel with
  | [] => Ret None
  | TimerFired :: _ => Ret (Some (bool_decide (wt_lastState w = targetState), wt_obj w))
  | WatchClosed :: _ => Ret (Some (false, wt_obj w))
  | WatchEvent object :: rest =>
      '(reached, w) ← stateEvent statusAttribute expectedStates targetState object w;
      if reached : bool then Ret (Some (true, wt_obj w))
      else waitStates statusAttribute expectedStates targetState rest w
  end.

Definition WaitForLastStateInExpectedList (statusAttribute : string)
    (expectedStates : list string) (sel : list selected) : exec (option (option json)) :=
  targetState ← deref (last expectedStates);
  r ← waitStates statusAttribute expectedStates targetState sel (mkWaitState None "UNSEEN" 0);
  match r with
  | None => Ret None
  | Some (targetStateReached, obj) => _ ← Expect targetStateReached; Ret (Some obj)
  end.

(** An event of an InferenceService: whether a desired state is reached *)
Definition isvcEvent (anyOfDesiredStates : list string) (object : option json)
  : exec (bool * json) :=
  obj ← deref object;
  _ ← GetString obj ["metadata"; "name"];
  '(_, exists_) ← GetSlice obj ["status"; "conditions"];
  if negb exists_ then Ret (false, obj)
  else
    activeModelState ← GetString obj ["status"; "modelStatus"; "states"; "activeModelState"];
    Ret (bool_decide (activeModelState ∈ anyOfDesiredStates), obj).

Fixpoint waitIsvc (anyOfDesiredStates : list string) (sel : list selected)
    (obj : option json) : exec (option (bool * option json)) :=
  match sel with
  | [] => Ret None
  | TimerFired :: _ | WatchClosed :: _ => Ret (Some (false, obj))
  | WatchEvent object :: rest =>
      '(reached, o) ← isvcEvent anyOfDesiredStates object;
      if reached : bool then Ret (Some (true, Some o))
      else waitIsvc anyOfDesiredStates rest (Some o)
  end.

Definition WaitForIsvcState (anyOfDesiredStates : list string) (sel : list selected)
  : exec (option (option json)) :=
  r ← waitIsvc anyOfDesiredStates sel None;
  match r with
  | None => Ret None
  | Some (reachedDesiredState, obj) => _ ← Expect reachedDesiredState; Ret (Some obj)
  end.

(** *** Deployments *)

Definition TimeForStatusToStabilize : Z := 10 * Second.

Record DeployWait := mkDeployWait {
  dw_ready : gmap string bool;
  dw_allReady : bool;
  dw_timeout : Z
}.

Definition deployEvent (timeToStabilize : Z) (object : option json) (w : DeployWait)
  : exec DeployWait :=
  obj ← deref object;
  replicas ← GetInt64 obj ["status"; "replicas"];
  availableReplicas ← GetInt64 obj ["status"; "availableReplicas"];
  updatedReplicas ← GetInt64 obj ["status"; "updatedReplicas"];
  deployName ← GetString obj ["metadata"; "name"];
  if bool_decide (updatedReplicas = replicas) && bool_decide (availableReplicas = updatedReplicas)
  then
    let deploymentReady := <[deployName := true]> (dw_ready w) in
    let allReady := forallb (λ kv, kv.2) (map_to_list deploymentReady) in
    Ret (mkDeployWait deploymentReady allReady
           (if allReady then TimeForStatusToStabilize else dw_timeout w))
  else Ret (mkDeployWait (<[deployName := false]> (dw_ready w)) (dw_allReady w) timeToStabilize).

Fixpoint waitDeploys (timeToStabilize : Z) (sel : list selected) (w : DeployWait)
  : exec (option DeployWait) :=
  match sel with
  | [] => Ret None
  | TimerFired :: _ | WatchClosed :: _ => Ret (Some w)
  | WatchEvent object :: rest =>
      w ← deployEvent timeToStabilize object w;
      waitDeploys timeToStabilize rest w
  end.

(** [deploys] are the names of the deployments that ListDeploys returned. *)
Definition WaitForRuntimeDeploymentsToBeStable (timeToStabilize : Z) (deploys : list string)
    (sel : list selected) : exec (option DeployWait) :=
  let deploymentReady := foldl (λ m d, <[d := false]> m) ∅ deploys in
  r ← waitDeploys timeToStabilize sel (mkDeployWait deploymentReady false timeToStabilize);
  match r with
  | None => Ret None
  | Some w => _ ← Expect (dw_allReady w); Ret (Some w)
  end.

(** ** The tests' steps

    [created] is the answer of the API server to a create or apply request, and a nil
    object fails the test. *)

Definition GetKind (obj : json) : string :=
  let '(kind, _, _) := NestedString obj ["kind"] in kind.

Definition CreatePredictorExpectSuccess (created : result error (option json)) : exec json :=
  match created with
  | Err _ => Panic
  | Ok o => obj ← deref o; _ ← Expect (bool_decide (GetKind obj = "Predictor")); Ret obj
  end.

Definition ApplyPredictorExpectSuccess (applied : result error (option json)) : exec json :=
  match applied with
  | Err _ => Panic
  | Ok o => obj ← deref o; _ ← Expect (bool_decide (GetKind obj = "Predictor")); Ret obj
  end.

Definition CreateIsvcExpectSuccess (created : result error (option json)) : exec json :=
  match created with
  | Err _ => Panic
  | Ok o => obj ← deref o; _ ← Expect (bool_decide (GetKind obj = "InferenceService")); Ret obj
  end.

(** A wait, and an expectation on the object it returns *)
Definition waitAndExpect (wait : exec (option (option json))) (expect : json → exec ())
  : exec (option json) :=
  r ← wait;
  match r with
  | None => Ret None
  | Some o => obj ← deref o; _ ← expect obj; Ret (Some obj)
  end.

Definition CreatePredictorAndWaitAndExpectLoaded (created : result error (option json))
    (sel : list selected) : exec (option json) :=
  createdPredictor ← CreatePredictorExpectSuccess created;
  _ ← ExpectPredictorState createdPredictor false "Pending" "" "UpToDate";
  waitAndExpect
    (WaitForLastStateInExpectedList "activeModelState"
       ["Pending"; "Loading"; "Standby"; "FailedToLoad"; "Loading"; "Loaded"] sel)
    (λ obj, ExpectPredictorState obj true "Loaded" "" "UpToDate").

Definition CreatePredictorAndWaitAndExpectFailed (created : result error (option json))
    (sel : list selected) : exec (option json) :=
  createdPredictor ← CreatePredictorExpectSuccess created;
  _ ← ExpectPredictorState createdPredictor false "Pending" "" "UpToDate";
  waitAndExpect
    (WaitForLastStateInExpectedList "activeModelState"
       ["Pending"; "Loading"; "Standby"; "Loading"; "FailedToLoad"] sel)
    (λ obj, ExpectPredictorState obj false "FailedToLoad" "" "UpToDate").

Definition CreatePredictorAndWaitAndExpectInvalidSpec (created : result error (option json))
    (sel : list selected) : exec (option json) :=
  createdPredictor ← CreatePredictorExpectSuccess created;
  _ ← ExpectPredictorState createdPredictor false "Pending" "" "UpToDate";
  waitAndExpect
    (WaitForLastStateInExpectedList "transitionStatus" ["UpToDate"; "InvalidSpec"] sel)
    (λ _, Ret tt).

(** [sel1] and [sel2] are what the selects of the two waits pick, one after the other,
    from the same watch. *)
Definition UpdatePredictorAndWaitAndExpectLoaded (applied : result error (option json))
    (sel1 sel2 : list selected) : exec (option json) :=
  _ ← ApplyPredictorExpectSuccess applied;
  loading ← waitAndExpect
    (WaitForLastStateInExpectedList "targetModelState" [""; "Loading"] sel1)
    (λ obj, ExpectPredictorState obj true "Loaded" "Loading" "InProgress");
  match loading with
  | None => Ret None
  | Some _ =>
      waitAndExpect
        (WaitForLastStateInExpectedList "targetModelState" ["Loading"; "Loaded"; ""] sel2)
        (λ obj, ExpectPredictorState obj true "Loaded" "" "UpToDate")
  end.

Definition UpdatePredictorAndWaitAndExpectFailed (applied : result error (option json))
    (sel1 sel2 : list selected) : exec (option json) :=
  _ ← ApplyPredictorExpectSuccess applied;
  loading ← waitAndExpect
    (WaitForLastStateInExpectedList "targetModelState" [""; "Loading"] sel1)
    (λ obj, ExpectPredictorState obj true "Loaded" "Loading" "InProgress");
  match loading with
  | None => Ret None
  | Some _ =>
      waitAndExpect
        (WaitForLastStateInExpectedList "targetModelState" [""; "Loading"; "FailedToLoad"] sel2)
        (λ obj, ExpectPredictorState obj true "Loaded" "FailedToLoad" "BlockedByFailedLoad")
  end.

Definition CreateIsvcAndWaitAndExpectReady (created : result error (option json))
    (sel : list selected) : exec (option (option json)) :=
  _ ← CreateIsvcExpectSuccess created;
  WaitForIsvcState ["Standby"; "Loaded"] sel.

Definition CreateIsvcAndWaitAndExpectFailed (created : result error (option json))
    (sel : list selected) : exec (option (option json)) :=
  _ ← CreateIsvcExpectSuccess created;
  WaitForIsvcState ["FailedToLoad"] sel.

(** ** The order of the states

    The states seen so far can be found in the list of expected states, one after the
    other without going back; one that is seen again may stay where it is. *)
Inductive in_order (expected : list string) : nat → list string → Prop :=
| in_order_nil i : in_order expected i []
| in_order_cons i j s states : i ≤ j → expected !! j = Some s →
    in_order expected j states → in_order expected i (s :: states).

Lemma in_order_le expected i i' states :
  i ≤ i' → in_order expected i' states → in_order expected i states.
Proof. intros Hi. destruct 1; econstructor; [|eassumption..]. lia. Qed.

Lemma findState_Some s states k :
  findState s states = Some k →
  states !! k = Some s ∧ ∀ j, states !! j = Some s → k ≤ j.
Proof.
  revert k. induction states as [|x states IH]; intros k; [done|]. simpl.
  case_bool_decide as E; [intros [= <-]; subst; split; [done|intros; lia]|].
  intros (k' & Hk' & ->)%fmap_Some. destruct (IH _ Hk') as [Hs Hmin]. split; [done|].
  intros [|j] Hj; simpl in Hj; [congruence|]. apply Hmin in Hj. lia.
Qed.

Lemma findState_None s states j : findState s states = None → states !! j ≠ Some s.
Proof.
  revert j. induction states as [|x states IH]; intros j; [done|]. simpl.
  case_bool_decide as E; [done|]. intros Hn%fmap_None. destruct j as [|j]; simpl; [congruence|].
  by apply IH.
Qed.

(** Taking the first occurrence loses nothing. *)
Lemma in_order_first expected i s states :
  in_order expected i (s :: states) ↔
  ∃ k, findState s (drop i expected) = Some k ∧ in_order expected (i + k) states.
Proof.
  split.
  - inversion 1 as [|? j ? ? Hij Hj Hrest]; subst.
    destruct (findState s (drop i expected)) as [k|] eqn:E.
    + exists k. split; [done|]. eapply in_order_le, Hrest.
      apply findState_Some in E as [_ Hmin]. specialize (Hmin (j - i)).
      rewrite lookup_drop, Nat.add_sub_assoc, Nat.add_sub_swap, Nat.sub_diag in Hmin by lia.
      specialize (Hmin Hj). lia.
    + exfalso. eapply (findState_None s (drop i expected) (j - i)); [done|].
      rewrite lookup_drop. replace (i + (j - i)) with j by lia. done.
  - intros (k & [E _]%findState_Some & Hrest). rewrite lookup_drop in E.
    econstructor; [|exact E|done]. lia.
Qed.

(** The object can be logged and shows the state. *)
Definition shows (statusAttribute : string) (obj : json) (state : string) : Prop :=
  (∃ l, logPredictorStatus obj = Ret l) ∧ GetString obj ["status"; statusAttribute] = Ret state.

Lemma stateEvent_eq attr expected target obj state w :
  shows attr obj state →
  stateEvent attr expected target (Some obj) w =
    if bool_decide (state = target)
    then Ret (true, mkWaitState (Some obj) state (wt_lastStateIndex w))
    else match findState state (drop (wt_lastStateIndex w) expected) with
         | Some i => Ret (false, mkWaitState (Some obj) state (wt_lastStateIndex w + i))
         | None => Panic
         end.
Proof.
  intros [[l Hl] Hs]. unfold stateEvent, mbind, exec_bind. cbn [deref]. rewrite Hl, Hs.
  assert (∃ n, GetString obj ["metadata"; "name"] = Ret n) as [n Hn].
  { unfold logPredictorStatus, mbind, exec_bind in Hl. destruct (GetString obj ["metadata"; "name"]); [eauto|done]. }
  rewrite Hn. case_bool_decide; [done|]. by destruct (findState _ _).
Qed.

Lemma waitStates_ends attr expected target objs states obj rest w :
  Forall2 (shows attr) objs states → target ∉ states → shows attr obj target →
  (in_order expected (wt_lastStateIndex w) states →
     waitStates attr expected target (map (WatchEvent ∘ Some) objs ++ WatchEvent (Some obj) :: rest) w
       = Ret (Some (true, Some obj))) ∧
  (¬ in_order expected (wt_lastStateIndex w) states →
     waitStates attr expected target (map (WatchEvent ∘ Some) objs ++ WatchEvent (Some obj) :: rest) w
       = Panic).
Proof.
  intros Hall Hno Hobj. revert w.
  induction Hall as [|o s objs states Ho Hall IH]; intros w; cbn [map app waitStates compose];
    unfold mbind, exec_bind.
  - rewrite (stateEvent_eq _ _ _ _ _ _ Hobj), bool_decide_true by done.
    split; [done|]. intros Hn. destruct Hn. constructor.
  - rewrite (stateEvent_eq _ _ _ _ _ _ Ho), bool_decide_false by set_solver.
    setoid_rewrite in_order_first.
    destruct (findState s _) as [k|] eqn:E.
    + destruct (IH ltac:(set_solver) (mkWaitState (Some o) s (wt_lastStateIndex w + k)))
        as [Hyes Hbad]. cbn [wt_lastStateIndex] in *.
      split; [intros (k' & [= <-] & Hr); by apply Hyes|].
      intros Hn. apply Hbad. intros Hr. apply Hn. by exists k.
    + split; [by intros (k & [=] & _)|done].
Qed.

(** The wait for a Predictor accepts exactly the histories that keep to the list: when
    the watch shows some states other than the last expected one, and then that one, the
    test goes on with the object that shows it if the states before it occur in the list
    in that order, and fails otherwise. *)
Theorem wait_accepts_iff attr expected target objs states obj rest :
  last expected = Some target →
  Forall2 (shows attr) objs states → target ∉ states → shows attr obj target →
  let run := WaitForLastStateInExpectedList attr expected
               (map (WatchEvent ∘ Some) objs ++ WatchEvent (Some obj) :: rest) in
  (in_order expected 0 states → run = Ret (Some (Some obj))) ∧
  (¬ in_order expected 0 states → run = Panic).
Proof.
  intros Hl Hall Hno Hobj run. unfold run, WaitForLastStateInExpectedList. rewrite Hl.
  destruct (waitStates_ends attr expected target objs states obj rest
    (mkWaitState None "UNSEEN" 0) Hall Hno Hobj) as [Hyes Hbad].
  unfold mbind, exec_bind. cbn [deref wt_lastStateIndex] in *.
  split; intros Ho; [by rewrite Hyes|by rewrite Hbad].
Qed.

(** ** The deployments *)

(** The object shows the deployment [r.1] as ready or not. *)
Definition deployShows (obj : json) (r : string * bool) : Prop :=
  ∃ replicas available updated,
    GetInt64 obj ["status"; "replicas"] = Ret replicas ∧
    GetInt64 obj ["status"; "availableReplicas"] = Ret available ∧
    GetInt64 obj ["status"; "updatedReplicas"] = Ret updated ∧
    GetString obj ["metadata"; "name"] = Ret r.1 ∧
    r.2 = bool_decide (updated = replicas) && bool_decide (available = updated).

Definition observe (m : gmap string bool) (r : string * bool) : gmap string bool :=
  <[r.1 := r.2]> m.

Definition allTrue (m : gmap string bool) : Prop := map_Forall (λ _ b, b = true) m.

Lemma allTrue_forallb m : forallb (λ kv, kv.2) (map_to_list m) = bool_decide (allTrue m).
Proof.
  apply eq_true_iff_eq. rewrite forallb_forall, bool_decide_eq_true. unfold allTrue.
  rewrite map_Forall_to_list, Forall_forall. split.
  - intros Hf [k b] Hin. apply (Hf (k, b)). by apply list_elem_of_In.
  - intros Hf [k b] Hin. apply (Hf (k, b)). by apply list_elem_of_In.
Qed.

Lemma deployEvent_eq ttl obj r w :
  deployShows obj r →
  ∃ t, deployEvent ttl (Some obj) w =
    Ret (mkDeployWait (observe (dw_ready w) r)
           (if r.2 then bool_decide (allTrue (observe (dw_ready w) r)) else dw_allReady w) t).
Proof.
  intros (replicas & available & updated & H1 & H2 & H3 & H4 & H5).
  unfold deployEvent, mbind, exec_bind. cbn [deref]. rewrite H1, H2, H3, H4, <- H5.
  unfold observe. destruct (r.2); [|by eexists]. rewrite allTrue_forallb. by eexists.
Qed.

(** At the last event that showed a ready deployment, all deployments were ready. *)
Definition wasReady (m : gmap string bool) (rs : list (string * bool)) : Prop :=
  ∃ rs1 d rs2, rs = rs1 ++ (d, true) :: rs2 ∧ Forall (λ r, r.2 = false) rs2 ∧
    allTrue (foldl observe m (rs1 ++ [(d, true)])).

Lemma wasReady_cons m r rs :
  wasReady m (r :: rs) ↔
  wasReady (observe m r) rs ∨
  (r.2 = true ∧ Forall (λ r, r.2 = false) rs ∧ allTrue (observe m r)).
Proof.
  split.
  - intros ([|r' rs1] & d & rs2 & E & Hf & Ha); simpl in E; injection E as -> ->.
    + by right.
    + left. by exists rs1, d, rs2.
  - intros [(rs1 & d & rs2 & -> & Hf & Ha)|(Hr & Hf & Ha)].
    + by exists (r :: rs1), d, rs2.
    + destruct r as [d b]; simpl in Hr; subst. by exists [], d, rs.
Qed.

Lemma waitDeploys_eq ttl objs rs fin rest w :
  Forall2 deployShows objs rs → fin = TimerFired ∨ fin = WatchClosed →
  ∃ w', waitDeploys ttl (map (WatchEvent ∘ Some) objs ++ fin :: rest) w = Ret (Some w') ∧
    dw_ready w' = foldl observe (dw_ready w) rs ∧
    (dw_allReady w' = true ↔
       wasReady (dw_ready w) rs ∨ (dw_allReady w = true ∧ Forall (λ r, r.2 = false) rs)).
Proof.
  intros Hall Hfin. revert w.
  induction Hall as [|o r objs rs Ho Hall IH]; intros w; cbn [map app waitDeploys compose foldl].
  - exists w. split_and!; [by destruct Hfin as [->| ->]|done|].
    split; [by right|]. intros [([|] & d & rs2 & ? & _)|[? _]]; done.
  - destruct (deployEvent_eq ttl o r w Ho) as [t Hev]. unfold mbind, exec_bind. rewrite Hev.
    set (w1 := mkDeployWait _ _ _). destruct (IH w1) as (w' & Hw' & Hr' & Ha'). exists w'.
    split_and!; [done|done|]. rewrite Ha', wasReady_cons. cbn [w1 dw_ready dw_allReady].
    rewrite Forall_cons. destruct (r.2).
    + rewrite bool_decide_eq_true. naive_solver.
    + naive_solver.
Qed.

(** The wait for the deployments passes exactly when, at the last event that showed a
    ready deployment before the wait ended, every deployment was ready; nothing is asked
    of the events after it. *)
Theorem deploy_wait_iff ttl deploys objs rs fin rest :
  Forall2 deployShows objs rs → fin = TimerFired ∨ fin = WatchClosed →
  let m := foldl (λ m d, <[d := false]> m) ∅ deploys in
  let run := WaitForRuntimeDeploymentsToBeStable ttl deploys
               (map (WatchEvent ∘ Some) objs ++ fin :: rest) in
  (wasReady m rs → ∃ w, run = Ret (Some w) ∧ dw_ready w = foldl observe m rs) ∧
  (¬ wasReady m rs → run = Panic).
Proof.
  intros Hall Hfin m run. unfold run, WaitForRuntimeDeploymentsToBeStable. cbn zeta. fold m.
  destruct (waitDeploys_eq ttl objs rs fin rest (mkDeployWait m false ttl) Hall Hfin)
    as (w & Hw & Hr & Ha). unfold mbind, exec_bind. rewrite Hw. cbn [dw_ready dw_allReady] in *.
  split; intros Hready.
  - rewrite (proj2 Ha) by by left. by exists w.
  - destruct (dw_allReady w); [|done]. by destruct (proj1 Ha eq_refl) as [|[? _]].
Qed.

(** ** InferenceServices *)

(** The wait for an InferenceService ends with an object that has conditions and is in
    one of the desired states. *)
Lemma wait_isvc_sound desired sel obj :
  WaitForIsvcState desired sel = Ret (Some obj) →
  ∃ o s, obj = Some o ∧
    GetString o ["status"; "modelStatus"; "states"; "activeModelState"] = Ret s ∧ s ∈ desired.
Proof.
  unfold WaitForIsvcState, mbind, exec_bind.
  destruct (waitIsvc desired sel None) as [[[b o]|]|] eqn:E; [|done..].
  destruct b; [|done]. intros [= ->]. revert E. generalize (@None json) as acc.
  induction sel as [|[| |object] sel IH]; intros acc; cbn [waitIsvc]; [done..|].
  unfold mbind, exec_bind, isvcEvent, mbind, exec_bind.
  destruct object as [o|]; [|done]. cbn [deref].
  destruct (GetString o ["metadata"; "name"]); [|done].
  destruct (GetSlice o _) as [[l ex]|]; [|done]. destruct ex; [|apply IH]. cbn [negb].
  destruct (GetString o ["status"; _; _; _]) as [s|] eqn:Es; [|done].
  case_bool_decide; [|apply IH]. intros [= <-]. by exists o, s.
Qed.
End FVT.
