(* ===== verification/FVTAcceptance.v ===== *)
(** * What the acceptance tests expect and what the controller writes

    The status of a Predictor as the JSON object the tests read (the json tags of
    predictor_types.go), and the end of a successful test: a Predictor whose model
    model-mesh has loaded is left by the reconciliation in the state the test waits for
    and checks. A run shows a deployment test that passes although a deployment is not
    ready. *)

From S2P Require Import Prelude Types Registry ModelTypes Overlay.
From S2P Require Import PredictorController PredictorControllerProps Connections MeshProgress FVT.

(** ** Statuses as JSON *)

Definition ModelState_string (s : ModelState) : string :=
  match s with
  | NoModelState => "" | Pending => "Pending" | Standby => "Standby" | Loading => "Loading"
  | Loaded => "Loaded" | FailedToLoad => "FailedToLoad"
  end.

Definition TransitionStatus_string (s : TransitionStatus) : string :=
  match s with
  | NoTransitionStatus => "" | UpToDate => "UpToDate" | InProgress => "InProgress"
  | BlockedByFailedLoad => "BlockedByFailedLoad" | InvalidSpec => "InvalidSpec"
  end.

Definition FailureReason_string (r : FailureReason) : string :=
  match r with
  | NoFailureReason => "" | ModelLoadFailed => "ModelLoadFailed"
  | RuntimeUnhealthy => "RuntimeUnhealthy" | NoSupportingRuntime => "NoSupportingRuntime"
  | RuntimeNotRecognized => "RuntimeNotRecognized"
  | InvalidPredictorSpec => "InvalidPredictorSpec"
  end.

(** A string field with omitempty *)
Definition omitempty (k v : string) : list (string * json) :=
  if bool_decide (v = "") then [] else [(k, JString v)].

Section Acceptance.
Context `{!ProtocolNames, !PredictorLibs, !Unstructured}.

(** The text of a time *)
Variable formatTime : Z → string.

Definition failureInfoJSON (f : FailureInfo) : json :=
  JMap (omitempty "location" (fi_Location f) ++
        omitempty "reason" (FailureReason_string (fi_Reason f)) ++
        omitempty "message" (fi_Message f) ++ omitempty "modelId" (fi_ModelId f) ++
        match fi_Time f with Some t => [("time", JString (formatTime t))] | None => [] end).

Definition statusJSON (s : PredictorStatus) : json :=
  JMap ([("available", JBool (Available s));
         ("transitionStatus", JString (TransitionStatus_string (st_TransitionStatus s)));
         ("activeModelState", JString (ModelState_string (ActiveModelState s)));
         ("targetModelState", JString (ModelState_string (TargetModelState s)))] ++
        match LastFailureInfo s with
        | Some f => [("lastFailureInfo", failureInfoJSON f)]
        | None => []
        end ++
        [("httpEndpoint", JString (HTTPEndpoint s)); ("grpcEndpoint", JString (GrpcEndpoint s));
         ("totalCopies", JNumber (TotalCopies s)); ("failedCopies", JNumber (FailedCopies s))]).

(** The object, as far as the tests read it *)
Definition predictorJSON (p : Predictor) : json :=
  JMap [("kind", JString "Predictor");
        ("metadata", JMap [("name", JString (om_Name (p_Meta p)));
                           ("namespace", JString (om_Namespace (p_Meta p)))]);
        ("status", statusJSON (p_Status p))].

(** ** Reading it back *)

Lemma GetString_found o path s : field o path = Some (JString s) → GetString o path = Ret s.
Proof. intros E. unfold GetString. by rewrite (NestedString_found _ _ _ E). Qed.

Lemma GetBool_found o path b : field o path = Some (JBool b) → GetBool o path = Ret b.
Proof. intros E. unfold GetBool. by rewrite (NestedBool_found _ _ _ E). Qed.

Lemma predictorJSON_fields p :
  GetString (predictorJSON p) ["metadata"; "name"] = Ret (om_Name (p_Meta p)) ∧
  GetString (predictorJSON p) ["status"; "activeModelState"]
    = Ret (ModelState_string (ActiveModelState (p_Status p))) ∧
  GetString (predictorJSON p) ["status"; "targetModelState"]
    = Ret (ModelState_string (TargetModelState (p_Status p))) ∧
  GetString (predictorJSON p) ["status"; "transitionStatus"]
    = Ret (TransitionStatus_string (st_TransitionStatus (p_Status p))) ∧
  GetBool (predictorJSON p) ["status"; "available"] = Ret (Available (p_Status p)) ∧
  (LastFailureInfo (p_Status p) = None →
   GetMap (predictorJSON p) ["status"; "lastFailureInfo"] = Ret None).
Proof.
  split_and!; [apply GetString_found; reflexivity..|apply GetBool_found; reflexivity|].
  intros Hf. unfold GetMap.
  rewrite (NestedMap_absent (predictorJSON p) ["status"] "lastFailureInfo" _ eq_refl); [done|].
  unfold statusJSON. by rewrite Hf.
Qed.

Lemma predictorJSON_failure p :
  ∃ m, GetMap (predictorJSON p) ["status"; "lastFailureInfo"] = Ret m.
Proof.
  destruct (LastFailureInfo (p_Status p)) as [f|] eqn:Hf.
  - unfold GetMap. erewrite (NestedMap_found (predictorJSON p) ["status"; "lastFailureInfo"]);
      [by eexists|]. unfold predictorJSON, statusJSON. rewrite Hf. reflexivity.
  - eexists. by apply predictorJSON_fields.
Qed.

(** A Predictor's object can be logged and shows its active model state. *)
Lemma predictorJSON_shows p :
  shows "activeModelState" (predictorJSON p) (ModelState_string (ActiveModelState (p_Status p))).
Proof.
  destruct (predictorJSON_fields p) as (Hn & Ha & Ht & Hs & Hb & _).
  destruct (predictorJSON_failure p) as [m Hm]. split; [|done].
  unfold logPredictorStatus, mbind, exec_bind. rewrite Hn, Hb, Ha, Ht, Hs, Hm. by eexists.
Qed.

Lemma ExpectPredictorState_ok p available active target transition :
  Available (p_Status p) = available → ModelState_string (ActiveModelState (p_Status p)) = active →
  ModelState_string (TargetModelState (p_Status p)) = target →
  TransitionStatus_string (st_TransitionStatus (p_Status p)) = transition →
  LastFailureInfo (p_Status p) = None →
  ExpectPredictorState (predictorJSON p) available active target transition = Ret tt.
Proof.
  intros <- <- <- <- Hf. destruct (predictorJSON_fields p) as (_ & Ha & Ht & Hs & Hb & Hm).
  unfold ExpectPredictorState, mbind, exec_bind.
  rewrite Ha, bool_decide_true by done. cbn [Expect].
  rewrite Hb, bool_decide_true by done. cbn [Expect].
  rewrite Ht, bool_decide_true by done. cbn [Expect].
  rewrite Hs, bool_decide_true by done. cbn [Expect].
  destruct (failureAllowed _ _ _); [done|]. by rewrite Hm.
Qed.

(** ** The status that is written *)

(** The status of a Predictor whose model was not loaded before and is now *)
Lemma loaded_status env mmc n sourceId reg p tr out rq v :
  env_MMClient env = Some mmc → reg_Get reg n = Ret (Ok (Some p)) → runtime_ref_ok p →
  ActiveModelState (p_Status p) ≠ Loaded →
  run (ReconcilePredictor env n sourceId reg) = Ret (tr, out) →
  CallSetVModel rq ∈ tr → SetVModel mmc rq = Ok v → loaded v →
  final_status p tr = newStatus (env_now env) (env_endpoints env) v true (p_Status p).
Proof.
  intros Hc Hg Href Hne Hrun Hin Hv Hl.
  destruct (reconcile_run env n sourceId reg p Hg Href)
    as (calls & upd & s & have & res & err & Hr & Hcalls & [Hu _ _] & _ & e & Hm).
  rewrite Hr in Hrun. injection Hrun as <- <-.
  assert (CallSetVModel rq ∈ calls) as Hin'.
  { apply elem_of_app in Hin as [Hin|Hin]; [done|]. destruct upd; set_solver. }
  destruct (reconcileModel_registered env p sourceId (reg_GetSourceName reg) _ rq v Hc Hv _ _ _ Hm)
    as (cs & Hcs & Hs). cbn [app] in Hcs. subst cs.
  pose proof (Hs Hin') as Hst. cbn [fst snd] in Hst. subst s.
  destruct upd.
  - unfold final_status. by rewrite last_snoc.
  - apply (f_equal ActiveModelState) in Hu; [|done]. unfold set_Available in Hu.
    cbn [ActiveModelState] in Hu. exfalso. apply Hne. rewrite <- Hu.
    by apply newStatus_loaded.
Qed.

Lemma newStatus_served now eps v st :
  loaded v → vs_Status v = VMS_DEFINED →
  let s := newStatus now eps v true st in
  Available s = true ∧ TargetModelState s = NoModelState ∧ st_TransitionStatus s = UpToDate.
Proof.
  intros Hl Hd s. destruct (newStatus_loaded now eps v st Hl) as [Ha Hf].
  destruct Hl as [Hid _].
  unfold s, newStatus in *. cbn [ActiveModelState LastFailureInfo] in Ha, Hf.
  cbn [Available TargetModelState st_TransitionStatus]. split_and!.
  - rewrite Ha, Hf. unfold WaitingForRuntime. by rewrite setStatusFailureInfo_lfi.
  - unfold targetStateOf. by rewrite bool_decide_true.
  - unfold transitionOf. by rewrite Hd.
Qed.

(** C22: The acceptance test of a new Predictor passes when model-mesh loads its model: the API
    server returned the Predictor with its default status, the watch shows its states
    in an order the test allows, and at last the object that the reconciliation leaves
    behind after model-mesh accepted the registration and reported the model as loaded. *)
Theorem loading_test_passes env mmc n sourceId reg p tr out rq v seen rest created :
  env_MMClient env = Some mmc → reg_Get reg n = Ret (Ok (Some p)) → runtime_ref_ok p →
  ActiveModelState (p_Status p) ≠ Loaded →
  run (ReconcilePredictor env n sourceId reg) = Ret (tr, out) →
  CallSetVModel rq ∈ tr → SetVModel mmc rq = Ok v → loaded v → vs_Status v = VMS_DEFINED →
  p_Status created = defaultStatus →
  let states := map (λ q, ModelState_string (ActiveModelState (p_Status q))) seen in
  let obj := predictorJSON (set_Status (final_status p tr) p) in
  "Loaded" ∉ states →
  in_order ["Pending"; "Loading"; "Standby"; "FailedToLoad"; "Loading"; "Loaded"] 0 states →
  CreatePredictorAndWaitAndExpectLoaded (Ok (Some (predictorJSON created)))
    (map (WatchEvent ∘ Some) (map predictorJSON seen) ++ WatchEvent (Some obj) :: rest)
  = Ret (Some obj).
Proof.
  intros Hc Hg Href Hne Hrun Hin Hv Hl Hd Hcr states obj Hno Hord.
  pose proof (loaded_status env mmc n sourceId reg p tr out rq v Hc Hg Href Hne Hrun Hin Hv Hl) as Hfs.
  destruct (newStatus_loaded (env_now env) (env_endpoints env) v (p_Status p) Hl) as [Hact Hlf].
  unfold CreatePredictorAndWaitAndExpectLoaded, CreatePredictorExpectSuccess, mbind, exec_bind.
  cbn [deref]. unfold GetKind. rewrite (NestedString_found _ _ "Predictor") by done.
  rewrite bool_decide_true by done. cbn [Expect].
  rewrite (ExpectPredictorState_ok created) by by rewrite Hcr.
  unfold waitAndExpect, mbind, exec_bind.
  assert (shows "activeModelState" obj "Loaded") as Hobj.
  { pose proof (predictorJSON_shows (set_Status (final_status p tr) p)) as Hs.
    cbn [p_Status set_Status] in Hs. rewrite <- Hfs in Hact. by rewrite Hact in Hs. }
  assert (Forall2 (shows "activeModelState") (map predictorJSON seen) states) as Hall.
  { apply Forall2_fmap_l, Forall2_fmap_r, Forall_Forall2_diag, Forall_true. intros q.
    apply predictorJSON_shows. }
  destruct (wait_accepts_iff "activeModelState"
    ["Pending"; "Loading"; "Standby"; "FailedToLoad"; "Loading"; "Loaded"] "Loaded"
    (map predictorJSON seen) states obj rest eq_refl Hall Hno Hobj) as [Hyes _].
  rewrite Hyes by done.
  cbn [deref]. destruct (newStatus_served (env_now env) (env_endpoints env) v (p_Status p) Hl Hd)
    as (Hav & Htg & Htr). unfold obj.
  by rewrite ExpectPredictorState_ok by (cbn [p_Status set_Status]; rewrite Hfs;
    rewrite ?Hact, ?Hav, ?Htg, ?Htr, ?Hlf; done).
Qed.
End Acceptance.

(** ** Runs *)

#[local] Existing Instance predictorLibsImpl.
#[local] Existing Instance protocolNamesImpl.
#[local] Existing Instance unstructuredImpl.

Definition fvtEnv : Env := mkEnvR (Some exLoadedClient) (Some ("grpc://mm", "http://mm")) 1000.
Definition fvtPredictor : Predictor := exPredictor1 None defaultStatus.
Definition fvtLoading : Predictor :=
  set_Status (set_ActiveModelState Loading defaultStatus) fvtPredictor.
Definition fvtRun : list PredictorCall * (CtrlResult * option error) :=
  Eval vm_compute in
    match run (ReconcilePredictor fvtEnv (mkNN "ns" "p") "ksp"
                 (exRegistry (Ok (Some fvtPredictor)))) with
    | Ret r => r
    | Panic => ([], (emptyResult, None))
    end.
Definition fvtRequest : SetVModelRequest :=
  match fvtRun.1 with
  | CallSetVModel rq :: _ => rq
  | _ => mkSetVModel "" "" "" false false "" "" ""
  end.
Definition fvtObject : json :=
  predictorJSON (λ _, "") (set_Status (final_status fvtPredictor fvtRun.1) fvtPredictor).

(** The watch shows the Predictor as pending, loading, and loaded. *)
Lemma loading_test_passes_witness :
  CreatePredictorAndWaitAndExpectLoaded (Ok (Some (predictorJSON (λ _, "") fvtPredictor)))
    (map (WatchEvent ∘ Some) (map (predictorJSON (λ _, "")) [fvtPredictor; fvtLoading])
       ++ [WatchEvent (Some fvtObject)])
  = Ret (Some fvtObject).
Proof.
  apply (loading_test_passes (λ _, "") fvtEnv exLoadedClient (mkNN "ns" "p") "ksp"
           (exRegistry (Ok (Some fvtPredictor))) fvtPredictor fvtRun.1 fvtRun.2 fvtRequest
           (mkVStatus VMS_DEFINED "m1" "m1" (Some (mkStatusInfo MS_LOADED [] [])) None)
           [fvtPredictor; fvtLoading] [] fvtPredictor).
  - reflexivity.
  - reflexivity.
  - exact I.
  - discriminate.
  - vm_compute. reflexivity.
  - apply list_elem_of_here.
  - reflexivity.
  - split; [reflexivity|eexists; split; reflexivity].
  - reflexivity.
  - reflexivity.
  - cbn. set_solver.
  - cbn. apply (in_order_cons _ 0 0); [lia|reflexivity|].
    apply (in_order_cons _ 0 1); [lia|reflexivity|constructor].
Defined.

(** A deployment with [available] of its two replicas available *)
Definition deployJSON (name : string) (available : Z) : json :=
  JMap [("metadata", JMap [("name", JString name)]);
        ("status", JMap [("replicas", JNumber 2); ("availableReplicas", JNumber available);
                         ("updatedReplicas", JNumber 2)])].

(** The wait for the deployments does not notice that a deployment becomes unready again:
    the flag of all being ready is only set anew by a ready deployment. *)
Theorem unready_deployment_passes :
  ∃ w, WaitForRuntimeDeploymentsToBeStable (60 * Second) ["mm-a"]
         [WatchEvent (Some (deployJSON "mm-a" 2)); WatchEvent (Some (deployJSON "mm-a" 0));
          TimerFired] = Ret (Some w) ∧
       dw_ready w !! "mm-a" = Some false.
Proof. eexists. split; vm_compute; reflexivity. Qed.
