(* ===== verification/FVTSession.v ===== *)
(** * The acceptance tests' connection to model-mesh (fvt/fvtclient.go)

    The tests reach model-mesh through two [kubectl port-forward] processes and the gRPC
    and HTTP clients that dial their local ports. [World] holds the test client, the port
    forwards in memory (the client's fields and the goroutine that waits for a process
    share them), the processes that run and the gRPC connections that are open. A test
    that fails keeps the client for the next one, so an operation returns the state with
    its outcome. What the cluster, the operating system and the random numbers answer is
    the argument [Answers]. *)

From S2P Require Import Prelude GoStrings Types FVT.

Abbreviation pfloc := nat.
Abbreviation pid := nat.
Abbreviation conn := nat.

Inductive ModelServingConnectionType := Insecure | TLS | MutualTLS.

#[export] Instance connectionType_eq : EqDecision ModelServingConnectionType.
Proof. solve_decision. Defined.

(** The command that runs, its arguments, whether the channel [done] was made and is
    closed, and the pod *)
Record ModelMeshPortForward := mkPortForward {
  pf_cmd : option pid;
  pf_cmdArgs : list string;
  pf_done : option bool;
  pf_podName : string
}.

(** The public and the private key that [createTLSConfig] reads *)
Record CertGenerator := mkCertGenerator {
  cg_Namespaces : list string;
  cg_ServiceName : string;
  cg_CAPEM : option string;
  cg_PublicKeyPEM : option string;
  cg_PrivateKeyPEM : option string
}.

Record FVTClient := mkFVTClient {
  fc_namespace : string;
  fc_serviceName : string;
  fc_controllerNamespace : string;
  fc_grpcPort : Z;
  fc_grpcPortForward : option pfloc;
  fc_grpcConn : option conn;
  fc_restPort : Z;
  fc_restPortForward : option pfloc;
  (** the HTTP client, by the TLS configuration of its transport *)
  fc_restConn : option ModelServingConnectionType;
  fc_certGenerator : CertGenerator
}.

Record World := mkSession {
  ws_client : FVTClient;
  ws_heap : gmap pfloc ModelMeshPortForward;
  (** the processes that run, each with the port forward whose goroutine waits for it *)
  ws_running : gmap pid pfloc;
  ws_open : gset conn;
  (** the next unused location, process and connection *)
  ws_next : nat
}.

(** A pod as far as it is read: its name and its conditions (type and status) *)
Record Pod := mkPod { pod_Name : string; pod_Conditions : list (string * string) }.

Record Answers := mkAnswers {
  (** whether the pod can be read *)
  an_PodExists : string → bool;
  (** the running pods of the runtimes and the random number, for each of the two choices *)
  an_grpcPods : result error (list Pod);
  an_grpcIntn : nat → nat;
  an_restPods : result error (list Pod);
  an_restIntn : nat → nat;
  (** whether a process still runs after two seconds, and whether it can be killed *)
  an_Survives : pid → bool;
  an_Kill : pid → bool;
  (** the gRPC dial: an error, or the connection is made *)
  an_Dial : string → ModelServingConnectionType → option error;
  (** whether the key pair is valid *)
  an_X509KeyPair : option string → option string → bool
}.

(** ** State and failure *)

Definition sess (A : Type) : Type := World → World * exec A.

#[export] Instance sess_ret : MRet sess := λ A a w, (w, Ret a).
#[export] Instance sess_bind : MBind sess := λ A B f m w,
  let '(w', r) := m w in match r with Ret a => f a w' | Panic => (w', Panic) end.

Definition get_client : sess FVTClient := λ w, (w, Ret (ws_client w)).
Definition check {A} (e : exec A) : sess A := λ w, (w, e).

Definition with_client (f : FVTClient → FVTClient) : sess () := λ w,
  (mkSession (f (ws_client w)) (ws_heap w) (ws_running w) (ws_open w) (ws_next w), Ret tt).

Definition set_grpc (p : option pfloc) (c : option conn) (f : FVTClient) : FVTClient :=
  mkFVTClient (fc_namespace f) (fc_serviceName f) (fc_controllerNamespace f) (fc_grpcPort f) p c
    (fc_restPort f) (fc_restPortForward f) (fc_restConn f) (fc_certGenerator f).

Definition set_rest (p : option pfloc) (c : option ModelServingConnectionType) (f : FVTClient)
  : FVTClient :=
  mkFVTClient (fc_namespace f) (fc_serviceName f) (fc_controllerNamespace f) (fc_grpcPort f)
    (fc_grpcPortForward f) (fc_grpcConn f) (fc_restPort f) p c (fc_certGenerator f).

(** ** Port forwards *)

Definition load_pf (l : pfloc) : sess ModelMeshPortForward := λ w, (w, deref (ws_heap w !! l)).

Definition set_pf_state (cmd : option pid) (don : option bool) (pf : ModelMeshPortForward)
  : ModelMeshPortForward := mkPortForward cmd (pf_cmdArgs pf) don (pf_podName pf).

(** A process exits: the goroutine that waits for it resets the command and closes the
    channel. *)
Definition exited (p : pid) (w : World) : World :=
  match ws_running w !! p with
  | Some l => mkSession (ws_client w) (alter (set_pf_state None (Some true)) l (ws_heap w))
                (delete p (ws_running w)) (ws_open w) (ws_next w)
  | None => w
  end.

(** The process is started with its goroutine. *)
Definition started_process (l : pfloc) (w : World) : World :=
  mkSession (ws_client w) (alter (set_pf_state (Some (ws_next w)) (Some false)) l (ws_heap w))
    (<[ws_next w := l]> (ws_running w)) (ws_open w) (S (ws_next w)).

(** The select: the process exits first, or two seconds pass. *)
Definition startProcess (an : Answers) (l : pfloc) : sess (option error) := λ w,
  let p := ws_next w in
  let w := started_process l w in
  if an_Survives an p then (w, Ret None)
  else (exited p w, Ret (Some (ErrMsg
    "Expected the port-forward process to still be running but it is not."))).

Definition EnsureStarted (an : Answers) (l : pfloc) : sess (option error) :=
  pf ← load_pf l;
  match pf_cmd pf with
  | Some _ => mret (M := sess) None
  | None => startProcess an l
  end.

(** Without a kill there is no waiting for the exit. *)
Definition killProcess (an : Answers) (p : pid) : sess () := λ w,
  (if an_Kill an p then exited p w else w, Ret tt).

Definition EnsureStopped (an : Answers) (l : pfloc) : sess () :=
  pf ← load_pf l;
  match pf_cmd pf with
  | None => mret (M := sess) tt
  | Some p => killProcess an p
  end.

Definition portForwardArgs (namespace podName : string) (localPort targetPort : Z) : list string :=
  ["port-forward"; "-n"; namespace; "--address"; "0.0.0.0"; "pod/" +:+ podName;
   Itoa localPort +:+ ":" +:+ Itoa targetPort].

Definition NewModelMeshPortForward (namespace podName : string) (localPort targetPort : Z)
  : sess pfloc := λ w,
  let l := ws_next w in
  (mkSession (ws_client w)
     (<[l := mkPortForward None (portForwardArgs namespace podName localPort targetPort) None podName]>
        (ws_heap w))
     (ws_running w) (ws_open w) (S l), Ret l).

(** ** The pod to connect to *)

(** A pod is listed once for each condition that says it is ready. *)
Definition readyPods (pods : list Pod) : list Pod :=
  p ← pods; _ ← filter (λ c, c = ("Ready", "True")) (pod_Conditions p); [p].

Definition ListReadyRuntimePods (pods : result error (list Pod)) : exec (list Pod) :=
  match pods with
  | Err _ => Panic
  | Ok pods => Ret (readyPods pods)
  end.

Definition GetRandomReadyRuntimePod (pods : result error (list Pod)) (Intn : nat → nat)
  : exec string :=
  runtimePods ← ListReadyRuntimePods pods;
  let numPods := length runtimePods in
  _ ← Expect (bool_decide (numPods ≠ 0));
  p ← deref (runtimePods !! Intn numPods);
  Ret (pod_Name p).

(** ** Connecting and disconnecting *)

Definition close_conn (c : conn) : sess () := λ w,
  (mkSession (ws_client w) (ws_heap w) (ws_running w) (ws_open w ∖ {[ c ]}) (ws_next w), Ret tt).

Definition closeGrpcConn : sess () :=
  fvt ← get_client;
  match fc_grpcConn fvt with
  | Some c => _ ← close_conn c; with_client (λ f, set_grpc (fc_grpcPortForward f) None f)
  | None => mret (M := sess) tt
  end.

Definition disconnectGrpcConnection (an : Answers) : sess () :=
  _ ← closeGrpcConn;
  fvt ← get_client;
  match fc_grpcPortForward fvt with
  | Some l => _ ← EnsureStopped an l; with_client (λ f, set_grpc None (fc_grpcConn f) f)
  | None => mret (M := sess) tt
  end.

Definition closeRestConn : sess () :=
  fvt ← get_client;
  match fc_restConn fvt with
  | Some _ => with_client (λ f, set_rest (fc_restPortForward f) None f)
  | None => mret (M := sess) tt
  end.

Definition disconnectRestConnection (an : Answers) : sess () :=
  _ ← closeRestConn;
  fvt ← get_client;
  match fc_restPortForward fvt with
  | Some l => _ ← EnsureStopped an l; with_client (λ f, set_rest None (fc_restConn f) f)
  | None => mret (M := sess) tt
  end.

(** The client is not nil. *)
Definition DisconnectFromModelServing (an : Answers) : sess () :=
  _ ← disconnectGrpcConnection an; disconnectRestConnection an.

(** Whether a client certificate is presented *)
Definition createTLSConfig (an : Answers) (g : CertGenerator)
    (connectionType : ModelServingConnectionType) : exec bool :=
  if bool_decide (connectionType = MutualTLS) then
    (* Bytes of a nil buffer is a nil dereference *)
    pub ← deref (cg_PublicKeyPEM g);
    priv ← deref (cg_PrivateKeyPEM g);
    if an_X509KeyPair an (Some pub) (Some priv) then Ret true else Panic
  else Ret false.

(** The check whether the pod is still around *)
Definition dropLostGrpc (an : Answers) : sess () :=
  fvt ← get_client;
  match fc_grpcPortForward fvt with
  | None => mret (M := sess) tt
  | Some l => pf ← load_pf l;
      if an_PodExists an (pf_podName pf) then mret (M := sess) tt
      else disconnectGrpcConnection an
  end.

Definition dropLostRest (an : Answers) : sess () :=
  fvt ← get_client;
  match fc_restPortForward fvt with
  | None => mret (M := sess) tt
  | Some l => pf ← load_pf l;
      if an_PodExists an (pf_podName pf) then mret (M := sess) tt
      else disconnectRestConnection an
  end.

Definition ensureGrpcForward (an : Answers) : sess pfloc :=
  fvt ← get_client;
  match fc_grpcPortForward fvt with
  | Some l => mret (M := sess) l
  | None =>
      podName ← check (GetRandomReadyRuntimePod (an_grpcPods an) (an_grpcIntn an));
      l ← NewModelMeshPortForward (fc_namespace fvt) podName (fc_grpcPort fvt) 8033;
      _ ← with_client (λ f, set_grpc (Some l) (fc_grpcConn f) f);
      mret (M := sess) l
  end.

Definition ensureRestForward (an : Answers) : sess pfloc :=
  fvt ← get_client;
  match fc_restPortForward fvt with
  | Some l => mret (M := sess) l
  | None =>
      podName ← check (GetRandomReadyRuntimePod (an_restPods an) (an_restIntn an));
      l ← NewModelMeshPortForward (fc_namespace fvt) podName (fc_restPort fvt) 8008;
      _ ← with_client (λ f, set_rest (Some l) (fc_restConn f) f);
      mret (M := sess) l
  end.

(** A connection that was made is open. *)
Definition dial (an : Answers) (target : string) (connectionType : ModelServingConnectionType)
  : sess (result error conn) := λ w,
  match an_Dial an target connectionType with
  | Some e => (w, Ret (Err e))
  | None => (mkSession (ws_client w) (ws_heap w) (ws_running w) ({[ ws_next w ]} ∪ ws_open w)
               (S (ws_next w)), Ret (Ok (ws_next w)))
  end.

(** The TLS configuration, for the connections that have one *)
Definition transportCredentials (an : Answers) (fvt : FVTClient)
    (connectionType : ModelServingConnectionType) : exec bool :=
  if bool_decide (connectionType = Insecure) then Ret false
  else createTLSConfig an (fc_certGenerator fvt) connectionType.

Definition openConnections (an : Answers) (connectionType : ModelServingConnectionType)
  : sess (option error) :=
  fvt ← get_client;
  _ ← check (transportCredentials an fvt connectionType);
  r ← dial an ("localhost:" +:+ Itoa (fc_grpcPort fvt)) connectionType;
  match r with
  | Err e => mret (M := sess) (Some (ErrWrap
      "Could not connect to grpc server at localhost. Check port forwarding command for issues." e))
  | Ok c =>
      _ ← with_client (λ f, set_grpc (fc_grpcPortForward f) (Some c) f);
      _ ← check (transportCredentials an fvt connectionType);
      _ ← with_client (λ f, set_rest (fc_restPortForward f) (Some connectionType) f);
      mret (M := sess) None
  end.

Definition ConnectToModelServing (an : Answers) (connectionType : ModelServingConnectionType)
  : sess (option error) :=
  _ ← dropLostGrpc an;
  _ ← dropLostRest an;
  g ← ensureGrpcForward an;
  r ← ensureRestForward an;
  err ← EnsureStarted an g;
  match err with
  | Some _ => mret (M := sess) (Some (ErrMsg
      "Error with gRPC port-forward, could not connect to model serving"))
  | None =>
      err ← EnsureStarted an r;
      match err with
      | Some _ => mret (M := sess) (Some (ErrMsg
          "Error with REST port-forward, could not connect to model serving"))
      | None => openConnections an connectionType
      end
  end.

(** The ports depend on the worker, so that workers can run side by side. An error of
    the dynamic client fails the test. *)
Definition GetFVTClient (config scheme dynamic : option error) (parallelProcess : Z)
    (namespace serviceName controllerNamespace : string) : exec (result error FVTClient) :=
  match config, scheme with
  | Some e, _ | None, Some e => Ret (Err e)
  | None, None =>
      _ ← Expect (bool_decide (dynamic = None));
      let certNamespaces := [controllerNamespace] ++
        (if bool_decide (namespace ≠ controllerNamespace) then [namespace] else []) in
      Ret (Ok (mkFVTClient namespace serviceName controllerNamespace
        (50000 + parallelProcess) None None (8000 + parallelProcess) None None
        (mkCertGenerator certNamespaces serviceName None None None)))
  end.

(** ** Requests *)

Section Requests.
Context {Req Resp : Type}.

(** The answer to a call over a connection; each call has a time limit of its own. *)
Variable call : conn → Req → result error Resp.

Definition RunKfsInference (fvt : FVTClient) (req : Req) : result error Resp :=
  match fc_grpcConn fvt with
  | None => Err (ErrMsg "you must connect to model mesh before running an inference")
  | Some c => call c req
  end.

Definition RunKfsModelMetadata (fvt : FVTClient) (req : Req) : result error Resp :=
  match fc_grpcConn fvt with
  | None => Err (ErrMsg "you must connect to model mesh before running a model metadata request")
  | Some c => call c req
  end.

Definition RunTfsInference (fvt : FVTClient) (req : Req) : result error Resp :=
  match fc_grpcConn fvt with
  | None => Err (ErrMsg "you must connect to model mesh before running an inference")
  | Some c => call c req
  end.

Definition RunTorchserveInference (fvt : FVTClient) (req : Req) : result error Resp :=
  match fc_grpcConn fvt with
  | None => Err (ErrMsg "you must connect to model mesh before running an inference")
  | Some c => call c req
  end.
End Requests.

(** [post] answers with a status code and what reading the body gives: the bytes read
    and an error. *)
Definition RunKfsRestInference
    (post : ModelServingConnectionType → string → string → result error (Z * (string * option error)))
    (fvt : FVTClient) (modelName body : string) (useTls : bool) : string * option error :=
  match fc_restConn fvt with
  | None => ("", Some (ErrMsg "you must connect to model mesh before running an inference"))
  | Some transport =>
      let protocol := if useTls then "https" else "http" in
      match post transport (protocol +:+ "://localhost:" +:+ Itoa (fc_restPort fvt) +:+
                            "/v2/models/" +:+ modelName +:+ "/infer") body with
      | Err e => ("", Some e)
      | Ok (code, (resp, err)) =>
          if bool_decide (code ≠ 200%Z)
          then ("", Some (ErrMsg ("Request failed with code " +:+ Itoa code)))
          else (resp, err)
      end
  end.

(** ** A logic for sessions *)

(** From [P] the operation ends in [Q], which sees the outcome. *)
Definition ends {A} (P : World → Prop) (m : sess A) (Q : exec A → World → Prop) : Prop :=
  ∀ w, P w → Q (m w).2 (m w).1.

Lemma ends_bind {A B} (P : World → Prop) (m : sess A) (f : A → sess B) R Q :
  ends P m R → (∀ a, ends (R (Ret a)) (f a) Q) → (∀ w, R Panic w → Q Panic w) →
  ends P (m ≫= f) Q.
Proof.
  intros Hm Hf Hp w Hw. specialize (Hm w Hw). unfold mbind, sess_bind.
  destruct (m w) as [w' [a|]]; [by apply (Hf a)|by apply Hp].
Qed.

Lemma ends_ret {A} (P : World → Prop) (a : A) Q :
  (∀ w, P w → Q (Ret a) w) → ends P (mret (M := sess) a) Q.
Proof. intros H w Hw. by apply H. Qed.

Lemma ends_pre {A} (P P' : World → Prop) (m : sess A) Q :
  (∀ w, P w → P' w) → ends P' m Q → ends P m Q.
Proof. intros H Hm w Hw. by apply Hm, H. Qed.

Lemma ends_post {A} (P : World → Prop) (m : sess A) (Q Q' : exec A → World → Prop) :
  ends P m Q → (∀ r w, Q r w → Q' r w) → ends P m Q'.
Proof. intros Hm H w Hw. by apply H, Hm. Qed.

Lemma ends_client {B} (P : World → Prop) (f : FVTClient → sess B) Q :
  (∀ fvt, ends (λ w, P w ∧ ws_client w = fvt) (f fvt) Q) → ends P (get_client ≫= f) Q.
Proof. intros H w Hw. unfold mbind, sess_bind. simpl. by apply H. Qed.

Lemma ends_check {A B} (P : World → Prop) (e : exec A) (f : A → sess B) Q :
  (∀ a, e = Ret a → ends P (f a) Q) → (∀ w, P w → Q Panic w) → ends P (check e ≫= f) Q.
Proof.
  intros H Hp w Hw. unfold mbind, sess_bind, check. destruct e as [a|]; [by apply H|by apply Hp].
Qed.

(** ** The invariant *)

(** The forward the client uses for gRPC, for REST, with its pod *)
Definition grpcForward (w : World) : option (pfloc * string) :=
  l ← fc_grpcPortForward (ws_client w); pf ← ws_heap w !! l; Some (l, pf_podName pf).

Definition restForward (w : World) : option (pfloc * string) :=
  l ← fc_restPortForward (ws_client w); pf ← ws_heap w !! l; Some (l, pf_podName pf).

Definition forwards (w : World) (l : pfloc) (port target : Z) : Prop :=
  ∃ pf, ws_heap w !! l = Some pf ∧
    pf_cmdArgs pf = portForwardArgs (fc_namespace (ws_client w)) (pf_podName pf) port target.

(** [lost] are the processes that could not be killed. *)
Section Invariant.
Variable lost : gset pid.

Record session_ok (w : World) : Prop := {
  (* a process runs exactly as long as its port forward says so *)
  so_running p l : ws_running w !! p = Some l ↔
    ∃ pf, ws_heap w !! l = Some pf ∧ pf_cmd pf = Some p;
  (* it is one of the two the client has, or it could not be killed *)
  so_owned p l : ws_running w !! p = Some l →
    fc_grpcPortForward (ws_client w) = Some l ∨ fc_restPortForward (ws_client w) = Some l ∨
    p ∈ lost;
  (* each of which forwards its own port *)
  so_grpc l : fc_grpcPortForward (ws_client w) = Some l →
    forwards w l (fc_grpcPort (ws_client w)) 8033;
  so_rest l : fc_restPortForward (ws_client w) = Some l →
    forwards w l (fc_restPort (ws_client w)) 8008;
  so_distinct l : fc_grpcPortForward (ws_client w) = Some l →
    fc_restPortForward (ws_client w) ≠ Some l;
  so_conn c : fc_grpcConn (ws_client w) = Some c → c ∈ ws_open w;
  so_fresh_heap l : is_Some (ws_heap w !! l) → l < ws_next w;
  so_fresh_running p : is_Some (ws_running w !! p) → p < ws_next w;
  so_fresh_open c : c ∈ ws_open w → c < ws_next w
}.

(** Starting and exiting changes the state of one port forward only. *)
Lemma forwards_alter w w' l l' port target cmd don :
  ws_heap w' = alter (set_pf_state cmd don) l (ws_heap w) → ws_client w' = ws_client w →
  forwards w l' port target → forwards w' l' port target.
Proof.
  intros Hh Hc (pf & Hpf & Ha). unfold forwards. rewrite Hh, Hc.
  destruct (decide (l' = l)) as [->|Hne].
  - exists (set_pf_state cmd don pf). rewrite lookup_alter_eq, Hpf. done.
  - exists pf. by rewrite lookup_alter_ne.
Qed.

Lemma pod_alter (h : gmap pfloc ModelMeshPortForward) l l' cmd don :
  (pf ← alter (set_pf_state cmd don) l h !! l'; Some (l', pf_podName pf)) =
  (pf ← h !! l'; Some (l', pf_podName pf)).
Proof.
  destruct (decide (l' = l)) as [->|Hne]; [|by rewrite lookup_alter_ne].
  rewrite lookup_alter_eq. by destruct (h !! l).
Qed.

Lemma exited_forwards p w :
  grpcForward (exited p w) = grpcForward w ∧ restForward (exited p w) = restForward w.
Proof.
  unfold exited. destruct (ws_running w !! p) as [l|]; [|done]. unfold grpcForward, restForward.
  cbn [ws_client ws_heap].
  by split; [destruct (fc_grpcPortForward (ws_client w))|destruct (fc_restPortForward (ws_client w))];
    [apply pod_alter| |apply pod_alter|].
Qed.

Lemma started_forwards l w :
  grpcForward (started_process l w) = grpcForward w ∧
  restForward (started_process l w) = restForward w.
Proof.
  unfold grpcForward, restForward, started_process. cbn [ws_client ws_heap].
  by split; [destruct (fc_grpcPortForward (ws_client w))|destruct (fc_restPortForward (ws_client w))];
    [apply pod_alter| |apply pod_alter|].
Qed.

Lemma exited_client p w : ws_client (exited p w) = ws_client w ∧ ws_open (exited p w) = ws_open w.
Proof. unfold exited. by destruct (ws_running w !! p). Qed.

Lemma exited_ok p w : session_ok w → session_ok (exited p w).
Proof.
  intros [Hr Ho Hg Hs Hd Hc Fh Fr Fo]. unfold exited.
  destruct (ws_running w !! p) as [l|] eqn:Ep; [|by split].
  pose proof (proj1 (Hr p l) Ep) as (pf & Hpf & Hcmd).
  split; cbn [ws_client ws_heap ws_running ws_open ws_next]; try done.
  - intros p' l'. rewrite lookup_delete_Some, Hr. destruct (decide (l' = l)) as [->|Hne].
    + rewrite lookup_alter_eq, Hpf. split; [naive_solver|]. by intros (? & [= <-] & ?).
    + rewrite lookup_alter_ne by done. split; [naive_solver|]. intros Hl'. split; [|done].
      intros <-. apply Hr in Hl'. congruence.
  - intros p' l' [_ Hp']%lookup_delete_Some. by eapply Ho.
  - intros l' Hl'. eapply (forwards_alter w (mkSession _ _ _ _ _)); eauto.
  - intros l' Hl'. eapply (forwards_alter w (mkSession _ _ _ _ _)); eauto.
  - intros l'. rewrite lookup_alter_is_Some. apply Fh.
  - intros p' [l' [_ Hp']%lookup_delete_Some]. apply Fr. eauto.
Qed.

Lemma started_process_ok l pf w :
  session_ok w → ws_heap w !! l = Some pf → pf_cmd pf = None →
  fc_grpcPortForward (ws_client w) = Some l ∨ fc_restPortForward (ws_client w) = Some l →
  session_ok (started_process l w).
Proof.
  intros [Hr Ho Hg Hs Hd Hc Fh Fr Fo] Hpf Hcmd Hl. unfold started_process.
  assert (ws_running w !! ws_next w = None) as Hfresh.
  { destruct (ws_running w !! ws_next w) as [?|] eqn:E; [|done].
    specialize (Fr (ws_next w)). rewrite E in Fr. specialize (Fr (mk_is_Some _ _ eq_refl)). lia. }
  split; cbn [ws_client ws_heap ws_running ws_open ws_next]; try done.
  - intros p' l'. rewrite lookup_insert_Some, Hr. destruct (decide (l' = l)) as [->|Hne].
    + rewrite lookup_alter_eq, Hpf. split.
      * intros [[<- _]|[_ (? & [= <-] & ?)]]; [|congruence]. by eexists.
      * intros (? & [= <-] & [= <-]). by left.
    + rewrite lookup_alter_ne by done. split; [naive_solver|]. intros Hl'. right.
      split; [|done]. intros <-. apply Hr in Hl'. congruence.
  - intros p' l' [[<- <-]|[_ Hp']]%lookup_insert_Some; [tauto|by eapply Ho].
  - intros l' Hl'. eapply (forwards_alter w (mkSession _ _ _ _ _)); eauto.
  - intros l' Hl'. eapply (forwards_alter w (mkSession _ _ _ _ _)); eauto.
  - intros l'. rewrite lookup_alter_is_Some. intros Hx%Fh. lia.
  - intros p' [l' [[<- _]|[_ Hp']]%lookup_insert_Some]; [lia|].
    specialize (Fr p' (mk_is_Some _ _ Hp')). lia.
  - intros c Hx%Fo. lia.
Qed.

(** A port forward can be dropped when its process, if any, could not be killed. *)
Definition stopped (w : World) (o : option pfloc) : Prop :=
  ∀ p l, ws_running w !! p = Some l → o = Some l → p ∈ lost.

Lemma drop_grpc_ok w c :
  session_ok w → stopped w (fc_grpcPortForward (ws_client w)) →
  (∀ c', c = Some c' → fc_grpcConn (ws_client w) = Some c') →
  session_ok (with_client (set_grpc None c) w).1.
Proof.
  intros [Hr Ho Hg Hs Hd Hc Fh Fr Fo] Hn Hcc.
  split; cbn [with_client fst ws_client ws_heap ws_running ws_open ws_next set_grpc
    fc_grpcPortForward fc_restPortForward fc_grpcConn fc_grpcPort fc_restPort fc_namespace]; try done.
  - intros p l Hp. destruct (Ho p l Hp) as [E|[|]]; [|auto..]. right; right. by eapply Hn.
  - intros c' Hc'. apply Hc. auto.
Qed.

Lemma drop_rest_ok w c :
  session_ok w → stopped w (fc_restPortForward (ws_client w)) →
  session_ok (with_client (set_rest None c) w).1.
Proof.
  intros [Hr Ho Hg Hs Hd Hc Fh Fr Fo] Hn.
  split; cbn [with_client fst ws_client ws_heap ws_running ws_open ws_next set_rest
    fc_grpcPortForward fc_restPortForward fc_grpcConn fc_grpcPort fc_restPort fc_namespace]; try done.
  intros p l Hp. destruct (Ho p l Hp) as [|[E|]]; [auto| |auto]. right; right. by eapply Hn.
Qed.

(** ** What the operations do *)

Section Operations.
Variable an : Answers.

(** A process that runs and cannot be killed is a lost one. *)
Definition accounted (w : World) : Prop :=
  ∀ p, is_Some (ws_running w !! p) → an_Kill an p = false → p ∈ lost.

Lemma accounted_subseteq w w' : ws_running w' ⊆ ws_running w → accounted w → accounted w'.
Proof. intros Hs Ha p [l Hp]. apply Ha. exists l. by eapply lookup_weaken. Qed.

Lemma exited_running p w : ws_running (exited p w) ⊆ ws_running w.
Proof. unfold exited. destruct (ws_running w !! p); [apply delete_subseteq|done]. Qed.

(** The client keeps the identity it was made with. *)
Definition same_identity (f f' : FVTClient) : Prop :=
  fc_namespace f' = fc_namespace f ∧ fc_grpcPort f' = fc_grpcPort f ∧
  fc_restPort f' = fc_restPort f ∧ fc_certGenerator f' = fc_certGenerator f.

Lemma running_pf w p l :
  session_ok w → ws_running w !! p = Some l → ∃ pf, ws_heap w !! l = Some pf ∧ pf_cmd pf = Some p.
Proof. intros Hok. apply (so_running w Hok). Qed.

Lemma EnsureStopped_spec w l :
  session_ok w → accounted w → is_Some (ws_heap w !! l) →
  ∃ w', EnsureStopped an l w = (w', Ret tt) ∧ session_ok w' ∧ accounted w' ∧
    ws_client w' = ws_client w ∧ grpcForward w' = grpcForward w ∧ restForward w' = restForward w ∧
    stopped w' (Some l).
Proof.
  intros Hok Ha [pf Hpf]. unfold EnsureStopped, mbind, sess_bind, load_pf. rewrite Hpf. simpl.
  destruct (pf_cmd pf) as [p|] eqn:Ecmd.
  - assert (ws_running w !! p = Some l) as Hp by (apply (so_running w Hok); eauto).
    unfold killProcess. destruct (an_Kill an p) eqn:Ek.
    + exists (exited p w). destruct (exited_forwards p w), (exited_client p w).
      split_and!; try done; [by apply exited_ok|eapply accounted_subseteq; [apply exited_running|done]|].
      intros p' l' Hp' [= <-]. revert Hp'.
      unfold exited. rewrite Hp. cbn [ws_running]. intros [Hne Hp']%lookup_delete_Some.
      destruct (running_pf w p' l Hok Hp') as (pf' & ? & ?). congruence.
    + exists w. split_and!; try done. intros p' l' Hp' [= <-].
      destruct (running_pf w p' l Hok Hp') as (pf' & ? & ?). assert (p' = p) as -> by congruence.
      apply Ha; eauto.
  - exists w. split_and!; try done. intros p' l' Hp' [= <-].
    destruct (running_pf w p' l Hok Hp') as (pf' & ? & ?). congruence.
Qed.

(** The connection is closed and forgotten. *)
Lemma closeGrpcConn_spec w :
  session_ok w →
  ∃ w', closeGrpcConn w = (w', Ret tt) ∧ session_ok w' ∧
    ws_client w' = set_grpc (fc_grpcPortForward (ws_client w)) None (ws_client w) ∧
    restForward w' = restForward w ∧ ws_running w' = ws_running w.
Proof.
  intros Hok. unfold closeGrpcConn, mbind, sess_bind. simpl.
  destruct (fc_grpcConn (ws_client w)) as [c|] eqn:E.
  - eexists. split; [reflexivity|]. split; [|done].
    destruct Hok as [Hr Ho Hg Hs Hd Hc Fh Fr Fo]. split; try done. cbn. set_solver.
  - exists w. split_and!; try done. destruct (ws_client w). cbn in *. by subst.
Qed.

Lemma disconnectGrpc_spec w :
  session_ok w → accounted w →
  ∃ w', disconnectGrpcConnection an w = (w', Ret tt) ∧ session_ok w' ∧ accounted w' ∧
    ws_client w' = set_grpc None None (ws_client w) ∧ restForward w' = restForward w.
Proof.
  intros Hok Ha. destruct (closeGrpcConn_spec w Hok) as (w1 & E1 & Hok1 & Hc1 & Hr1 & Hrun1).
  assert (accounted w1) as Ha1 by (eapply accounted_subseteq; [by rewrite Hrun1|done]).
  unfold disconnectGrpcConnection, mbind, sess_bind. rewrite E1. simpl.
  destruct (fc_grpcPortForward (ws_client w1)) as [l|] eqn:El.
  - destruct (EnsureStopped_spec w1 l Hok1 Ha1) as (w2 & E2 & Hok2 & Ha2 & Hc2 & _ & Hr2 & Hn2).
    { destruct (so_grpc _ Hok1 l El) as (pf & -> & _). eauto. }
    rewrite E2. eexists. split; [reflexivity|]. split_and!.
    + apply (drop_grpc_ok w2 (fc_grpcConn (ws_client w2)) Hok2); [|done]. by rewrite Hc2, El.
    + exact Ha2.
    + cbn. by rewrite Hc2, Hc1.
    + by rewrite <- Hr1, <- Hr2.
  - exists w1. split_and!; try done. rewrite Hc1 in El. cbn in El. by rewrite Hc1, El.
Qed.

Lemma closeRestConn_spec w :
  session_ok w →
  ∃ w', closeRestConn w = (w', Ret tt) ∧ session_ok w' ∧
    ws_client w' = set_rest (fc_restPortForward (ws_client w)) None (ws_client w) ∧
    grpcForward w' = grpcForward w ∧ ws_running w' = ws_running w.
Proof.
  intros Hok. unfold closeRestConn, mbind, sess_bind. simpl.
  destruct (fc_restConn (ws_client w)) as [c|] eqn:E.
  - eexists. split; [reflexivity|]. split; [|done].
    by destruct Hok as [Hr Ho Hg Hs Hd Hc Fh Fr Fo]; split.
  - exists w. split_and!; try done. destruct (ws_client w). cbn in *. by subst.
Qed.

Lemma disconnectRest_spec w :
  session_ok w → accounted w →
  ∃ w', disconnectRestConnection an w = (w', Ret tt) ∧ session_ok w' ∧ accounted w' ∧
    ws_client w' = set_rest None None (ws_client w) ∧ grpcForward w' = grpcForward w.
Proof.
  intros Hok Ha. destruct (closeRestConn_spec w Hok) as (w1 & E1 & Hok1 & Hc1 & Hg1 & Hrun1).
  assert (accounted w1) as Ha1 by (eapply accounted_subseteq; [by rewrite Hrun1|done]).
  unfold disconnectRestConnection, mbind, sess_bind. rewrite E1. simpl.
  destruct (fc_restPortForward (ws_client w1)) as [l|] eqn:El.
  - destruct (EnsureStopped_spec w1 l Hok1 Ha1) as (w2 & E2 & Hok2 & Ha2 & Hc2 & Hg2 & _ & Hn2).
    { destruct (so_rest _ Hok1 l El) as (pf & -> & _). eauto. }
    rewrite E2. eexists. split; [reflexivity|]. split_and!.
    + apply (drop_rest_ok w2 (fc_restConn (ws_client w2)) Hok2). by rewrite Hc2, El.
    + exact Ha2.
    + cbn. by rewrite Hc2, Hc1.
    + by rewrite <- Hg1, <- Hg2.
  - exists w1. split_and!; try done. rewrite Hc1 in El. cbn in El. by rewrite Hc1, El.
Qed.

(** After a disconnect nothing is left of the session but processes that could not be
    killed. *)
Lemma disconnect_spec w :
  session_ok w → accounted w →
  ∃ w', DisconnectFromModelServing an w = (w', Ret tt) ∧ session_ok w' ∧
    ws_client w' = set_rest None None (set_grpc None None (ws_client w)) ∧
    dom (ws_running w') ⊆ lost.
Proof.
  intros Hok Ha. destruct (disconnectGrpc_spec w Hok Ha) as (w1 & E1 & Hok1 & Ha1 & Hc1 & _).
  destruct (disconnectRest_spec w1 Hok1 Ha1) as (w2 & E2 & Hok2 & Ha2 & Hc2 & _).
  unfold DisconnectFromModelServing, mbind, sess_bind. rewrite E1. exists w2.
  split_and!; [done..|by rewrite Hc2, Hc1|]. intros p [l Ep]%elem_of_dom.
  destruct (so_owned w2 Hok2 p l Ep) as [H|[H|H]]; rewrite ?Hc2, ?Hc1 in H; done.
Qed.

(** *** Connecting *)

(** A pod that is there, or one of the ready ones *)
Definition reachable (pods : result error (list Pod)) (name : string) : Prop :=
  an_PodExists an name = true ∨
  ∃ l p, pods = Ok l ∧ p ∈ l ∧ ("Ready", "True") ∈ pod_Conditions p ∧ pod_Name p = name.

Lemma GetRandomReadyRuntimePod_ready pods Intn name :
  GetRandomReadyRuntimePod pods Intn = Ret name → reachable pods name.
Proof.
  unfold GetRandomReadyRuntimePod, ListReadyRuntimePods. destruct pods as [l|]; [|done].
  cbn [mbind exec_bind]. case_bool_decide; [|done]. simpl.
  destruct (readyPods l !! Intn (length (readyPods l))) as [p|] eqn:E; [|done]. intros [= <-].
  apply list_elem_of_lookup_2 in E. apply list_elem_of_bind in E as (q & Hp & Hq).
  apply list_elem_of_bind in Hp as (c & ->%list_elem_of_singleton & [-> Hc]%list_elem_of_filter).
  right. by exists l, q.
Qed.

Lemma dropLostGrpc_spec w :
  session_ok w → accounted w →
  ∃ w', dropLostGrpc an w = (w', Ret tt) ∧ session_ok w' ∧ accounted w' ∧
    restForward w' = restForward w ∧
    ∀ l pod, grpcForward w' = Some (l, pod) → an_PodExists an pod = true.
Proof.
  intros Hok Ha. unfold dropLostGrpc, mbind, sess_bind. simpl.
  destruct (fc_grpcPortForward (ws_client w)) as [l|] eqn:El.
  2:{ exists w. split_and!; try done. unfold grpcForward. by rewrite El. }
  destruct (so_grpc w Hok l El) as (pf & Hpf & _). unfold load_pf. rewrite Hpf. simpl.
  destruct (an_PodExists an (pf_podName pf)) eqn:Ep.
  - exists w. split_and!; try done. intros l' pod. unfold grpcForward. rewrite El. simpl.
    rewrite Hpf. by intros [= <- <-].
  - destruct (disconnectGrpc_spec w Hok Ha) as (w' & -> & Hok' & Ha' & Hc & Hr). exists w'.
    split_and!; try done. unfold grpcForward. by rewrite Hc.
Qed.

Lemma dropLostRest_spec w :
  session_ok w → accounted w →
  ∃ w', dropLostRest an w = (w', Ret tt) ∧ session_ok w' ∧ accounted w' ∧
    grpcForward w' = grpcForward w ∧
    ∀ l pod, restForward w' = Some (l, pod) → an_PodExists an pod = true.
Proof.
  intros Hok Ha. unfold dropLostRest, mbind, sess_bind. simpl.
  destruct (fc_restPortForward (ws_client w)) as [l|] eqn:El.
  2:{ exists w. split_and!; try done. unfold restForward. by rewrite El. }
  destruct (so_rest w Hok l El) as (pf & Hpf & _). unfold load_pf. rewrite Hpf. simpl.
  destruct (an_PodExists an (pf_podName pf)) eqn:Ep.
  - exists w. split_and!; try done. intros l' pod. unfold restForward. rewrite El. simpl.
    rewrite Hpf. by intros [= <- <-].
  - destruct (disconnectRest_spec w Hok Ha) as (w' & -> & Hok' & Ha' & Hc & Hr). exists w'.
    split_and!; try done. unfold restForward. by rewrite Hc.
Qed.

(** A new port forward is at a fresh location and not running. *)
Definition created (l : pfloc) (pf : ModelMeshPortForward) (f : FVTClient) (w : World) : World :=
  mkSession f (<[l := pf]> (ws_heap w)) (ws_running w) (ws_open w) (S l).

Lemma fresh_forward w l :
  session_ok w → l = ws_next w → ws_heap w !! l = None ∧
    fc_grpcPortForward (ws_client w) ≠ Some l ∧ fc_restPortForward (ws_client w) ≠ Some l ∧
    ∀ p, ws_running w !! p ≠ Some l.
Proof.
  intros Hok ->. assert (ws_heap w !! ws_next w = None) as Hn.
  { destruct (ws_heap w !! ws_next w) as [pf|] eqn:E; [|done].
    specialize (so_fresh_heap w Hok (ws_next w)). rewrite E. intros Hl.
    specialize (Hl (mk_is_Some _ _ eq_refl)). lia. }
  split_and!; [done| | |].
  - intros E%(so_grpc w Hok). destruct E as (pf & ? & _). congruence.
  - intros E%(so_rest w Hok). destruct E as (pf & ? & _). congruence.
  - intros p E%(running_pf w p _ Hok). destruct E as (pf & ? & _). congruence.
Qed.

Lemma created_running w l pf p l' :
  session_ok w → l = ws_next w → pf_cmd pf = None →
  ws_running w !! p = Some l' ↔ ∃ pf', <[l := pf]> (ws_heap w) !! l' = Some pf' ∧ pf_cmd pf' = Some p.
Proof.
  intros Hok Hl Hpf. destruct (fresh_forward w l Hok Hl) as (Hh & _ & _ & Hr).
  rewrite (so_running w Hok). destruct (decide (l' = l)) as [->|Hne].
  - rewrite lookup_insert_eq, Hh. split; [by intros (? & ? & _)|]. intros (? & [= <-] & ?). congruence.
  - by rewrite lookup_insert_ne.
Qed.

Lemma forwards_insert w l pf l' port target f :
  ws_heap w !! l = None → fc_namespace f = fc_namespace (ws_client w) →
  forwards w l' port target → forwards (created l pf f w) l' port target.
Proof.
  intros Hl Hf (pf' & Hpf' & Ha). exists pf'. cbn. rewrite Hf. split; [|done].
  rewrite lookup_insert_ne; [done|congruence].
Qed.

Lemma create_grpc_ok w pod :
  let l := ws_next w in
  let pf := mkPortForward None (portForwardArgs (fc_namespace (ws_client w)) pod
              (fc_grpcPort (ws_client w)) 8033) None pod in
  session_ok w → fc_grpcPortForward (ws_client w) = None →
  session_ok (created l pf (set_grpc (Some l) (fc_grpcConn (ws_client w)) (ws_client w)) w).
Proof.
  intros l pf Hok Eg.
  destruct (fresh_forward w l Hok eq_refl) as (Hh & _ & Hnr & _).
  pose proof Hok as [Hr Ho Hg Hs Hd Hc Fh Fr Fo].
  split; cbn [created ws_client ws_heap ws_running ws_open ws_next set_grpc fc_grpcPortForward
    fc_restPortForward fc_grpcConn fc_grpcPort fc_restPort fc_namespace]; try done.
  - intros p l'. by apply created_running.
  - intros p l' Hp. destruct (Ho p l' Hp) as [E|E]; [congruence|by right].
  - intros l' [= <-]. exists pf. cbn. by rewrite lookup_insert_eq.
  - intros l' Hl'. apply forwards_insert; [done..|]. by apply Hs.
  - intros l' [= <-]. done.
  - intros l' Hx%lookup_insert_is_Some. destruct Hx as [<-|[_ Hx%Fh]]; unfold l in *; lia.
  - intros p Hx%Fr. unfold l. lia.
  - intros c Hx%Fo. unfold l. lia.
Qed.

Lemma create_rest_ok w pod :
  let l := ws_next w in
  let pf := mkPortForward None (portForwardArgs (fc_namespace (ws_client w)) pod
              (fc_restPort (ws_client w)) 8008) None pod in
  session_ok w → fc_restPortForward (ws_client w) = None →
  session_ok (created l pf (set_rest (Some l) (fc_restConn (ws_client w)) (ws_client w)) w).
Proof.
  intros l pf Hok Eg.
  destruct (fresh_forward w l Hok eq_refl) as (Hh & Hnr & _ & _).
  pose proof Hok as [Hr Ho Hg Hs Hd Hc Fh Fr Fo].
  split; cbn [created ws_client ws_heap ws_running ws_open ws_next set_rest fc_grpcPortForward
    fc_restPortForward fc_grpcConn fc_grpcPort fc_restPort fc_namespace]; try done.
  - intros p l'. by apply created_running.
  - intros p l' Hp. destruct (Ho p l' Hp) as [E|[E|E]]; [by left|congruence|by right; right].
  - intros l' Hl'. apply forwards_insert; [done..|]. by apply Hg.
  - intros l' [= <-]. exists pf. cbn. by rewrite lookup_insert_eq.
  - intros l' Hl' [= <-]. done.
  - intros l' Hx%lookup_insert_is_Some. destruct Hx as [<-|[_ Hx%Fh]]; unfold l in *; lia.
  - intros p Hx%Fr. unfold l. lia.
  - intros c Hx%Fo. unfold l. lia.
Qed.

(** The forward that is there, or a new one to a ready pod *)
Lemma ensureGrpcForward_spec P :
  ends (λ w, session_ok w ∧ restForward w = P ∧
             ∀ l pod, grpcForward w = Some (l, pod) → an_PodExists an pod = true)
    (ensureGrpcForward an) (λ r w, session_ok w ∧ restForward w = P ∧
      ∀ l, r = Ret l → ∃ pod, grpcForward w = Some (l, pod) ∧ reachable (an_grpcPods an) pod).
Proof.
  intros w (Hok & Hr & Hp). unfold ensureGrpcForward, mbind, sess_bind. simpl.
  destruct (fc_grpcPortForward (ws_client w)) as [l|] eqn:El.
  - split_and!; try done. intros l' [= <-]. destruct (so_grpc w Hok l El) as (pf & Hpf & _).
    exists (pf_podName pf). assert (grpcForward w = Some (l, pf_podName pf)) as Hg.
    { unfold grpcForward. rewrite El. simpl. by rewrite Hpf. }
    split; [done|]. left. by eapply Hp.
  - unfold check. destruct (GetRandomReadyRuntimePod _ _) as [pod|] eqn:Eg; [|by split_and!].
    apply GetRandomReadyRuntimePod_ready in Eg. simpl.
    pose proof (create_grpc_ok w pod Hok El) as Hok'.
    split_and!; [exact Hok'| |].
    + rewrite <- Hr. unfold restForward. cbn.
      destruct (fc_restPortForward (ws_client w)) as [l'|] eqn:El'; [|done]. simpl.
      rewrite lookup_insert_ne; [done|]. intros <-.
      by destruct (fresh_forward w _ Hok eq_refl) as (_ & _ & ? & _).
    + intros l [= <-]. exists pod. split; [|done]. unfold grpcForward. cbn. by rewrite lookup_insert_eq.
Qed.

Lemma ensureRestForward_spec P :
  ends (λ w, session_ok w ∧ grpcForward w = P ∧
             ∀ l pod, restForward w = Some (l, pod) → an_PodExists an pod = true)
    (ensureRestForward an) (λ r w, session_ok w ∧ grpcForward w = P ∧
      ∀ l, r = Ret l → ∃ pod, restForward w = Some (l, pod) ∧ reachable (an_restPods an) pod).
Proof.
  intros w (Hok & Hr & Hp). unfold ensureRestForward, mbind, sess_bind. simpl.
  destruct (fc_restPortForward (ws_client w)) as [l|] eqn:El.
  - split_and!; try done. intros l' [= <-]. destruct (so_rest w Hok l El) as (pf & Hpf & _).
    exists (pf_podName pf). assert (restForward w = Some (l, pf_podName pf)) as Hg.
    { unfold restForward. rewrite El. simpl. by rewrite Hpf. }
    split; [done|]. left. by eapply Hp.
  - unfold check. destruct (GetRandomReadyRuntimePod _ _) as [pod|] eqn:Eg; [|by split_and!].
    apply GetRandomReadyRuntimePod_ready in Eg. simpl.
    pose proof (create_rest_ok w pod Hok El) as Hok'.
    split_and!; [exact Hok'| |].
    + rewrite <- Hr. unfold grpcForward. cbn.
      destruct (fc_grpcPortForward (ws_client w)) as [l'|] eqn:El'; [|done]. simpl.
      rewrite lookup_insert_ne; [done|]. intros <-.
      by destruct (fresh_forward w _ Hok eq_refl) as (_ & ? & _).
    + intros l [= <-]. exists pod. split; [|done]. unfold restForward. cbn. by rewrite lookup_insert_eq.
Qed.

Definition runs (w : World) (l : pfloc) : Prop := ∃ p, ws_running w !! p = Some l.

Lemma EnsureStarted_spec w l pf :
  session_ok w → ws_heap w !! l = Some pf →
  fc_grpcPortForward (ws_client w) = Some l ∨ fc_restPortForward (ws_client w) = Some l →
  ∃ w' r, EnsureStarted an l w = (w', Ret r) ∧ session_ok w' ∧ ws_client w' = ws_client w ∧
    grpcForward w' = grpcForward w ∧ restForward w' = restForward w ∧
    (r = None → runs w' l) ∧ (∀ l', l' ≠ l → runs w l' → runs w' l').
Proof.
  intros Hok Hpf Hl. unfold EnsureStarted, mbind, sess_bind, load_pf. rewrite Hpf. simpl.
  destruct (pf_cmd pf) as [p|] eqn:Ecmd.
  { exists w, None. split_and!; try done. intros _. exists p. apply (so_running w Hok). eauto. }
  pose proof (started_process_ok l pf w Hok Hpf Ecmd Hl) as Hok1.
  destruct (started_forwards l w) as [Hg Hr]. set (w1 := started_process l w) in *.
  assert (ws_running w1 !! ws_next w = Some l) as Hp by apply lookup_insert_eq.
  assert (∀ l' p, l' ≠ l → ws_running w !! p = Some l' → p ≠ ws_next w ∧ ws_running w1 !! p = Some l')
    as Hother.
  { intros l' p Hne Hrun. assert (p < ws_next w) by (apply (so_fresh_running w Hok); eauto).
    split; [lia|]. cbn. rewrite lookup_insert_ne; [done|lia]. }
  unfold startProcess. fold w1. destruct (an_Survives an (ws_next w)).
  - exists w1, None. split_and!; try done; [by intros _; exists (ws_next w)|].
    intros l' Hne [p Hrun]. exists p. by apply Hother.
  - destruct (exited_forwards (ws_next w) w1) as [Eg Er], (exited_client (ws_next w) w1) as [Ec _].
    eexists (exited (ws_next w) w1), (Some _). split; [reflexivity|].
    split_and!; [by apply exited_ok|by rewrite Ec|by rewrite Eg|by rewrite Er|done|].
    intros l' Hne [p Hrun]. destruct (Hother l' p Hne Hrun) as [Hpn Hp1]. exists p.
    unfold exited. rewrite Hp. cbn. by rewrite lookup_delete_ne.
Qed.

Lemma grpcForward_inv w l pod :
  grpcForward w = Some (l, pod) →
  fc_grpcPortForward (ws_client w) = Some l ∧ ∃ pf, ws_heap w !! l = Some pf ∧ pf_podName pf = pod.
Proof.
  unfold grpcForward. destruct (fc_grpcPortForward _) as [l'|]; [|done]. simpl.
  destruct (ws_heap w !! l') as [pf|] eqn:E; [|done]. intros [= <- <-]. eauto.
Qed.

Lemma restForward_inv w l pod :
  restForward w = Some (l, pod) →
  fc_restPortForward (ws_client w) = Some l ∧ ∃ pf, ws_heap w !! l = Some pf ∧ pf_podName pf = pod.
Proof.
  unfold restForward. destruct (fc_restPortForward _) as [l'|]; [|done]. simpl.
  destruct (ws_heap w !! l') as [pf|] eqn:E; [|done]. intros [= <- <-]. eauto.
Qed.

(** Dialling adds an open connection. *)
Lemma dialled_ok w :
  session_ok w →
  session_ok (mkSession (set_grpc (fc_grpcPortForward (ws_client w)) (Some (ws_next w)) (ws_client w))
                (ws_heap w) (ws_running w) ({[ ws_next w ]} ∪ ws_open w) (S (ws_next w))).
Proof.
  intros [Hr Ho Hg Hs Hd Hc Fh Fr Fo].
  split; cbn [ws_client ws_heap ws_running ws_open ws_next set_grpc fc_grpcPortForward
    fc_restPortForward fc_grpcConn fc_grpcPort fc_restPort]; try done.
  - intros c [= <-]. set_solver.
  - intros l Hx%Fh. lia.
  - intros p Hx%Fr. lia.
  - intros c [->%elem_of_singleton|Hx%Fo]%elem_of_union; lia.
Qed.

Lemma set_rest_conn_ok w c :
  session_ok w → session_ok (with_client (λ f, set_rest (fc_restPortForward f) c f) w).1.
Proof. by intros [Hr Ho Hg Hs Hd Hc Fh Fr Fo]; split. Qed.

(** The connections are there; the forwards are untouched. *)
Lemma openConnections_spec ty w :
  session_ok w →
  let '(w', r) := openConnections an ty w in
  session_ok w' ∧ grpcForward w' = grpcForward w ∧ restForward w' = restForward w ∧
  ws_running w' = ws_running w ∧
  (r = Ret None → is_Some (fc_grpcConn (ws_client w')) ∧ fc_restConn (ws_client w') = Some ty).
Proof.
  intros Hok. unfold openConnections, mbind, sess_bind, check. simpl.
  destruct (transportCredentials an (ws_client w) ty); [|by split_and!]. unfold dial.
  destruct (an_Dial an _ ty); [by split_and!|]. simpl. pose proof (dialled_ok w Hok) as Hok'.
  split_and!; [exact (set_rest_conn_ok _ (Some ty) Hok')|done..|]. intros _. split; eauto.
Qed.

(** The session is up: both forwards run, to pods that were there, and the clients are
    connected. *)
Definition connected (ty : ModelServingConnectionType) (w : World) : Prop :=
  ∃ g gpod r rpod,
    grpcForward w = Some (g, gpod) ∧ reachable (an_grpcPods an) gpod ∧ runs w g ∧
    restForward w = Some (r, rpod) ∧ reachable (an_restPods an) rpod ∧ runs w r ∧
    is_Some (fc_grpcConn (ws_client w)) ∧ fc_restConn (ws_client w) = Some ty.

Lemma connect_spec ty :
  ends (λ w, session_ok w ∧ accounted w) (ConnectToModelServing an ty)
    (λ r w, session_ok w ∧ (r = Ret None → connected ty w)).
Proof.
  intros w [Hok Ha]. unfold ConnectToModelServing, mbind, sess_bind.
  destruct (dropLostGrpc_spec w Hok Ha) as (w1 & -> & Hok1 & Ha1 & _ & Hp1).
  destruct (dropLostRest_spec w1 Hok1 Ha1) as (w2 & -> & Hok2 & _ & Hg2 & Hp2). rewrite <- Hg2 in Hp1.
  pose proof (ensureGrpcForward_spec _ w2 (conj Hok2 (conj eq_refl Hp1))) as (Hok3 & Hr3 & Hg3).
  destruct (ensureGrpcForward an w2) as [w3 [g|]]; cbn [fst snd] in *; [|by split].
  destruct (Hg3 g eq_refl) as (gpod & Hg & Hgpod). rewrite <- Hr3 in Hp2.
  pose proof (ensureRestForward_spec _ w3 (conj Hok3 (conj eq_refl Hp2))) as (Hok4 & Hg4 & Hr4).
  destruct (ensureRestForward an w3) as [w4 [r|]]; cbn [fst snd] in *; [|by split].
  destruct (Hr4 r eq_refl) as (rpod & Hr & Hrpod). rewrite Hg in Hg4.
  destruct (grpcForward_inv w4 g gpod Hg4) as (Cg & gpf & Hgpf & _).
  destruct (restForward_inv w4 r rpod Hr) as (Cr & _).
  destruct (EnsureStarted_spec w4 g gpf Hok4 Hgpf (or_introl Cg))
    as (w5 & e5 & -> & Hok5 & Hc5 & Hg5 & Hr5 & Hrun5 & _).
  destruct e5; [by split|]. rewrite Hg4 in Hg5. rewrite Hr in Hr5.
  destruct (restForward_inv w5 r rpod Hr5) as (Cr5 & rpf & Hrpf & _).
  destruct (EnsureStarted_spec w5 r rpf Hok5 Hrpf (or_intror Cr5))
    as (w6 & e6 & -> & Hok6 & Hc6 & Hg6 & Hr6 & Hrun6 & Hkeep6).
  destruct e6; [by split|].
  pose proof (openConnections_spec ty w6 Hok6) as Ho.
  destruct (openConnections an ty w6) as [w7 r7]. destruct Ho as (Hok7 & Hg7 & Hr7 & Hrun7 & Hconn).
  cbn [fst snd].
  split; [done|]. intros Hr7'. destruct (Hconn Hr7'). exists g, gpod, r, rpod.
  rewrite Hg7, Hg6, Hg5, Hr7, Hr6, Hr5. unfold runs in *. rewrite Hrun7.
  split_and!; try done; [|by apply Hrun6].
  apply Hkeep6; [|by apply Hrun5]. intros ->. by destruct (so_distinct w4 Hok4 r).
Qed.
End Operations.
End Invariant.

(** ** Sessions *)

(** The processes that run and cannot be killed *)
Definition unkillable (an : Answers) (w : World) : gset pid :=
  filter (λ p, an_Kill an p = false) (dom (ws_running w)).

(** The tests connect and disconnect, in any order and with any answers; and a process
    may exit at any moment. The set holds the processes that could not be killed when a
    test connected or disconnected. *)
Inductive session_step : World * gset pid → World * gset pid → Prop :=
| session_connect an ty w lost :
    session_step (w, lost) ((ConnectToModelServing an ty w).1, lost ∪ unkillable an w)
| session_disconnect an w lost :
    session_step (w, lost) ((DisconnectFromModelServing an w).1, lost ∪ unkillable an w)
| session_exit p w lost : session_step (w, lost) (exited p w, lost).

Definition startSession (fvt : FVTClient) : World := mkSession fvt ∅ ∅ ∅ 0.

(** A new client is not connected. *)
Definition disconnected (fvt : FVTClient) : Prop :=
  fc_grpcPortForward fvt = None ∧ fc_grpcConn fvt = None ∧
  fc_restPortForward fvt = None ∧ fc_restConn fvt = None.

Lemma GetFVTClient_disconnected config scheme dyn i ns svc cns fvt :
  GetFVTClient config scheme dyn i ns svc cns = Ret (Ok fvt) → disconnected fvt.
Proof.
  unfold GetFVTClient. destruct config; [done|]. destruct scheme; [done|].
  unfold Expect. destruct (bool_decide (dyn = None)); simpl; [|done]. by intros [= <-].
Qed.

Lemma GetFVTClient_ports config scheme dyn i ns svc cns fvt :
  GetFVTClient config scheme dyn i ns svc cns = Ret (Ok fvt) →
  fc_grpcPort fvt = (50000 + i)%Z ∧ fc_restPort fvt = (8000 + i)%Z.
Proof.
  unfold GetFVTClient. destruct config; [done|]. destruct scheme; [done|].
  unfold Expect. destruct (bool_decide (dyn = None)); simpl; [|done]. by intros [= <-].
Qed.

Lemma startSession_ok lost fvt : disconnected fvt → session_ok lost (startSession fvt).
Proof.
  intros (Hg & Hc & Hr & _). split; cbn; try (intros; congruence).
  - intros p l. rewrite !lookup_empty. split; [done|]. by intros (? & ? & _).
  - intros p l. by rewrite lookup_empty.
  - intros l. rewrite lookup_empty. by intros [].
  - intros p. rewrite lookup_empty. by intros [].
  - set_solver.
Qed.

Lemma session_ok_mono lost lost' w : lost ⊆ lost' → session_ok lost w → session_ok lost' w.
Proof.
  intros Hs [Hr Ho Hg Hre Hd Hc Fh Fr Fo]. split; try done.
  intros p l Hp. destruct (Ho p l Hp) as [|[|]]; auto.
Qed.

Lemma unkillable_ok lost an w :
  session_ok lost w → session_ok (lost ∪ unkillable an w) w ∧ accounted (lost ∪ unkillable an w) an w.
Proof.
  intros Hok. split; [eapply session_ok_mono, Hok; set_solver|]. intros p Hp%elem_of_dom Hk.
  apply elem_of_union_r, elem_of_filter. by split.
Qed.

Lemma session_step_ok s s' : session_ok s.2 s.1 → session_step s s' → session_ok s'.2 s'.1.
Proof.
  intros Hok. destruct 1 as [an ty w lost|an w lost|p w lost]; cbn [fst snd] in *.
  - by apply (connect_spec _ an ty w), unkillable_ok.
  - destruct (unkillable_ok lost an w Hok) as [Hok' Ha].
    by destruct (disconnect_spec _ an w Hok' Ha) as (w' & -> & ? & _).
  - by apply exited_ok.
Qed.

Lemma session_reachable_ok fvt w lost :
  disconnected fvt → rtc session_step (startSession fvt, ∅) (w, lost) → session_ok lost w.
Proof.
  intros Hd Hs. eapply (rtc_invariant session_step (λ s, session_ok s.2 s.1) _ (w, lost));
    [exact session_step_ok|exact Hs|by apply startSession_ok].
Qed.

(** No two processes run for the same port forward. *)
Lemma one_process_per_port lost w p p' l :
  session_ok lost w → ws_running w !! p = Some l → ws_running w !! p' = Some l → p = p'.
Proof.
  intros Hok Hp Hp'. destruct (running_pf lost w p l Hok Hp) as (pf & ? & ?).
  destruct (running_pf lost w p' l Hok Hp') as (pf' & ? & ?). congruence.
Qed.

(** C23: However tests connect and disconnect, fail in between and lose processes, every
    port-forward process that runs is the one of a port forward that the client has, with
    its local port, or a process that could not be killed when a test connected or
    disconnected, and each port forward has at most one; a connect that reports no error
    leaves two running forwards to pods that were there or ready, and both clients
    connected; and after a disconnect no process is left but those that could not be
    killed, and each of the five requests is refused. *)
Theorem sessions_clean config scheme dyn i ns svc cns fvt w lost an ty :
  GetFVTClient config scheme dyn i ns svc cns = Ret (Ok fvt) →
  rtc session_step (startSession fvt, ∅) (w, lost) →
  (∀ p l, ws_running w !! p = Some l →
     (fc_grpcPortForward (ws_client w) = Some l ∧ forwards w l (fc_grpcPort (ws_client w)) 8033 ∨
      fc_restPortForward (ws_client w) = Some l ∧ forwards w l (fc_restPort (ws_client w)) 8008 ∨
      p ∈ lost) ∧
     ∀ p', ws_running w !! p' = Some l → p' = p) ∧
  ((ConnectToModelServing an ty w).2 = Ret None →
     connected an ty (ConnectToModelServing an ty w).1) ∧
  (∃ w', DisconnectFromModelServing an w = (w', Ret tt) ∧
     dom (ws_running w') ⊆ lost ∪ unkillable an w ∧
     (∀ Req Resp (call : conn → Req → result error Resp) req,
        Forall (λ answer, ∃ e, answer = Err e)
          [RunKfsInference call (ws_client w') req; RunKfsModelMetadata call (ws_client w') req;
           RunTfsInference call (ws_client w') req;
           RunTorchserveInference call (ws_client w') req]) ∧
     ∀ post name body tls, ∃ e, RunKfsRestInference post (ws_client w') name body tls = ("", Some e)).
Proof.
  intros Hf Hs. apply GetFVTClient_disconnected in Hf.
  pose proof (session_reachable_ok fvt w lost Hf Hs) as Hok.
  destruct (unkillable_ok lost an w Hok) as [Hok' Ha]. split_and!.
  - intros p l Hp. split; [|intros p' Hp'; by eapply one_process_per_port].
    destruct (so_owned lost w Hok p l Hp) as [Hl|[Hl|Hl]]; [left|right; left|by right; right];
      (split; [done|]).
    + by apply (so_grpc lost w Hok).
    + by apply (so_rest lost w Hok).
  - by apply (connect_spec (lost ∪ unkillable an w) an ty w).
  - destruct (disconnect_spec _ an w Hok' Ha) as (w' & -> & _ & Hc & Hr). exists w'.
    split_and!; [done..| |].
    + intros. unfold RunKfsInference, RunKfsModelMetadata, RunTfsInference, RunTorchserveInference.
      rewrite Hc. simpl. repeat constructor; eauto.
    + intros. unfold RunKfsRestInference. rewrite Hc. simpl. eauto.
Qed.

(** ** Runs *)

(** One ready pod, processes that run and dials that succeed *)
Definition goodAnswers : Answers :=
  let pods := Ok [mkPod "starting" []; mkPod "pod" [("Ready", "True")]] in
  mkAnswers (λ _, true) pods (λ _, 0) pods (λ n, n - 1) (λ _, true) (λ _, true) (λ _ _, None)
    (λ _ _, true).

Definition exFVTClient : FVTClient :=
  match GetFVTClient None None None 1 "ns" "modelmesh-serving" "controller" with
  | Ret (Ok f) => f
  | _ => mkFVTClient "" "" "" 0 None None 0 None None (mkCertGenerator [] "" None None None)
  end.

(** Connected, connected again, and the REST forward has exited *)
Definition sessionWorld : World :=
  exited 3 (ConnectToModelServing goodAnswers Insecure
              (ConnectToModelServing goodAnswers Insecure (startSession exFVTClient)).1).1.

Lemma sessionWorld_reachable : rtc session_step (startSession exFVTClient, ∅) (sessionWorld, ∅).
Proof.
  eapply rtc_l; [apply (session_connect goodAnswers Insecure)|].
  eapply rtc_l; [apply (session_connect goodAnswers Insecure)|].
  eapply rtc_l; [apply (session_exit 3)|]. vm_compute. apply rtc_refl.
Qed.

Lemma sessions_clean_witness :
  ws_running sessionWorld = {[ 2 := 0 ]} ∧
  connected goodAnswers TLS (ConnectToModelServing goodAnswers TLS sessionWorld).1 ∧
  ∃ w', DisconnectFromModelServing goodAnswers sessionWorld = (w', Ret tt) ∧
    dom (ws_running w') ⊆ (∅ : gset pid).
Proof.
  split; [vm_compute; reflexivity|].
  destruct (sessions_clean None None None 1 "ns" "modelmesh-serving" "controller" exFVTClient
    sessionWorld ∅ goodAnswers TLS) as (_ & Hc & w' & Hd & Hr & _);
    [reflexivity|exact sessionWorld_reachable|].
  split; [apply Hc; vm_compute; reflexivity|]. exists w'. split; [exact Hd|].
  replace (∅ ∪ unkillable goodAnswers sessionWorld) with (∅ : gset pid) in Hr
    by (vm_compute; reflexivity).
  exact Hr.
Defined.

(** A process that cannot be killed is forgotten with its port forward, and keeps running
    after the disconnect. *)
Definition stubborn : Answers :=
  mkAnswers (an_PodExists goodAnswers) (an_grpcPods goodAnswers) (an_grpcIntn goodAnswers)
    (an_restPods goodAnswers) (an_restIntn goodAnswers) (an_Survives goodAnswers) (λ _, false)
    (an_Dial goodAnswers) (an_X509KeyPair goodAnswers).

Theorem failed_kill_leaves_process :
  ∃ w lost, rtc session_step (startSession exFVTClient, ∅) (w, lost) ∧
    let w' := (DisconnectFromModelServing stubborn w).1 in
    fc_grpcPortForward (ws_client w') = None ∧ ws_running w' = {[ 2 := 0 ]}.
Proof.
  exists sessionWorld, ∅. split; [exact sessionWorld_reachable|].
  split; vm_compute; reflexivity.
Qed.

(** Connecting again replaces the gRPC connection without closing it: also after a
    disconnect one stays open. *)
Theorem reconnect_leaks_connection :
  ∃ w, rtc session_step (startSession exFVTClient, ∅) (w, ∅) ∧
    ws_open (DisconnectFromModelServing goodAnswers w).1 ≠ ∅.
Proof.
  exists sessionWorld. split; [exact sessionWorld_reachable|]. vm_compute. discriminate.
Qed.

(** The ports of two workers on one machine never meet, and are valid ports, for as many
    as fit above the gRPC base. *)
Theorem worker_ports config scheme dyn i ns svc cns fvt config' scheme' dyn' j ns' svc' cns' fvt' :
  GetFVTClient config scheme dyn i ns svc cns = Ret (Ok fvt) →
  GetFVTClient config' scheme' dyn' j ns' svc' cns' = Ret (Ok fvt') →
  (1 ≤ i < 15536)%Z → (1 ≤ j < 15536)%Z → i ≠ j →
  NoDup [fc_grpcPort fvt; fc_restPort fvt; fc_grpcPort fvt'; fc_restPort fvt'] ∧
  Forall (λ p, 0 < p < 2 ^ 16)%Z [fc_grpcPort fvt; fc_restPort fvt; fc_grpcPort fvt'; fc_restPort fvt'].
Proof.
  intros Hf Hf'. apply GetFVTClient_ports in Hf as [-> ->], Hf' as [-> ->].
  intros Hi Hj Hne. split.
  - rewrite !NoDup_cons, !elem_of_cons, !elem_of_nil. split_and!; [lia..|constructor].
  - repeat (apply Forall_cons; split; [lia|]). constructor.
Qed.
