(* ===== verification/FVTClient.v ===== *)
(** * The acceptance tests' operations on a cluster (fvt/fvtclient.go, tls.go, utils.go)

    What the tests create, change, list and delete, and the secrets and configuration
    they set up. Objects are unstructured ([json]); what the API server and kubectl answer
    is the argument [Dynamic], the writes are the trace. A failed expectation is a
    panic. *)

From S2P Require Import Prelude GoStrings Types Overlay FVT FVTSession.

Open Scope go_scope.

(** ** Requests to the API server *)

Inductive gvr :=
| gvrRuntime | gvrCRuntime | gvrPredictor | gvrConfigMap | gvrSecret | gvrDeployment | gvrIsvc
| gvrPods | gvrHPA.

#[export] Instance gvr_eq : EqDecision gvr.
Proof. solve_decision. Defined.

(** The options of a list that are set *)
Record ListOptions := mkListOptions {
  lo_LabelSelector : string;
  lo_FieldSelector : string;
  lo_Limit : Z;
  lo_TimeoutSeconds : option Z
}.

Definition noOptions : ListOptions := mkListOptions "" "" 0 None.

Definition DefaultTimeout : Z := 120.

Definition deploymentListOptions : ListOptions :=
  mkListOptions "modelmesh-service" "" 0 (Some DefaultTimeout).
Definition runtimePodListOptions : ListOptions :=
  mkListOptions "modelmesh-service=modelmesh-serving" "status.phase=Running" 0 (Some DefaultTimeout).

(** A cluster-scoped resource has the namespace [""]. A patch is a server-side apply,
    forced, by the manager "fvtclient". *)
Inductive ApiCall :=
| ApiCreate (r : gvr) (ns : string) (obj : json)
| ApiUpdate (r : gvr) (ns : string) (obj : json)
| ApiPatch (r : gvr) (ns name patch : string)
| ApiDelete (r : gvr) (ns name : string)
| ApiDeleteCollection (r : gvr) (ns : string)
| ApiWatch (r : gvr) (ns : string) (options : ListOptions)
| Kubectl (args : list string)
| Sleep (d : Z).

(** The answers; a nil object comes with an error. *)
Record Dynamic := mkDynamic {
  dy_Get : gvr → string → string → result error json;
  dy_List : gvr → string → ListOptions → result error (list json);
  dy_Object : ApiCall → result error json;
  dy_Done : ApiCall → option error;
  dy_MarshalYAML : json → result error string;
  dy_MarshalJSON : json → result error string
}.

(** The writes to unstructured objects *)
Class UnstructuredWrites `{!Unstructured} := {
  SetNestedMap : json → list (string * json) → list string → result error json;
  SetNestedField : json → json → list string → result error json;
  RemoveNestedField : json → list string → json;
  SetNestedMap_field o m path o' : SetNestedMap o m path = Ok o' → field o' path = Some (JMap m);
  SetNestedMap_other o m path o' k rest k' rest' : SetNestedMap o m path = Ok o' →
    path = k :: rest → k' ≠ k → field o' (k' :: rest') = field o (k' :: rest');
  RemoveNestedField_removed o path k : field (RemoveNestedField o (path ++ [k])) (path ++ [k]) = None;
  RemoveNestedField_sibling o path k k' : k' ≠ k →
    field (RemoveNestedField o (path ++ [k])) (path ++ [k']) = field o (path ++ [k']);
  RemoveNestedField_other o k rest k' rest' : k' ≠ k →
    field (RemoveNestedField o (k :: rest)) (k' :: rest') = field o (k' :: rest')
}.

Section Client.
Context `{!Unstructured, !UnstructuredWrites}.
Variables (dy : Dynamic) (fvt : FVTClient).

(** GetKind and GetName; a missing value is "". *)
Definition GetKind (obj : json) : string := (NestedString obj ["kind"]).1.1.
Definition GetName (obj : json) : string := (NestedString obj ["metadata"; "name"]).1.1.

(** Expect(err).ToNot(HaveOccurred()) *)
Definition noError {A} (r : result error A) : exec A :=
  match r with Ok a => Ret a | Err _ => Panic end.

Definition noErr (e : option error) : exec () := Expect (bool_decide (e = None)).

(** A write that answers with an object, and the expectations on it *)
Definition writeObject (c : ApiCall) : io ApiCall json :=
  _ ← call c; lift (noError (dy_Object dy c)).

Definition writeKind (c : ApiCall) (kind : string) : io ApiCall json :=
  obj ← writeObject c;
  _ ← lift (Expect (bool_decide (GetKind obj = kind)));
  return obj.

Definition CreatePredictorExpectSuccess (resource : json) : io ApiCall json :=
  writeKind (ApiCreate gvrPredictor (fc_namespace fvt) resource) "Predictor".

Definition CreateIsvcExpectSuccess (resource : json) : io ApiCall json :=
  writeKind (ApiCreate gvrIsvc (fc_namespace fvt) resource) "InferenceService".

Definition UpdatePredictorExpectSuccess (resource : json) : io ApiCall json :=
  writeObject (ApiUpdate gvrPredictor (fc_namespace fvt) resource).

Definition ApplyPredictorExpectSuccess (predictor : json) : io ApiCall json :=
  patch ← lift (noError (dy_MarshalYAML dy predictor));
  writeKind (ApiPatch gvrPredictor (fc_namespace fvt) (GetName predictor) patch) "Predictor".

Definition withoutManagedFields (obj : json) : json :=
  RemoveNestedField obj ["metadata"; "managedFields"].

Definition ApplyServingRuntimeExpectSuccess (servingRuntime : json) : io ApiCall json :=
  let servingRuntime := withoutManagedFields servingRuntime in
  patch ← lift (noError (dy_MarshalYAML dy servingRuntime));
  writeKind (ApiPatch gvrRuntime (fc_namespace fvt) (GetName servingRuntime) patch) "ServingRuntime".

Definition ApplyClusterServingRuntimeExpectSuccess (clusterServingRuntime : json)
  : io ApiCall json :=
  let clusterServingRuntime := withoutManagedFields clusterServingRuntime in
  patch ← lift (noError (dy_MarshalYAML dy clusterServingRuntime));
  writeKind (ApiPatch gvrCRuntime "" (GetName clusterServingRuntime) patch) "ClusterServingRuntime".

Definition GetClusterServingRuntime (name : string) : exec json :=
  noError (dy_Get dy gvrCRuntime "" name).

Definition GetServingRuntime (name : string) : exec json :=
  noError (dy_Get dy gvrRuntime (fc_namespace fvt) name).

Definition GetPredictor (name : string) : exec json :=
  noError (dy_Get dy gvrPredictor (fc_namespace fvt) name).

Definition SetMap (obj : json) (value : list (string * json)) (fieldPath : list string)
  : exec json := noError (SetNestedMap obj value fieldPath).

Definition SetString (obj : json) (value : string) (fieldPath : list string) : exec json :=
  noError (SetNestedField obj (JString value) fieldPath).

Definition SetServingRuntimeAnnotation (NameSpaceScopeMode : bool) (expectedRuntimeName : string)
    (annotations : list (string * json)) : io ApiCall () :=
  srObject ← lift (if NameSpaceScopeMode then GetServingRuntime expectedRuntimeName
                   else GetClusterServingRuntime expectedRuntimeName);
  srObject ← lift (SetMap srObject annotations ["metadata"; "annotations"]);
  _ ← (if NameSpaceScopeMode then ApplyServingRuntimeExpectSuccess srObject
       else ApplyClusterServingRuntimeExpectSuccess srObject);
  return tt.

Definition ListServingRuntimes (options : ListOptions) : result error (list json) :=
  dy_List dy gvrRuntime (fc_namespace fvt) options.

Definition ListClusterServingRuntimes (options : ListOptions) : result error (list json) :=
  dy_List dy gvrCRuntime "" options.

(** The options a list of Predictors is made with *)
Definition predictorListOptions (options : ListOptions) : ListOptions :=
  mkListOptions (lo_LabelSelector options) (lo_FieldSelector options)
    (if bool_decide (lo_Limit options = 0%Z) then 100%Z else lo_Limit options)
    (if bool_decide (lo_TimeoutSeconds options = Some 0%Z) then Some DefaultTimeout
     else lo_TimeoutSeconds options).

Definition ListPredictors (options : ListOptions) : exec (list json) :=
  noError (dy_List dy gvrPredictor (fc_namespace fvt) (predictorListOptions options)).

(** A write that answers with an error or nothing, and the expectation on it *)
Definition writeDone (c : ApiCall) : io ApiCall () := _ ← call c; lift (noErr (dy_Done dy c)).

Definition DeletePredictor (resourceName : string) : io ApiCall () :=
  writeDone (ApiDelete gvrPredictor (fc_namespace fvt) resourceName).

Definition DeleteIsvc (resourceName : string) : io ApiCall () :=
  writeDone (ApiDelete gvrIsvc (fc_namespace fvt) resourceName).

Definition DeleteAllPredictors : io ApiCall () :=
  _ ← writeDone (ApiDeleteCollection gvrPredictor (fc_namespace fvt)); call (Sleep (2 * Second)).

Definition DeleteAllIsvcs : io ApiCall () :=
  _ ← writeDone (ApiDeleteCollection gvrIsvc (fc_namespace fvt)); call (Sleep (2 * Second)).

Definition withTimeout (options : ListOptions) (timeoutSeconds : Z) : ListOptions :=
  mkListOptions (lo_LabelSelector options) (lo_FieldSelector options) (lo_Limit options)
    (Some timeoutSeconds).

Definition StartWatchingPredictors (options : ListOptions) (timeoutSeconds : Z) : io ApiCall () :=
  writeDone (ApiWatch gvrPredictor (fc_namespace fvt) (withTimeout options timeoutSeconds)).

Definition StartWatchingIsvcs (options : ListOptions) (timeoutSeconds : Z) : io ApiCall () :=
  writeDone (ApiWatch gvrIsvc (fc_namespace fvt) (withTimeout options timeoutSeconds)).

Definition StartWatchingDeploys : io ApiCall () :=
  writeDone (ApiWatch gvrDeployment (fc_namespace fvt) deploymentListOptions).

(** *** Deployments, autoscalers *)

(** The conversion of every element of a list, which may fail the test *)
Fixpoint convertAll {A} (FromUnstructured : json → result error A) (items : list json)
  : exec (list A) :=
  match items with
  | [] => Ret []
  | u :: rest =>
      a ← noError (FromUnstructured u);
      l ← convertAll FromUnstructured rest;
      Ret (a :: l)
  end.

Definition ListHPAs {A} (FromUnstructured : json → result error A) : exec (list A) :=
  u ← noError (dy_List dy gvrHPA (fc_namespace fvt)
        (mkListOptions "app.kubernetes.io/managed-by=modelmesh-controller" "" 0 (Some DefaultTimeout)));
  convertAll FromUnstructured u.

Definition ListDeploys {A} (FromUnstructured : json → result error A) : exec (list A) :=
  u ← noError (dy_List dy gvrDeployment (fc_namespace fvt) deploymentListOptions);
  convertAll FromUnstructured u.

(** The list of ready pods that [FVTSession] chooses from *)
Definition listRunningPods (FromUnstructured : json → result error Pod) : exec (list Pod) :=
  u ← noError (dy_List dy gvrPods (fc_namespace fvt) runtimePodListOptions);
  convertAll FromUnstructured u.

Definition restartPatch (now : string) : json :=
  JMap [("apiVersion", JString "apps/v1"); ("kind", JString "Deployment");
        ("spec", JMap [("template", JMap [("metadata", JMap [("annotations",
           JMap [("fvtclient/restartedAt", JString now)])])])])].

Fixpoint patchDeploys (patchJson : string) (names : list string) : io ApiCall () :=
  match names with
  | [] => return tt
  | dName :: rest =>
      _ ← writeObject (ApiPatch gvrDeployment (fc_namespace fvt) dName patchJson);
      patchDeploys patchJson rest
  end.

(** [FromUnstructured] gives the name of the deployment. *)
Definition RestartDeploys (FromUnstructured : json → result error string) (now : string)
  : io ApiCall () :=
  patchJson ← lift (noError (dy_MarshalJSON dy (restartPatch now)));
  deploys ← lift (ListDeploys FromUnstructured);
  patchDeploys patchJson deploys.

(** *** Configuration *)

Definition UserConfigMapName : string := "model-serving-config".

Definition ApplyUserConfigMap (config : list (string * json)) : io ApiCall () :=
  configYaml ← lift (noError (dy_MarshalYAML dy (JMap config)));
  let cmu := JMap [("apiVersion", JString "v1"); ("kind", JString "ConfigMap");
                   ("metadata", JMap [("name", JString UserConfigMapName)]);
                   ("data", JMap [("config.yaml", JString configYaml)])] in
  p ← lift (noError (dy_MarshalJSON dy cmu));
  _ ← writeObject (ApiPatch gvrConfigMap (fc_controllerNamespace fvt) (GetName cmu) p);
  return tt.

Definition DefaultConfig : list (string * json) :=
  [("podsPerRuntime", JNumber 1);
   ("restProxy", JMap [("enabled", JBool true); ("skipVerify", JBool true)]);
   ("scaleToZero", JMap [("enabled", JBool false)]);
   ("internalModelMeshEnvVars",
    JSlice [JMap [("name", JString "BOOTSTRAP_CLEARANCE_PERIOD_MS"); ("value", JString "0")]])].

Definition TLSSecretName : string := "fvt-tls-secret".
Definition StorageConfigSecretName : string := "storage-config".

Definition BasicTLSConfig : list (string * json) :=
  [("tls", JMap [("secretName", JString TLSSecretName); ("clientAuth", JString "optional");
                 ("headlessService", JBool false)])].

Definition MutualTLSConfig : list (string * json) :=
  [("tls", JMap [("secretName", JString TLSSecretName); ("clientAuth", JString "require");
                 ("headlessService", JBool false)])].

Definition SetDefaultUserConfigMap : io ApiCall () := ApplyUserConfigMap DefaultConfig.

(** The copy of the default configuration with the TLS configuration; a missing key gives
    nil *)
Definition mergedConfigs (tlsConfig : list (string * json)) : list (string * json) :=
  setKey "tls" (default JNull (getKey "tls" tlsConfig))
    (foldl (λ m '(k, v), setKey k v m) [] DefaultConfig).

Definition UpdateConfigMapTLS (tlsConfig : list (string * json)) : io ApiCall () :=
  ApplyUserConfigMap (mergedConfigs tlsConfig).

Definition DeleteConfigMap (resourceName : string) : io ApiCall (option error) :=
  match dy_Get dy gvrConfigMap (fc_controllerNamespace fvt) resourceName with
  | Ok _ =>
      let c := ApiDelete gvrConfigMap (fc_controllerNamespace fvt) resourceName in
      _ ← call c; return (dy_Done dy c)
  | Err _ => return None
  end.

(** *** Secrets *)

Record Secret := mkSecret {
  sec_Type : string;
  sec_Name : string;
  sec_StringData : gmap string string
}.

Variable MarshalSecret : Secret → result error string.

Definition CreateSecret (secret : Secret) (namespace : string) : io ApiCall () :=
  patchJson ← lift (noError (MarshalSecret secret));
  _ ← writeObject (ApiPatch gvrSecret namespace (sec_Name secret) patchJson);
  return tt.

(** In the namespace of the controller and in that of the tests *)
Definition createSecrets (secret : Secret) : io ApiCall () :=
  _ ← CreateSecret secret (fc_controllerNamespace fvt);
  if bool_decide (fc_namespace fvt ≠ fc_controllerNamespace fvt)
  then CreateSecret secret (fc_namespace fvt) else return tt.

(** The data of the storage secret, in the order in which the map is ranged over *)
Fixpoint stringConfigData (storageConfigData : list (string * json)) (data : gmap string string)
  : exec (gmap string string) :=
  match storageConfigData with
  | [] => Ret data
  | (k, v) :: rest =>
      jsonValue ← noError (dy_MarshalJSON dy v);
      stringConfigData rest (<[k := jsonValue]> data)
  end.

Definition CreateStorageConfigSecret (storageConfigData : list (string * json)) : io ApiCall () :=
  data ← lift (stringConfigData storageConfigData ∅);
  createSecrets (mkSecret "Opaque" StorageConfigSecretName data).

Definition DeleteSecret (resourceName namespace : string) : io ApiCall (option error) :=
  match dy_Get dy gvrSecret namespace resourceName with
  | Ok _ =>
      let c := ApiDelete gvrSecret namespace resourceName in
      _ ← call c; return (dy_Done dy c)
  | Err _ => return None
  end.

(** An error is only logged. *)
Definition deleteSecrets (resourceName : string) : io ApiCall () :=
  _ ← DeleteSecret resourceName (fc_controllerNamespace fvt);
  if bool_decide (fc_namespace fvt ≠ fc_controllerNamespace fvt)
  then _ ← DeleteSecret resourceName (fc_namespace fvt); return tt else return tt.

Definition DeleteStorageConfigSecret : io ApiCall () := deleteSecrets StorageConfigSecretName.
Definition DeleteTLSSecrets : io ApiCall () := deleteSecrets TLSSecretName.
End Client.

(** ** Certificates (fvt/tls.go) *)

(** The fields of a certificate template that the code sets *)
Record CertTemplate := mkCertTemplate {
  ct_SerialNumber : Z;
  ct_Organization : list string;
  ct_IPAddresses : list string;
  ct_DNSNames : list string;
  ct_NotBefore : Z;
  ct_NotAfter : Z;
  ct_IsCA : bool;
  ct_KeyUsage : list string;
  ct_ExtKeyUsage : list string;
  ct_BasicConstraintsValid : bool;
  ct_SubjectKeyId : list Z
}.

(** The cryptographic libraries: the keys that are generated, a certificate of a template
    signed for a parent with the parent's key, and the encodings. [AddDate] moves a time
    by years, months and days. *)
Record CryptoLibs := mkCryptoLibs {
  Key : Type;
  cr_GenerateKey : string → result error Key;
  cr_CreateCertificate : CertTemplate → CertTemplate → Key → Key → result error string;
  cr_MarshalPKCS8 : Key → result error string;
  (** what is written, and an error *)
  cr_pemEncode : string → string → string * option error;
  cr_AddDate : Z → Z → Z → Z → Z
}.

Definition dnsNames (g : CertGenerator) : list string :=
  cg_ServiceName g :: map (λ ns, cg_ServiceName g +:+ "." +:+ ns) (cg_Namespaces g).

Definition authUsages : list string := ["ClientAuth"; "ServerAuth"].

Definition caTemplate (cl : CryptoLibs) (now : Z) : CertTemplate :=
  mkCertTemplate 3008 ["KServe"] [] [] now (cr_AddDate cl now 10 0 0) true
    ["DigitalSignature"; "CertSign"] authUsages true [].

Definition certTemplate (cl : CryptoLibs) (now : Z) (g : CertGenerator) : CertTemplate :=
  mkCertTemplate 1337 ["KServe"] ["127.0.0.1"; "0.0.0.0"; "::1"] (dnsNames g) now
    (cr_AddDate cl now 0 0 1) false ["DigitalSignature"] authUsages false [1; 2; 3; 4; 6]%Z.

Definition set_CAPEM (s : string) (g : CertGenerator) : CertGenerator :=
  mkCertGenerator (cg_Namespaces g) (cg_ServiceName g) (Some s) (cg_PublicKeyPEM g)
    (cg_PrivateKeyPEM g).
Definition set_PublicKeyPEM (s : string) (g : CertGenerator) : CertGenerator :=
  mkCertGenerator (cg_Namespaces g) (cg_ServiceName g) (cg_CAPEM g) (Some s) (cg_PrivateKeyPEM g).
Definition set_PrivateKeyPEM (s : string) (g : CertGenerator) : CertGenerator :=
  mkCertGenerator (cg_Namespaces g) (cg_ServiceName g) (cg_CAPEM g) (cg_PublicKeyPEM g) (Some s).

(** The encodings, one buffer after another; the first error ends it. *)
Definition encodePEMs (cl : CryptoLibs) (caBytes certBytes : string) (certPrivKey : Key cl)
    (g : CertGenerator) : CertGenerator * option error :=
  let '(s, err) := cr_pemEncode cl "CERTIFICATE" caBytes in
  let g := set_CAPEM s g in
  match err with
  | Some e => (g, Some e)
  | None =>
      let '(s, err) := cr_pemEncode cl "CERTIFICATE" certBytes in
      let g := set_PublicKeyPEM s g in
      match err with
      | Some e => (g, Some e)
      | None =>
          let g := set_PrivateKeyPEM "" g in
          match cr_MarshalPKCS8 cl certPrivKey with
          | Err e => (g, Some e)
          | Ok privBytes =>
              let '(s, err) := cr_pemEncode cl "PRIVATE KEY" privBytes in
              (set_PrivateKeyPEM s g, err)
          end
      end
  end.

(** The two keys are generated one after the other. *)
Definition generate (cl : CryptoLibs) (now : Z) (g : CertGenerator)
  : CertGenerator * option error :=
  let ca := caTemplate cl now in
  match cr_GenerateKey cl "ca" with
  | Err e => (g, Some e)
  | Ok caPrivKey =>
      match cr_GenerateKey cl "cert" with
      | Err e => (g, Some e)
      | Ok certPrivKey =>
          match cr_CreateCertificate cl ca ca caPrivKey caPrivKey with
          | Err e => (g, Some e)
          | Ok caBytes =>
              match cr_CreateCertificate cl (certTemplate cl now g) ca certPrivKey caPrivKey with
              | Err e => (g, Some e)
              | Ok certBytes => encodePEMs cl caBytes certBytes certPrivKey g
              end
          end
      end
  end.

(** The TLS secrets; the new generator stays in the client. A nil buffer prints as
    "<nil>", but after a generation without error there is none. *)
Definition CreateTLSSecrets (dy : Dynamic) (MarshalSecret : Secret → result error string)
    (cl : CryptoLibs) (now : Z) (fvt : FVTClient) : io ApiCall CertGenerator :=
  let '(g, err) := generate cl now (fc_certGenerator fvt) in
  _ ← lift (noErr err);
  _ ← createSecrets dy fvt MarshalSecret (mkSecret "kubernetes.io/tls" TLSSecretName
        (<["tls.crt" := default "<nil>" (cg_PublicKeyPEM g)]>
           (<["tls.key" := default "<nil>" (cg_PrivateKeyPEM g)]>
              {["ca.crt" := default "<nil>" (cg_CAPEM g)]})));
  return g.

(** ** kubectl *)

Section Print.
Variable kubectl : list string → option error.
Variable fvt : FVTClient.

(** The error of a command is logged. *)
Definition RunKubectl (args : list string) : io ApiCall (option error) :=
  let args := args ++ ["-n"; fc_namespace fvt] in
  _ ← call (Kubectl args); return (kubectl args).

Definition printWith (args : list string) : io ApiCall () := _ ← RunKubectl args; return tt.

Definition PrintPredictors : io ApiCall () := printWith ["get"; "predictors"].
Definition PrintHPAs : io ApiCall () := printWith ["get"; "hpa"].
Definition PrintIsvcs : io ApiCall () := printWith ["get"; "inferenceservices"].
Definition PrintDescribeIsvc (name : string) : io ApiCall () := printWith ["describe"; "isvc"; name].
Definition PrintPods : io ApiCall () := printWith ["get"; "pods"].
Definition PrintDescribeNodes : io ApiCall () := printWith ["describe"; "nodes"].
Definition PrintEvents : io ApiCall () := printWith ["get"; "events"].
Definition PrintMMConfig : io ApiCall () := printWith ["get"; "cm"; UserConfigMapName; "-o"; "yaml"].

Definition logsOf (label sinceTime : string) : list string :=
  ["logs"; "-l"; label; "--all-containers"; "--tail=100"; "--prefix"; "--since-time"; sinceTime;
   "--timestamps"].

Definition TailPodLogs (sinceTime : string) : io ApiCall () :=
  _ ← printWith (logsOf "control-plane=modelmesh-controller" sinceTime);
  printWith (logsOf "modelmesh-service=modelmesh-serving" sinceTime).

Fixpoint printPods (names : list string) : io ApiCall () :=
  match names with
  | [] => return tt
  | podName :: rest => _ ← printWith ["get"; "pod/" +:+ podName; "-o"; "yaml"]; printPods rest
  end.

(** An error of the list is logged, and the nil list then dereferenced. *)
Definition PrintContainerEnvsFromAllPods `{!Unstructured} (dy : Dynamic) : io ApiCall () :=
  match dy_List dy gvrPods (fc_namespace fvt)
          (mkListOptions "modelmesh-service=modelmesh-serving" "" 0 None) with
  | Err _ => lift Panic
  | Ok pods => printPods (map GetName pods)
  end.
End Print.

(** ** Set-up (fvt/utils.go) *)

Section Setup.
Context `{!Unstructured, !UnstructuredWrites}.
Variable Getenv : string → string.

Definition orDefault (s d : string) : string := if bool_decide (s = "") then d else s.

(** The client and the scope mode *)
Definition InitializeFVTClient (config scheme dyn : option error) (parallelProcess : Z)
  : exec (FVTClient * bool) :=
  let namespace := orDefault (Getenv "NAMESPACE") "modelmesh-serving" in
  let serviceName := orDefault (Getenv "SERVICENAME") "modelmesh-serving" in
  let controllerNamespace := orDefault (Getenv "CONTROLLERNAMESPACE") "modelmesh-serving" in
  let NameSpaceScopeMode := bool_decide (Getenv "NAMESPACESCOPEMODE" = "true") in
  r ← GetFVTClient config scheme dyn parallelProcess namespace serviceName controllerNamespace;
  fvt ← noError r;
  Ret (fvt, NameSpaceScopeMode).

(** [Dir] is filepath.Dir. *)
Definition TestDataPath (Getwd : result error string) (Dir : string → string)
    (resourcePathWithinTestData : string) : exec string :=
  wd ← noError Getwd;
  Ret (Dir wd +:+ "/testdata/" +:+ resourcePathWithinTestData).

Definition DecodeResourceFromFile (ReadFile : string → result error string)
    (Decode : string → result error json) (resourcePath : string) : exec json :=
  content ← noError (ReadFile resourcePath);
  noError (Decode content).

Definition MakeUniquePredictorName (randString : string) (base : string) : string :=
  base +:+ "-" +:+ randString.

(** SetName is a write of the field that cannot fail on a decoded object. *)
Definition renamed (randString : string) (p : json) : exec json :=
  SetString p (MakeUniquePredictorName randString (GetName p)) ["metadata"; "name"].

Definition NewPredictorForFVT (Getwd : result error string) (Dir : string → string)
    (ReadFile : string → result error string) (Decode : string → result error json)
    (randString filename : string) : exec json :=
  path ← TestDataPath Getwd Dir ("predictors/" +:+ filename);
  p ← DecodeResourceFromFile ReadFile Decode path;
  renamed randString p.

Definition NewIsvcForFVT (Getwd : result error string) (Dir : string → string)
    (ReadFile : string → result error string) (Decode : string → result error json)
    (randString filename : string) : exec json :=
  path ← TestDataPath Getwd Dir ("isvcs/" +:+ filename);
  p ← DecodeResourceFromFile ReadFile Decode path;
  renamed randString p.
End Setup.

(** ** Theorems *)

(** *** Secrets are set up and removed in the same namespaces *)

(** The secrets of a cluster: what was applied, by namespace and name *)
Abbreviation secrets := (gmap (string * string) string).

Inductive secret_effect (dy : Dynamic) : ApiCall → secrets → secrets → Prop :=
| secret_applied ns name p o m : dy_Object dy (ApiPatch gvrSecret ns name p) = Ok o →
    secret_effect dy (ApiPatch gvrSecret ns name p) m (<[(ns, name) := p]> m)
| secret_deleted ns name m : dy_Done dy (ApiDelete gvrSecret ns name) = None →
    secret_effect dy (ApiDelete gvrSecret ns name) m (delete (ns, name) m).

Inductive secret_effects (dy : Dynamic) : list ApiCall → secrets → secrets → Prop :=
| secrets_nil m : secret_effects dy [] m m
| secrets_cons c cs m m1 m' : secret_effect dy c m m1 → secret_effects dy cs m1 m' →
    secret_effects dy (c :: cs) m m'.

(** The namespaces a fixture is set up in *)
Definition fixtureNamespaces (fvt : FVTClient) : list string :=
  fc_controllerNamespace fvt ::
    (if bool_decide (fc_namespace fvt ≠ fc_controllerNamespace fvt) then [fc_namespace fvt] else []).

Lemma createSecrets_calls dy fvt MarshalSecret secret tr :
  run (createSecrets dy fvt MarshalSecret secret) = Ret (tr, tt) →
  ∃ p, MarshalSecret secret = Ok p ∧
    tr = (λ ns, ApiPatch gvrSecret ns (sec_Name secret) p) <$> fixtureNamespaces fvt.
Proof.
  unfold createSecrets, CreateSecret, writeObject, fixtureNamespaces. run_io.
  destruct (MarshalSecret secret) as [p|]; [|done]. cbn [noError].
  destruct (dy_Object dy _) as [o|]; [|done]. cbn [noError]. intros Hrun. exists p. split; [done|].
  revert Hrun. case_bool_decide; [|by intros [= <-]].
  destruct (dy_Object dy (ApiPatch gvrSecret (fc_namespace fvt) _ _)) as [o'|]; [|done].
  cbn [noError]. by intros [= <-].
Qed.

(** The secrets that are found are deleted. *)
Definition found (dy : Dynamic) (name ns : string) : bool :=
  match dy_Get dy gvrSecret ns name with Ok _ => true | Err _ => false end.

Lemma deleteSecrets_run dy fvt name :
  run (deleteSecrets dy fvt name) =
    Ret ((λ ns, ApiDelete gvrSecret ns name) <$>
           filter (λ ns, found dy name ns = true) (fixtureNamespaces fvt), tt).
Proof.
  unfold deleteSecrets, DeleteSecret, fixtureNamespaces. run_io.
  assert (∀ ns l, filter (λ ns, found dy name ns = true) (ns :: l) =
    match dy_Get dy gvrSecret ns name with
    | Ok _ => ns :: filter (λ ns, found dy name ns = true) l
    | Err _ => filter (λ ns, found dy name ns = true) l
    end) as Hf.
  { intros ns l. rewrite filter_cons. case_decide as E; unfold found in E;
      by destruct (dy_Get dy gvrSecret ns name). }
  rewrite Hf. destruct (dy_Get dy gvrSecret (fc_controllerNamespace fvt) name);
    case_bool_decide; rewrite ?Hf; try done;
    destruct (dy_Get dy gvrSecret (fc_namespace fvt) name); done.
Qed.

Lemma patched_secrets dy name p nss m m' :
  secret_effects dy ((λ ns, ApiPatch gvrSecret ns name p) <$> nss) m m' →
  ∀ k, m' !! k = if decide (k.2 = name ∧ k.1 ∈ nss) then Some p else m !! k.
Proof.
  revert m. induction nss as [|ns nss IH]; intros m Heff k.
  - inversion Heff; subst. rewrite decide_False by (intros [_ []%elem_of_nil]). done.
  - cbn in Heff. inversion Heff as [|c cs ? m1 ? Hc Hcs]; subst. inversion Hc; subst.
    rewrite (IH _ Hcs k). destruct k as [ns' name']. cbn.
    destruct (decide (name' = name ∧ ns' ∈ nss)) as [[-> Hin]|Hno].
    + rewrite decide_True; [done|]. split; [done|]. by right.
    + rewrite lookup_insert. case_decide as E1.
      * injection E1 as <- <-. rewrite decide_True; [done|]. split; [done|]. by left.
      * rewrite decide_False; [done|]. intros [-> [->|?]%elem_of_cons]; naive_solver.
Qed.

Lemma removed_secrets dy name nss m m' :
  secret_effects dy ((λ ns, ApiDelete gvrSecret ns name) <$> nss) m m' →
  ∀ k, m' !! k = if decide (k.2 = name ∧ k.1 ∈ nss) then None else m !! k.
Proof.
  revert m. induction nss as [|ns nss IH]; intros m Heff k.
  - inversion Heff; subst. rewrite decide_False by (intros [_ []%elem_of_nil]). done.
  - cbn in Heff. inversion Heff as [|c cs ? m1 ? Hc Hcs]; subst. inversion Hc; subst.
    rewrite (IH _ Hcs k). destruct k as [ns' name']. cbn.
    destruct (decide (name' = name ∧ ns' ∈ nss)) as [[-> Hin]|Hno].
    + rewrite decide_True; [done|]. split; [done|]. by right.
    + rewrite lookup_delete. case_decide as E1.
      * injection E1 as <- <-. rewrite decide_True; [done|]. split; [done|]. by left.
      * rewrite decide_False; [done|]. intros [-> [->|?]%elem_of_cons]; naive_solver.
Qed.

(** Set-up and tear-down of the TLS fixture are inverse. A set-up that passes has put
    one and the same secret with the generated key pair into the namespace of the
    controller and that of the tests, and touched nothing else; and when the tear-down
    sees these secrets and may delete them, the cluster has the secrets it had before,
    but for older ones of that name. *)
Theorem tls_fixture_roundtrip dy dy' MarshalSecret cl now fvt tr g tr' m m1 m2 :
  run (CreateTLSSecrets dy MarshalSecret cl now fvt) = Ret (tr, g) →
  secret_effects dy tr m m1 →
  (∀ ns, found dy' TLSSecretName ns = true ↔ is_Some (m1 !! (ns, TLSSecretName))) →
  run (DeleteTLSSecrets dy' fvt) = Ret (tr', tt) → secret_effects dy' tr' m1 m2 →
  (∃ p, ∀ ns, ns ∈ fixtureNamespaces fvt → m1 !! (ns, TLSSecretName) = Some p) ∧
  (∀ k, k.2 ≠ TLSSecretName ∨ k.1 ∉ fixtureNamespaces fvt → m1 !! k = m !! k ∧ m2 !! k = m !! k) ∧
  (∀ ns, ns ∈ fixtureNamespaces fvt → m2 !! (ns, TLSSecretName) = None).
Proof.
  intros Hc He Hf Hd He'. unfold CreateTLSSecrets in Hc.
  destruct (generate cl now (fc_certGenerator fvt)) as [g' err]. run_io.
  destruct (noErr err); [|done]. destruct (createSecrets dy fvt MarshalSecret _ []) as [[tr1 []]|] eqn:Ec;
    [|done]. injection Hc as <- <-.
  apply createSecrets_calls in Ec as (p & _ & ->). pose proof (patched_secrets _ _ _ _ _ _ He) as H1.
  unfold DeleteTLSSecrets in Hd. change (deleteSecrets dy' fvt TLSSecretName [])
    with (run (deleteSecrets dy' fvt TLSSecretName)) in Hd. rewrite deleteSecrets_run in Hd.
  injection Hd as <-. pose proof (removed_secrets _ _ _ _ _ He') as H2. cbn [sec_Name] in H1.
  assert (∀ ns, ns ∈ fixtureNamespaces fvt → m1 !! (ns, TLSSecretName) = Some p) as Hp.
  { intros ns Hns. rewrite H1, decide_True; done. }
  split_and!; [by exists p| |].
  - intros k Hk. rewrite H2, !decide_False; [|intros [? [_ ?]%list_elem_of_filter]; tauto].
    split; [|]; rewrite H1, decide_False; tauto.
  - intros ns Hns. rewrite H2, decide_True; [done|]. split; [done|]. apply list_elem_of_filter.
    split; [|done]. apply Hf. rewrite Hp by done. eauto.
Qed.

(** *** Annotations of a runtime *)

Section Annotations.
Context `{!Unstructured, !UnstructuredWrites}.

(** The runtime is read and, in the scope of the suite, applied again with these
    annotations, without managed fields, and with everything outside of its metadata as
    it was read. *)
Theorem annotation_applied dy fvt mode name annotations tr :
  run (SetServingRuntimeAnnotation dy fvt mode name annotations) = Ret (tr, tt) →
  ∃ got obj patch,
    (if mode : bool then dy_Get dy gvrRuntime (fc_namespace fvt) name
     else dy_Get dy gvrCRuntime "" name) = Ok got ∧
    tr = [ApiPatch (if mode then gvrRuntime else gvrCRuntime) (if mode then fc_namespace fvt else "")
            (GetName obj) patch] ∧
    dy_MarshalYAML dy obj = Ok patch ∧
    field obj ["metadata"; "annotations"] = Some (JMap annotations) ∧
    field obj ["metadata"; "managedFields"] = None ∧
    ∀ k rest, k ≠ "metadata" → field obj (k :: rest) = field got (k :: rest).
Proof.
  assert (∀ got o1, SetNestedMap got annotations ["metadata"; "annotations"] = Ok o1 →
    let obj := withoutManagedFields o1 in
    field obj ["metadata"; "annotations"] = Some (JMap annotations) ∧
    field obj ["metadata"; "managedFields"] = None ∧
    ∀ k rest, k ≠ "metadata" → field obj (k :: rest) = field got (k :: rest)) as Hobj.
  { intros got o1 Hset obj. split_and!.
    - rewrite <- (SetNestedMap_field _ _ _ _ Hset).
      by apply (RemoveNestedField_sibling o1 ["metadata"] "managedFields" "annotations").
    - apply (RemoveNestedField_removed o1 ["metadata"] "managedFields").
    - intros k rest Hk. unfold obj, withoutManagedFields.
      rewrite RemoveNestedField_other by done.
      by eapply SetNestedMap_other. }
  unfold SetServingRuntimeAnnotation, ApplyServingRuntimeExpectSuccess,
    ApplyClusterServingRuntimeExpectSuccess, GetServingRuntime, GetClusterServingRuntime, SetMap,
    writeKind, writeObject. run_io.
  destruct mode; (destruct (dy_Get dy _ _ name) as [got|]; [|done]); cbn [noError];
    (destruct (SetNestedMap got annotations _) as [o1|] eqn:Hset; [|done]); cbn [noError];
    (destruct (dy_MarshalYAML dy _) as [patch|] eqn:Ep; [|done]); cbn [noError];
    (destruct (dy_Object dy _) as [o|]; [|done]); cbn [noError]; (destruct (Expect _); [|done]);
    intros [= <-]; exists got, (withoutManagedFields o1), patch;
    destruct (Hobj got o1 Hset) as (? & ? & ?); by split_and!.
Qed.
End Annotations.

(** *** Certificates and configuration *)

(** The certificate that is generated for a client names the service alone and in the
    namespaces of the controller and of the tests. *)
Theorem certificate_names config scheme dyn i ns svc cns fvt cl now :
  GetFVTClient config scheme dyn i ns svc cns = Ret (Ok fvt) →
  let names := ct_DNSNames (certTemplate cl now (fc_certGenerator fvt)) in
  svc ∈ names ∧ svc +:+ "." +:+ ns ∈ names ∧ svc +:+ "." +:+ cns ∈ names.
Proof.
  intros Hf names. assert (cg_ServiceName (fc_certGenerator fvt) = svc ∧
    ns ∈ cg_Namespaces (fc_certGenerator fvt) ∧ cns ∈ cg_Namespaces (fc_certGenerator fvt))
    as (Hs & Hn & Hc).
  { revert Hf. unfold GetFVTClient. destruct config; [done|]. destruct scheme; [done|].
    unfold Expect. destruct (bool_decide (dyn = None)); simpl; [|done]. intros [= <-]. cbn.
    case_bool_decide; set_solver. }
  subst names. unfold certTemplate, dnsNames. cbn [ct_DNSNames]. rewrite Hs.
  split_and!; [by left|right|right]; apply list_elem_of_fmap; eauto.
Qed.

(** The TLS configuration is the default one with the new setting. *)
Lemma mergedConfigs_spec tlsConfig k :
  getKey k (mergedConfigs tlsConfig) =
    if bool_decide (k = "tls") then Some (default JNull (getKey "tls" tlsConfig))
    else getKey k DefaultConfig.
Proof.
  unfold mergedConfigs. generalize (default JNull (getKey "tls" tlsConfig)). intros v.
  change (foldl _ _ _) with DefaultConfig.
  case_bool_decide as Hk; [subst; apply getKey_setKey|]. apply getKey_setKey_ne. congruence.
Qed.

(** An error of the list is not the end of the function: the nil list is dereferenced. *)
Theorem print_env_panics `{!Unstructured} kubectl fvt dy e :
  dy_List dy gvrPods (fc_namespace fvt)
    (mkListOptions "modelmesh-service=modelmesh-serving" "" 0 None) = Err e →
  run (PrintContainerEnvsFromAllPods kubectl fvt dy) = Panic.
Proof. intros He. unfold PrintContainerEnvsFromAllPods. by rewrite He. Qed.

(** ** Runs *)

(** Writes to a path of nested maps *)
Fixpoint setPath (o v : json) (path : list string) : result error json :=
  match path, o with
  | [], _ => Err (ErrMsg "no path")
  | k :: rest, JMap m =>
      match rest with
      | [] => Ok (JMap (setKey k v m))
      | _ :: _ =>
          match setPath (default (JMap []) (getKey k m)) v rest with
          | Ok sub => Ok (JMap (setKey k sub m))
          | Err e => Err e
          end
      end
  | _, _ => Err (ErrMsg "type")
  end.

Fixpoint removePath (o : json) (path : list string) : json :=
  match path, o with
  | k :: rest, JMap m =>
      match rest with
      | [] => JMap (filter (λ kv, kv.1 ≠ k) m)
      | _ :: _ =>
          match getKey k m with
          | Some sub => JMap (setKey k (removePath sub rest) m)
          | None => o
          end
      end
  | _, _ => o
  end.

Lemma getKey_filter (k k' : string) (m : list (string * json)) :
  getKey k' (filter (λ kv, kv.1 ≠ k) m) = if decide (k' = k) then None else getKey k' m.
Proof.
  induction m as [|[k0 v] m IH]; [by case_decide|]. rewrite filter_cons. cbn [fst].
  destruct (decide (k0 ≠ k)) as [Hne|<-%dec_stable]; cbn [getKey].
  - rewrite IH. case_bool_decide; [|done]. subst. by rewrite decide_False.
  - rewrite IH. case_decide; [done|]. by rewrite bool_decide_false.
Qed.

Lemma setPath_field o v path o' : setPath o v path = Ok o' → field o' path = Some v.
Proof.
  revert o o'. induction path as [|k path IH]; intros o o'; [done|].
  destruct o as [| | | | |m]; try done. cbn [setPath]. destruct path as [|k2 path].
  - intros [= <-]. cbn. by rewrite getKey_setKey.
  - destruct (setPath _ v (k2 :: path)) as [sub|] eqn:E; [|done]. intros [= <-].
    cbn [field]. rewrite getKey_setKey. exact (IH _ _ E).
Qed.

Lemma setPath_other o v k rest o' k' rest' :
  setPath o v (k :: rest) = Ok o' → k' ≠ k → field o' (k' :: rest') = field o (k' :: rest').
Proof.
  intros Hs Hne. destruct o as [| | | | |m]; try done. cbn [setPath] in Hs.
  destruct rest as [|k2 rest].
  - injection Hs as <-. cbn. by rewrite getKey_setKey_ne.
  - destruct (setPath _ v (k2 :: rest)) as [sub|]; [|done]. injection Hs as <-. cbn.
    by rewrite getKey_setKey_ne.
Qed.

Lemma removePath_other o k rest k' rest' :
  k' ≠ k → field (removePath o (k :: rest)) (k' :: rest') = field o (k' :: rest').
Proof.
  intros Hne. destruct o as [| | | | |m]; try done. cbn [removePath]. destruct rest as [|k2 rest].
  - cbn. by rewrite getKey_filter, decide_False.
  - destruct (getKey k m) as [sub|]; [|done]. cbn. by rewrite getKey_setKey_ne.
Qed.

Lemma removePath_sibling o path k k' :
  field (removePath o (path ++ [k])) (path ++ [k']) =
    if decide (k' = k) then None else field o (path ++ [k']).
Proof.
  revert o. induction path as [|k0 path IH]; intros o.
  - destruct o as [| | | | |m]; cbn; try by case_decide. rewrite getKey_filter. by case_decide.
  - destruct o as [| | | | |m]; try by cbn; case_decide. cbn [app removePath].
    destruct (path ++ [k]) as [|k2 rest] eqn:E; [by destruct path|].
    destruct (getKey k0 m) as [sub|] eqn:Eg; cbn [field].
    + rewrite getKey_setKey. cbn [mbind option_bind]. rewrite Eg. apply IH.
    + rewrite Eg. cbn. by case_decide.
Qed.

Definition unstructuredWritesImpl : @UnstructuredWrites unstructuredImpl.
Proof.
  refine (@Build_UnstructuredWrites unstructuredImpl (λ o m path, setPath o (JMap m) path) setPath
    removePath _ _ _ _ _).
  - intros o m path o'. apply setPath_field.
  - intros o m path o' k rest k' rest' Hs -> Hne. by eapply setPath_other.
  - intros o path k. by rewrite removePath_sibling, decide_True.
  - intros o path k k' Hne. by rewrite removePath_sibling, decide_False.
  - intros. by apply removePath_other.
Defined.

(** An API server that accepts every write and has the TLS secrets of two namespaces *)
Definition exDynamic : Dynamic :=
  mkDynamic (λ r ns n, if bool_decide (n = TLSSecretName) &&
                          bool_decide (ns ∈ fixtureNamespaces exFVTClient)
                       then Ok (JMap []) else Err ErrNotFound)
    (λ _ _ _, Ok []) (λ _, Ok (JMap [])) (λ _, None) (λ _, Ok "yaml") (λ _, Ok "json").

Definition exCrypto : CryptoLibs :=
  mkCryptoLibs string (λ s, Ok s) (λ _ _ _ _, Ok "cert") (λ k, Ok k)
    (λ t b, (t +:+ b, None)) (λ now y m d, now + y * 31536000 + m * 2592000 + d * 86400)%Z.

Definition exSecrets : secrets := {[ ("other", TLSSecretName) := "theirs" ]}.
Definition exWithTLS : secrets :=
  <[("ns", TLSSecretName) := "secret"]> (<[("controller", TLSSecretName) := "secret"]> exSecrets).

Lemma tls_fixture_roundtrip_witness :
  exWithTLS !! ("ns", TLSSecretName) = Some "secret" ∧
  ∃ m2 : secrets, m2 !! ("ns", TLSSecretName) = None ∧ m2 !! ("other", TLSSecretName) = Some "theirs".
Proof.
  split; [vm_compute; reflexivity|].
  set (calls := (λ ns, ApiPatch gvrSecret ns TLSSecretName "secret") <$> fixtureNamespaces exFVTClient).
  set (m2 := delete ("ns", TLSSecretName) (delete ("controller", TLSSecretName) exWithTLS)).
  assert (secret_effects exDynamic calls exSecrets exWithTLS) as He1.
  { eapply secrets_cons; [eapply secret_applied; reflexivity|].
    eapply secrets_cons; [eapply secret_applied; reflexivity|]. apply secrets_nil. }
  edestruct (tls_fixture_roundtrip exDynamic
    (mkDynamic (λ r ns n, if decide (is_Some (exWithTLS !! (ns, n))) then Ok JNull else Err ErrNotFound)
       (λ _ _ _, Ok []) (λ _, Ok (JMap [])) (λ _, None) (λ _, Ok "yaml") (λ _, Ok "json"))
    (λ _, Ok "secret") exCrypto 0 exFVTClient calls) as (_ & Hsame & Hgone).
  - vm_compute. reflexivity.
  - exact He1.
  - intros ns. unfold found. cbn [dy_Get]. destruct (decide (is_Some (exWithTLS !! (ns, TLSSecretName)))).
    + split; [intros _; assumption|reflexivity].
    + split; [discriminate|contradiction].
  - vm_compute. reflexivity.
  - eapply secrets_cons; [apply secret_deleted; reflexivity|].
    eapply secrets_cons; [apply secret_deleted; reflexivity|]. apply secrets_nil.
  - exists m2. split.
    + apply Hgone. right. left.
    + destruct (Hsame ("other", TLSSecretName)) as [_ H]; [right; set_solver|].
      etransitivity; [exact H|]. vm_compute. reflexivity.
Defined.
