(* ===== verification/FVTInference.v ===== *)
(** * The inference requests of the acceptance tests (fvt/inference.go)

    Each test builds a request from an image or a feature vector, sends it over the
    test client's connection and checks the response. The floating-point numbers are those
    of IEEE 754 ([spec_float] at the precisions of float32 and float64), the bytes of a
    tensor are the numbers' bits, least significant byte first. The readers of the image
    sets and the servers' answers are arguments; a failed expectation, a nil pointer and
    an index out of range are panics. *)

From S2P Require Import Prelude GoStrings Types Overlay FVT FVTSession FVTClient.
From Stdlib Require Import SpecFloat.
From stdpp Require Import sorting.
From coqutil Require Import Byte Word.LittleEndianList.

Open Scope go_scope.

(** ** Floating-point numbers *)

(** The number of the precision that is nearest to [p / q] *)
Definition nearest (prec emax p : Z) (q : positive) : spec_float :=
  match p with
  | Z0 => S754_zero false
  | Zpos m => SFdiv prec emax (S754_finite false m 0) (S754_finite false q 0)
  | Zneg m => SFdiv prec emax (S754_finite true m 0) (S754_finite false q 0)
  end.

Abbreviation valid32 := (valid_binary 24 128).
Abbreviation float32 p q := (nearest 24 128 p q).
Abbreviation float64 p q := (nearest 53 1024 p q).

Definition EPSILON : spec_float := float64 1 1000000.

(** The conversion of a float32 is exact. *)
Definition float64_of_float32 (x : spec_float) : spec_float :=
  match x with
  | S754_finite s m e => binary_normalize 53 1024 (cond_Zopp s (Zpos m)) e s
  | _ => x
  end.

Definition Abs (x : spec_float) : spec_float := SFabs x.

(** To the nearest integer, half away from zero *)
Definition Round (x : spec_float) : spec_float :=
  match x with
  | S754_finite s m e =>
      if (0 <=? e)%Z then x
      else binary_normalize 53 1024
             (cond_Zopp s (Z.shiftr (Zpos m + Z.shiftl 1 (- e - 1)) (- e))) 0 s
  | _ => x
  end.

Definition sign_bit (s : bool) : Z := Z.shiftl (Z.b2z s) 31.

(** A number that is not a number has many encodings; this is the one of math.NaN. *)
Definition Float32bits (x : spec_float) : Z :=
  match x with
  | S754_zero s => sign_bit s
  | S754_infinity s => sign_bit s + Z.shiftl 255 23
  | S754_nan => 0x7fc00000
  | S754_finite s m e =>
      if (Zpos m <? Z.shiftl 1 23)%Z then sign_bit s + Zpos m
      else sign_bit s + Z.shiftl (e + 150) 23 + (Zpos m - Z.shiftl 1 23)
  end%Z.

Definition Float32frombits (b : Z) : spec_float :=
  let s := Z.testbit b 31 in
  let e := Z.land (Z.shiftr b 23) 0xff in
  let m := Z.land b 0x7fffff in
  (if e =? 255 then if m =? 0 then S754_infinity s else S754_nan
   else if e =? 0 then match m with Zpos p => S754_finite s p (-149) | _ => S754_zero s end
   else match m + Z.shiftl 1 23 with Zpos p => S754_finite s p (e - 150) | _ => S754_nan end)%Z.

(** ** Raw contents *)

(** binary.Write of numbers does not fail. *)
Definition convertFloatArrayToRawContent (input : list spec_float) : result error (list byte) :=
  Ok (x ← input; le_split 4 (Float32bits x)).

Fixpoint readFloats (n : nat) (raw : list byte) : list spec_float :=
  match n with
  | O => []
  | S n => Float32frombits (le_combine (take 4 raw)) :: readFloats n (drop 4 raw)
  end.

(** binary.Read needs all 40 bytes: without them the array keeps its zeros. *)
Definition convertRawOutputContentsTo10Floats (raw : list byte) : list spec_float * option error :=
  match raw with
  | [] => (replicate 10 (S754_zero false), Some (ErrMsg "EOF"))
  | _ => if bool_decide (length raw < 40)
         then (replicate 10 (S754_zero false), Some (ErrMsg "unexpected EOF"))
         else (readFloats 10 raw, None)
  end.

(** The loop over the activations, from the index [i] on *)
Fixpoint argmaxFrom (i : nat) (max : spec_float) (maxI : nat) (rest : list spec_float) : nat :=
  match rest with
  | [] => maxI
  | x :: rest => if SFltb max x then argmaxFrom (S i) x i rest
                 else argmaxFrom (S i) max maxI rest
  end.

Definition argmax (activations : list spec_float) : exec nat :=
  match activations with
  | [] => Panic
  | max :: rest => Ret (argmaxFrom 1 max 0 rest)
  end.

(** ** Messages *)

Record InferInputTensor := mkInferInputTensor {
  it_Name : string;
  it_Shape : list Z;
  it_Datatype : string;
  it_Fp32Contents : list spec_float
}.

Record ModelInferRequest := mkModelInferRequest {
  mi_ModelName : string;
  mi_Inputs : list InferInputTensor
}.

Record InferTensorContents := mkInferTensorContents {
  tc_Int64Contents : list Z;
  tc_Fp32Contents : list spec_float;
  tc_Fp64Contents : list spec_float
}.

(** Of an output, its contents *)
Record ModelInferResponse := mkModelInferResponse {
  mr_ModelName : string;
  mr_Outputs : list (option (option InferTensorContents));
  mr_RawOutputContents : list (list byte)
}.

Record TensorProto := mkTensorProto { tp_Dim : list Z; tp_TensorContent : list byte }.

(** The data type of an input is DT_FLOAT. *)
Record PredictRequest := mkPredictRequest {
  pr_Name : string;
  pr_Inputs : gmap string TensorProto
}.

Record PredictionsRequest := mkPredictionsRequest {
  ps_ModelName : string;
  ps_Input : gmap string (list byte)
}.

(** No error, and not nil *)
Definition answer {A} (r : result error (option A)) : exec A := noError r ≫= deref.

(** ** Images and feature vectors *)

(** The pixels of an image are normalized to the range from -1 to 1. *)
Definition normalized (v : byte) : spec_float :=
  SFsub 24 128 (SFdiv 24 128 (float32 (byte.unsigned v) 1) (float32 1275 10)) (float32 1 1).

Definition sklearnPixels : list Z :=
  [0; 0; 1; 11; 14; 15; 3; 0; 0; 1; 13; 16; 12; 16; 8; 0; 0; 8; 16; 4; 6; 16; 5; 0; 0; 5; 15; 11;
   13; 14; 0; 0; 0; 0; 2; 12; 16; 13; 0; 0; 0; 0; 0; 13; 16; 16; 6; 0; 0; 0; 0; 16; 16; 16; 7; 0;
   0; 0; 0; 11; 13; 12; 1; 0]%Z.
Definition sklearnImage : list spec_float := (λ n, float32 n 1) <$> sklearnPixels.

Definition mushroomFeatures : list Z :=
  [1; 0; 0; 0; 0; 0; 0; 0; 1; 0; 0; 0; 0; 0; 0; 0; 0; 0; 1; 0; 1; 0; 0; 1; 0; 0; 0; 0; 0; 0; 0; 0;
   0; 1; 0; 1; 0; 0; 1; 0; 0; 1; 0; 0; 0; 0; 0; 0; 0; 0; 0; 0; 1; 0; 0; 1; 0; 0; 0; 0; 0; 0; 0;
   0; 1; 0; 0; 0; 1; 0; 0; 0; 0; 0; 0; 0; 1; 0; 0; 0; 0; 0; 0; 0; 0; 1; 0; 1; 0; 0; 0; 1; 0; 0;
   1; 0; 0; 0; 0; 0; 0; 1; 0; 0; 0; 1; 0; 0; 0; 0; 0; 0; 0; 0; 0; 0; 1; 0; 0; 0; 0; 1; 0; 0; 0; 0]%Z.
Definition mushroomInputData : list spec_float := (λ n, float32 n 1) <$> mushroomFeatures.

(** The pixels in units of 10^-8, the last decimal that the source has *)
Definition kerasPixels : list Z :=
  [0; 0; 0; 0; 0; 0; 0; 0; 0; 0; 0; 0; 0; 0; 0; 0; 0; 0; 0; 0; 0; 0; 0; 0; 0; 0; 0; 0; 0; 0; 0; 0;
   0; 0; 0; 0; 0; 0; 0; 0; 0; 0; 0; 0; 0; 0; 0; 0; 0; 0; 0; 0; 0; 0; 0; 0; 0; 0; 0; 0; 0; 0; 0;
   0; 0; 0; 0; 0; 0; 0; 0; 0; 0; 0; 0; 0; 0; 0; 0; 0; 0; 0; 0; 0; 0; 0; 0; 0; 0; 0; 0; 0; 0; 0;
   0; 0; 0; 0; 0; 0; 0; 0; 0; 0; 0; 0; 0; 0; 0; 0; 0; 0; 0; 0; 0; 0; 0; 0; 0; 0; 0; 0; 0; 0; 0;
   0; 0; 0; 0; 0; 0; 0; 0; 0; 0; 0; 0; 0; 0; 0; 0; 0; 0; 0; 0; 0; 0; 0; 0; 0; 0; 0; 1176471;
   7058824; 7058824; 7058824; 49411765; 53333336; 68627450; 10196079; 65098040; 100000000;
   96862745; 49803922; 0; 0; 0; 0; 0; 0; 0; 0; 0; 0; 0; 0; 11764706; 14117648; 36862746;
   60392160; 66666670; 99215686; 99215686; 99215686; 99215686; 99215686; 88235295; 67450980;
   99215686; 94901960; 76470590; 25098040; 0; 0; 0; 0; 0; 0; 0; 0; 0; 0; 0; 19215687; 93333334;
   99215686; 99215686; 99215686; 99215686; 99215686; 99215686; 99215686; 99215686; 98431370;
   36470590; 32156864; 32156864; 21960784; 15294118; 0; 0; 0; 0; 0; 0; 0; 0; 0; 0; 0; 0; 7058824;
   85882354; 99215686; 99215686; 99215686; 99215686; 99215686; 77647060; 71372550; 96862745;
   94509804; 0; 0; 0; 0; 0; 0; 0; 0; 0; 0; 0; 0; 0; 0; 0; 0; 0; 0; 31372550; 61176470; 41960785;
   99215686; 99215686; 80392160; 4313726; 0; 16862746; 60392160; 0; 0; 0; 0; 0; 0; 0; 0; 0; 0; 0;
   0; 0; 0; 0; 0; 0; 0; 0; 5490196; 392157; 60392160; 99215686; 35294120; 0; 0; 0; 0; 0; 0; 0; 0;
   0; 0; 0; 0; 0; 0; 0; 0; 0; 0; 0; 0; 0; 0; 0; 0; 0; 54509807; 99215686; 74509805; 784314; 0; 0;
   0; 0; 0; 0; 0; 0; 0; 0; 0; 0; 0; 0; 0; 0; 0; 0; 0; 0; 0; 0; 0; 0; 4313726; 74509805; 99215686;
   27450982; 0; 0; 0; 0; 0; 0; 0; 0; 0; 0; 0; 0; 0; 0; 0; 0; 0; 0; 0; 0; 0; 0; 0; 0; 0; 13725491;
   94509804; 88235295; 62745100; 42352942; 392157; 0; 0; 0; 0; 0; 0; 0; 0; 0; 0; 0; 0; 0; 0; 0;
   0; 0; 0; 0; 0; 0; 0; 0; 31764707; 94117650; 99215686; 99215686; 46666667; 9803922; 0; 0; 0; 0;
   0; 0; 0; 0; 0; 0; 0; 0; 0; 0; 0; 0; 0; 0; 0; 0; 0; 0; 0; 17647060; 72941180; 99215686;
   99215686; 58823530; 10588235; 0; 0; 0; 0; 0; 0; 0; 0; 0; 0; 0; 0; 0; 0; 0; 0; 0; 0; 0; 0; 0;
   0; 0; 6274510; 36470590; 98823530; 99215686; 73333335; 0; 0; 0; 0; 0; 0; 0; 0; 0; 0; 0; 0; 0;
   0; 0; 0; 0; 0; 0; 0; 0; 0; 0; 0; 0; 97647060; 99215686; 97647060; 25098040; 0; 0; 0; 0; 0; 0;
   0; 0; 0; 0; 0; 0; 0; 0; 0; 0; 0; 0; 0; 0; 0; 18039216; 50980395; 71764710; 99215686; 99215686;
   81176470; 784314; 0; 0; 0; 0; 0; 0; 0; 0; 0; 0; 0; 0; 0; 0; 0; 0; 0; 0; 0; 15294118; 58039220;
   89803920; 99215686; 99215686; 99215686; 98039216; 71372550; 0; 0; 0; 0; 0; 0; 0; 0; 0; 0; 0;
   0; 0; 0; 0; 0; 0; 0; 9411765; 44705883; 86666670; 99215686; 99215686; 99215686; 99215686;
   78823530; 30588236; 0; 0; 0; 0; 0; 0; 0; 0; 0; 0; 0; 0; 0; 0; 0; 0; 0; 9019608; 25882354;
   83529410; 99215686; 99215686; 99215686; 99215686; 77647060; 31764707; 784314; 0; 0; 0; 0; 0;
   0; 0; 0; 0; 0; 0; 0; 0; 0; 0; 0; 7058824; 67058825; 85882354; 99215686; 99215686; 99215686;
   99215686; 76470590; 31372550; 3529412; 0; 0; 0; 0; 0; 0; 0; 0; 0; 0; 0; 0; 0; 0; 0; 0;
   21568628; 67450980; 88627450; 99215686; 99215686; 99215686; 99215686; 95686275; 52156866;
   4313726; 0; 0; 0; 0; 0; 0; 0; 0; 0; 0; 0; 0; 0; 0; 0; 0; 0; 0; 53333336; 99215686; 99215686;
   99215686; 83137256; 52941180; 51764710; 6274510; 0; 0; 0; 0; 0; 0; 0; 0; 0; 0; 0; 0; 0; 0; 0;
   0; 0; 0; 0; 0; 0; 0; 0; 0; 0; 0; 0; 0; 0; 0; 0; 0; 0; 0; 0; 0; 0; 0; 0; 0; 0; 0; 0; 0; 0; 0;
   0; 0; 0; 0; 0; 0; 0; 0; 0; 0; 0; 0; 0; 0; 0; 0; 0; 0; 0; 0; 0; 0; 0; 0; 0; 0; 0; 0; 0; 0; 0;
   0; 0; 0; 0; 0; 0; 0; 0; 0; 0; 0; 0; 0; 0; 0; 0; 0; 0; 0; 0; 0; 0; 0]%Z.
Definition kerasImage : list spec_float := (λ n, float32 n 100000000) <$> kerasPixels.

(** ** Marshalling a request's body *)

Definition quote : string := String (Ascii.ascii_of_nat 34) "".

Fixpoint insertKey (kv : string * string) (m : list (string * string)) : list (string * string) :=
  match m with
  | [] => [kv]
  | kv' :: rest => if String.leb kv.1 kv'.1 then kv :: m else kv' :: insertKey kv rest
  end.

(** json.Marshal: the keys of a map are sorted, a number that is whole has no decimal
    point. The strings here have no character that is escaped. *)
Fixpoint Marshal (v : json) : string :=
  match v with
  | JNull => "null"
  | JBool b => if b then "true" else "false"
  | JNumber n => Itoa n
  | JString s => quote +:+ s +:+ quote
  | JSlice l => "[" +:+ String.concat "," (Marshal <$> l) +:+ "]"
  | JMap m =>
      let entries := foldr insertKey [] ((λ '(k, x), (k, Marshal x)) <$> m) in
      "{" +:+ String.concat "," ((λ '(k, x), quote +:+ k +:+ quote +:+ ":" +:+ x) <$> entries) +:+ "}"
  end.

Definition restBody (shape data : list Z) : json :=
  JMap [("inputs", JSlice [JMap
    [("name", JString "predict"); ("shape", JSlice (JNumber <$> shape));
     ("datatype", JString "FP32"); ("data", JSlice (JNumber <$> data))]])].

(** ** The tests *)

Section Inference.

(** The files and the readers of the image sets; an MNIST image is an array. *)
Variable Getwd : result error string.
Variable Dir : string → string.
Variable LoadImageFile : string → result error (list (option (vec byte (28 * 28)))).
Variable Open : string → result error string.
Variable Decode10 : string → result error (list (list byte)).
Variable ReadFile : string → result error (list byte).

(** The client and what the servers answer *)
Variable FVTClientInstance : FVTClient.
Variable infer : conn → ModelInferRequest → result error (option ModelInferResponse).
Variable predict : conn → PredictRequest → result error (option (gmap string TensorProto)).
Variable predictions : conn → PredictionsRequest → result error (option string).
Variable post :
  ModelServingConnectionType → string → string → result error (Z * (string * option error)).

Definition LoadMnistImage (index : nat) : exec (list spec_float) :=
  path ← TestDataPath Getwd Dir "t10k-images-idx3-ubyte.gz";
  images ← noError (LoadImageFile path);
  image ← deref (images !! index) ≫= deref;
  Ret ((λ v, float32 (byte.unsigned v) 1) <$> vec_to_list image).

(** The array has 3 * 32 * 32 elements. *)
Definition LoadCifarImage (index : nat) : exec (list spec_float) :=
  path ← TestDataPath Getwd Dir "cifar_test_images.bin";
  file ← noError (Open path);
  images ← noError (Decode10 file);
  imageBytes ← deref (images !! index);
  if bool_decide (length imageBytes ≤ 3072)
  then Ret ((normalized <$> imageBytes) ++ replicate (3072 - length imageBytes) (S754_zero false))
  else Panic.

Definition fp32Request (predictorName input : string) (shape : list Z) (data : list spec_float)
  : ModelInferRequest :=
  mkModelInferRequest predictorName [mkInferInputTensor input shape "FP32" data].

Definition ExpectSuccessfulInference_onnxMnist (predictorName : string) : exec () :=
  image ← LoadMnistImage 0;
  let inferRequest := fp32Request predictorName "Input3" [1; 1; 28; 28]%Z image in
  inferResponse ← answer (RunKfsInference infer FVTClientInstance inferRequest);
  Expect (HasPrefix (mr_ModelName inferResponse) predictorName).

Definition tfsRequest (predictorName : string) (imageBytes : list byte) : PredictRequest :=
  mkPredictRequest predictorName {[ "Input3" := mkTensorProto [1; 1; 28; 28]%Z imageBytes ]}.

Definition ExpectSuccessfulInference_openvinoMnistTFSPredict (predictorName : string) : exec () :=
  image ← LoadMnistImage 0;
  imageBytes ← noError (convertFloatArrayToRawContent image);
  outputs ← answer (RunTfsInference predict FVTClientInstance (tfsRequest predictorName imageBytes));
  output ← deref (outputs !! "Plus214_Output_0");
  let '(activations, err) := convertRawOutputContentsTo10Floats (tp_TensorContent output) in
  maxI ← argmax activations;
  _ ← Expect (bool_decide (maxI = 7));
  noErr err.

Definition ExpectSuccessfulInference_torchserveMARPredict (predictorName : string) : exec () :=
  path ← TestDataPath Getwd Dir "0.png";
  imageBytes ← noError (ReadFile path);
  let inferRequest := mkPredictionsRequest predictorName {[ "data" := imageBytes ]} in
  _ ← answer (RunTorchserveInference predictions FVTClientInstance inferRequest);
  Ret tt.

Definition ExpectSuccessfulInference_pytorchCifar (predictorName : string) : exec () :=
  image ← LoadCifarImage 1;
  let inferRequest := fp32Request predictorName "INPUT__0" [1; 3; 32; 32]%Z image in
  inferResponse ← answer (RunKfsInference infer FVTClientInstance inferRequest);
  _ ← Expect (HasPrefix (mr_ModelName inferResponse) predictorName);
  raw ← deref (mr_RawOutputContents inferResponse !! 0);
  let '(output, err) := convertRawOutputContentsTo10Floats raw in
  _ ← noErr err;
  activation ← deref (output !! 8);
  let difference := SFsub 24 128 activation (float32 7343689441680908 1000000000000000) in
  Expect (SFltb (Abs (float64_of_float32 difference)) EPSILON).

Definition ExpectSuccessfulRESTInference_sklearnMnistSvm (predictorName : string) : exec () :=
  let jsonBytes := Marshal (restBody [1; 64]%Z sklearnPixels) in
  let '(inferResponse, err) :=
    RunKfsRestInference post FVTClientInstance predictorName jsonBytes false in
  _ ← noErr err;
  _ ← Expect (Contains inferResponse (quote +:+ "model_name" +:+ quote +:+ ":" +:+ quote +:+ predictorName));
  Expect (Contains inferResponse (quote +:+ "data" +:+ quote +:+ ":[8]")).

Definition ExpectSuccessfulRESTInference_xgboostMushroom (predictorName : string) (tls : bool)
  : exec () :=
  let jsonBytes := Marshal (restBody [1; 126]%Z mushroomFeatures) in
  let '(inferResponse, err) :=
    RunKfsRestInference post FVTClientInstance predictorName jsonBytes tls in
  _ ← noErr err;
  _ ← Expect (Contains inferResponse (quote +:+ "model_name" +:+ quote +:+ ":" +:+ quote +:+ predictorName));
  Expect (Contains inferResponse (quote +:+ "data" +:+ quote +:+ ":[0.0")).

(** The contents of the first output *)
Definition firstOutput (r : ModelInferResponse) : exec InferTensorContents :=
  output ← deref (mr_Outputs r !! 0) ≫= deref;
  deref output.

Definition ExpectSuccessfulInference_sklearnMnistSvm (predictorName : string) : exec () :=
  let inferRequest := fp32Request predictorName "predict" [1; 64]%Z sklearnImage in
  inferResponse ← answer (RunKfsInference infer FVTClientInstance inferRequest);
  _ ← Expect (HasPrefix (mr_ModelName inferResponse) predictorName);
  _ ← Expect (bool_decide (mr_Outputs inferResponse ≠ []));
  contents ← firstOutput inferResponse;
  _ ← Expect (bool_decide (tc_Int64Contents contents ≠ []));
  label ← deref (tc_Int64Contents contents !! 0);
  Expect (bool_decide (label = 8%Z)).

Definition ExpectSuccessfulInference_tensorflowMnist (predictorName : string) : exec () :=
  image ← LoadMnistImage 0;
  let inferRequest := fp32Request predictorName "inputs" [1; 784]%Z image in
  inferResponse ← answer (RunKfsInference infer FVTClientInstance inferRequest);
  _ ← Expect (HasPrefix (mr_ModelName inferResponse) predictorName);
  raw ← deref (mr_RawOutputContents inferResponse !! 0);
  label ← deref (raw !! 0);
  Expect (bool_decide (byte.unsigned label = 7%Z)).

Definition ExpectSuccessfulInference_kerasMnist (predictorName : string) : exec () :=
  let inferRequest := fp32Request predictorName "conv2d_input" [1; 28; 28; 1]%Z kerasImage in
  inferResponse ← answer (RunKfsInference infer FVTClientInstance inferRequest);
  _ ← Expect (HasPrefix (mr_ModelName inferResponse) predictorName);
  raw ← deref (mr_RawOutputContents inferResponse !! 0);
  let '(output, err) := convertRawOutputContentsTo10Floats raw in
  _ ← noErr err;
  maxIdx ← argmax output;
  Expect (bool_decide (maxIdx = 5)).

(** Rounded to one decimal, the prediction is zero. *)
Definition closeToZero (x : spec_float) : bool :=
  SFeqb (SFdiv 53 1024 (Round (SFmul 53 1024 x (float64 10 1))) (float64 10 1)) (S754_zero false).

Definition ExpectSuccessfulInference_lightgbmMushroom (predictorName : string) : exec () :=
  let inferRequest := fp32Request predictorName "predict" [1; 126]%Z mushroomInputData in
  inferResponse ← answer (RunKfsInference infer FVTClientInstance inferRequest);
  contents ← firstOutput inferResponse;
  prediction ← deref (tc_Fp64Contents contents !! 0);
  Expect (closeToZero prediction).

Definition ExpectSuccessfulInference_lightgbmFILMushroom (predictorName : string) : exec () :=
  let inferRequest := fp32Request predictorName "input__0" [1; 126]%Z mushroomInputData in
  _ ← answer (RunKfsInference infer FVTClientInstance inferRequest);
  Ret tt.

Definition ExpectSuccessfulInference_xgboostMushroom (predictorName : string) : exec () :=
  let inferRequest := fp32Request predictorName "predict" [1; 126]%Z mushroomInputData in
  inferResponse ← answer (RunKfsInference infer FVTClientInstance inferRequest);
  contents ← firstOutput inferResponse;
  prediction ← deref (tc_Fp32Contents contents !! 0);
  Expect (closeToZero (float64_of_float32 prediction)).

Definition ExpectSuccessfulInference_xgboostFILMushroom (predictorName : string) : exec () :=
  let inferRequest := fp32Request predictorName "input__0" [1; 126]%Z mushroomInputData in
  _ ← answer (RunKfsInference infer FVTClientInstance inferRequest);
  Ret tt.

End Inference.

(** ** Facts about the encoding *)

Lemma digits2_pos_bounds (m : positive) :
  (2 ^ (Zpos (digits2_pos m) - 1) ≤ Zpos m < 2 ^ Zpos (digits2_pos m))%Z.
Proof.
  induction m as [m IH|m IH|]; cbn [digits2_pos]; [..|done];
    rewrite Pos2Z.inj_succ;
    replace (Z.succ (Zpos (digits2_pos m)) - 1)%Z with (Z.succ (Zpos (digits2_pos m) - 1)) by lia;
    rewrite !Z.pow_succ_r by lia; lia.
Qed.

(** The mantissa and the exponent of a float32: a short mantissa has the least exponent. *)
Lemma valid32_finite s m e :
  valid32 (S754_finite s m e) = true →
  (Zpos m < 2 ^ 24 ∧ -149 ≤ e ≤ 104 ∧ (Zpos m < 2 ^ 23 → e = -149))%Z.
Proof.
  unfold valid_binary, bounded, canonical_mantissa, fexp, emin.
  intros [Hc%Z.eqb_eq He%Z.leb_le]%andb_true_iff.
  pose proof (digits2_pos_bounds m) as Hd. set (d := Zpos (digits2_pos m)) in *.
  assert (d ≤ 24)%Z as Hd24 by lia. repeat split; [|lia|lia|].
  - apply Z.lt_le_trans with (2 ^ d)%Z; [lia|]. apply Z.pow_le_mono_r; lia.
  - intros Hm. destruct (decide (d = 24)%Z) as [E|]; [|lia].
    rewrite E in Hd. change (24 - 1)%Z with 23%Z in Hd. lia.
Qed.

(** Taking the bits apart: the sign, eight bits of exponent, 23 bits of mantissa *)
Lemma bits_fields (s : bool) (e m : Z) :
  (0 ≤ e < 256 → 0 ≤ m < 2 ^ 23 →
   let b := sign_bit s + Z.shiftl e 23 + m in
   Z.testbit b 31 = s ∧ Z.land (Z.shiftr b 23) 0xff = e ∧ Z.land b 0x7fffff = m ∧
   0 ≤ b < 2 ^ 32)%Z.
Proof.
  intros He Hm b. subst b. unfold sign_bit. rewrite !Z.shiftl_mul_pow2 by lia.
  change 0xff%Z with (Z.ones 8). change 0x7fffff%Z with (Z.ones 23).
  rewrite !Z.land_ones, Z.shiftr_div_pow2, Z.testbit_eqb by lia.
  assert (Z.b2z s * 2 ^ 31 + e * 2 ^ 23 + m = (Z.b2z s * 2 ^ 8 + e) * 2 ^ 23 + m)%Z as -> by lia.
  assert (((Z.b2z s * 2 ^ 8 + e) * 2 ^ 23 + m) / 2 ^ 23 = Z.b2z s * 2 ^ 8 + e)%Z as Hdiv.
  { rewrite Z.div_add_l, (Z.div_small m) by lia. lia. }
  split_and!.
  - change (2 ^ 31)%Z with (2 ^ 23 * 2 ^ 8)%Z. rewrite <- Z.div_div, Hdiv by lia.
    rewrite Z.div_add_l, (Z.div_small e) by lia. by destruct s.
  - rewrite Hdiv, Z.add_comm, Z.mod_add, Z.mod_small by lia. done.
  - rewrite Z.add_comm, Z.mod_add, Z.mod_small by lia. done.
  - destruct s; simpl Z.b2z; lia.
  - destruct s; simpl Z.b2z; lia.
Qed.

Lemma Float32bits_range x : valid32 x = true → (0 ≤ Float32bits x < 2 ^ 32)%Z.
Proof.
  intros Hx. destruct x as [s|s| |s m e]; try destruct s; try done.
  all: apply valid32_finite in Hx as (H1 & H2 & H3); unfold Float32bits, sign_bit;
    destruct (Z.ltb_spec (Zpos m) (Z.shiftl 1 23)) as [Hm|Hm]; change (Z.shiftl 1 23) with (2 ^ 23)%Z in *;
    rewrite !Z.shiftl_mul_pow2 by lia; simpl Z.b2z; lia.
Qed.

Lemma Float32frombits_bits x : valid32 x = true → Float32frombits (Float32bits x) = x.
Proof.
  intros Hx. destruct x as [s|s| |s m e]; try (by destruct s); [done|].
  apply valid32_finite in Hx as (H1 & H2 & H3). unfold Float32bits.
  destruct (Z.ltb_spec (Zpos m) (Z.shiftl 1 23)) as [Hm|Hm];
    change (Z.shiftl 1 23) with (2 ^ 23)%Z in *.
  - destruct (bits_fields s 0 (Zpos m)) as (Hs & He & Hb & _); [lia..|].
    change (Z.shiftl 0 23) with 0%Z in *. rewrite Z.add_0_r in Hs, He, Hb.
    unfold Float32frombits. rewrite Hs, He, Hb. simpl. rewrite H3 by lia. done.
  - destruct (bits_fields s (e + 150) (Zpos m - 2 ^ 23)) as (Hs & He & Hb & _); [lia..|].
    unfold Float32frombits. rewrite Hs, He, Hb.
    destruct (Z.eqb_spec (e + 150) 255); [lia|]. destruct (Z.eqb_spec (e + 150) 0); [lia|].
    change (Z.shiftl 1 23) with (2 ^ 23)%Z.
    replace (Zpos m - 2 ^ 23 + 2 ^ 23)%Z with (Zpos m) by lia. f_equal. lia.
Qed.

Definition rawContent (l : list spec_float) : list byte := x ← l; le_split 4 (Float32bits x).

Lemma length_rawContent l : length (rawContent l) = 4 * length l.
Proof.
  induction l as [|x l IH]; [done|]. unfold rawContent in *.
  rewrite bind_cons, length_app, length_le_split, IH. simpl. lia.
Qed.

Lemma readFloats_raw l rest :
  Forall (λ x, valid32 x = true) l → readFloats (length l) (rawContent l ++ rest) = l.
Proof.
  induction 1 as [|x l Hx Hl IH]; [done|]. unfold rawContent. cbn [length readFloats].
  rewrite bind_cons, <- (assoc_L (++)).
  rewrite take_app_length', drop_app_length' by (by rewrite length_le_split).
  rewrite le_combine_split, Z.mod_small by (by apply Float32bits_range).
  rewrite Float32frombits_bits by done. f_equal. apply IH.
Qed.

Lemma convertRaw_rawContent activations rest :
  Forall (λ x, valid32 x = true) activations → length activations = 10 →
  convertRawOutputContentsTo10Floats (rawContent activations ++ rest) = (activations, None).
Proof.
  intros Hv Hl. unfold convertRawOutputContentsTo10Floats.
  pose proof (length_rawContent activations) as Hr. rewrite Hl in Hr.
  pose proof (readFloats_raw activations rest Hv) as Hread. rewrite Hl in Hread.
  destruct (rawContent activations ++ rest) as [|b bs] eqn:E.
  - apply (f_equal length) in E. rewrite length_app in E. simpl in E. lia.
  - rewrite bool_decide_false; [by rewrite Hread|]. rewrite <- E, length_app. lia.
Qed.

(** Ten activations that a server wrote as a tensor's raw bytes are read back, whatever
    bytes follow; with fewer than 40 bytes there is an error and the zeros. *)
Theorem raw_contents_roundtrip (activations : list spec_float) (rest : list byte) :
  Forall (λ x, valid32 x = true) activations →
  (length activations = 10 → ∃ raw, convertFloatArrayToRawContent activations = Ok raw ∧
     convertRawOutputContentsTo10Floats (raw ++ rest) = (activations, None)) ∧
  (length activations < 10 → ∃ raw e, convertFloatArrayToRawContent activations = Ok raw ∧
     convertRawOutputContentsTo10Floats raw = (replicate 10 (S754_zero false), Some e)).
Proof.
  intros Hv. split; intros Hl; exists (rawContent activations).
  - split; [done|]. by apply convertRaw_rawContent.
  - pose proof (length_rawContent activations) as Hr.
    unfold convertRawOutputContentsTo10Floats.
    destruct (rawContent activations) as [|b bs] eqn:E; eexists; (split; [exact (f_equal Ok E)|]);
      [done|]. rewrite bool_decide_true; [done|]. lia.
Qed.

Lemma raw_contents_roundtrip_witness :
  ∃ raw, convertFloatArrayToRawContent (replicate 9 (float32 1 10) ++ [S754_infinity true]) = Ok raw ∧
    convertRawOutputContentsTo10Floats (raw ++ [byte.of_Z 0]) =
      (replicate 9 (float32 1 10) ++ [S754_infinity true], None).
Proof.
  eapply (proj1 (raw_contents_roundtrip
    (replicate 9 (float32 1 10) ++ [S754_infinity true]) [byte.of_Z 0] _)); [done].
  Unshelve. repeat constructor.
Defined.

(** ** The activation that is chosen *)

Definition isNumber (x : spec_float) : Prop := valid32 x = true ∧ x ≠ S754_nan.

(** An integer that is ordered like the numbers *)
Definition rank (x : spec_float) : Z :=
  match x with
  | S754_zero _ | S754_nan => 0
  | S754_infinity s => cond_Zopp s (2 ^ 40)
  | S754_finite s m e => cond_Zopp s ((e + 149) * 2 ^ 24 + Zpos m)
  end%Z.

Lemma SFltb_rank x y : isNumber x → isNumber y → SFltb x y = (rank x <? rank y)%Z.
Proof.
  intros [Hx Nx] [Hy Ny]. apply eq_true_iff_eq. rewrite Z.ltb_lt.
  destruct x as [s|s| |s m e]; [..|apply valid32_finite in Hx as (? & ? & _)]; [| |done|];
  (destruct y as [s'|s'| |s' m' e']; [..|apply valid32_finite in Hy as (? & ? & _)]; [| |done|]);
  unfold SFltb, SFcompare, rank; destruct s, s'; simpl cond_Zopp;
  try (split; [try done; lia|try done; lia]).
  all: destruct (Z.compare_spec e e') as [->| |]; try (split; [try done; lia|try done; lia]).
  all: change (PosDef.Pos.compare_cont Eq m m') with (m ?= m')%positive;
    destruct (Pos.compare_spec m m') as [->| |]; split; try done; lia.
Qed.

Lemma argmaxFrom_spec rest : ∀ seen max maxI,
  seen !! maxI = Some max → Forall isNumber (seen ++ rest) →
  (∀ j x, seen !! j = Some x → (rank x ≤ rank max)%Z ∧ (j < maxI → (rank x < rank max)%Z)) →
  let i := argmaxFrom (length seen) max maxI rest in
  ∃ v, (seen ++ rest) !! i = Some v ∧
    ∀ j x, (seen ++ rest) !! j = Some x → (rank x ≤ rank v)%Z ∧ (j < i → (rank x < rank v)%Z).
Proof.
  induction rest as [|y rest IH]; intros seen max maxI Hmax Hnum Hseen; cbn zeta.
  { rewrite app_nil_r. eauto. }
  assert (isNumber max ∧ isNumber y) as [Hn Hy].
  { rewrite Forall_forall in Hnum. split; apply Hnum; rewrite elem_of_app;
      [left; by eapply list_elem_of_lookup_2|right; left]. }
  cbn [argmaxFrom]. rewrite SFltb_rank by done.
  rewrite cons_middle, (assoc_L (++)) in Hnum |- *.
  replace (S (length seen)) with (length (seen ++ [y])) by (rewrite length_app; simpl; lia).
  assert (∀ j x, (seen ++ [y]) !! j = Some x → seen !! j = Some x ∨ j = length seen ∧ x = y) as Hsplit.
  { intros j x [?|[? ?%list_lookup_singleton_Some]]%lookup_app_Some; [by left|].
    right. split; [lia|naive_solver]. }
  destruct (Z.ltb_spec (rank max) (rank y)) as [Hlt|Hge].
  - apply IH; [by apply list_lookup_middle|done|].
    intros j x [Hj|[-> ->]]%Hsplit; [|lia]. apply Hseen in Hj. lia.
  - apply IH; [by apply lookup_app_l_Some|done|].
    intros j x [Hj|[-> ->]]%Hsplit; [by apply Hseen|].
    apply lookup_lt_Some in Hmax. lia.
Qed.

(** The index of the first activation that no other exceeds *)
Definition firstMaximum (activations : list spec_float) (i : nat) : Prop :=
  ∃ v, activations !! i = Some v ∧
    ∀ j x, activations !! j = Some x → SFltb v x = false ∧ (j < i → SFltb x v = true).

(** The loop finds it. *)
Lemma argmax_spec (activations : list spec_float) :
  activations ≠ [] → Forall isNumber activations →
  ∃ i, argmax activations = Ret i ∧ firstMaximum activations i.
Proof.
  intros Hne Hnum. destruct activations as [|a rest]; [done|].
  destruct (argmaxFrom_spec rest [a] a 0) as (v & Hv & Hmax); [done|done| |].
  { intros j x [-> ->]%list_lookup_singleton_Some. lia. }
  eexists. split; [done|]. exists v. split; [exact Hv|]. intros j x Hj.
  rewrite Forall_forall in Hnum.
  assert (isNumber v ∧ isNumber x) as [Nv Nx]
    by (split; apply Hnum; by eapply list_elem_of_lookup_2).
  rewrite !SFltb_rank, Z.ltb_ge, Z.ltb_lt by done. by apply Hmax.
Qed.

Lemma firstMaximum_unique activations i j :
  firstMaximum activations i → firstMaximum activations j → i = j.
Proof.
  intros (v & Hv & Hi) (w & Hw & Hj).
  destruct (Hi _ _ Hw) as [H1 H2], (Hj _ _ Hv) as [H3 H4].
  destruct (Nat.lt_trichotomy i j) as [Hlt|[|Hlt]]; [|done|].
  - specialize (H4 Hlt). congruence.
  - specialize (H2 Hlt). congruence.
Qed.

(** ** The requests *)

(** The normalized pixels, from black to white *)
Definition pixels : list spec_float :=
  Eval vm_compute in (λ n, normalized (byte.of_Z (Z.of_nat n))) <$> seq 0 256.

Lemma pixels_lookup (v : byte) : pixels !! Z.to_nat (byte.unsigned v) = Some (normalized v).
Proof. by destruct v. Qed.

Lemma StronglySorted_lookup {A} (R : A → A → Prop) (l : list A) (i j : nat) x y :
  StronglySorted R l → l !! i = Some x → l !! j = Some y → i < j → R x y.
Proof.
  intros Hs. revert i j. induction Hs as [|a l Hl IH Ha]; intros [|i] [|j] Hi Hj Hlt;
    simplify_eq/=; [lia| |lia|by apply (IH i j); [..|lia]].
  rewrite Forall_lookup in Ha. by eapply Ha.
Qed.

Lemma pixels_ok :
  Forall isNumber pixels ∧ StronglySorted (λ x y, (rank x < rank y)%Z) pixels ∧
  Forall (λ x, SFleb (float32 (-1) 1) x = true ∧ SFleb x (float32 1 1) = true) pixels.
Proof.
  split_and!; [repeat constructor; done| |repeat constructor; vm_compute; done].
  apply Sorted_StronglySorted; [intros x y z; lia|]. repeat constructor; done.
Qed.

(** A pixel is normalized to a float32 between -1 and 1, and a brighter pixel to a
    greater number: no two pixels are confused by the rounding. *)
Theorem normalized_faithful (v w : byte) :
  valid32 (normalized v) = true ∧
  SFleb (float32 (-1) 1) (normalized v) = true ∧ SFleb (normalized v) (float32 1 1) = true ∧
  SFltb (normalized v) (normalized w) = (byte.unsigned v <? byte.unsigned w)%Z.
Proof.
  destruct pixels_ok as (Hnum & Hsort & Hrange).
  pose proof (pixels_lookup v) as Hv. pose proof (pixels_lookup w) as Hw.
  rewrite Forall_lookup in Hnum, Hrange.
  pose proof (Hnum _ _ Hv) as Nv. pose proof (Hnum _ _ Hw) as Nw.
  split; [apply Nv|]. destruct (Hrange _ _ Hv) as [H1 H2]. split_and!; [done..|].
  rewrite SFltb_rank by done. apply eq_true_iff_eq. rewrite !Z.ltb_lt.
  pose proof (byte.unsigned_range v). pose proof (byte.unsigned_range w).
  destruct (Z.lt_trichotomy (byte.unsigned v) (byte.unsigned w)) as [Hlt|[Heq|Hgt]].
  - pose proof (StronglySorted_lookup _ _ _ _ _ _ Hsort Hv Hw ltac:(lia)). simpl in *. lia.
  - rewrite Heq in Hv. simplify_eq. assert (normalized v = normalized w) as -> by congruence. lia.
  - pose proof (StronglySorted_lookup _ _ _ _ _ _ Hsort Hw Hv ltac:(lia)). simpl in *. lia.
Qed.

Lemma sklearnImage_length : length sklearnImage = 64.
Proof. done. Qed.
Lemma mushroomInputData_length : length mushroomInputData = 126.
Proof. done. Qed.
Lemma kerasImage_length : length kerasImage = 784.
Proof. done. Qed.
#[local] Opaque sklearnImage mushroomInputData kerasImage.

(** The tensors of a request have as many elements as their shapes say. *)
Definition wellShaped (r : ModelInferRequest) : Prop :=
  Forall (λ t, it_Datatype t = "FP32" ∧
               Z.of_nat (length (it_Fp32Contents t)) = foldr Z.mul 1%Z (it_Shape t)) (mi_Inputs r).

Lemma fp32Request_shaped name input shape data :
  Z.of_nat (length data) = foldr Z.mul 1%Z shape → wellShaped (fp32Request name input shape data).
Proof. by repeat constructor. Qed.

(** A test whose request is well shaped cannot tell servers apart that agree on those. *)
Lemma RunKfsInference_agree (infer infer' : conn → ModelInferRequest →
    result error (option ModelInferResponse)) fvt r :
  (∀ c r, wellShaped r → infer c r = infer' c r) → wellShaped r →
  RunKfsInference infer fvt r = RunKfsInference infer' fvt r.
Proof. intros H Hr. unfold RunKfsInference. case_match; [by apply H|done]. Qed.

Lemma exec_bind_agree {A B} (m : exec A) (f g : A → exec B) :
  (∀ a, m = Ret a → f a = g a) → m ≫= f = m ≫= g.
Proof. intros H. destruct m; [by apply H|done]. Qed.

Lemma LoadMnistImage_length Getwd Dir load index image :
  LoadMnistImage Getwd Dir load index = Ret image → length image = 784.
Proof.
  unfold LoadMnistImage. intros H. unfold mbind at 1 2 3, exec_bind in H.
  destruct (TestDataPath _ _ _); [|done]. destruct (noError _) as [images|]; [|done].
  destruct (deref _ ≫= _) as [img|]; [|done]. injection H as <-.
  by rewrite length_fmap, length_vec_to_list.
Qed.

Lemma LoadCifarImage_length Getwd Dir Open Decode10 index image :
  LoadCifarImage Getwd Dir Open Decode10 index = Ret image → length image = 3072.
Proof.
  unfold LoadCifarImage. intros H. unfold mbind at 1 2 3 4, exec_bind in H.
  destruct (TestDataPath _ _ _); [|done]. destruct (noError _); [|done].
  destruct (noError _) as [images|]; [|done]. destruct (deref _) as [bytes|]; [|done].
  case_bool_decide; [|done]. simplify_eq. rewrite length_app, length_fmap, length_replicate. lia.
Qed.

Section Tests.
Context (Getwd : result error string) (Dir : string → string).
Context (LoadImageFile : string → result error (list (option (vec byte (28 * 28))))).
Context (Open : string → result error string) (Decode10 : string → result error (list (list byte))).
Context (fvt : FVTClient).

(** The tests of the KServe protocol *)
Definition kserveTests (infer : conn → ModelInferRequest → result error (option ModelInferResponse))
  : list (string → exec ()) :=
  [ExpectSuccessfulInference_onnxMnist Getwd Dir LoadImageFile fvt infer;
   ExpectSuccessfulInference_pytorchCifar Getwd Dir Open Decode10 fvt infer;
   ExpectSuccessfulInference_sklearnMnistSvm fvt infer;
   ExpectSuccessfulInference_tensorflowMnist Getwd Dir LoadImageFile fvt infer;
   ExpectSuccessfulInference_kerasMnist fvt infer;
   ExpectSuccessfulInference_lightgbmMushroom fvt infer;
   ExpectSuccessfulInference_lightgbmFILMushroom fvt infer;
   ExpectSuccessfulInference_xgboostMushroom fvt infer;
   ExpectSuccessfulInference_xgboostFILMushroom fvt infer].

(** Whatever the image sets hold, each test sends requests only that a server can take:
    the elements of each tensor are as many as its shape says. So two servers that answer
    such requests alike give the same verdicts. *)
Theorem inference_requests_shaped
    (infer infer' : conn → ModelInferRequest → result error (option ModelInferResponse)) :
  (∀ c r, wellShaped r → infer c r = infer' c r) →
  Forall2 (λ test test', ∀ name, test name = test' name) (kserveTests infer) (kserveTests infer').
Proof.
  intros Hagree. repeat constructor; intros name.
  all: unfold ExpectSuccessfulInference_onnxMnist, ExpectSuccessfulInference_pytorchCifar,
    ExpectSuccessfulInference_sklearnMnistSvm, ExpectSuccessfulInference_tensorflowMnist,
    ExpectSuccessfulInference_kerasMnist, ExpectSuccessfulInference_lightgbmMushroom,
    ExpectSuccessfulInference_lightgbmFILMushroom, ExpectSuccessfulInference_xgboostMushroom,
    ExpectSuccessfulInference_xgboostFILMushroom.
  all: try (apply exec_bind_agree; intros image Hl;
    first [apply LoadMnistImage_length in Hl | apply LoadCifarImage_length in Hl]).
  all: erewrite (RunKfsInference_agree infer infer'); [reflexivity|exact Hagree|];
    apply fp32Request_shaped;
    rewrite ?Hl, ?sklearnImage_length, ?mushroomInputData_length, ?kerasImage_length; reflexivity.
Qed.
End Tests.

(** C40: The test of the Keras model decides what its comment says: given a server that answers
    with the raw bytes of ten numbers, it passes exactly when the first of the greatest
    activations is that of the digit 5. *)
Theorem keras_verdict (fvt : FVTClient) (c : conn)
    (infer : conn → ModelInferRequest → result error (option ModelInferResponse))
    (name : string) (resp : ModelInferResponse) (activations : list spec_float) (rest : list byte) :
  fc_grpcConn fvt = Some c →
  infer c (fp32Request name "conv2d_input" [1; 28; 28; 1]%Z kerasImage) = Ok (Some resp) →
  HasPrefix (mr_ModelName resp) name = true →
  mr_RawOutputContents resp !! 0 = Some (rawContent activations ++ rest) →
  length activations = 10 → Forall isNumber activations →
  ExpectSuccessfulInference_kerasMnist fvt infer name = Ret tt ↔ firstMaximum activations 5.
Proof.
  intros Hc Hinfer Hname Hraw Hl Hnum. unfold ExpectSuccessfulInference_kerasMnist, RunKfsInference.
  rewrite Hc, Hinfer. unfold answer, mbind, exec_bind. cbn [noError deref].
  rewrite Hname. cbn [Expect]. rewrite Hraw. cbn [deref].
  rewrite convertRaw_rawContent; [|by eapply Forall_impl; [exact Hnum|intros ? [? _]]|done].
  destruct (argmax_spec activations) as (i & -> & Hi); [by destruct activations|done|].
  unfold noErr, Expect. simpl. case_bool_decide as E; [by subst|].
  split; [done|]. intros H5. by destruct E, (firstMaximum_unique _ _ _ Hi H5).
Qed.

Definition exampleClient : FVTClient :=
  mkFVTClient "ns" "modelmesh-serving" "ns" 50001 None (Some 0) 8001 None (Some Insecure)
    (mkCertGenerator ["ns"] "modelmesh-serving" None None None).

Definition fives : list spec_float :=
  replicate 5 (float32 1 100) ++ [float32 9 10] ++ replicate 4 (S754_zero false).

Lemma keras_verdict_witness :
  ExpectSuccessfulInference_kerasMnist exampleClient
    (λ _ _, Ok (Some (mkModelInferResponse "keras-mnist__isvc" [] [rawContent fives]))) "keras-mnist"
    = Ret tt ↔ firstMaximum fives 5.
Proof.
  apply (keras_verdict _ 0 _ "keras-mnist"
    (mkModelInferResponse "keras-mnist__isvc" [] [rawContent fives]) fives []);
    [reflexivity|reflexivity|reflexivity|reflexivity|reflexivity|].
  repeat constructor; discriminate.
Defined.

(** The checks on concrete answers, a test that sends its body over REST included *)
Example keras_passes :
  ExpectSuccessfulInference_kerasMnist exampleClient
    (λ _ _, Ok (Some (mkModelInferResponse "keras-mnist" [] [rawContent fives]))) "keras-mnist" = Ret tt.
Proof. vm_compute. reflexivity. Qed.

Example close_to_zero :
  (closeToZero <$> [float64 4 100; float64 (-4) 100; float64 5 100; S754_nan])
  = [true; true; false; false].
Proof. vm_compute. reflexivity. Qed.

Example rest_body : Marshal (restBody [1; 2]%Z [16; 0]%Z) =
  "{" +:+ quote +:+ "inputs" +:+ quote +:+ ":[{" +:+ quote +:+ "data" +:+ quote +:+ ":[16,0]," +:+
  quote +:+ "datatype" +:+ quote +:+ ":" +:+ quote +:+ "FP32" +:+ quote +:+ "," +:+
  quote +:+ "name" +:+ quote +:+ ":" +:+ quote +:+ "predict" +:+ quote +:+ "," +:+
  quote +:+ "shape" +:+ quote +:+ ":[1,2]}]}".
Proof. vm_compute. reflexivity. Qed.
